(* ===== verification/_CoqProject ===== *)
-Q . S2P
Prelude.v
Types.v
Board.v
Zobrist.v
Attacks.v
Make.v
Movegen.v
MovegenFacts.v
MovegenSound.v
Game.v
Captures.v
Fen.v
FenRound.v
Decide.v
ClassicRules.v
Variants.v
PositionTheorems.v
EvalTables.v
EvalCommon.v
Flip.v
EvalSym.v
EvalFriendlyFire.v
EvalSaveQueen.v
EvalMercenary.v
EvalSuccession.v
EvalHeir.v
EvalTruce.v
EvalKingsBattle.v
Evaluate.v
EvalTheorems.v
SameGame.v
HeurCommon.v
HeurMercenary.v
HeurTruce.v
HeurHeir.v
HeurKingsBattle.v
HeurFriendlyFire.v
HeurSaveQueen.v
See.v
SearchState.v
SearchTables.v
SearchMonad.v
Ordering.v
Search.v
SearchSpec.v
AlphaSpec.v
RootSpec.v
SearchTheorems.v
BridgeCommon.v
BridgeKingDiscipline.v
BridgeKingsBattle.v
BridgeFriendlyFire.v
BridgeSuccession.v
BridgeSaveQueen.v
BridgeHeir.v
Bridge.v
BridgeCandidates.v
BridgeSpec.v
BridgeEntry.v
BridgeTheorems.v
