(* ===== verification/Prelude.v ===== *)
(** * Verification of the ChessRecast native engine

    ChessRecast plays chess and seven variants of it.  Its rules engine and
    computer player are written in C under [src/frontend/native/engine/]; this
    library models that code and proves what makes it correct.

    ** The program and its parts

    The engine is entered through [bridge.c].  [engine_find_move] and
    [engine_apply_move] read a FEN record ([board/board_fen.c]) into a [Board]
    ([board.h]), add the flags of the variant, hand the board to the search
    and let nine refinements ([bridge/*.c]) correct its move.  The search asks
    [generate_moves] and [generate_captures] ([movegen.c], [movegen/*.c]) for
    moves, makes and unmakes them ([board/board_make.c]), asks
    [board_in_check] ([board/board_attacks.c]) about kings, identifies
    positions by their Zobrist hash ([board/board_zobrist.c]), scores leaves
    with [evaluate] ([evaluate.c], [eval/*.c]) and orders moves by the
    heuristics of [search.c] and [search/*.c].  The board is the only state
    the parts share, with the key and attack tables filled once at start-up.

    ** Files

    - [Prelude]: machine-width integers, C arrays as lists, the automation.
    - [Types] ([types.h]), [Board] ([board.h], [board.c]), [Zobrist]
      ([board_zobrist.c]), [Attacks] ([board_attacks.c]), [Make]
      ([board_make.c]), [Movegen] ([movegen.c] and [movegen/*.c]), [Fen]
      ([board_fen.c], [engine_setup] of [bridge.c]): one definition per C
      function, a long function split at its comment headings, with the
      source's names.
    - [MovegenFacts], [MovegenSound], [Game], [Captures], [ClassicRules],
      [Variants], [FenRound]: specifications and lemmas about them.
    - [Decide]: boolean versions of the invariants, to show by evaluation that
      a concrete position satisfies them.
    - [PositionTheorems]: the claims about positions, moves, FEN and hashing.
    - [EvalTables], [EvalCommon] ([eval_common.c]), [EvalFriendlyFire],
      [EvalSaveQueen], [EvalMercenary], [EvalSuccession], [EvalHeir],
      [EvalTruce], [EvalKingsBattle] (one per file of [eval/]), [Evaluate]
      ([evaluate.c]): the evaluation.
    - [Flip], [EvalSym]: a board seen from the other side, and how the common
      evaluation behaves under that exchange.
    - [EvalTheorems]: the claims about the evaluation.
    - [HeurCommon], [HeurMercenary], [HeurTruce], [HeurHeir],
      [HeurKingsBattle], [HeurFriendlyFire] (one per file of [search/]) and
      [HeurSaveQueen] (the same kind of functions in [search.c]): bonuses and
      penalties for move ordering and pruning, each with its bounds.
    - [See]: exchange evaluation; [SearchState]: the static variables of
      [search.c] and the functions on them; [Ordering]: scoring and sorting of
      moves; [Search]: quiescence, alpha-beta and [search_think].
    - [SearchMonad]: the effects of the search and the rules to reason about
      them; [SameGame], [SearchTables], [SearchSpec], [AlphaSpec], [RootSpec]:
      the invariants and the proof that every routine of the search is total.
    - [SearchTheorems]: the claims about the search.
    - [BridgeCommon] ([bridge_common.c], [bridge_internal.h]),
      [BridgeKingDiscipline], [BridgeKingsBattle], [BridgeFriendlyFire],
      [BridgeSuccession], [BridgeSaveQueen], [BridgeHeir] (one per file of
      [bridge/]), [Bridge] ([bridge.c], [bridge.h]): the refinements of the
      search result and the entry points.
    - [BridgeCandidates]: the candidate arrays as a bounded stable sort;
      [BridgeSpec]: every refinement keeps the move of the search or replaces
      it by a legal one; [BridgeEntry]: the entry points end to end.
    - [BridgeTheorems]: the claims about the bridge.

    ** Modelling conventions

    A C integer is a [Z]; unsigned arithmetic, shifts, complements and the
    casts to [int8_t] squares are written with their wrap-around ([u64], [u32],
    [u8], [i8]).  A bitboard is a 64-bit [Z].  [Board] and its undo entry are
    records with every field of the structs.  Functions that change a board
    through a pointer take it and return the new one; functions that may step
    out of a buffer return [option].  A [while (bb) bb_pop_lsb] loop is a fold
    over [bb_squares], and [bitboard_loop] says that the loop of the source,
    run with a fuel of 64 steps (a bitboard has 64 bits), visits exactly that
    list.  [bb_lsb 0] is undefined in C and 64 in the model.  Reading a FEN
    record gives [None] where the C program is undefined: past the end of the
    text, an [int] counter that overflows, an en-passant square that has no key.

    ** What the theorems show

    - Rules: in the classic game the generator lists exactly the legal moves of
      chess ([classic_generation]); legality is freedom from check
      ([legality]); captures are the captures of the full list
      ([captures_are_the_captures]); the variants' special rules
      ([truce_rules], [truce_ends], [kings_battle_phase1],
      [friendly_fire_captures], [prisoner_back_in_prison]).
    - State: making a move implements its mailbox-level meaning
      ([make_refines]), unmaking a line restores the board
      ([line_taken_back]), reachable positions keep the representation
      invariant ([reachable_from_start]), the attack query is exact
      ([attack_query]).
    - Encodings: moves ([move_fields]), bitboard loops ([bitboard_loop]),
      sliding attacks ([sliding_attacks]), FEN both ways ([fen_round_trip],
      [fen_any_string]), hash keys ([zobrist_separates]).
    - Evaluation: colour symmetry ([evaluation_symmetric]) and where it fails
      ([succession_skew], [truce_skew]), passed pawns
      ([passed_pawn_meaning]), pawn attack sets ([pawn_attack_set]).
    - Search: the whole search is total, restores the board, scores every
      legal move and returns the best score with a move close enough to it
      ([think_correct], [alpha_beta_returns]); exchange
      evaluation against an exchange defined from the attack rules
      ([exchange_sign], [attacker_set]), move ordering
      ([ordering_is_stable_sort], [ordering_by_kind]), tables
      ([history_stays_bounded], [table_after_store], [table_allocation]), choice
      of the move ([choice_by_skill]).
    - Bridge: the search with its refinements, nested searches included, is
      total and returns a legal move ([engine_correct]); what
      [engine_apply_move] writes is the position after the move it reports
      ([apply_move_record]); the candidate arrays ([candidate_arrays]).
    - Behaviour that differs from the intent, as theorems: [root_hash_stale],
      [hash_ignores_frozen], [truce_skew], [succession_skew],
      [no_time_no_move], [opening_sortie_never].

    ** The search

    [search.c] works on one board through a pointer and on static variables;
    [World] is the pair of both, and a computation [M A] maps a world to a
    result and a new world, or to [None].  [None] stands for a recursion deeper
    than its fuel and for a subscript outside one of these arrays of [search.c]:
    the transposition table, [s_killers], [s_history], [s_countermoves],
    [MVV_LVA], [LMP_LIMIT], [s_eval_stack], the root moves and scores and
    [SKILL_MARGIN]; their accesses are guarded by [inside], [bounds_check] or
    [array_get], and [tables_ok] keeps their dimensions.  The gain array of
    exchange evaluation is covered by [exchange_sign], the undo stack by
    [ready]; other tables (piece-square tables and the like) are read through
    total functions and are not checked.
    The machine's clock is the class [Clock]: an arbitrary function from the
    number of the reading to a time, so the theorems hold whenever the search
    is interrupted.  The transposition table is a finite map from slots, an
    absent slot standing for the zeroed entry.

    Fuel: quiescence stops at the eighth ply, [Q_FUEL] is 9.  A child of
    [alpha_beta] is one ply further and at most one deeper and internal
    deepening goes two shallower, so twice the plies left plus the depth
    decreases ([ab_fuel]); the root asks for depth 64 at ply 1, 190 in all, and
    [AB_FUEL] is 200.  The aspiration window doubles at most four times before
    a failure opens a side, [ASP_FUEL] is 7.  The undo stack holds 512 moves;
    the search needs 72 ([room]).

    The theorems leave out Heir: there a captured king leaves castling rights
    behind and a generated castling move need not fit the board (the example
    [heir_castles_without_king]), so taking it back does not restore the
    position.

    ** The bridge

    A refinement takes the board and the result of the search and returns the
    result or one with another move, in the monad of the search, whose statics
    the verifying searches share; each of them runs on a copy of the board
    ([on_copy]).  [bridge_verify_nesting] is 0 in a call from outside and 1
    inside a verification, where a candidate is verified by a plain search, so
    the recursion of [kb_verify_child_score] and
    [bridge_engine_search_best_move] is one level deep: the class [Verifier]
    gives a level its counter and the engine one level further down, and two
    instances tie the knot, without fuel.  Below the second level the engine
    is [crash], and the theorems show that it is never entered.  A refinement
    makes one move more than the search on each level, so the undo stack needs
    74 free entries.

    The hand-written position tests of [bridge/*.c] are lists of [Rule]s in the
    order of the source, tried by [first_rule]; the ones of another form are
    definitions of their own.  The time limits passed in are unbounded here, so
    products such as [time_ms * 5] do not overflow.

    ** Not modelled

    Logging, with the sort of the root moves that only feeds it; two variables
    that are written and never read ([ff_prep_score], [s_root_refine_guard]);
    [heir_developed_minor_count] of [eval_heir.c], which nothing calls;
    [replay_version.c], which holds a version number; the Dart front end, the
    network server, the bots and the build files, which hold no C logic of the
    engine. *)

From stdpp Require Import base numbers list option.
From Stdlib Require Import ZArith Lia Bool.

#[global] Open Scope Z_scope.

(** ** Machine-width integers *)

Definition u8 (z : Z) : Z := z mod 256.
Definition u32 (z : Z) : Z := z mod 2 ^ 32.
Definition u64 (z : Z) : Z := z mod 2 ^ 64.
Definition i8 (z : Z) : Z := (z + 128) mod 256 - 128.

Lemma i8_small (z : Z) : -128 <= z < 128 -> i8 z = z.
Proof. unfold i8. intros. rewrite Z.mod_small; lia. Qed.

(** ** C arrays as lists

    [znth a i] reads [a[i]] and [zset a i x] writes it.  An index outside the
    array is undefined behaviour in C; here such a read gives the element
    type's default and such a write is dropped.  The theorems of the
    development carry or establish the bounds that rule it out. *)

Definition znth {A} `{Inhabited A} (l : list A) (i : Z) : A :=
  if i <? 0 then inhabitant else l !!! Z.to_nat i.

Definition zset {A} (l : list A) (i : Z) (x : A) : list A :=
  if i <? 0 then l else <[Z.to_nat i := x]> l.

Declare Scope array_scope.
Delimit Scope array_scope with arr.
Notation "l .[ i ]" := (znth l i)
  (at level 1, left associativity, format "l .[ i ]") : array_scope.
Notation "l .[ i <- x ]" := (zset l i x)
  (at level 1, left associativity, format "l .[ i  <-  x ]") : array_scope.
#[global] Open Scope array_scope.

Create Rewrite HintDb arr.

Section Arrays.
Context {A : Type} {IA : Inhabited A}.
Implicit Types (l : list A) (i j : Z) (x y : A).

Definition in_range l i : Prop := 0 <= i < Z.of_nat (length l).

Lemma length_zset l i x : length (l.[i <- x]) = length l.
Proof. unfold zset. destruct (i <? 0); [done|]. apply length_insert. Qed.

Lemma znth_zset_eq l i x : in_range l i -> (l.[i <- x]).[i] = x.
Proof.
  unfold in_range, znth, zset. intros. destruct (Z.ltb_spec i 0); [lia|].
  apply list_lookup_total_insert_eq. lia.
Qed.

Lemma znth_zset_ne l i j x : i <> j -> (l.[i <- x]).[j] = l.[j].
Proof.
  unfold znth, zset. intros. destruct (Z.ltb_spec i 0), (Z.ltb_spec j 0); try done.
  apply list_lookup_total_insert_ne. lia.
Qed.

Lemma znth_zset l i j x :
  in_range l i -> (l.[i <- x]).[j] = if j =? i then x else l.[j].
Proof.
  intros. destruct (Z.eqb_spec j i) as [->|].
  - by apply znth_zset_eq.
  - by apply znth_zset_ne.
Qed.

Lemma zset_zset_eq l i x y : (l.[i <- x]).[i <- y] = l.[i <- y].
Proof. unfold zset. destruct (i <? 0); [done|]. apply list_insert_insert_eq. Qed.

Lemma zset_comm l i j x y :
  i <> j -> (l.[i <- x]).[j <- y] = (l.[j <- y]).[i <- x].
Proof.
  unfold zset. intros. destruct (Z.ltb_spec i 0), (Z.ltb_spec j 0); try done.
  apply list_insert_insert_ne. lia.
Qed.

Lemma znth_lookup l i : in_range l i -> l !! Z.to_nat i = Some (l.[i]).
Proof.
  unfold in_range, znth. intros. destruct (Z.ltb_spec i 0); [lia|].
  apply list_lookup_lookup_total_lt. lia.
Qed.

Lemma zset_same l i x : in_range l i -> l.[i] = x -> l.[i <- x] = l.
Proof.
  intros Hi <-. unfold zset. destruct (Z.ltb_spec i 0); [done|].
  apply list_insert_id. by apply znth_lookup.
Qed.

Lemma array_ext l1 l2 :
  length l1 = length l2 ->
  (forall i, 0 <= i < Z.of_nat (length l1) -> l1.[i] = l2.[i]) -> l1 = l2.
Proof.
  intros Hlen H. apply list_eq_same_length with (length l1); [done|done|].
  intros k x y Hk Hx Hy. specialize (H (Z.of_nat k) ltac:(lia)).
  unfold znth in H. destruct (Z.ltb_spec (Z.of_nat k) 0); [lia|].
  rewrite Nat2Z.id in H.
  by rewrite (list_lookup_total_correct _ _ _ Hx),
    (list_lookup_total_correct _ _ _ Hy) in H.
Qed.

Lemma in_range_zset l i j x : in_range (l.[i <- x]) j <-> in_range l j.
Proof. unfold in_range. by rewrite length_zset. Qed.
End Arrays.

#[export] Hint Rewrite @length_zset @in_range_zset : arr.

(** ** Bounded quantification by computation *)

Lemma forall_range (f : Z -> bool) (n : Z) :
  forallb f (seqZ 0 n) = true -> forall i, 0 <= i < n -> f i = true.
Proof.
  rewrite forallb_forall. intros H i Hi. apply H. apply list_elem_of_In.
  apply elem_of_seqZ. lia.
Qed.

Lemma forall_range2 (f : Z -> Z -> bool) (n m : Z) :
  forallb (fun i => forallb (f i) (seqZ 0 m)) (seqZ 0 n) = true ->
  forall i j, 0 <= i < n -> 0 <= j < m -> f i j = true.
Proof.
  intros H i j Hi Hj. eapply forall_range in H; [|exact Hi].
  by eapply forall_range in H.
Qed.

(** ** Bits *)

Lemma bits_ext (x y : Z) :
  (forall n, 0 <= n -> Z.testbit x n = Z.testbit y n) -> x = y.
Proof. apply Z.bits_inj'. Qed.

Lemma testbit_u64 (x n : Z) :
  Z.testbit (u64 x) n = (0 <=? n) && (n <? 64) && Z.testbit x n.
Proof.
  unfold u64. destruct (Z.leb_spec 0 n); simpl.
  - destruct (Z.ltb_spec n 64); simpl.
    + apply Z.mod_pow2_bits_low; lia.
    + apply Z.mod_pow2_bits_high; lia.
  - apply Z.testbit_neg_r; lia.
Qed.

Lemma testbit_one_shift (k n : Z) :
  0 <= k -> 0 <= n -> Z.testbit (Z.shiftl 1 k) n = (n =? k).
Proof.
  intros. rewrite Z.shiftl_spec by done. destruct (Z.eqb_spec n k) as [->|Hne].
  - by rewrite Z.sub_diag.
  - destruct (Z.ltb_spec (n - k) 0).
    + by apply Z.testbit_neg_r.
    + rewrite Z.bits_above_log2; [done|lia|]. simpl. lia.
Qed.

(** A number whose bits at and above [k] are all clear is below [2 ^ k]. *)
Lemma bits_bounded (x k : Z) :
  0 <= k -> (forall n, k <= n -> Z.testbit x n = false) -> 0 <= x < 2 ^ k.
Proof.
  intros Hk H. assert (x = x mod 2 ^ k) as ->.
  { apply bits_ext. intros n Hn. destruct (Z.ltb_spec n k).
    - by rewrite Z.mod_pow2_bits_low.
    - rewrite Z.mod_pow2_bits_high by lia. by apply H. }
  apply Z.mod_pos_bound. lia.
Qed.

Lemma testbit_above_64 (x n : Z) : 0 <= x < 2 ^ 64 -> 64 <= n -> Z.testbit x n = false.
Proof.
  intros [H0 H1] Hn. destruct (Z.eqb_spec x 0) as [->|]; [apply Z.testbit_0_l|].
  apply Z.bits_above_log2; [done|].
  assert (Z.log2 x < 64) by (apply Z.log2_lt_pow2; lia). lia.
Qed.

Lemma nonzero_has_bit (x : Z) : 0 <= x -> x <> 0 -> exists n, 0 <= n /\ Z.testbit x n = true.
Proof.
  intros. exists (Z.log2 x). split; [apply Z.log2_nonneg|]. apply Z.bit_log2. lia.
Qed.

(** ** Tactics *)

(** Case split on every boolean comparison in sight, then linear arithmetic. *)
Ltac zb :=
  repeat match goal with
  | |- context [?a <? ?b] => destruct (Z.ltb_spec a b)
  | |- context [?a <=? ?b] => destruct (Z.leb_spec a b)
  | |- context [?a =? ?b] => destruct (Z.eqb_spec a b)
  | H : context [?a <? ?b] |- _ => destruct (Z.ltb_spec a b)
  | H : context [?a <=? ?b] |- _ => destruct (Z.leb_spec a b)
  | H : context [?a =? ?b] |- _ => destruct (Z.eqb_spec a b)
  end; simpl in *; try done; try lia.
