(* ===== verification/Types.v ===== *)
(** * Basic types of the engine ([types.h])

    Colours, piece types, squares, 64-bit bitboards, the 32-bit packed move and
    the bounded move list.  Enumerations are inductive types with the source's
    constructors; [..._to_Z] is the number the C enumerator has, and
    [..._of_Z] the C cast back, where a number that names no enumerator
    (piece-type bits 7, colour bits above 1) goes to the [NONE] constructor. *)

From stdpp Require Import base numbers list option.
From Stdlib Require Import ZArith Lia Bool.
From S2P Require Import Prelude.

(** ** Colours and piece types *)

Inductive Color := WHITE | BLACK | COLOR_NONE.
Inductive PieceType := PAWN | KNIGHT | BISHOP | ROOK | QUEEN | KING | PIECE_NONE.

Inductive GameMod :=
  | MOD_CLASSIC | MOD_MERCENARY | MOD_HEIR | MOD_TRUCE
  | MOD_FRIENDLY_FIRE | MOD_KINGS_BATTLE | MOD_SAVE_QUEEN | MOD_SUCCESSION.

#[export] Instance Color_eq_dec : EqDecision Color.
Proof. solve_decision. Defined.
#[export] Instance PieceType_eq_dec : EqDecision PieceType.
Proof. solve_decision. Defined.
#[export] Instance GameMod_eq_dec : EqDecision GameMod.
Proof. solve_decision. Defined.

(** Boolean equality on the enumerations, for the code's [==]. *)
Notation "a == b" := (bool_decide (a = b)) (at level 70, no associativity).
Notation "a != b" := (negb (bool_decide (a = b))) (at level 70, no associativity).

Definition Color_to_Z (c : Color) : Z :=
  match c with WHITE => 0 | BLACK => 1 | COLOR_NONE => 2 end.

Definition Color_of_Z (z : Z) : Color :=
  match z with 0 => WHITE | 1 => BLACK | _ => COLOR_NONE end.

Definition PieceType_to_Z (t : PieceType) : Z :=
  match t with
  | PAWN => 0 | KNIGHT => 1 | BISHOP => 2 | ROOK => 3
  | QUEEN => 4 | KING => 5 | PIECE_NONE => 6
  end.

Definition PieceType_of_Z (z : Z) : PieceType :=
  match z with
  | 0 => PAWN | 1 => KNIGHT | 2 => BISHOP | 3 => ROOK
  | 4 => QUEEN | 5 => KING | _ => PIECE_NONE
  end.

(** [c ^ 1]; on [COLOR_NONE] the C expression names no enumerator and no
    caller passes it. *)
Definition color_opposite (c : Color) : Color :=
  match c with WHITE => BLACK | BLACK => WHITE | COLOR_NONE => COLOR_NONE end.

(** The loops [for (c = 0; c < 2; c++)] and [for (t = 0; t < 6; t++)]. *)
Definition colors : list Color := [WHITE; BLACK].
Definition piece_types : list PieceType := [PAWN; KNIGHT; BISHOP; ROOK; QUEEN; KING].

(** ** Pieces: colour and type packed in one byte *)

Abbreviation Piece := Z (only parsing).

Definition PIECE_MAKE (c : Color) (t : PieceType) : Piece :=
  u8 (Z.lor (Z.shiftl (Color_to_Z c) 3) (PieceType_to_Z t)).
Definition PIECE_COLOR (p : Piece) : Color := Color_of_Z (Z.shiftr p 3).
Definition PIECE_TYPE (p : Piece) : PieceType := PieceType_of_Z (Z.land p 7).
Definition PIECE_EMPTY : Piece := Eval vm_compute in PIECE_MAKE COLOR_NONE PIECE_NONE.

(** ** Squares (0..63, a1 = 0, h8 = 63), an [int8_t] *)

Abbreviation Square := Z (only parsing).

Definition SQ_NONE : Square := -1.
Definition SQ (row col : Z) : Square := i8 (row * 8 + col).
Definition SQ_ROW (sq : Square) : Z := Z.shiftr sq 3.
Definition SQ_COL (sq : Square) : Z := Z.land sq 7.
Definition SQ_VALID (sq : Square) : bool := (0 <=? sq) && (sq <? 64).

(** ** Bitboards: [uint64_t] *)

Abbreviation Bitboard := Z (only parsing).

Definition BB_EMPTY : Bitboard := 0.
Definition BB_FULL : Bitboard := 0xFFFFFFFFFFFFFFFF.
Definition BB_SQ (sq : Square) : Bitboard := u64 (Z.shiftl 1 sq).
(** [~bb] on 64 bits. *)
Definition bb_not (bb : Bitboard) : Bitboard := Z.lxor BB_FULL bb.
Definition BB_SET (bb : Bitboard) (sq : Square) : Bitboard := Z.lor bb (BB_SQ sq).
Definition BB_CLR (bb : Bitboard) (sq : Square) : Bitboard := Z.land bb (bb_not (BB_SQ sq)).
Definition BB_HAS (bb : Bitboard) (sq : Square) : bool :=
  negb (Z.land (Z.shiftr bb sq) 1 =? 0).
(** [bb] as a C condition. *)
Definition bb_nonzero (bb : Bitboard) : bool := negb (bb =? 0).

(** The portable loop [while (bb) { count++; bb &= bb - 1; }]; 64 rounds empty
    any 64-bit word. *)
Fixpoint bb_popcount_loop (fuel : nat) (bb count : Z) : Z :=
  match fuel with
  | O => count
  | S f => if bb =? 0 then count
           else bb_popcount_loop f (Z.land bb (u64 (bb - 1))) (count + 1)
  end.
Definition bb_popcount (bb : Bitboard) : Z := bb_popcount_loop 64 bb 0.

(** The portable loop [while (!((bb >> i) & 1)) i++].  On [bb = 0] the C loop
    does not end (and [__builtin_ctzll] is undefined); the model answers 64. *)
Fixpoint bb_lsb_loop (fuel : nat) (bb i : Z) : Z :=
  match fuel with
  | O => i
  | S f => if BB_HAS bb i then i else bb_lsb_loop f bb (i + 1)
  end.
Definition bb_lsb (bb : Bitboard) : Square := bb_lsb_loop 64 bb 0.

(** [bb_pop_lsb] returns the square and leaves the word without it. *)
Definition bb_pop_lsb (bb : Bitboard) : Square * Bitboard :=
  (bb_lsb bb, Z.land bb (u64 (bb - 1))).

(** The squares a loop [while (bb) { sq = bb_pop_lsb(&bb); ... }] visits, in
    order. *)
Fixpoint bb_squares_loop (fuel : nat) (bb : Bitboard) : list Square :=
  match fuel with
  | O => []
  | S f => if bb =? 0 then []
           else let '(sq, rest) := bb_pop_lsb bb in sq :: bb_squares_loop f rest
  end.
Definition bb_squares (bb : Bitboard) : list Square := bb_squares_loop 64 bb.

(** ** Moves: a [uint32_t] *)

Abbreviation Move := Z (only parsing).

Definition MOVE_NONE : Move := 0.
Definition MOVE_FROM (m : Move) : Square := Z.land m 0x3F.
Definition MOVE_TO (m : Move) : Square := Z.land (Z.shiftr m 6) 0x3F.
Definition MOVE_PIECE (m : Move) : PieceType := PieceType_of_Z (Z.land (Z.shiftr m 12) 7).
Definition MOVE_CAPTURED (m : Move) : PieceType := PieceType_of_Z (Z.land (Z.shiftr m 15) 7).
Definition MOVE_IS_CASTLE (m : Move) : bool := negb (Z.land (Z.shiftr m 18) 1 =? 0).
Definition MOVE_IS_EP (m : Move) : bool := negb (Z.land (Z.shiftr m 19) 1 =? 0).
Definition MOVE_IS_PROMO (m : Move) : bool := negb (Z.land (Z.shiftr m 20) 1 =? 0).
Definition MOVE_PROMO_TYPE (m : Move) : PieceType := PieceType_of_Z (Z.land (Z.shiftr m 21) 7).
Definition MOVE_IS_CAPTURE (m : Move) : bool := MOVE_CAPTURED m != PIECE_NONE.

Definition move_encode (from to : Square) (piece captured : PieceType)
    (castle ep promo : bool) (promoType : PieceType) : Move :=
  u32 (Z.lor (Z.lor (Z.lor (Z.lor (Z.lor (Z.lor (Z.lor
    (u32 from)
    (Z.shiftl (u32 to) 6))
    (Z.shiftl (PieceType_to_Z piece) 12))
    (Z.shiftl (PieceType_to_Z captured) 15))
    (Z.shiftl (Z.b2z castle) 18))
    (Z.shiftl (Z.b2z ep) 19))
    (Z.shiftl (Z.b2z promo) 20))
    (Z.shiftl (PieceType_to_Z promoType) 21)).

Definition move_simple (from to : Square) (piece : PieceType) : Move :=
  move_encode from to piece PIECE_NONE false false false PIECE_NONE.

Definition move_capture (from to : Square) (piece captured : PieceType) : Move :=
  move_encode from to piece captured false false false PIECE_NONE.

(** ** Move list: the first [count] entries of a 256-entry array *)

Definition MAX_MOVES : Z := 256.
Abbreviation MoveList := (list Z) (only parsing).

Definition movelist_clear (ml : MoveList) : MoveList := [].
Definition movelist_add (ml : MoveList) (m : Move) : MoveList :=
  if Z.of_nat (length ml) <? MAX_MOVES then ml ++ [m] else ml.

(** ** Castling rights (4 bits) *)

Definition CASTLE_WK : Z := 1.
Definition CASTLE_WQ : Z := 2.
Definition CASTLE_BK : Z := 4.
Definition CASTLE_BQ : Z := 8.

(** ** Save the Queen helpers *)

Definition STQ_WHITE_PRISON : Square := SQ 7 3.
Definition STQ_BLACK_PRISON : Square := SQ 0 3.

Definition stq_is_own_half (sq : Square) (c : Color) : bool :=
  if c == WHITE then SQ_ROW sq <=? 3 else 4 <=? SQ_ROW sq.

Definition stq_on_prison (sq : Square) (c : Color) : bool :=
  if c == WHITE then sq =? STQ_WHITE_PRISON else sq =? STQ_BLACK_PRISON.
(** ** Lemmas: enumerations and squares *)

Definition real_color (c : Color) : Prop := c <> COLOR_NONE.
Definition real_type (t : PieceType) : Prop := t <> PIECE_NONE.

(** Close a goal whose context has a colour or type that is not a real one. *)
Ltac real := solve [done | unfold real_color, real_type in *; congruence].

Lemma color_opposite_involutive (c : Color) : color_opposite (color_opposite c) = c.
Proof. by destruct c. Qed.

Lemma color_opposite_xor (c : Color) :
  real_color c -> Color_to_Z (color_opposite c) = Z.lxor (Color_to_Z c) 1.
Proof. by destruct c. Qed.

Lemma PIECE_COLOR_MAKE (c : Color) (t : PieceType) : PIECE_COLOR (PIECE_MAKE c t) = c.
Proof. by destruct c, t. Qed.

Lemma PIECE_TYPE_MAKE (c : Color) (t : PieceType) : PIECE_TYPE (PIECE_MAKE c t) = t.
Proof. by destruct c, t. Qed.

Lemma PIECE_MAKE_inj (c c' : Color) (t t' : PieceType) :
  PIECE_MAKE c t = PIECE_MAKE c' t' -> c = c' /\ t = t'.
Proof.
  intros H. split.
  - by rewrite <- (PIECE_COLOR_MAKE c t), H, PIECE_COLOR_MAKE.
  - by rewrite <- (PIECE_TYPE_MAKE c t), H, PIECE_TYPE_MAKE.
Qed.

Lemma PIECE_MAKE_not_empty (c : Color) (t : PieceType) :
  real_color c -> PIECE_MAKE c t <> PIECE_EMPTY.
Proof. by destruct c, t. Qed.

Lemma PieceType_of_to (t : PieceType) : PieceType_of_Z (PieceType_to_Z t) = t.
Proof. by destruct t. Qed.

Lemma PieceType_to_Z_bound (t : PieceType) : 0 <= PieceType_to_Z t < 8.
Proof. destruct t; simpl; lia. Qed.

Definition on_board (sq : Square) : Prop := 0 <= sq < 64.

(** Arithmetic on squares and array bounds. *)
Ltac sq_lia := unfold on_board, in_range in *; change (Z.of_nat 64) with 64 in *; lia.

Lemma SQ_VALID_spec (sq : Square) : SQ_VALID sq = true <-> on_board sq.
Proof. unfold SQ_VALID, on_board. rewrite andb_true_iff, Z.leb_le, Z.ltb_lt. done. Qed.

Lemma SQ_ROW_div (sq : Square) : SQ_ROW sq = sq / 8.
Proof. unfold SQ_ROW. by rewrite Z.shiftr_div_pow2 by lia. Qed.

Lemma SQ_COL_mod (sq : Square) : SQ_COL sq = sq mod 8.
Proof. unfold SQ_COL. change 7 with (Z.ones 3). by rewrite Z.land_ones by lia. Qed.

Lemma SQ_small (row col : Z) : -8 <= row < 15 -> -8 <= col <= 8 -> SQ row col = row * 8 + col.
Proof. intros. unfold SQ. apply i8_small. lia. Qed.

Lemma SQ_ROW_COL (sq : Square) : sq = SQ_ROW sq * 8 + SQ_COL sq.
Proof. rewrite SQ_ROW_div, SQ_COL_mod. pose proof (Z.div_mod sq 8). lia. Qed.

Lemma SQ_COL_bound (sq : Square) : 0 <= SQ_COL sq < 8.
Proof. rewrite SQ_COL_mod. apply Z.mod_pos_bound. lia. Qed.

Lemma SQ_ROW_bound (sq : Square) : on_board sq -> 0 <= SQ_ROW sq < 8.
Proof. unfold on_board. rewrite SQ_ROW_div. intros. split; [apply Z.div_pos|apply Z.div_lt_upper_bound]; lia. Qed.

Lemma SQ_ROW_SQ (row col : Z) : -8 <= row < 15 -> 0 <= col < 8 -> SQ_ROW (SQ row col) = row.
Proof. intros. rewrite SQ_ROW_div, SQ_small by lia. Z.div_mod_to_equations. lia. Qed.

Lemma SQ_COL_SQ (row col : Z) : -8 <= row < 15 -> 0 <= col < 8 -> SQ_COL (SQ row col) = col.
Proof. intros. rewrite SQ_COL_mod, SQ_small by lia. Z.div_mod_to_equations. lia. Qed.

Lemma SQ_on_board (row col : Z) : 0 <= row < 8 -> 0 <= col < 8 -> on_board (SQ row col).
Proof. intros. unfold on_board. rewrite SQ_small; lia. Qed.

(** ** Lemmas: bitboards, bit by bit *)

Create Rewrite HintDb bb.

Lemma BB_HAS_testbit (bb sq : Z) : 0 <= sq -> BB_HAS bb sq = Z.testbit bb sq.
Proof.
  intros. unfold BB_HAS. change 1 with (Z.ones 1). rewrite Z.land_ones by lia.
  change (2 ^ 1) with 2. rewrite <- Z.bit0_mod, Z.shiftr_spec by lia.
  rewrite Z.add_0_l. by destruct (Z.testbit bb sq).
Qed.

Lemma BB_SQ_testbit (sq n : Z) : on_board sq -> 0 <= n -> Z.testbit (BB_SQ sq) n = (n =? sq).
Proof.
  unfold on_board, BB_SQ. intros. rewrite testbit_u64, testbit_one_shift by lia. zb.
Qed.

Lemma BB_FULL_testbit (n : Z) : 0 <= n -> Z.testbit BB_FULL n = (n <? 64).
Proof.
  intros. change BB_FULL with (Z.ones 64). rewrite Z.testbit_ones_nonneg; lia.
Qed.

Lemma bb_not_testbit (bb n : Z) : 0 <= n < 64 -> Z.testbit (bb_not bb) n = negb (Z.testbit bb n).
Proof.
  intros. unfold bb_not. rewrite Z.lxor_spec, BB_FULL_testbit by lia.
  replace (n <? 64) with true by lia. by destruct (Z.testbit bb n).
Qed.

Lemma BB_SET_testbit (bb sq n : Z) :
  on_board sq -> 0 <= n -> Z.testbit (BB_SET bb sq) n = Z.testbit bb n || (n =? sq).
Proof. intros. unfold BB_SET. rewrite Z.lor_spec, BB_SQ_testbit; done. Qed.

Lemma bb_not_testbit_high (bb n : Z) : 0 <= bb < 2 ^ 64 -> 64 <= n -> Z.testbit (bb_not bb) n = false.
Proof.
  intros. unfold bb_not. rewrite Z.lxor_spec, BB_FULL_testbit, testbit_above_64 by lia.
  by replace (n <? 64) with false by lia.
Qed.

Lemma BB_SQ_bound (sq : Z) : 0 <= BB_SQ sq < 2 ^ 64.
Proof. unfold BB_SQ, u64. apply Z.mod_pos_bound. lia. Qed.

Lemma BB_CLR_testbit (bb sq n : Z) :
  0 <= bb < 2 ^ 64 -> on_board sq -> 0 <= n ->
  Z.testbit (BB_CLR bb sq) n = Z.testbit bb n && negb (n =? sq).
Proof.
  intros. unfold BB_CLR. rewrite Z.land_spec. destruct (Z.ltb_spec n 64).
  - by rewrite bb_not_testbit, BB_SQ_testbit by sq_lia.
  - by rewrite (testbit_above_64 bb) by lia.
Qed.

(** [bb_where P l] is the word whose bit [i] says whether [P] holds of the
    [i]-th entry of [l]: the bitboard a mailbox denotes. *)
Fixpoint bb_where (P : Piece -> bool) (l : list Piece) : Bitboard :=
  match l with
  | [] => 0
  | p :: l' => 2 * bb_where P l' + Z.b2z (P p)
  end.

Lemma bb_where_nat (P : Piece -> bool) (l : list Piece) (k : nat) :
  Z.testbit (bb_where P l) (Z.of_nat k) = from_option P false (l !! k).
Proof.
  revert k. induction l as [|p l IH]; intros k; [apply Z.testbit_0_l|].
  destruct k as [|k]; cbn [bb_where].
  - by rewrite Z.testbit_0_r.
  - rewrite Nat2Z.inj_succ, Z.testbit_succ_r by lia. apply IH.
Qed.

Lemma bb_where_testbit (P : Piece -> bool) (l : list Piece) (n : Z) :
  0 <= n -> Z.testbit (bb_where P l) n = (n <? Z.of_nat (length l)) && P (l.[n]).
Proof.
  intros Hn. rewrite <- (Z2Nat.id n) at 1 by done. rewrite bb_where_nat.
  destruct (Z.ltb_spec n (Z.of_nat (length l))) as [H|H]; simpl.
  - by rewrite (znth_lookup l n).
  - rewrite lookup_ge_None_2; [done|lia].
Qed.

Lemma bb_where_bound (P : Piece -> bool) (l : list Piece) :
  (length l <= 64)%nat -> 0 <= bb_where P l < 2 ^ 64.
Proof.
  intros. apply bits_bounded; [lia|]. intros n Hn. rewrite bb_where_testbit by lia.
  by replace (n <? Z.of_nat (length l)) with false by lia.
Qed.

Lemma bb_where_ext (P Q : Piece -> bool) (l : list Piece) :
  Forall (fun p => P p = Q p) l -> bb_where P l = bb_where Q l.
Proof. induction 1; simpl; congruence. Qed.

Lemma bb_where_set (P : Piece -> bool) (l : list Piece) (sq : Z) (p : Piece) :
  length l = 64%nat -> on_board sq -> P p = true ->
  bb_where P (l.[sq <- p]) = BB_SET (bb_where P l) sq.
Proof.
  intros Hl Hsq HP. apply bits_ext. intros n Hn.
  rewrite BB_SET_testbit, !bb_where_testbit, length_zset, Hl by done.
  rewrite znth_zset by (unfold in_range; rewrite Hl; apply Hsq).
  unfold on_board in *. zb; by rewrite ?orb_false_r, ?orb_true_r.
Qed.

Lemma bb_where_clr (P : Piece -> bool) (l : list Piece) (sq : Z) (p : Piece) :
  length l = 64%nat -> on_board sq -> P p = false ->
  bb_where P (l.[sq <- p]) = BB_CLR (bb_where P l) sq.
Proof.
  intros Hl Hsq HP. apply bits_ext. intros n Hn.
  rewrite BB_CLR_testbit, !bb_where_testbit, length_zset, Hl
    by (done || apply bb_where_bound; lia).
  rewrite znth_zset by (unfold in_range; rewrite Hl; apply Hsq).
  unfold on_board in *. zb; by rewrite ?andb_true_r, ?andb_false_r.
Qed.

(** A square that held no [P]-piece and gets none leaves the word alone. *)
Lemma bb_where_same (P : Piece -> bool) (l : list Piece) (sq : Z) (p : Piece) :
  length l = 64%nat -> on_board sq -> P p = P (l.[sq]) ->
  bb_where P (l.[sq <- p]) = bb_where P l.
Proof.
  intros Hl Hsq HP. apply bits_ext. intros n Hn.
  rewrite !bb_where_testbit, length_zset, Hl by done.
  rewrite znth_zset by (unfold in_range; rewrite Hl; apply Hsq).
  destruct (Z.eqb_spec n sq) as [->|]; [by rewrite HP|done].
Qed.

(** ** Lemmas: the bit-scanning loops *)

Lemma bb_lsb_loop_spec (bb : Z) (fuel : nat) (i : Z) :
  0 <= i -> (exists n, i <= n < i + Z.of_nat fuel /\ Z.testbit bb n = true) ->
  let r := bb_lsb_loop fuel bb i in
  i <= r < i + Z.of_nat fuel /\ Z.testbit bb r = true /\
  (forall n, i <= n < r -> Z.testbit bb n = false).
Proof.
  revert i. induction fuel as [|f IH]; intros i Hi (n & Hn & Hb); [lia|].
  cbn [bb_lsb_loop]. rewrite BB_HAS_testbit by done.
  destruct (Z.testbit bb i) eqn:E.
  - split_and!; [lia|lia|done|lia].
  - assert (n <> i) by congruence.
    destruct (IH (i + 1)) as (H1 & H2 & H3); [lia|exists n; split; [lia|done]|].
    split_and!; [lia|lia|done|]. intros k Hk.
    destruct (Z.eqb_spec k i) as [->|]; [done|]. apply H3. lia.
Qed.

(** [bb_lsb] of a non-zero 64-bit word is its least set bit. *)
Lemma bb_lsb_spec (bb : Z) :
  0 < bb < 2 ^ 64 ->
  on_board (bb_lsb bb) /\ Z.testbit bb (bb_lsb bb) = true /\
  (forall n, 0 <= n < bb_lsb bb -> Z.testbit bb n = false).
Proof.
  intros Hbb. apply (bb_lsb_loop_spec bb 64 0); [lia|].
  destruct (nonzero_has_bit bb) as (n & Hn & Hb); [lia|lia|].
  exists n. split; [|done]. split; [lia|].
  destruct (Z.ltb_spec n 64); [lia|]. rewrite testbit_above_64 in Hb; [done|lia|lia].
Qed.

(** Clearing the least set bit: [bb & (bb - 1)]. *)
Lemma pop_lsb_testbit (bb n : Z) :
  0 < bb < 2 ^ 64 -> 0 <= n ->
  Z.testbit (Z.land bb (u64 (bb - 1))) n = Z.testbit bb n && negb (n =? bb_lsb bb).
Proof.
  intros Hbb Hn. destruct (bb_lsb_spec bb Hbb) as (Hs & Hb & Hlow).
  set (s := bb_lsb bb) in *. unfold on_board in Hs.
  unfold u64. rewrite Z.mod_small by lia. rewrite Z.land_spec.
  (* bb = q * 2^(s+1) + 2^s *)
  assert (Hd : bb = (bb / 2 ^ (s + 1)) * 2 ^ (s + 1) + 2 ^ s).
  { assert (Hm : bb mod 2 ^ (s + 1) = 2 ^ s).
    { apply bits_ext. intros k Hk. rewrite Z.pow2_bits_eqb by lia.
      destruct (Z.ltb_spec k (s + 1)).
      - rewrite Z.mod_pow2_bits_low by lia. destruct (Z.eqb_spec s k) as [->|]; [done|].
        apply Hlow. lia.
      - rewrite Z.mod_pow2_bits_high by lia. by replace (s =? k) with false by lia. }
    rewrite <- Hm. rewrite Z.mul_comm. apply Z.div_mod. lia. }
  set (q := bb / 2 ^ (s + 1)) in *.
  assert (Hp : 0 < 2 ^ s) by lia.
  assert (H2 : 2 ^ (s + 1) = 2 * 2 ^ s) by (rewrite Z.pow_add_r by lia; lia).
  destruct (Z.ltb_spec s n).
  - replace (negb (n =? s)) with true by lia. rewrite andb_true_r.
    assert (Z.testbit (bb - 1) n = Z.testbit bb n) as ->; [|apply andb_diag].
    replace n with ((n - (s + 1)) + (s + 1)) by lia.
    rewrite <- !Z.shiftr_spec by lia. f_equal. rewrite !Z.shiftr_div_pow2 by lia.
    fold q. symmetry. apply Z.div_unique with (2 ^ s - 1); lia.
  - destruct (Z.eqb_spec n s) as [->|]; simpl.
    + rewrite andb_false_r. replace (Z.testbit (bb - 1) s) with false; [apply andb_false_r|].
      symmetry. rewrite Z.testbit_false by lia.
      assert ((bb - 1) / 2 ^ s = q * 2) as ->; [|apply Z.mod_mul; lia].
      symmetry. apply Z.div_unique with (2 ^ s - 1); lia.
    + rewrite (Hlow n) by lia. done.
Qed.

Lemma pop_lsb_bound (bb : Z) :
  0 <= bb < 2 ^ 64 -> 0 <= Z.land bb (u64 (bb - 1)) < 2 ^ 64.
Proof.
  intros. apply bits_bounded; [lia|]. intros n Hn.
  by rewrite Z.land_spec, testbit_above_64 by lia.
Qed.

(** The squares of a word, computed bit by bit from [lo] up. *)
Definition bits_from (bb lo : Z) : list Z :=
  List.filter (Z.testbit bb) (seqZ lo (64 - lo)).

Lemma bits_from_step (bb lo : Z) :
  0 <= lo < 64 ->
  bits_from bb lo = (if Z.testbit bb lo then [lo] else []) ++ bits_from bb (lo + 1).
Proof.
  intros. unfold bits_from. rewrite seqZ_cons by lia.
  replace (Z.pred (64 - lo)) with (64 - (lo + 1)) by lia.
  replace (Z.succ lo) with (lo + 1) by lia.
  cbn [List.filter]. by destruct (Z.testbit bb lo).
Qed.

Lemma bits_from_skip (bb : Z) (k : nat) :
  forall lo, 0 <= lo -> lo + Z.of_nat k <= 64 ->
  (forall n, lo <= n < lo + Z.of_nat k -> Z.testbit bb n = false) ->
  bits_from bb lo = bits_from bb (lo + Z.of_nat k).
Proof.
  induction k as [|k IH]; intros lo Hlo Hk H; [by rewrite Z.add_0_r|].
  rewrite bits_from_step, H by lia. simpl.
  rewrite (IH (lo + 1)); [f_equal; lia|lia|lia|]. intros n Hn. apply H. lia.
Qed.


Lemma bits_from_ext (b1 b2 lo : Z) :
  (forall n, lo <= n < 64 -> Z.testbit b1 n = Z.testbit b2 n) ->
  bits_from b1 lo = bits_from b2 lo.
Proof.
  intros H. unfold bits_from. apply filter_ext_in. intros n Hn.
  apply H. apply list_elem_of_In, elem_of_seqZ in Hn. lia.
Qed.

Lemma bits_from_zero (lo : Z) : bits_from 0 lo = [].
Proof.
  unfold bits_from. induction (seqZ lo (64 - lo)); cbn [List.filter]; [done|].
  by rewrite Z.testbit_0_l.
Qed.

(** Once the bits below [lo] are gone, [64 - lo] rounds visit exactly the set
    bits from [lo] up. *)
Lemma bb_squares_loop_spec (fuel : nat) :
  forall bb lo, 0 <= bb < 2 ^ 64 -> 0 <= lo -> 64 - lo <= Z.of_nat fuel ->
  (forall n, 0 <= n < lo -> Z.testbit bb n = false) ->
  bb_squares_loop fuel bb = bits_from bb lo.
Proof.
  induction fuel as [|f IH]; intros bb lo Hbb Hlo Hf Hlow.
  - unfold bits_from. by rewrite seqZ_nil by lia.
  - cbn [bb_squares_loop]. destruct (Z.eqb_spec bb 0) as [->|Hne].
    { by rewrite bits_from_zero. }
    destruct (bb_lsb_spec bb) as (Hs & Hb & Hmin); [lia|].
    unfold bb_pop_lsb. set (s := bb_lsb bb) in *. unfold on_board in Hs.
    assert (lo <= s). { destruct (Z.ltb_spec s lo); [|done]. rewrite Hlow in Hb by lia. done. }
    rewrite (bits_from_skip bb (Z.to_nat (s - lo)) lo)
      by (lia || (intros; apply Hmin; lia)).
    replace (lo + Z.of_nat (Z.to_nat (s - lo))) with s by lia.
    rewrite bits_from_step, Hb by lia. simpl. f_equal.
    rewrite (IH _ (s + 1)); [|by apply pop_lsb_bound|lia|lia|].
    + apply bits_from_ext. intros n Hn. rewrite pop_lsb_testbit by lia.
      fold s. replace (n =? s) with false by lia. by rewrite andb_true_r.
    + intros n Hn. rewrite pop_lsb_testbit by lia. fold s.
      destruct (Z.eqb_spec n s); [by rewrite andb_false_r|]. by rewrite Hmin by lia.
Qed.

(** The pop loop visits the set bits of the word, in increasing order. *)
Lemma bb_squares_filter (bb : Z) :
  0 <= bb < 2 ^ 64 -> bb_squares bb = List.filter (Z.testbit bb) (seqZ 0 64).
Proof. intros. unfold bb_squares. rewrite (bb_squares_loop_spec 64 bb 0); [done|lia..]. Qed.

Lemma elem_of_bb_squares (bb sq : Z) :
  0 <= bb < 2 ^ 64 -> In sq (bb_squares bb) <-> on_board sq /\ Z.testbit bb sq = true.
Proof.
  intros. rewrite bb_squares_filter, filter_In, <- list_elem_of_In, elem_of_seqZ by done.
  unfold on_board. intuition lia.
Qed.

Lemma NoDup_bb_squares (bb : Z) : 0 <= bb < 2 ^ 64 -> List.NoDup (bb_squares bb).
Proof.
  intros. rewrite bb_squares_filter by done. apply List.NoDup_filter.
  apply NoDup_ListNoDup, NoDup_seqZ.
Qed.

Lemma bb_popcount_loop_squares (fuel : nat) (bb count : Z) :
  bb_popcount_loop fuel bb count = count + Z.of_nat (length (bb_squares_loop fuel bb)).
Proof.
  revert bb count. induction fuel as [|f IH]; intros bb count; simpl; [lia|].
  destruct (bb =? 0); simpl; [lia|]. rewrite IH. lia.
Qed.

(** [bb_popcount] counts the squares the pop loop visits. *)
Lemma bb_popcount_squares (bb : Z) : bb_popcount bb = Z.of_nat (length (bb_squares bb)).
Proof. unfold bb_popcount. by rewrite bb_popcount_loop_squares. Qed.

Lemma bb_popcount_bound (bb : Z) : 0 <= bb < 2 ^ 64 -> 0 <= bb_popcount bb <= 64.
Proof.
  intros. rewrite bb_popcount_squares, bb_squares_filter by done.
  pose proof (List.filter_length_le (Z.testbit bb) (seqZ 0 64)) as H1.
  rewrite length_seqZ in H1. lia.
Qed.

(** ** Lemmas: the packed move *)

Lemma lor_shift_add (a b k : Z) :
  0 <= k -> 0 <= a < 2 ^ k -> Z.lor a (Z.shiftl b k) = a + b * 2 ^ k.
Proof.
  intros Hk Ha. rewrite <- Z.shiftl_mul_pow2 by done. symmetry.
  rewrite <- Z.lxor_lor; [apply Z.add_nocarry_lxor|];
  apply bits_ext; intros n Hn; rewrite Z.land_spec, Z.testbit_0_l, Z.shiftl_spec by done;
  (destruct (Z.ltb_spec n k);
   [rewrite (Z.testbit_neg_r b) by lia; apply andb_false_r|]);
  replace a with (a mod 2 ^ k) by (apply Z.mod_small; lia);
  rewrite Z.mod_pow2_bits_high by lia; done.
Qed.

(** The packed move as a positional number. *)
Lemma move_encode_sum (from to : Z) (piece captured : PieceType) (castle ep promo : bool)
    (promoType : PieceType) :
  on_board from -> on_board to ->
  move_encode from to piece captured castle ep promo promoType =
  from + to * 2 ^ 6 + PieceType_to_Z piece * 2 ^ 12 + PieceType_to_Z captured * 2 ^ 15 +
  Z.b2z castle * 2 ^ 18 + Z.b2z ep * 2 ^ 19 + Z.b2z promo * 2 ^ 20 +
  PieceType_to_Z promoType * 2 ^ 21.
Proof.
  unfold on_board. intros Hf Ht.
  pose proof (PieceType_to_Z_bound piece). pose proof (PieceType_to_Z_bound captured).
  pose proof (PieceType_to_Z_bound promoType).
  assert (forall b, 0 <= Z.b2z b < 2) as Hb by (intros []; simpl; lia).
  pose proof (Hb castle). pose proof (Hb ep). pose proof (Hb promo).
  unfold move_encode, u32. rewrite !(Z.mod_small from), !(Z.mod_small to) by lia.
  rewrite (lor_shift_add _ _ 6), (lor_shift_add _ _ 12), (lor_shift_add _ _ 15),
    (lor_shift_add _ _ 18), (lor_shift_add _ _ 19), (lor_shift_add _ _ 20),
    (lor_shift_add _ _ 21) by lia.
  apply Z.mod_small. lia.
Qed.

Lemma field_extract (m k w : Z) :
  0 <= k -> 0 <= w -> Z.land (Z.shiftr m k) (Z.ones w) = (m / 2 ^ k) mod 2 ^ w.
Proof. intros. by rewrite Z.land_ones, Z.shiftr_div_pow2. Qed.

Section MoveFields.
Context (from to : Z) (piece captured : PieceType) (castle ep promo : bool)
        (promoType : PieceType) (Hf : on_board from) (Ht : on_board to).
Local Abbreviation m := (move_encode from to piece captured castle ep promo promoType).

Ltac field :=
  rewrite move_encode_sum by done; unfold on_board in *;
  pose proof (PieceType_to_Z_bound piece); pose proof (PieceType_to_Z_bound captured);
  pose proof (PieceType_to_Z_bound promoType);
  assert (forall b, 0 <= Z.b2z b < 2) as Hb by (intros []; simpl; lia);
  pose proof (Hb castle); pose proof (Hb ep); pose proof (Hb promo);
  Z.div_mod_to_equations; lia.

Lemma MOVE_FROM_encode : MOVE_FROM m = from.
Proof. unfold MOVE_FROM. change 63 with (Z.ones 6). rewrite Z.land_ones by lia. field. Qed.

Lemma MOVE_TO_encode : MOVE_TO m = to.
Proof. unfold MOVE_TO. change 63 with (Z.ones 6). rewrite field_extract by lia. field. Qed.

Lemma MOVE_PIECE_encode : MOVE_PIECE m = piece.
Proof.
  unfold MOVE_PIECE. change 7 with (Z.ones 3). rewrite field_extract by lia.
  rewrite <- (PieceType_of_to piece) at 2. f_equal. field.
Qed.

Lemma MOVE_CAPTURED_encode : MOVE_CAPTURED m = captured.
Proof.
  unfold MOVE_CAPTURED. change 7 with (Z.ones 3). rewrite field_extract by lia.
  rewrite <- (PieceType_of_to captured) at 2. f_equal. field.
Qed.

Lemma MOVE_PROMO_TYPE_encode : MOVE_PROMO_TYPE m = promoType.
Proof.
  unfold MOVE_PROMO_TYPE. change 7 with (Z.ones 3). rewrite field_extract by lia.
  rewrite <- (PieceType_of_to promoType) at 2. f_equal. field.
Qed.

Lemma flag_encode (b : bool) (k : Z) :
  0 <= k -> (m / 2 ^ k) mod 2 = Z.b2z b ->
  negb (Z.land (Z.shiftr m k) 1 =? 0) = b.
Proof.
  intros Hk H. change 1 with (Z.ones 1). rewrite field_extract by lia.
  change (2 ^ 1) with 2. rewrite H. by destruct b.
Qed.

Lemma MOVE_IS_CASTLE_encode : MOVE_IS_CASTLE m = castle.
Proof. apply flag_encode; [lia|]. field. Qed.

Lemma MOVE_IS_EP_encode : MOVE_IS_EP m = ep.
Proof. apply flag_encode; [lia|]. field. Qed.

Lemma MOVE_IS_PROMO_encode : MOVE_IS_PROMO m = promo.
Proof. apply flag_encode; [lia|]. field. Qed.

Lemma MOVE_IS_CAPTURE_encode : MOVE_IS_CAPTURE m = (captured != PIECE_NONE).
Proof. unfold MOVE_IS_CAPTURE. by rewrite MOVE_CAPTURED_encode. Qed.
End MoveFields.
