(* ===== verification/Board.v ===== *)
(** * Board state and its mutation primitives ([board.h], [board.c])

    The [Board] struct with its undo stack, and the three primitives every
    other file changes the position through: [board_clear], [board_place] and
    [board_remove].  The position is stored three times over (per-piece
    bitboards, aggregate occupancy, mailbox); [board_inv] says the three agree,
    by making the mailbox the abstract position and each bitboard the image of
    it under [bb_where]. *)

From stdpp Require Import base numbers list option.
From Stdlib Require Import ZArith Lia Bool.
From S2P Require Import Prelude Types.

(** ** State

    The [uint8_t] members that only ever hold 0 or 1 are booleans. *)

Definition MAX_HISTORY : Z := 512.

(** One entry of the undo stack. *)
Record Undo := mkUndo {
  u_move : Move;
  u_captured : Piece;
  u_captured_sq : Square;
  u_castling : Z;
  u_ep_square : Square;
  u_halfmove : Z;
  u_hash : Z;
  u_heir_promoted : list bool;
  u_truce_active : bool;
  u_truce_frozen : Bitboard;
  u_ff_moved : Bitboard;
  u_kb_unlocked : bool;
  u_kb_idle_kings : Z;
  u_kb_bonus : bool;
  u_stq_reprisoned : bool;
  u_stq_reprison_sq : Square
}.

Record Board := mkBoard {
  b_pieces : list (list Bitboard);
  b_occupied : list Bitboard;
  b_all : Bitboard;
  b_mailbox : list Piece;
  b_side : Color;
  b_castling : Z;
  b_ep_square : Square;
  b_halfmove : Z;
  b_fullmove : Z;
  b_mod : GameMod;
  b_heir_promoted : list bool;
  b_truce_active : bool;
  b_truce_frozen : Bitboard;
  b_ff_moved : Bitboard;
  b_kb_unlocked : bool;
  b_kb_idle_kings : Z;
  b_hash : Z;
  b_history : list Undo;
  b_ply : Z
}.

(** The entry [memset] leaves: all zero. *)
Definition undo_zero : Undo :=
  mkUndo 0 0 0 0 0 0 0 [false; false] false 0 0 false 0 false false 0.

#[export] Instance Undo_inhabited : Inhabited Undo := populate undo_zero.

(** *** Field updates *)

Definition set_u_captured (x : Piece) (u : Undo) : Undo :=
  mkUndo (u_move u) x (u_captured_sq u) (u_castling u) (u_ep_square u) (u_halfmove u)
    (u_hash u) (u_heir_promoted u) (u_truce_active u) (u_truce_frozen u) (u_ff_moved u)
    (u_kb_unlocked u) (u_kb_idle_kings u) (u_kb_bonus u) (u_stq_reprisoned u)
    (u_stq_reprison_sq u).
Definition set_u_captured_sq (x : Square) (u : Undo) : Undo :=
  mkUndo (u_move u) (u_captured u) x (u_castling u) (u_ep_square u) (u_halfmove u)
    (u_hash u) (u_heir_promoted u) (u_truce_active u) (u_truce_frozen u) (u_ff_moved u)
    (u_kb_unlocked u) (u_kb_idle_kings u) (u_kb_bonus u) (u_stq_reprisoned u)
    (u_stq_reprison_sq u).
Definition set_u_kb_bonus (x : bool) (u : Undo) : Undo :=
  mkUndo (u_move u) (u_captured u) (u_captured_sq u) (u_castling u) (u_ep_square u)
    (u_halfmove u) (u_hash u) (u_heir_promoted u) (u_truce_active u) (u_truce_frozen u)
    (u_ff_moved u) (u_kb_unlocked u) (u_kb_idle_kings u) x (u_stq_reprisoned u)
    (u_stq_reprison_sq u).
Definition set_u_stq_reprisoned (x : bool) (u : Undo) : Undo :=
  mkUndo (u_move u) (u_captured u) (u_captured_sq u) (u_castling u) (u_ep_square u)
    (u_halfmove u) (u_hash u) (u_heir_promoted u) (u_truce_active u) (u_truce_frozen u)
    (u_ff_moved u) (u_kb_unlocked u) (u_kb_idle_kings u) (u_kb_bonus u) x
    (u_stq_reprison_sq u).
Definition set_u_stq_reprison_sq (x : Square) (u : Undo) : Undo :=
  mkUndo (u_move u) (u_captured u) (u_captured_sq u) (u_castling u) (u_ep_square u)
    (u_halfmove u) (u_hash u) (u_heir_promoted u) (u_truce_active u) (u_truce_frozen u)
    (u_ff_moved u) (u_kb_unlocked u) (u_kb_idle_kings u) (u_kb_bonus u)
    (u_stq_reprisoned u) x.

Definition set_b_pieces (x : list (list Bitboard)) (b : Board) : Board :=
  mkBoard x (b_occupied b) (b_all b) (b_mailbox b) (b_side b) (b_castling b)
    (b_ep_square b) (b_halfmove b) (b_fullmove b) (b_mod b) (b_heir_promoted b)
    (b_truce_active b) (b_truce_frozen b) (b_ff_moved b) (b_kb_unlocked b)
    (b_kb_idle_kings b) (b_hash b) (b_history b) (b_ply b).
Definition set_b_occupied (x : list Bitboard) (b : Board) : Board :=
  mkBoard (b_pieces b) x (b_all b) (b_mailbox b) (b_side b) (b_castling b)
    (b_ep_square b) (b_halfmove b) (b_fullmove b) (b_mod b) (b_heir_promoted b)
    (b_truce_active b) (b_truce_frozen b) (b_ff_moved b) (b_kb_unlocked b)
    (b_kb_idle_kings b) (b_hash b) (b_history b) (b_ply b).
Definition set_b_all (x : Bitboard) (b : Board) : Board :=
  mkBoard (b_pieces b) (b_occupied b) x (b_mailbox b) (b_side b) (b_castling b)
    (b_ep_square b) (b_halfmove b) (b_fullmove b) (b_mod b) (b_heir_promoted b)
    (b_truce_active b) (b_truce_frozen b) (b_ff_moved b) (b_kb_unlocked b)
    (b_kb_idle_kings b) (b_hash b) (b_history b) (b_ply b).
Definition set_b_mailbox (x : list Piece) (b : Board) : Board :=
  mkBoard (b_pieces b) (b_occupied b) (b_all b) x (b_side b) (b_castling b)
    (b_ep_square b) (b_halfmove b) (b_fullmove b) (b_mod b) (b_heir_promoted b)
    (b_truce_active b) (b_truce_frozen b) (b_ff_moved b) (b_kb_unlocked b)
    (b_kb_idle_kings b) (b_hash b) (b_history b) (b_ply b).
Definition set_b_side (x : Color) (b : Board) : Board :=
  mkBoard (b_pieces b) (b_occupied b) (b_all b) (b_mailbox b) x (b_castling b)
    (b_ep_square b) (b_halfmove b) (b_fullmove b) (b_mod b) (b_heir_promoted b)
    (b_truce_active b) (b_truce_frozen b) (b_ff_moved b) (b_kb_unlocked b)
    (b_kb_idle_kings b) (b_hash b) (b_history b) (b_ply b).
Definition set_b_castling (x : Z) (b : Board) : Board :=
  mkBoard (b_pieces b) (b_occupied b) (b_all b) (b_mailbox b) (b_side b) x
    (b_ep_square b) (b_halfmove b) (b_fullmove b) (b_mod b) (b_heir_promoted b)
    (b_truce_active b) (b_truce_frozen b) (b_ff_moved b) (b_kb_unlocked b)
    (b_kb_idle_kings b) (b_hash b) (b_history b) (b_ply b).
Definition set_b_ep_square (x : Square) (b : Board) : Board :=
  mkBoard (b_pieces b) (b_occupied b) (b_all b) (b_mailbox b) (b_side b) (b_castling b)
    x (b_halfmove b) (b_fullmove b) (b_mod b) (b_heir_promoted b) (b_truce_active b)
    (b_truce_frozen b) (b_ff_moved b) (b_kb_unlocked b) (b_kb_idle_kings b) (b_hash b)
    (b_history b) (b_ply b).
Definition set_b_halfmove (x : Z) (b : Board) : Board :=
  mkBoard (b_pieces b) (b_occupied b) (b_all b) (b_mailbox b) (b_side b) (b_castling b)
    (b_ep_square b) x (b_fullmove b) (b_mod b) (b_heir_promoted b) (b_truce_active b)
    (b_truce_frozen b) (b_ff_moved b) (b_kb_unlocked b) (b_kb_idle_kings b) (b_hash b)
    (b_history b) (b_ply b).
Definition set_b_fullmove (x : Z) (b : Board) : Board :=
  mkBoard (b_pieces b) (b_occupied b) (b_all b) (b_mailbox b) (b_side b) (b_castling b)
    (b_ep_square b) (b_halfmove b) x (b_mod b) (b_heir_promoted b) (b_truce_active b)
    (b_truce_frozen b) (b_ff_moved b) (b_kb_unlocked b) (b_kb_idle_kings b) (b_hash b)
    (b_history b) (b_ply b).
Definition set_b_mod (x : GameMod) (b : Board) : Board :=
  mkBoard (b_pieces b) (b_occupied b) (b_all b) (b_mailbox b) (b_side b) (b_castling b)
    (b_ep_square b) (b_halfmove b) (b_fullmove b) x (b_heir_promoted b)
    (b_truce_active b) (b_truce_frozen b) (b_ff_moved b) (b_kb_unlocked b)
    (b_kb_idle_kings b) (b_hash b) (b_history b) (b_ply b).
Definition set_b_heir_promoted (x : list bool) (b : Board) : Board :=
  mkBoard (b_pieces b) (b_occupied b) (b_all b) (b_mailbox b) (b_side b) (b_castling b)
    (b_ep_square b) (b_halfmove b) (b_fullmove b) (b_mod b) x (b_truce_active b)
    (b_truce_frozen b) (b_ff_moved b) (b_kb_unlocked b) (b_kb_idle_kings b) (b_hash b)
    (b_history b) (b_ply b).
Definition set_b_truce_active (x : bool) (b : Board) : Board :=
  mkBoard (b_pieces b) (b_occupied b) (b_all b) (b_mailbox b) (b_side b) (b_castling b)
    (b_ep_square b) (b_halfmove b) (b_fullmove b) (b_mod b) (b_heir_promoted b) x
    (b_truce_frozen b) (b_ff_moved b) (b_kb_unlocked b) (b_kb_idle_kings b) (b_hash b)
    (b_history b) (b_ply b).
Definition set_b_truce_frozen (x : Bitboard) (b : Board) : Board :=
  mkBoard (b_pieces b) (b_occupied b) (b_all b) (b_mailbox b) (b_side b) (b_castling b)
    (b_ep_square b) (b_halfmove b) (b_fullmove b) (b_mod b) (b_heir_promoted b)
    (b_truce_active b) x (b_ff_moved b) (b_kb_unlocked b) (b_kb_idle_kings b) (b_hash b)
    (b_history b) (b_ply b).
Definition set_b_ff_moved (x : Bitboard) (b : Board) : Board :=
  mkBoard (b_pieces b) (b_occupied b) (b_all b) (b_mailbox b) (b_side b) (b_castling b)
    (b_ep_square b) (b_halfmove b) (b_fullmove b) (b_mod b) (b_heir_promoted b)
    (b_truce_active b) (b_truce_frozen b) x (b_kb_unlocked b) (b_kb_idle_kings b)
    (b_hash b) (b_history b) (b_ply b).
Definition set_b_kb_unlocked (x : bool) (b : Board) : Board :=
  mkBoard (b_pieces b) (b_occupied b) (b_all b) (b_mailbox b) (b_side b) (b_castling b)
    (b_ep_square b) (b_halfmove b) (b_fullmove b) (b_mod b) (b_heir_promoted b)
    (b_truce_active b) (b_truce_frozen b) (b_ff_moved b) x (b_kb_idle_kings b)
    (b_hash b) (b_history b) (b_ply b).
Definition set_b_kb_idle_kings (x : Z) (b : Board) : Board :=
  mkBoard (b_pieces b) (b_occupied b) (b_all b) (b_mailbox b) (b_side b) (b_castling b)
    (b_ep_square b) (b_halfmove b) (b_fullmove b) (b_mod b) (b_heir_promoted b)
    (b_truce_active b) (b_truce_frozen b) (b_ff_moved b) (b_kb_unlocked b) x (b_hash b)
    (b_history b) (b_ply b).
Definition set_b_hash (x : Z) (b : Board) : Board :=
  mkBoard (b_pieces b) (b_occupied b) (b_all b) (b_mailbox b) (b_side b) (b_castling b)
    (b_ep_square b) (b_halfmove b) (b_fullmove b) (b_mod b) (b_heir_promoted b)
    (b_truce_active b) (b_truce_frozen b) (b_ff_moved b) (b_kb_unlocked b)
    (b_kb_idle_kings b) x (b_history b) (b_ply b).
Definition set_b_history (x : list Undo) (b : Board) : Board :=
  mkBoard (b_pieces b) (b_occupied b) (b_all b) (b_mailbox b) (b_side b) (b_castling b)
    (b_ep_square b) (b_halfmove b) (b_fullmove b) (b_mod b) (b_heir_promoted b)
    (b_truce_active b) (b_truce_frozen b) (b_ff_moved b) (b_kb_unlocked b)
    (b_kb_idle_kings b) (b_hash b) x (b_ply b).
Definition set_b_ply (x : Z) (b : Board) : Board :=
  mkBoard (b_pieces b) (b_occupied b) (b_all b) (b_mailbox b) (b_side b) (b_castling b)
    (b_ep_square b) (b_halfmove b) (b_fullmove b) (b_mod b) (b_heir_promoted b)
    (b_truce_active b) (b_truce_frozen b) (b_ff_moved b) (b_kb_unlocked b)
    (b_kb_idle_kings b) (b_hash b) (b_history b) x.

(** *** Array accesses *)

Definition pcs (b : Board) (c : Color) (t : PieceType) : Bitboard :=
  ((b_pieces b).[Color_to_Z c]).[PieceType_to_Z t].
Definition occ (b : Board) (c : Color) : Bitboard := (b_occupied b).[Color_to_Z c].
Definition mb (b : Board) (sq : Square) : Piece := (b_mailbox b).[sq].
Definition heir (b : Board) (c : Color) : bool := (b_heir_promoted b).[Color_to_Z c].
Definition hist (b : Board) (i : Z) : Undo := (b_history b).[i].

Definition set_pcs (c : Color) (t : PieceType) (bb : Bitboard) (b : Board) : Board :=
  set_b_pieces ((b_pieces b).[Color_to_Z c <-
    ((b_pieces b).[Color_to_Z c]).[PieceType_to_Z t <- bb]]) b.
Definition set_occ (c : Color) (bb : Bitboard) (b : Board) : Board :=
  set_b_occupied ((b_occupied b).[Color_to_Z c <- bb]) b.
Definition set_mb (sq : Square) (p : Piece) (b : Board) : Board :=
  set_b_mailbox ((b_mailbox b).[sq <- p]) b.
Definition set_heir (c : Color) (v : bool) (b : Board) : Board :=
  set_b_heir_promoted ((b_heir_promoted b).[Color_to_Z c <- v]) b.
Definition upd_hist (i : Z) (f : Undo -> Undo) (b : Board) : Board :=
  set_b_history ((b_history b).[i <- f (hist b i)]) b.

(** ** Mutation primitives ([board.c]) *)

Definition board_clear (b : Board) : Board :=
  mkBoard [[0; 0; 0; 0; 0; 0]; [0; 0; 0; 0; 0; 0]] [0; 0] 0 (replicate 64 PIECE_EMPTY)
    WHITE 0 SQ_NONE 0 0 MOD_CLASSIC [false; false] false 0 0 false 0 0
    (replicate (Z.to_nat MAX_HISTORY) undo_zero) 0.

Definition board_place (b : Board) (sq : Square) (c : Color) (t : PieceType) : Board :=
  let p := PIECE_MAKE c t in
  let b := set_mb sq p b in
  let b := set_pcs c t (BB_SET (pcs b c t) sq) b in
  let b := set_occ c (BB_SET (occ b c) sq) b in
  set_b_all (BB_SET (b_all b) sq) b.

Definition board_remove (b : Board) (sq : Square) : Board :=
  let p := mb b sq in
  if p =? PIECE_EMPTY then b
  else
    let c := PIECE_COLOR p in
    let t := PIECE_TYPE p in
    let b := set_pcs c t (BB_CLR (pcs b c t) sq) b in
    let b := set_occ c (BB_CLR (occ b c) sq) b in
    let b := set_b_all (BB_CLR (b_all b) sq) b in
    set_mb sq PIECE_EMPTY b.

(** [heir_check_applies] ([board.h]). *)
Definition heir_check_applies (b : Board) (side : Color) : bool :=
  heir b side || (pcs b side PAWN =? BB_EMPTY).

(** ** The mailbox as the abstract position *)

Definition is_piece (c : Color) (t : PieceType) (p : Piece) : bool := p =? PIECE_MAKE c t.
Definition is_color (c : Color) (p : Piece) : bool := PIECE_COLOR p == c.
Definition is_occupied (p : Piece) : bool := negb (p =? PIECE_EMPTY).

Definition pieces_of (l : list Piece) : list (list Bitboard) :=
  map (fun c => map (fun t => bb_where (is_piece c t) l) piece_types) colors.
Definition occupied_of (l : list Piece) : list Bitboard :=
  map (fun c => bb_where (is_color c) l) colors.
Definition all_of (l : list Piece) : Bitboard := bb_where is_occupied l.

(** The board [b] with the position replaced by the mailbox [l] and every
    bitboard recomputed from it. *)
Definition with_mailbox (l : list Piece) (b : Board) : Board :=
  mkBoard (pieces_of l) (occupied_of l) (all_of l) l (b_side b) (b_castling b)
    (b_ep_square b) (b_halfmove b) (b_fullmove b) (b_mod b) (b_heir_promoted b)
    (b_truce_active b) (b_truce_frozen b) (b_ff_moved b) (b_kb_unlocked b)
    (b_kb_idle_kings b) (b_hash b) (b_history b) (b_ply b).

(** The thirteen byte values a mailbox entry can have. *)
Definition valid_piece (p : Piece) : Prop :=
  p = PIECE_EMPTY \/ exists c t, real_color c /\ real_type t /\ p = PIECE_MAKE c t.

Definition valid_mailbox (l : list Piece) : Prop :=
  length l = 64%nat /\ Forall valid_piece l.

(** Representation invariant: a valid mailbox, with every bitboard equal to
    the one the mailbox denotes. *)
Record board_inv (b : Board) : Prop := {
  inv_mailbox : valid_mailbox (b_mailbox b);
  inv_image : with_mailbox (b_mailbox b) b = b
}.

Create HintDb board.
#[export] Hint Extern 1 (real_color _) => discriminate : board.
#[export] Hint Extern 1 (real_type _) => discriminate : board.

Lemma with_mailbox_twice (l l' : list Piece) (b : Board) :
  with_mailbox l (with_mailbox l' b) = with_mailbox l b.
Proof. reflexivity. Qed.

Lemma with_mailbox_inv (l : list Piece) (b : Board) :
  valid_mailbox l -> board_inv (with_mailbox l b).
Proof. by constructor. Qed.

Lemma mb_with_mailbox (l : list Piece) (b : Board) (sq : Square) :
  mb (with_mailbox l b) sq = l.[sq].
Proof. reflexivity. Qed.

Lemma inv_length (b : Board) : board_inv b -> length (b_mailbox b) = 64%nat.
Proof. intros H. apply H. Qed.

Lemma mailbox_range (l : list Piece) (sq : Square) :
  valid_mailbox l -> on_board sq -> in_range l sq.
Proof. intros [H _] ?. unfold in_range. rewrite H. sq_lia. Qed.

Lemma valid_make (c : Color) (t : PieceType) :
  real_color c -> real_type t -> valid_piece (PIECE_MAKE c t).
Proof. right. eauto. Qed.

Lemma valid_empty : valid_piece PIECE_EMPTY.
Proof. by left. Qed.

Lemma valid_zset (l : list Piece) (sq : Square) (p : Piece) :
  valid_mailbox l -> valid_piece p -> valid_mailbox (l.[sq <- p]).
Proof.
  intros [Hl Hv] Hp. split; [by rewrite length_zset|].
  unfold zset. destruct (sq <? 0); [done|]. by apply Forall_insert.
Qed.

Lemma valid_at (l : list Piece) (sq : Square) :
  valid_mailbox l -> on_board sq -> valid_piece (l.[sq]).
Proof.
  intros Hv Hsq. pose proof (mailbox_range l sq Hv Hsq) as Hr.
  apply znth_lookup in Hr. destruct Hv as [_ Hv]. by eapply Forall_lookup_1 in Hv.
Qed.

#[export] Hint Resolve valid_make valid_empty valid_zset with_mailbox_inv : board.

Lemma valid_color_type (p : Piece) :
  valid_piece p -> p <> PIECE_EMPTY ->
  real_color (PIECE_COLOR p) /\ real_type (PIECE_TYPE p) /\
  p = PIECE_MAKE (PIECE_COLOR p) (PIECE_TYPE p).
Proof.
  intros [->|(c & t & Hc & Ht & ->)] Hne; [done|].
  by rewrite PIECE_COLOR_MAKE, PIECE_TYPE_MAKE.
Qed.

(** *** The components of an image *)

Lemma pcs_with_mailbox (l : list Piece) (b : Board) (c : Color) (t : PieceType) :
  real_color c -> real_type t -> pcs (with_mailbox l b) c t = bb_where (is_piece c t) l.
Proof. intros. by destruct c, t. Qed.

Lemma occ_with_mailbox (l : list Piece) (b : Board) (c : Color) :
  real_color c -> occ (with_mailbox l b) c = bb_where (is_color c) l.
Proof. intros. by destruct c. Qed.

Lemma pieces_of_zset (l : list Piece) (sq : Square) (p : Piece) (f : Color -> PieceType -> Z) :
  (forall c t, real_color c -> real_type t -> bb_where (is_piece c t) (l.[sq <- p]) = f c t) ->
  pieces_of (l.[sq <- p]) = map (fun c => map (f c) piece_types) colors.
Proof. intros H. unfold pieces_of. simpl. by rewrite !H. Qed.

Lemma occupied_of_zset (l : list Piece) (sq : Square) (p : Piece) (f : Color -> Z) :
  (forall c, real_color c -> bb_where (is_color c) (l.[sq <- p]) = f c) ->
  occupied_of (l.[sq <- p]) = map f colors.
Proof. intros H. unfold occupied_of. simpl. by rewrite !H. Qed.

(** *** The primitives act on the mailbox alone *)

Section Primitives.
Context (b : Board) (Hinv : board_inv b) (sq : Square) (Hsq : on_board sq).

Lemma place_image (c : Color) (t : PieceType) :
  real_color c -> real_type t -> mb b sq = PIECE_EMPTY ->
  board_place b sq c t = with_mailbox ((b_mailbox b).[sq <- PIECE_MAKE c t]) b.
Proof.
  set (l := b_mailbox b). intros Hc Ht He. destruct Hinv as [Hv Himg]. fold l in Hv, Himg.
  pose proof Hv as [Hlen _]. unfold mb in He. fold l in He.
  rewrite <- Himg at 1. unfold with_mailbox at 2.
  rewrite (pieces_of_zset l sq _ (fun c' t' =>
    if decide (c' = c /\ t' = t) then BB_SET (bb_where (is_piece c' t') l) sq
    else bb_where (is_piece c' t') l)).
  2:{ intros c' t' Hc' Ht'. case_decide as E.
      - destruct E as [-> ->]. apply bb_where_set; [done..|]. apply Z.eqb_refl.
      - apply bb_where_same; [done..|]. unfold is_piece. rewrite He.
        transitivity false; [|symmetry]; apply Z.eqb_neq.
        + intros [-> ->]%PIECE_MAKE_inj. by apply E.
        + intros E'. by apply (PIECE_MAKE_not_empty c' t'). }
  rewrite (occupied_of_zset l sq _ (fun c' =>
    if decide (c' = c) then BB_SET (bb_where (is_color c') l) sq
    else bb_where (is_color c') l)).
  2:{ intros c' Hc'. case_decide as E.
      - subst. apply bb_where_set; [done..|]. unfold is_color.
        rewrite PIECE_COLOR_MAKE. by apply bool_decide_eq_true.
      - apply bb_where_same; [done..|]. unfold is_color. rewrite He, PIECE_COLOR_MAKE.
        transitivity false; [|symmetry]; apply bool_decide_eq_false; [congruence|].
        by destruct c'. }
  unfold all_of. rewrite (bb_where_set is_occupied) by
    (done || by apply negb_true_iff, Z.eqb_neq, PIECE_MAKE_not_empty).
  by destruct c, t.
Qed.

Lemma remove_image : board_remove b sq = with_mailbox ((b_mailbox b).[sq <- PIECE_EMPTY]) b.
Proof.
  set (l := b_mailbox b).
  destruct Hinv as [Hv Himg]. fold l in Hv, Himg.
  pose proof Hv as [Hlen _]. rewrite <- Himg at 1.
  unfold board_remove. rewrite mb_with_mailbox.
  destruct (Z.eqb_spec (l.[sq]) PIECE_EMPTY) as [E|E].
  { by rewrite zset_same by (done || by apply mailbox_range). }
  destruct (valid_color_type (l.[sq])) as (Hc & Ht & Hp); [by apply valid_at|done|].
  set (c := PIECE_COLOR (l.[sq])) in *. set (t := PIECE_TYPE (l.[sq])) in *.
  unfold with_mailbox.
  rewrite (pieces_of_zset l sq _ (fun c' t' =>
    if decide (c' = c /\ t' = t) then BB_CLR (bb_where (is_piece c' t') l) sq
    else bb_where (is_piece c' t') l)).
  2:{ intros c' t' Hc' Ht'. assert (is_piece c' t' PIECE_EMPTY = false) as Hf.
      { apply Z.eqb_neq. intros E'. by apply (PIECE_MAKE_not_empty c' t'). }
      case_decide as E'; [by apply bb_where_clr|].
      apply bb_where_same; [done..|]. rewrite Hf. symmetry. apply Z.eqb_neq.
      rewrite Hp. intros [-> ->]%PIECE_MAKE_inj. by apply E'. }
  rewrite (occupied_of_zset l sq _ (fun c' =>
    if decide (c' = c) then BB_CLR (bb_where (is_color c') l) sq
    else bb_where (is_color c') l)).
  2:{ intros c' Hc'. assert (is_color c' PIECE_EMPTY = false) as Hf.
      { apply bool_decide_eq_false. by destruct c'. }
      case_decide as E'; [by apply bb_where_clr|].
      apply bb_where_same; [done..|]. rewrite Hf. symmetry.
      apply bool_decide_eq_false. fold c. congruence. }
  unfold all_of. rewrite (bb_where_clr is_occupied) by done.
  clearbody c t. by destruct c, t.
Qed.
End Primitives.

(** *** Preservation *)

Lemma board_place_inv (b : Board) (sq : Square) (c : Color) (t : PieceType) :
  board_inv b -> on_board sq -> real_color c -> real_type t -> mb b sq = PIECE_EMPTY ->
  board_inv (board_place b sq c t).
Proof. intros H **. rewrite place_image by done. destruct H. auto with board. Qed.

Lemma board_remove_inv (b : Board) (sq : Square) :
  board_inv b -> on_board sq -> board_inv (board_remove b sq).
Proof. intros H **. rewrite remove_image by done. destruct H. auto with board. Qed.

Lemma board_clear_inv (b : Board) : board_inv (board_clear b).
Proof.
  constructor; [split; [done|]|reflexivity].
  apply Forall_replicate. by left.
Qed.

(** Membership in the bitboards, read off the mailbox. *)
Section Readings.
Context (b : Board) (Hinv : board_inv b).

Lemma pcs_image (c : Color) (t : PieceType) :
  real_color c -> real_type t -> pcs b c t = bb_where (is_piece c t) (b_mailbox b).
Proof. intros. rewrite <- (inv_image _ Hinv) at 1. by apply pcs_with_mailbox. Qed.

Lemma occ_image (c : Color) : real_color c -> occ b c = bb_where (is_color c) (b_mailbox b).
Proof. intros. rewrite <- (inv_image _ Hinv) at 1. by apply occ_with_mailbox. Qed.

Lemma all_image : b_all b = bb_where is_occupied (b_mailbox b).
Proof. by rewrite <- (inv_image _ Hinv) at 1. Qed.

Lemma pcs_testbit (c : Color) (t : PieceType) (sq : Square) :
  real_color c -> real_type t -> on_board sq ->
  Z.testbit (pcs b c t) sq = (mb b sq =? PIECE_MAKE c t).
Proof.
  intros. rewrite pcs_image, bb_where_testbit, (inv_length _ Hinv) by (done || sq_lia).
  by replace (sq <? Z.of_nat 64) with true by sq_lia.
Qed.

Lemma occ_testbit (c : Color) (sq : Square) :
  real_color c -> on_board sq ->
  Z.testbit (occ b c) sq = (PIECE_COLOR (mb b sq) == c).
Proof.
  intros. rewrite occ_image, bb_where_testbit, (inv_length _ Hinv) by (done || sq_lia).
  by replace (sq <? Z.of_nat 64) with true by sq_lia.
Qed.

Lemma all_testbit (sq : Square) :
  on_board sq -> Z.testbit (b_all b) sq = negb (mb b sq =? PIECE_EMPTY).
Proof.
  intros. rewrite all_image, bb_where_testbit, (inv_length _ Hinv) by sq_lia.
  by replace (sq <? Z.of_nat 64) with true by sq_lia.
Qed.

Lemma pcs_bound (c : Color) (t : PieceType) :
  real_color c -> real_type t -> 0 <= pcs b c t < 2 ^ 64.
Proof.
  intros. rewrite pcs_image by done. apply bb_where_bound. by rewrite (inv_length _ Hinv).
Qed.

Lemma occ_bound (c : Color) : real_color c -> 0 <= occ b c < 2 ^ 64.
Proof.
  intros. rewrite occ_image by done. apply bb_where_bound. by rewrite (inv_length _ Hinv).
Qed.

Lemma all_bound : 0 <= b_all b < 2 ^ 64.
Proof. rewrite all_image. apply bb_where_bound. by rewrite (inv_length _ Hinv). Qed.

Lemma mb_valid (sq : Square) : on_board sq -> valid_piece (mb b sq).
Proof. intros. apply valid_at; [apply Hinv|done]. Qed.
End Readings.

#[export] Hint Resolve pcs_bound occ_bound all_bound mb_valid
  board_place_inv board_remove_inv board_clear_inv : board.

(** ** Words made of other words *)

Lemma land_bound_l (x y : Z) : 0 <= x < 2 ^ 64 -> 0 <= Z.land x y < 2 ^ 64.
Proof.
  intros. apply bits_bounded; [lia|]. intros n Hn. by rewrite Z.land_spec, testbit_above_64 by lia.
Qed.

Lemma lor_bound (x y : Z) : 0 <= x < 2 ^ 64 -> 0 <= y < 2 ^ 64 -> 0 <= Z.lor x y < 2 ^ 64.
Proof.
  intros. apply bits_bounded; [lia|]. intros n Hn. by rewrite Z.lor_spec, !testbit_above_64 by lia.
Qed.

#[export] Hint Resolve land_bound_l lor_bound BB_SQ_bound : board.
