(* ===== verification/Zobrist.v ===== *)
(** * Zobrist hashing ([board_zobrist.c], [board_refresh] of [board.c])

    The key tables are filled once by [zobrist_init] from a xorshift64
    generator; [zobrist_compute] hashes a board from scratch.  [engine_init]
    calls [zobrist_init] before any board is built, so the boards of the
    development are hashed with [zob_keys], the tables after that call. *)

From stdpp Require Import base numbers list option.
From Stdlib Require Import ZArith Lia Bool.
From S2P Require Import Prelude Types Board.

(** ** The file's static state *)

Record Zob := mkZob {
  zob_piece : list (list (list Z));
  zob_side : Z;
  zob_castle : list Z;
  zob_ep : list Z;
  zob_heir_promoted : list Z;
  zob_truce_active : Z;
  zob_kb_unlocked : Z;
  zob_ready : bool;
  xor_state : Z
}.

(** The state at program start. *)
Definition zob_start : Zob :=
  mkZob (replicate 2 (replicate 6 (replicate 64 0))) 0 (replicate 16 0) (replicate 64 0)
    [0; 0] 0 0 false 0x12345678ABCDEF01.

(** One step of the xorshift64 generator: the new state is the value returned. *)
Definition xor_next (s : Z) : Z :=
  let s := Z.lxor s (u64 (Z.shiftl s 13)) in
  let s := Z.lxor s (Z.shiftr s 7) in
  Z.lxor s (u64 (Z.shiftl s 17)).

(** [n] successive values, and the state they leave. *)
Fixpoint xor_draws (n : nat) (s : Z) : list Z * Z :=
  match n with
  | O => ([], s)
  | S n' => let s1 := xor_next s in
            let '(l, s') := xor_draws n' s1 in (s1 :: l, s')
  end.

(** [k] rows of [n] values. *)
Fixpoint xor_rows (k n : nat) (s : Z) : list (list Z) * Z :=
  match k with
  | O => ([], s)
  | S k' => let '(r, s1) := xor_draws n s in
            let '(l, s') := xor_rows k' n s1 in (r :: l, s')
  end.

Definition zobrist_init (z : Zob) : Zob :=
  if zob_ready z then z
  else
    let '(white, s) := xor_rows 6 64 (xor_state z) in
    let '(black, s) := xor_rows 6 64 s in
    let side := xor_next s in
    let '(castle, s) := xor_draws 16 side in
    let '(ep, s) := xor_draws 64 s in
    let heir0 := xor_next s in
    let heir1 := xor_next heir0 in
    let truce := xor_next heir1 in
    let kb := xor_next truce in
    mkZob [white; black] side castle ep [heir0; heir1] truce kb true kb.

(** The tables after [engine_init]. *)
Definition zob_keys : Zob := Eval vm_compute in zobrist_init zob_start.

(** ** Hash of a board *)

Definition zobrist_pieces (z : Zob) (b : Board) : Z :=
  fold_left (fun h c =>
    fold_left (fun h t =>
      fold_left (fun h sq =>
        Z.lxor h ((((zob_piece z).[Color_to_Z c]).[PieceType_to_Z t]).[sq]))
        (bb_squares (pcs b c t)) h)
      piece_types h)
    colors 0.

(** The en-passant key is read for squares of the board only: [board_set_fen]
    gives no board for another square ([ep_key_exists] in [Fen]), and the moves
    of [Make] set none. *)
Definition zobrist_compute (z : Zob) (b : Board) : Z :=
  let h := zobrist_pieces z b in
  let h := if b_side b == BLACK then Z.lxor h (zob_side z) else h in
  let h := Z.lxor h ((zob_castle z).[b_castling b]) in
  let h := if negb (b_ep_square b =? SQ_NONE)
           then Z.lxor h ((zob_ep z).[b_ep_square b]) else h in
  let h := fold_left (fun h c =>
             if heir b c then Z.lxor h ((zob_heir_promoted z).[Color_to_Z c]) else h)
             colors h in
  let h := if b_truce_active b then Z.lxor h (zob_truce_active z) else h in
  if b_kb_unlocked b then Z.lxor h (zob_kb_unlocked z) else h.

(** [board_refresh]: aggregate bitboards and hash, from the piece bitboards. *)
Definition board_refresh (b : Board) : Board :=
  let w := fold_left (fun acc t => Z.lor acc (pcs b WHITE t)) piece_types BB_EMPTY in
  let k := fold_left (fun acc t => Z.lor acc (pcs b BLACK t)) piece_types BB_EMPTY in
  let b := set_b_occupied [w; k] b in
  let b := set_b_all (Z.lor (occ b WHITE) (occ b BLACK)) b in
  set_b_hash (zobrist_compute zob_keys b) b.

(** ** Initialisation *)

Lemma zobrist_init_ready (z : Zob) : zob_ready (zobrist_init z) = true.
Proof.
  unfold zobrist_init. destruct (zob_ready z) eqn:E; [done|].
  destruct (xor_rows 6 64 (xor_state z)) as [white s1].
  destruct (xor_rows 6 64 s1) as [black s2].
  destruct (xor_draws 16 (xor_next s2)) as [castle s3].
  destruct (xor_draws 64 s3) as [ep s4]. done.
Qed.

Lemma zobrist_init_idem (z : Zob) : zobrist_init (zobrist_init z) = zobrist_init z.
Proof. unfold zobrist_init at 1. by rewrite zobrist_init_ready. Qed.

(** Every key of the tables, in the order they are drawn. *)
Definition zob_all_keys (z : Zob) : list Z :=
  concat (concat (zob_piece z)) ++ [zob_side z] ++ zob_castle z ++ zob_ep z
  ++ zob_heir_promoted z ++ [zob_truce_active z; zob_kb_unlocked z].

Fixpoint distinctb (l : list Z) : bool :=
  match l with
  | [] => true
  | x :: l' => negb (existsb (Z.eqb x) l') && distinctb l'
  end.

Lemma distinctb_NoDup (l : list Z) : distinctb l = true -> List.NoDup l.
Proof.
  induction l as [|x l IH]; simpl; intros H; constructor;
    apply andb_true_iff in H as [H1 H2]; [|by apply IH].
  intros Hin. apply negb_true_iff in H1. apply not_true_iff_false in H1.
  apply H1. apply existsb_exists. exists x. split; [done|apply Z.eqb_refl].
Qed.

Lemma zob_keys_good :
  zobrist_init zob_start = zob_keys /\ length (zob_all_keys zob_keys) = 853%nat /\
  List.NoDup (zob_all_keys zob_keys) /\
  Forall (fun k => 0 < k < 2 ^ 64) (zob_all_keys zob_keys).
Proof.
  split_and!; [by vm_compute..|by apply distinctb_NoDup; vm_compute|].
  apply List.Forall_forall. intros k Hk.
  assert (forallb (fun k => (0 <? k) && (k <? 2 ^ 64)) (zob_all_keys zob_keys) = true) as H
    by by vm_compute.
  rewrite forallb_forall in H. specialize (H k Hk). zb.
Qed.

Lemma piece_keys_in_table :
  forallb (fun c => forallb (fun t => forallb (fun sq =>
    0 <? ((zob_piece zob_keys).[Color_to_Z c].[PieceType_to_Z t]).[sq]) (seqZ 0 64)) piece_types)
    colors = true.
Proof. vm_compute. reflexivity. Qed.

#[global] Opaque zob_keys.

(** ** Incremental behaviour *)

Lemma fold_lxor_acc {A} (f : A -> Z) (l : list A) (h : Z) :
  fold_left (fun h x => Z.lxor h (f x)) l h = Z.lxor h (fold_left (fun h x => Z.lxor h (f x)) l 0).
Proof.
  revert h. induction l as [|x l IH]; intros h; cbn [fold_left].
  - by rewrite Z.lxor_0_r.
  - rewrite IH, (IH (Z.lxor 0 (f x))), Z.lxor_0_l. apply Z.lxor_assoc.
Qed.

(** The xor of [f] over the set bits of a word. *)
Definition xor_bits (f : Z -> Z) (bb : Bitboard) : Z :=
  fold_left (fun h sq => Z.lxor h (f sq)) (bb_squares bb) 0.

Lemma xor_filter_flip (f : Z -> Z) (l : list Z) (P Q : Z -> bool) (s : Z) :
  List.NoDup l -> In s l -> P s = false -> Q s = true ->
  (forall n, n <> s -> Q n = P n) ->
  fold_left (fun h x => Z.lxor h (f x)) (List.filter Q l) 0 =
  Z.lxor (fold_left (fun h x => Z.lxor h (f x)) (List.filter P l) 0) (f s).
Proof.
  intros Hnd Hin HP HQ Hext.
  assert (Hsame : forall l', ~ In s l' -> List.filter Q l' = List.filter P l').
  { intros l' Hs. apply filter_ext_in. intros n Hn. apply Hext. congruence. }
  induction Hnd as [|x l Hx Hnd IH]; [done|]. cbn [List.filter].
  destruct (Z.eqb_spec x s) as [->|Hne].
  - rewrite HP, HQ. cbn [fold_left]. rewrite fold_lxor_acc, Z.lxor_0_l, Hsame by done.
    apply Z.lxor_comm.
  - destruct Hin as [|Hin]; [done|]. specialize (IH Hin).
    rewrite (Hext x) by done. destruct (P x); [|done]. cbn [fold_left].
    rewrite !(fold_lxor_acc f _ (Z.lxor 0 _)), !Z.lxor_0_l, IH.
    by rewrite Z.lxor_assoc.
Qed.

Lemma xor_bits_set (f : Z -> Z) (bb s : Z) :
  0 <= bb < 2 ^ 64 -> on_board s -> Z.testbit bb s = false ->
  xor_bits f (BB_SET bb s) = Z.lxor (xor_bits f bb) (f s).
Proof.
  intros Hbb Hs Hbit. unfold xor_bits.
  assert (0 <= BB_SET bb s < 2 ^ 64).
  { apply bits_bounded; [lia|]. intros n Hn. rewrite BB_SET_testbit, testbit_above_64 by sq_lia.
    simpl. sq_lia. }
  rewrite !bb_squares_filter by done. apply xor_filter_flip.
  - apply NoDup_ListNoDup, NoDup_seqZ.
  - apply list_elem_of_In, elem_of_seqZ. sq_lia.
  - done.
  - rewrite BB_SET_testbit by sq_lia. by rewrite Z.eqb_refl, orb_true_r.
  - intros n Hn. destruct (Z.ltb_spec n 0); [by rewrite !Z.testbit_neg_r|].
    rewrite BB_SET_testbit by sq_lia. replace (n =? s) with false by lia. apply orb_false_r.
Qed.

Definition piece_key (z : Zob) (c : Color) (t : PieceType) (sq : Square) : Z :=
  (((zob_piece z).[Color_to_Z c]).[PieceType_to_Z t]).[sq].

(** The piece part of the hash is the xor of twelve independent terms. *)
Lemma piece_key_nonzero (c : Color) (t : PieceType) (sq : Square) :
  real_color c -> real_type t -> on_board sq -> 0 < piece_key zob_keys c t sq.
Proof.
  intros Hc Ht Hs. pose proof piece_keys_in_table as H. rewrite forallb_forall in H.
  assert (In c colors) as Hin by (destruct c; real || simpl; auto). specialize (H c Hin).
  rewrite forallb_forall in H.
  assert (In t piece_types) as Hin' by (destruct t; try done; simpl; auto 10). specialize (H t Hin').
  rewrite forallb_forall in H. apply Z.ltb_lt, H. apply list_elem_of_In, elem_of_seqZ.
  unfold on_board in Hs. lia.
Qed.

Lemma zobrist_pieces_xor (z : Zob) (b : Board) :
  zobrist_pieces z b =
  fold_left (fun h ct => Z.lxor h (xor_bits (piece_key z ct.1 ct.2) (pcs b ct.1 ct.2)))
    (list_prod colors piece_types) 0.
Proof.
  unfold zobrist_pieces, colors, piece_types, xor_bits. cbn [fold_left list_prod map app fst snd].
  unfold piece_key.
  repeat match goal with
  | |- context [fold_left _ (bb_squares (pcs b ?c ?t)) ?h] =>
      lazymatch h with 0 => fail | _ => rewrite (fold_lxor_acc _ (bb_squares (pcs b c t)) h) end
  end.
  by rewrite !Z.lxor_0_l.
Qed.

(** Xoring [k] into the term of one element of a duplicate-free list xors [k]
    into the whole. *)
Lemma fold_lxor_update {A} (f g : A -> Z) (l : list A) (a : A) (k : Z) :
  List.NoDup l -> In a l -> g a = Z.lxor (f a) k -> (forall x, x <> a -> g x = f x) ->
  fold_left (fun h x => Z.lxor h (g x)) l 0 =
  Z.lxor (fold_left (fun h x => Z.lxor h (f x)) l 0) k.
Proof.
  intros Hnd Hin Ha Hext.
  assert (Hsame : forall l' h, ~ In a l' -> fold_left (fun h x => Z.lxor h (g x)) l' h =
                               fold_left (fun h x => Z.lxor h (f x)) l' h).
  { induction l' as [|x l' IH]; intros h Hn; [done|]. cbn [fold_left].
    rewrite Hext by (intros ->; apply Hn; by left). apply IH. intros ?. apply Hn. by right. }
  induction Hnd as [|x l Hx Hnd IH]; [done|]. cbn [fold_left].
  rewrite !(fold_lxor_acc _ l (Z.lxor 0 _)), !Z.lxor_0_l. destruct Hin as [->|Hin].
  - rewrite Ha, Hsame, Z.lxor_assoc, (Z.lxor_comm k) by done. by rewrite Z.lxor_assoc.
  - rewrite (Hext x) by congruence. rewrite IH by done. by rewrite Z.lxor_assoc.
Qed.

Lemma pcs_board_place (b : Board) (sq : Square) (c c' : Color) (t t' : PieceType) :
  board_inv b -> real_color c -> real_type t ->
  pcs (board_place b sq c t) c' t' =
  if decide ((c', t') = (c, t)) then BB_SET (pcs b c' t') sq else pcs b c' t'.
Proof.
  intros Hinv **. rewrite <- (inv_image _ Hinv).
  destruct c, t; try done; by destruct c', t'.
Qed.

(** The non-piece part of the hash depends on the scalar fields only. *)
Definition zobrist_rest (z : Zob) (b : Board) : Z :=
  zobrist_compute z (with_mailbox [] b).

Lemma zobrist_split (z : Zob) (b : Board) :
  zobrist_compute z b = Z.lxor (zobrist_pieces z b) (zobrist_rest z b).
Proof.
  unfold zobrist_rest, zobrist_compute.
  change (zobrist_pieces z (with_mailbox [] b)) with 0.
  change (b_side (with_mailbox [] b)) with (b_side b).
  change (b_castling (with_mailbox [] b)) with (b_castling b).
  change (b_ep_square (with_mailbox [] b)) with (b_ep_square b).
  change (b_truce_active (with_mailbox [] b)) with (b_truce_active b).
  change (b_kb_unlocked (with_mailbox [] b)) with (b_kb_unlocked b).
  change (heir (with_mailbox [] b)) with (heir b).
  unfold colors. cbn [fold_left]. apply bits_ext. intros n Hn.
  repeat match goal with |- context [if ?c then _ else _] => destruct c end;
  rewrite ?Z.lxor_spec, ?Z.testbit_0_l;
  repeat match goal with |- context [Z.testbit ?x n] => destruct (Z.testbit x n) end; done.
Qed.

(** Placing a piece on an empty square xors its key into the hash. *)
Lemma zobrist_place (z : Zob) (b : Board) (sq : Square) (c : Color) (t : PieceType) :
  board_inv b -> on_board sq -> real_color c -> real_type t -> mb b sq = PIECE_EMPTY ->
  zobrist_compute z (board_place b sq c t) =
  Z.lxor (zobrist_compute z b) (piece_key z c t sq).
Proof.
  intros Hinv Hsq Hc Ht He. rewrite !zobrist_split.
  change (zobrist_rest z (board_place b sq c t)) with (zobrist_rest z b).
  rewrite !zobrist_pieces_xor.
  rewrite (fold_lxor_update (fun ct => xor_bits (piece_key z ct.1 ct.2) (pcs b ct.1 ct.2))
    _ _ (c, t) (piece_key z c t sq)).
  - by rewrite !Z.lxor_assoc, (Z.lxor_comm (piece_key _ _ _ _)).
  - apply NoDup_ListNoDup. apply (bool_decide_unpack _). by vm_compute.
  - by destruct c, t; try done; simpl; tauto.
  - cbn [fst snd]. rewrite pcs_board_place, decide_True by done.
    apply xor_bits_set; [by apply pcs_bound|done|].
    rewrite pcs_testbit by done. rewrite He. apply Z.eqb_neq.
    intros E. by apply (PIECE_MAKE_not_empty c t).
  - intros [c' t'] Hne. cbn [fst snd]. by rewrite pcs_board_place, decide_False by done.
Qed.

(** Taking a piece off its square xors its key out of the hash. *)
Lemma zobrist_remove (z : Zob) (b : Board) (sq : Square) (c : Color) (t : PieceType) :
  board_inv b -> on_board sq -> real_color c -> real_type t -> mb b sq = PIECE_MAKE c t ->
  zobrist_compute z (board_remove b sq) =
  Z.lxor (zobrist_compute z b) (piece_key z c t sq).
Proof.
  intros Hinv Hsq Hc Ht Hp.
  assert (Hr := remove_image b Hinv sq Hsq).
  assert (Hm : mb (board_remove b sq) sq = PIECE_EMPTY).
  { rewrite Hr, mb_with_mailbox. apply znth_zset_eq. apply mailbox_range; [apply Hinv|done]. }
  assert (Hb : board_place (board_remove b sq) sq c t = b).
  { rewrite place_image by auto with board. rewrite Hr. cbn [b_mailbox with_mailbox].
    change (b_mailbox (with_mailbox ?l _)) with l.
    rewrite zset_zset_eq, zset_same; [apply Hinv| |done].
    apply mailbox_range; [apply Hinv|done]. }
  rewrite <- Hb at 2. rewrite zobrist_place by auto with board.
  by rewrite Z.lxor_assoc, Z.lxor_nilpotent, Z.lxor_0_r.
Qed.

(** ** [board_refresh] agrees with the invariant *)

Lemma occ_union (b : Board) (c : Color) :
  board_inv b -> real_color c ->
  fold_left (fun acc t => Z.lor acc (pcs b c t)) piece_types BB_EMPTY = occ b c.
Proof.
  intros Hinv Hc. apply bits_ext. intros n Hn. unfold piece_types, BB_EMPTY.
  cbn [fold_left]. rewrite !Z.lor_spec, Z.testbit_0_l. destruct (Z.ltb_spec n 64).
  - rewrite !pcs_testbit, occ_testbit by (done || sq_lia).
    destruct (mb_valid b Hinv n) as [->|(c' & t' & Hc' & Ht' & ->)]; [sq_lia|destruct c; real|].
    destruct c, c', t'; real.
  - by rewrite !testbit_above_64 by auto with board.
Qed.

Lemma all_union (b : Board) : board_inv b -> Z.lor (occ b WHITE) (occ b BLACK) = b_all b.
Proof.
  intros Hinv. apply bits_ext. intros n Hn. rewrite !Z.lor_spec. destruct (Z.ltb_spec n 64).
  - rewrite !occ_testbit, all_testbit by (done || sq_lia).
    destruct (mb_valid b Hinv n) as [->|(c' & t' & Hc' & Ht' & ->)]; [sq_lia|done|].
    destruct c', t'; real.
  - by rewrite !testbit_above_64 by auto with board.
Qed.

Lemma board_refresh_hash (b : Board) :
  board_inv b -> board_refresh b = set_b_hash (zobrist_compute zob_keys b) b.
Proof.
  intros Hinv. unfold board_refresh. rewrite !occ_union by done.
  assert (Ho : set_b_occupied [occ b WHITE; occ b BLACK] b = b).
  { rewrite <- (inv_image _ Hinv) at 4. by rewrite <- (inv_image _ Hinv) at 1 2 3. }
  rewrite Ho, all_union by done. by destruct b.
Qed.
