(* ===== verification/Attacks.v ===== *)
(** * Attack detection ([board_attacks.c])

    The knight, king and pawn tables, the sliding-piece generators, and the
    question every legality check asks: is a square attacked by a side?  The
    code looks outwards from the attacked square; [attacks_from] looks from
    each attacker, and the two agree. *)

From stdpp Require Import base numbers list option.
From Stdlib Require Import ZArith Lia Bool.
From S2P Require Import Prelude Types Board.

(** ** Tables *)

(** [nr >= 0 && nr < 8 && nc >= 0 && nc < 8] *)
Definition in_grid (nr nc : Z) : bool :=
  (0 <=? nr) && (nr <? 8) && (0 <=? nc) && (nc <? 8).

Definition kn : list (Z * Z) :=
  [(-2,-1); (-2,1); (-1,-2); (-1,2); (1,-2); (1,2); (2,-1); (2,1)].

(** The loops over [dr] and [dc] from -1 to 1, without (0,0). *)
Definition king_steps : list (Z * Z) :=
  [(-1,-1); (-1,0); (-1,1); (0,-1); (0,1); (1,-1); (1,0); (1,1)].

Definition step_targets (steps : list (Z * Z)) (sq : Square) : Bitboard :=
  fold_left (fun bb d =>
    let nr := SQ_ROW sq + d.1 in
    let nc := SQ_COL sq + d.2 in
    if in_grid nr nc then BB_SET bb (SQ nr nc) else bb) steps BB_EMPTY.

Definition pawn_targets_white (sq : Square) : Bitboard :=
  let r := SQ_ROW sq in
  let c := SQ_COL sq in
  let bb := BB_EMPTY in
  let bb := if (r <? 7) && (0 <? c) then BB_SET bb (SQ (r + 1) (c - 1)) else bb in
  if (r <? 7) && (c <? 7) then BB_SET bb (SQ (r + 1) (c + 1)) else bb.

Definition pawn_targets_black (sq : Square) : Bitboard :=
  let r := SQ_ROW sq in
  let c := SQ_COL sq in
  let bb := BB_EMPTY in
  let bb := if (0 <? r) && (0 <? c) then BB_SET bb (SQ (r - 1) (c - 1)) else bb in
  if (0 <? r) && (c <? 7) then BB_SET bb (SQ (r - 1) (c + 1)) else bb.

Record AttackTables := mkTables {
  t_knight : list Bitboard;
  t_king : list Bitboard;
  t_pawn : list (list Bitboard);
  attacks_ready : bool
}.

(** The tables at program start. *)
Definition tables_start : AttackTables :=
  mkTables (replicate 64 0) (replicate 64 0) (replicate 2 (replicate 64 0)) false.

Definition init_attacks (t : AttackTables) : AttackTables :=
  if attacks_ready t then t
  else mkTables (map (step_targets kn) (seqZ 0 64)) (map (step_targets king_steps) (seqZ 0 64))
         [map pawn_targets_white (seqZ 0 64); map pawn_targets_black (seqZ 0 64)] true.

(** The tables once [init_attacks] has run, which every reader ensures. *)
Definition tables : AttackTables := Eval vm_compute in init_attacks tables_start.

Definition knight_attacks (sq : Square) : Bitboard := (t_knight tables).[sq].
Definition king_attacks (sq : Square) : Bitboard := (t_king tables).[sq].
Definition pawn_attacks (c : Color) (sq : Square) : Bitboard :=
  ((t_pawn tables).[Color_to_Z c]).[sq].

(** ** Sliding pieces *)

(** The [while] loop along one direction; it leaves the grid after at most
    seven squares, so eight rounds are enough. *)
Fixpoint slide (fuel : nat) (occ : Bitboard) (dr dc nr nc : Z) (attacks : Bitboard) : Bitboard :=
  match fuel with
  | O => attacks
  | S f =>
      if in_grid nr nc then
        let s := SQ nr nc in
        let attacks := BB_SET attacks s in
        if BB_HAS occ s then attacks
        else slide f occ dr dc (nr + dr) (nc + dc) attacks
      else attacks
  end.

Definition slide_dirs (dirs : list (Z * Z)) (sq : Square) (occ : Bitboard) : Bitboard :=
  fold_left (fun attacks d =>
    slide 8 occ d.1 d.2 (SQ_ROW sq + d.1) (SQ_COL sq + d.2) attacks) dirs BB_EMPTY.

Definition bishop_dirs : list (Z * Z) := [(1,1); (1,-1); (-1,1); (-1,-1)].
Definition rook_dirs : list (Z * Z) := [(1,0); (-1,0); (0,1); (0,-1)].

Definition bishop_attacks_calc (sq : Square) (occ : Bitboard) : Bitboard :=
  slide_dirs bishop_dirs sq occ.
Definition rook_attacks_calc (sq : Square) (occ : Bitboard) : Bitboard :=
  slide_dirs rook_dirs sq occ.

(** ** Attack queries *)

(** Save the Queen: drop the prisoner queens. *)
Definition stq_effective_queens (b : Board) (by_ : Color) : Bitboard :=
  let q := pcs b by_ QUEEN in
  if b_mod b == MOD_SAVE_QUEEN then
    fold_left (fun eq qsq =>
      if negb (stq_is_own_half qsq by_) then Z.land eq (bb_not (BB_SQ qsq)) else eq)
      (bb_squares q) q
  else q.

Definition board_square_attacked (b : Board) (sq : Square) (by_ : Color) : bool :=
  let kb_phase1 := (b_mod b == MOD_KINGS_BATTLE) && negb (b_kb_unlocked b) in
  if negb kb_phase1 && bb_nonzero (Z.land (knight_attacks sq) (pcs b by_ KNIGHT)) then true
  else if bb_nonzero (Z.land (king_attacks sq) (pcs b by_ KING)) then true
  else if (if b_mod b == MOD_MERCENARY
           then bb_nonzero (Z.land (king_attacks sq) (pcs b by_ PAWN))
           else bb_nonzero (Z.land (pawn_attacks (color_opposite by_) sq) (pcs b by_ PAWN)))
  then true
  else if kb_phase1 then false
  else
    let effective_queens := stq_effective_queens b by_ in
    let diag := bishop_attacks_calc sq (b_all b) in
    if bb_nonzero (Z.land diag (Z.lor (pcs b by_ BISHOP) effective_queens)) then true
    else
      let orth := rook_attacks_calc sq (b_all b) in
      if bb_nonzero (Z.land orth (Z.lor (pcs b by_ ROOK) effective_queens)) then true
      else false.

Definition board_in_check (b : Board) (side : Color) : bool :=
  let kingBB := pcs b side KING in
  if kingBB =? BB_EMPTY then false
  else if (b_mod b == MOD_HEIR) && negb (heir_check_applies b side) then false
  else if (b_mod b == MOD_TRUCE) && b_truce_active b then false
  else board_square_attacked b (bb_lsb kingBB) (color_opposite side).

(** ** Geometry of the tables *)

Lemma in_grid_spec (nr nc : Z) : in_grid nr nc = true <-> 0 <= nr < 8 /\ 0 <= nc < 8.
Proof. unfold in_grid. rewrite !andb_true_iff, !Z.leb_le, !Z.ltb_lt. lia. Qed.

(** [n] is one of the [steps] away from [sq], on the board. *)
Definition step_away (steps : list (Z * Z)) (sq n : Square) : bool :=
  existsb (fun d => (SQ_ROW n =? SQ_ROW sq + d.1) && (SQ_COL n =? SQ_COL sq + d.2)) steps.

Definition pawn_step (c : Color) (sq n : Square) : bool :=
  (SQ_ROW n =? SQ_ROW sq + (if c == WHITE then 1 else -1)) &&
  (Z.abs (SQ_COL n - SQ_COL sq) =? 1).

Lemma table_spec (tbl : Z -> Z) (rel : Z -> Z -> bool) :
  forallb (fun i => forallb (fun j => eqb (Z.testbit (tbl i) j) (rel i j)) (seqZ 0 64))
    (seqZ 0 64) = true ->
  forall sq n, on_board sq -> on_board n -> Z.testbit (tbl sq) n = rel sq n.
Proof.
  intros H sq n Hs Hn. apply eqb_prop.
  by apply (forall_range2 (fun i j => eqb (Z.testbit (tbl i) j) (rel i j)) 64 64).
Qed.

Lemma knight_attacks_spec (sq n : Square) :
  on_board sq -> on_board n -> Z.testbit (knight_attacks sq) n = step_away kn sq n.
Proof. apply (table_spec knight_attacks). by vm_compute. Qed.

Lemma king_attacks_spec (sq n : Square) :
  on_board sq -> on_board n -> Z.testbit (king_attacks sq) n = step_away king_steps sq n.
Proof. apply (table_spec king_attacks). by vm_compute. Qed.

Lemma pawn_attacks_spec (c : Color) (sq n : Square) :
  real_color c -> on_board sq -> on_board n ->
  Z.testbit (pawn_attacks c sq) n = pawn_step c sq n.
Proof. destruct c; [| |done]; intros _; apply (table_spec (pawn_attacks _)); by vm_compute. Qed.

Lemma table_sym (tbl tbl' : Z -> Z) :
  forallb (fun i => forallb (fun j => eqb (Z.testbit (tbl i) j) (Z.testbit (tbl' j) i))
    (seqZ 0 64)) (seqZ 0 64) = true ->
  forall sq n, on_board sq -> on_board n -> Z.testbit (tbl sq) n = Z.testbit (tbl' n) sq.
Proof.
  intros H sq n Hs Hn. apply eqb_prop.
  by apply (forall_range2 (fun i j => eqb (Z.testbit (tbl i) j) (Z.testbit (tbl' j) i)) 64 64).
Qed.

Lemma knight_attacks_sym (sq n : Square) :
  on_board sq -> on_board n ->
  Z.testbit (knight_attacks sq) n = Z.testbit (knight_attacks n) sq.
Proof. apply table_sym. by vm_compute. Qed.

Lemma king_attacks_sym (sq n : Square) :
  on_board sq -> on_board n -> Z.testbit (king_attacks sq) n = Z.testbit (king_attacks n) sq.
Proof. apply table_sym. by vm_compute. Qed.

Lemma pawn_attacks_sym (c : Color) (sq n : Square) :
  real_color c -> on_board sq -> on_board n ->
  Z.testbit (pawn_attacks (color_opposite c) sq) n = Z.testbit (pawn_attacks c n) sq.
Proof. destruct c; [| |done]; intros _; apply table_sym; by vm_compute. Qed.

Lemma table_bound (tbl : Z -> Z) :
  forallb (fun i => (0 <=? tbl i) && (tbl i <? 2 ^ 64)) (seqZ 0 64) = true ->
  forall sq, on_board sq -> 0 <= tbl sq < 2 ^ 64.
Proof. intros H sq Hs. eapply forall_range in H; [|exact Hs]. zb. Qed.

Lemma knight_attacks_bound (sq : Square) : on_board sq -> 0 <= knight_attacks sq < 2 ^ 64.
Proof. apply table_bound. by vm_compute. Qed.
Lemma king_attacks_bound (sq : Square) : on_board sq -> 0 <= king_attacks sq < 2 ^ 64.
Proof. apply table_bound. by vm_compute. Qed.
Lemma pawn_attacks_bound (c : Color) (sq : Square) :
  real_color c -> on_board sq -> 0 <= pawn_attacks c sq < 2 ^ 64.
Proof. destruct c; [| |done]; intros _; apply table_bound; by vm_compute. Qed.

Lemma init_attacks_idem (t : AttackTables) : init_attacks (init_attacks t) = init_attacks t.
Proof. unfold init_attacks. by destruct (attacks_ready t) eqn:E; rewrite ?E. Qed.

Lemma tables_init : init_attacks tables_start = tables.
Proof. by vm_compute. Qed.

#[global] Opaque tables.

(** ** The sliding loop *)

(** [s] is the [k]-th square along the ray, and the ray is free before it. *)
Definition ray_at (occ : Bitboard) (dr dc nr nc k s : Z) : Prop :=
  in_grid (nr + k * dr) (nc + k * dc) = true /\ s = SQ (nr + k * dr) (nc + k * dc) /\
  (forall j, 0 <= j < k -> in_grid (nr + j * dr) (nc + j * dc) = true /\
                           Z.testbit occ (SQ (nr + j * dr) (nc + j * dc)) = false).

Lemma slide_spec (fuel : nat) (occ dr dc : Z) :
  forall nr nc attacks n, 0 <= n ->
  Z.testbit (slide fuel occ dr dc nr nc attacks) n = true <->
  Z.testbit attacks n = true \/ exists k, 0 <= k < Z.of_nat fuel /\ ray_at occ dr dc nr nc k n.
Proof.
  induction fuel as [|f IH]; intros nr nc attacks n Hn; cbn [slide].
  { split; [by left|]. intros [?|(k & ? & _)]; [done|lia]. }
  destruct (in_grid nr nc) eqn:Hg.
  2:{ split; [by left|]. intros [?|(k & Hk & Hat & _ & Hfree)]; [done|].
      destruct (Z.eqb_spec k 0) as [->|].
      - rewrite !Z.mul_0_l, !Z.add_0_r in Hat. congruence.
      - destruct (Hfree 0) as [Hg0 _]; [lia|]. rewrite !Z.mul_0_l, !Z.add_0_r in Hg0. congruence. }
  pose proof (proj1 (in_grid_spec _ _) Hg) as [Hr Hc].
  pose proof (SQ_on_board nr nc Hr Hc) as Hs.
  assert (H0 : Z.testbit (BB_SET attacks (SQ nr nc)) n = true <->
               Z.testbit attacks n = true \/ ray_at occ dr dc nr nc 0 n).
  { rewrite BB_SET_testbit, orb_true_iff, Z.eqb_eq by done. unfold ray_at.
    rewrite !Z.mul_0_l, !Z.add_0_r. intuition lia. }
  rewrite BB_HAS_testbit by sq_lia. destruct (Z.testbit occ (SQ nr nc)) eqn:Ho.
  - rewrite H0. split; (intros [?|H]; [by left|right]).
    + exists 0. split; [lia|done].
    + destruct H as (k & Hk & Hat & He & Hfree).
      destruct (Z.eqb_spec k 0) as [->|]; [done|].
      destruct (Hfree 0) as [_ Hf]; [lia|]. rewrite !Z.mul_0_l, !Z.add_0_r in Hf. congruence.
  - rewrite IH, H0 by done. split.
    + intros [[?|?]|(k & Hk & Hat & He & Hfree)]; [by left|right; exists 0; split; [lia|done]|].
      right. exists (k + 1). split; [lia|]. unfold ray_at.
      replace (nr + (k + 1) * dr) with (nr + dr + k * dr) by lia.
      replace (nc + (k + 1) * dc) with (nc + dc + k * dc) by lia.
      split_and!; [done|done|]. intros j Hj.
      destruct (Z.eqb_spec j 0) as [->|]; [by rewrite !Z.mul_0_l, !Z.add_0_r|].
      specialize (Hfree (j - 1) ltac:(lia)).
      by replace (nr + dr + (j - 1) * dr) with (nr + j * dr) in Hfree by lia;
         replace (nc + dc + (j - 1) * dc) with (nc + j * dc) in Hfree by lia.
    + intros [?|(k & Hk & Hat & He & Hfree)]; [by left; left|].
      destruct (Z.eqb_spec k 0) as [->|]; [by left; right|right].
      exists (k - 1). split; [lia|]. unfold ray_at.
      replace (nr + dr + (k - 1) * dr) with (nr + k * dr) by lia.
      replace (nc + dc + (k - 1) * dc) with (nc + k * dc) by lia.
      split_and!; [done|done|]. intros j Hj. specialize (Hfree (j + 1) ltac:(lia)).
      by replace (nr + (j + 1) * dr) with (nr + dr + j * dr) in Hfree by lia;
         replace (nc + (j + 1) * dc) with (nc + dc + j * dc) in Hfree by lia.
Qed.

(** ** Sliding pieces: specification

    [n] is reached from [sq] when some direction leads to it with every square
    strictly between them free.  The target itself may be occupied, and there
    is no bound on the distance but the edge of the board. *)
Definition slides (dirs : list (Z * Z)) (occ : Bitboard) (sq n : Square) : Prop :=
  exists dr dc k, In (dr, dc) dirs /\ 1 <= k /\
    in_grid (SQ_ROW sq + k * dr) (SQ_COL sq + k * dc) = true /\
    n = SQ (SQ_ROW sq + k * dr) (SQ_COL sq + k * dc) /\
    (forall j, 1 <= j < k ->
       Z.testbit occ (SQ (SQ_ROW sq + j * dr) (SQ_COL sq + j * dc)) = false).

(** Unit directions, closed under reversal. *)
Definition good_dirs (dirs : list (Z * Z)) : Prop :=
  forall dr dc, In (dr, dc) dirs ->
  In (- dr, - dc) dirs /\ -1 <= dr <= 1 /\ -1 <= dc <= 1 /\ (dr <> 0 \/ dc <> 0).

Lemma bishop_dirs_good : good_dirs bishop_dirs.
Proof.
  intros dr dc H. simpl in H.
  repeat destruct H as [H|H]; [..|done]; injection H as <- <-; simpl; intuition lia.
Qed.
Lemma rook_dirs_good : good_dirs rook_dirs.
Proof.
  intros dr dc H. simpl in H.
  repeat destruct H as [H|H]; [..|done]; injection H as <- <-; simpl; intuition lia.
Qed.

Section Sliding.
Context (dirs : list (Z * Z)) (Hdirs : good_dirs dirs).

Lemma slide_dirs_fold (l : list (Z * Z)) (sq occ attacks n : Z) :
  0 <= n ->
  Z.testbit (fold_left (fun attacks d =>
    slide 8 occ d.1 d.2 (SQ_ROW sq + d.1) (SQ_COL sq + d.2) attacks) l attacks) n = true <->
  Z.testbit attacks n = true \/ exists d k, In d l /\ 0 <= k < 8 /\
    ray_at occ d.1 d.2 (SQ_ROW sq + d.1) (SQ_COL sq + d.2) k n.
Proof.
  intros Hn. revert attacks. induction l as [|d l IH]; intros attacks; cbn [fold_left].
  - split; [by left|]. intros [?|(d & k & [] & _)]. done.
  - rewrite IH, slide_spec by done. simpl (Z.of_nat 8). split.
    + intros [[?|(k & Hk & Hr)]|(d' & k & Hd & Hk & Hr)]; [by left|right..].
      * exists d, k. split; [by left|done].
      * exists d', k. split; [by right|done].
    + intros [?|(d' & k & [->|Hd] & Hk & Hr)]; [by left; left|left; right|right].
      * by exists k.
      * by exists d', k.
Qed.

(** Between two squares of the grid a unit ray stays in the grid. *)
Lemma ray_convex (r c dr dc j k : Z) :
  -1 <= dr <= 1 -> -1 <= dc <= 1 -> 0 <= j <= k -> 0 <= r < 8 -> 0 <= c < 8 ->
  in_grid (r + k * dr) (c + k * dc) = true -> in_grid (r + j * dr) (c + j * dc) = true.
Proof. rewrite !in_grid_spec. intros. nia. Qed.

Lemma slide_dirs_spec (sq occ n : Z) :
  on_board sq -> 0 <= n ->
  Z.testbit (slide_dirs dirs sq occ) n = true <-> slides dirs occ sq n.
Proof.
  intros Hsq Hn. unfold slide_dirs. rewrite slide_dirs_fold by done.
  pose proof (SQ_ROW_bound sq Hsq) as Hr. pose proof (SQ_COL_bound sq) as Hc.
  unfold BB_EMPTY. rewrite Z.testbit_0_l. split.
  - intros [?|([dr dc] & k & Hd & Hk & Hat & He & Hfree)]; [done|].
    exists dr, dc, (k + 1). cbn [fst snd] in *.
    replace (SQ_ROW sq + (k + 1) * dr) with (SQ_ROW sq + dr + k * dr) by lia.
    replace (SQ_COL sq + (k + 1) * dc) with (SQ_COL sq + dc + k * dc) by lia.
    split_and!; [done|lia|done|done|]. intros j Hj.
    destruct (Hfree (j - 1)) as [_ Hf]; [lia|].
    by replace (SQ_ROW sq + dr + (j - 1) * dr) with (SQ_ROW sq + j * dr) in Hf by lia;
       replace (SQ_COL sq + dc + (j - 1) * dc) with (SQ_COL sq + j * dc) in Hf by lia.
  - intros (dr & dc & k & Hd & Hk & Hat & He & Hfree). right.
    destruct (Hdirs dr dc Hd) as (_ & Hdr & Hdc & Hnz).
    pose proof (proj1 (in_grid_spec _ _) Hat).
    exists (dr, dc), (k - 1). cbn [fst snd]. split; [done|]. split; [nia|]. unfold ray_at.
    replace (SQ_ROW sq + dr + (k - 1) * dr) with (SQ_ROW sq + k * dr) by lia.
    replace (SQ_COL sq + dc + (k - 1) * dc) with (SQ_COL sq + k * dc) by lia.
    split_and!; [done|done|]. intros j Hj.
    replace (SQ_ROW sq + dr + j * dr) with (SQ_ROW sq + (j + 1) * dr) by lia.
    replace (SQ_COL sq + dc + j * dc) with (SQ_COL sq + (j + 1) * dc) by lia.
    split; [|apply Hfree; lia]. apply (ray_convex _ _ _ _ _ k); lia || done.
Qed.

Lemma slides_on_board (occ sq n : Z) : slides dirs occ sq n -> on_board n.
Proof.
  intros (dr & dc & k & _ & _ & Hat & -> & _). apply in_grid_spec in Hat as [? ?].
  by apply SQ_on_board.
Qed.

(** Reversing a ray: sliding is symmetric. *)
Lemma slides_sym (occ sq n : Z) :
  on_board sq -> slides dirs occ sq n -> slides dirs occ n sq.
Proof.
  intros Hsq (dr & dc & k & Hd & Hk & Hat & -> & Hfree).
  destruct (Hdirs dr dc Hd) as (Hneg & Hdr & Hdc & _).
  pose proof (SQ_ROW_bound sq Hsq). pose proof (SQ_COL_bound sq).
  pose proof (proj1 (in_grid_spec _ _) Hat).
  exists (- dr), (- dc), k. rewrite SQ_ROW_SQ, SQ_COL_SQ by lia.
  replace (SQ_ROW sq + k * dr + k * - dr) with (SQ_ROW sq) by lia.
  replace (SQ_COL sq + k * dc + k * - dc) with (SQ_COL sq) by lia.
  split_and!; [done|lia|by apply in_grid_spec| |].
  - rewrite SQ_small by lia. apply SQ_ROW_COL.
  - intros j Hj. specialize (Hfree (k - j) ltac:(lia)).
    by replace (SQ_ROW sq + k * dr + j * - dr) with (SQ_ROW sq + (k - j) * dr) by lia;
       replace (SQ_COL sq + k * dc + j * - dc) with (SQ_COL sq + (k - j) * dc) by lia.
Qed.

Lemma slide_dirs_sym (occ sq n : Z) :
  on_board sq -> on_board n ->
  Z.testbit (slide_dirs dirs sq occ) n = Z.testbit (slide_dirs dirs n occ) sq.
Proof.
  intros Hs Hn. apply eq_iff_eq_true. rewrite !slide_dirs_spec by sq_lia.
  split; by apply slides_sym.
Qed.

Lemma slide_dirs_bound (sq occ : Z) : on_board sq -> 0 <= slide_dirs dirs sq occ < 2 ^ 64.
Proof.
  intros Hsq. apply bits_bounded; [lia|]. intros n Hn. apply not_true_iff_false.
  rewrite slide_dirs_spec by (done || lia). intros H%slides_on_board. sq_lia.
Qed.
End Sliding.

Lemma bishop_attacks_bound (sq occ : Z) :
  on_board sq -> 0 <= bishop_attacks_calc sq occ < 2 ^ 64.
Proof. apply slide_dirs_bound, bishop_dirs_good. Qed.
Lemma rook_attacks_bound (sq occ : Z) :
  on_board sq -> 0 <= rook_attacks_calc sq occ < 2 ^ 64.
Proof. apply slide_dirs_bound, rook_dirs_good. Qed.

#[export] Hint Resolve knight_attacks_bound king_attacks_bound pawn_attacks_bound
  bishop_attacks_bound rook_attacks_bound : board.

(** ** Who attacks a square

    [attacks_from b from n]: the piece on [from] attacks [n], by the rule of
    its own type seen from its own square. *)

Definition stq_prisoner (b : Board) (c : Color) (sq : Square) : bool :=
  (b_mod b == MOD_SAVE_QUEEN) && negb (stq_is_own_half sq c).

Definition kb_phase1 (b : Board) : bool :=
  (b_mod b == MOD_KINGS_BATTLE) && negb (b_kb_unlocked b).

Definition piece_attacks (b : Board) (c : Color) (t : PieceType) (from : Square) : Bitboard :=
  match t with
  | PAWN => if b_mod b == MOD_MERCENARY then king_attacks from else pawn_attacks c from
  | KING => king_attacks from
  | KNIGHT => if kb_phase1 b then 0 else knight_attacks from
  | BISHOP => if kb_phase1 b then 0 else bishop_attacks_calc from (b_all b)
  | ROOK => if kb_phase1 b then 0 else rook_attacks_calc from (b_all b)
  | QUEEN => if kb_phase1 b || stq_prisoner b c from then 0
             else Z.lor (bishop_attacks_calc from (b_all b)) (rook_attacks_calc from (b_all b))
  | PIECE_NONE => 0
  end.

Definition attacks_from (b : Board) (c : Color) (from n : Square) : Prop :=
  exists t, real_type t /\ mb b from = PIECE_MAKE c t /\
            Z.testbit (piece_attacks b c t from) n = true.

Lemma bb_nonzero_land (x y : Z) :
  0 <= x < 2 ^ 64 ->
  bb_nonzero (Z.land x y) = true <->
  exists n, on_board n /\ Z.testbit x n = true /\ Z.testbit y n = true.
Proof.
  intros Hx. unfold bb_nonzero. rewrite negb_true_iff, Z.eqb_neq. split.
  - intros Hne. destruct (nonzero_has_bit (Z.land x y)) as (n & Hn & Hb); [|done|].
    { apply Z.land_nonneg. lia. }
    rewrite Z.land_spec, andb_true_iff in Hb. exists n. split; [|done].
    destruct (Z.ltb_spec n 64); [sq_lia|]. rewrite testbit_above_64 in Hb by lia. naive_solver.
  - intros (n & Hn & H1 & H2) E.
    assert (Z.testbit (Z.land x y) n = true) as H by by rewrite Z.land_spec, H1, H2.
    by rewrite E, Z.testbit_0_l in H.
Qed.

Lemma fold_clear_testbit (P : Z -> bool) (l : list Z) (acc n : Z) :
  0 <= acc < 2 ^ 64 -> Forall on_board l -> 0 <= n ->
  Z.testbit (fold_left (fun eq q => if P q then Z.land eq (bb_not (BB_SQ q)) else eq) l acc) n =
  Z.testbit acc n && negb (existsb (fun q => P q && (q =? n)) l).
Proof.
  intros Hacc Hl Hn. revert acc Hacc. induction Hl as [|q l Hq Hl IH]; intros acc Hacc; simpl.
  { by rewrite andb_true_r. }
  destruct (P q); simpl; [|by apply IH].
  rewrite IH.
  - change (Z.land acc (bb_not (BB_SQ q))) with (BB_CLR acc q).
    rewrite BB_CLR_testbit by done. rewrite (Z.eqb_sym q n), negb_orb. by rewrite andb_assoc.
  - apply bits_bounded; [lia|]. intros k Hk. by rewrite Z.land_spec, testbit_above_64 by lia.
Qed.

Section Attackers.
Context (b : Board) (Hinv : board_inv b) (c : Color) (Hc : real_color c).

Lemma stq_effective_queens_testbit (n : Square) :
  on_board n ->
  Z.testbit (stq_effective_queens b c) n =
  (mb b n =? PIECE_MAKE c QUEEN) && negb (stq_prisoner b c n).
Proof.
  intros Hn. unfold stq_effective_queens, stq_prisoner.
  rewrite <- pcs_testbit by done.
  destruct (b_mod b == MOD_SAVE_QUEEN); [|by rewrite andb_true_r].
  assert (Hq : 0 <= pcs b c QUEEN < 2 ^ 64) by auto with board.
  rewrite fold_clear_testbit; [|done| |sq_lia].
  2:{ apply List.Forall_forall. intros q [? _]%elem_of_bb_squares; done. }
  destruct (Z.testbit (pcs b c QUEEN) n) eqn:E; [|done]. simpl. f_equal.
  destruct (negb (stq_is_own_half n c)) eqn:E2.
  - apply existsb_exists. exists n. split; [by apply elem_of_bb_squares|].
    by rewrite E2, Z.eqb_refl.
  - apply not_true_iff_false. rewrite existsb_exists. intros (q & _ & Hq2).
    apply andb_true_iff in Hq2 as [H1 ->%Z.eqb_eq]. congruence.
Qed.

Lemma stq_effective_queens_bound : 0 <= stq_effective_queens b c < 2 ^ 64.
Proof.
  unfold stq_effective_queens. destruct (b_mod b == _); [|auto with board].
  assert (Hq : 0 <= pcs b c QUEEN < 2 ^ 64) by auto with board.
  apply bits_bounded; [lia|]. intros n Hn.
  rewrite fold_clear_testbit; [by rewrite testbit_above_64|done| |lia].
  apply List.Forall_forall. intros q [? _]%elem_of_bb_squares; done.
Qed.

(** A table lookup from the target meets a [t]-piece iff some [t]-piece
    attacks the target. *)
Lemma lookup_attack (t : PieceType) (tbl : Z) (sq : Square) (att : Z -> Z) :
  real_type t -> 0 <= tbl < 2 ^ 64 ->
  (forall n, on_board n -> Z.testbit tbl n = Z.testbit (att n) sq) ->
  bb_nonzero (Z.land tbl (pcs b c t)) = true <->
  exists n, on_board n /\ mb b n = PIECE_MAKE c t /\ Z.testbit (att n) sq = true.
Proof.
  intros Ht Hb Hsym. rewrite bb_nonzero_land by done. split; intros (n & Hn & H1 & H2);
    exists n; (split; [done|]).
  - rewrite pcs_testbit, Z.eqb_eq in H2 by done. rewrite Hsym in H1 by done. done.
  - rewrite pcs_testbit, Z.eqb_eq, Hsym by done. done.
Qed.

(** Same for a lookup that meets two kinds of piece, one of them the queens
    that may attack. *)
Lemma lookup_attack_queen (t : PieceType) (dirs : list (Z * Z)) (sq : Square) :
  real_type t -> good_dirs dirs -> on_board sq ->
  bb_nonzero (Z.land (slide_dirs dirs sq (b_all b))
    (Z.lor (pcs b c t) (stq_effective_queens b c))) = true <->
  exists n, on_board n /\
    (mb b n = PIECE_MAKE c t \/ mb b n = PIECE_MAKE c QUEEN /\ stq_prisoner b c n = false) /\
    Z.testbit (slide_dirs dirs n (b_all b)) sq = true.
Proof.
  intros Ht Hd Hsq. rewrite bb_nonzero_land by by apply slide_dirs_bound.
  split; intros (n & Hn & H1 & H2); exists n; (split; [done|]);
    rewrite Z.lor_spec, orb_true_iff, pcs_testbit, stq_effective_queens_testbit,
      andb_true_iff, negb_true_iff, !Z.eqb_eq in * by done;
    rewrite (slide_dirs_sym dirs Hd _ sq n) in * by done; done.
Qed.
End Attackers.

Section SquareAttacked.
Context (b : Board) (Hinv : board_inv b) (c : Color) (Hc : real_color c)
        (sq : Square) (Hsq : on_board sq).

(** Some [t]-piece of side [c] attacks [sq]. *)
Definition type_attacks (t : PieceType) : Prop :=
  exists n, on_board n /\ mb b n = PIECE_MAKE c t /\
            Z.testbit (piece_attacks b c t n) sq = true.

Lemma knight_part :
  negb (kb_phase1 b) && bb_nonzero (Z.land (knight_attacks sq) (pcs b c KNIGHT)) = true <->
  type_attacks KNIGHT.
Proof.
  unfold type_attacks, piece_attacks. destruct (kb_phase1 b); simpl.
  - split; [done|]. intros (n & _ & _ & H). by rewrite Z.testbit_0_l in H.
  - apply lookup_attack; auto with board. intros. by apply knight_attacks_sym.
Qed.

Lemma king_part :
  bb_nonzero (Z.land (king_attacks sq) (pcs b c KING)) = true <-> type_attacks KING.
Proof. apply lookup_attack; auto with board. intros. by apply king_attacks_sym. Qed.

Lemma pawn_part :
  (if b_mod b == MOD_MERCENARY
   then bb_nonzero (Z.land (king_attacks sq) (pcs b c PAWN))
   else bb_nonzero (Z.land (pawn_attacks (color_opposite c) sq) (pcs b c PAWN))) = true <->
  type_attacks PAWN.
Proof.
  unfold type_attacks, piece_attacks. destruct (b_mod b == MOD_MERCENARY).
  - apply lookup_attack; auto with board. intros. by apply king_attacks_sym.
  - apply lookup_attack; auto with board.
    + apply pawn_attacks_bound; [by destruct c|done].
    + intros. by apply pawn_attacks_sym.
Qed.

Lemma diag_part :
  kb_phase1 b = false ->
  bb_nonzero (Z.land (bishop_attacks_calc sq (b_all b))
    (Z.lor (pcs b c BISHOP) (stq_effective_queens b c))) = true ->
  type_attacks BISHOP \/ type_attacks QUEEN.
Proof.
  intros Hp H. apply lookup_attack_queen in H as (n & Hn & [Hm|[Hm Hq]] & Hb);
    auto using bishop_dirs_good with board; [left|right]; exists n;
    unfold piece_attacks; rewrite Hp, ?Hq; [done|].
  simpl. rewrite Z.lor_spec. unfold bishop_attacks_calc. by rewrite Hb.
Qed.

Lemma orth_part :
  kb_phase1 b = false ->
  bb_nonzero (Z.land (rook_attacks_calc sq (b_all b))
    (Z.lor (pcs b c ROOK) (stq_effective_queens b c))) = true ->
  type_attacks ROOK \/ type_attacks QUEEN.
Proof.
  intros Hp H. apply lookup_attack_queen in H as (n & Hn & [Hm|[Hm Hq]] & Hb);
    auto using rook_dirs_good with board; [left|right]; exists n;
    unfold piece_attacks; rewrite Hp, ?Hq; [done|].
  simpl. rewrite Z.lor_spec. unfold rook_attacks_calc. by rewrite Hb, orb_true_r.
Qed.

Lemma sliding_complete (t : PieceType) :
  t = BISHOP \/ t = ROOK \/ t = QUEEN -> type_attacks t ->
  kb_phase1 b = false /\
  (bb_nonzero (Z.land (bishop_attacks_calc sq (b_all b))
     (Z.lor (pcs b c BISHOP) (stq_effective_queens b c))) = true \/
   bb_nonzero (Z.land (rook_attacks_calc sq (b_all b))
     (Z.lor (pcs b c ROOK) (stq_effective_queens b c))) = true).
Proof.
  pose proof bishop_dirs_good. pose proof rook_dirs_good.
  intros Ht (n & Hn & Hm & Hb). unfold piece_attacks in Hb.
  unfold bishop_attacks_calc, rook_attacks_calc in *.
  rewrite !lookup_attack_queen by auto with board.
  destruct Ht as [->|[->| ->]]; destruct (kb_phase1 b); simpl in Hb;
    rewrite ?Z.testbit_0_l in Hb; try done; (split; [done|]).
  - left. exists n. auto.
  - right. exists n. auto.
  - destruct (stq_prisoner b c n) eqn:Hq; [by rewrite Z.testbit_0_l in Hb|].
    rewrite Z.lor_spec, orb_true_iff in Hb. destruct Hb; [left|right]; exists n; auto.
Qed.

Lemma square_attacked_types :
  board_square_attacked b sq c = true <-> exists t, real_type t /\ type_attacks t.
Proof.
  unfold board_square_attacked. fold (kb_phase1 b). split.
  - destruct (negb (kb_phase1 b) && _) eqn:E1.
    { intros _. exists KNIGHT. split; [done|]. by apply knight_part. }
    destruct (bb_nonzero (Z.land (king_attacks sq) (pcs b c KING))) eqn:E2.
    { intros _. exists KING. split; [done|]. by apply king_part. }
    match goal with |- (if ?x then _ else _) = true -> _ => destruct x eqn:E3 end.
    { intros _. exists PAWN. split; [done|]. by apply pawn_part. }
    destruct (kb_phase1 b) eqn:Hp; [done|].
    match goal with |- (if ?x then _ else _) = true -> _ => destruct x eqn:E4 end.
    { intros _. apply diag_part in E4 as [?|?]; [by exists BISHOP|by exists QUEEN|done]. }
    match goal with |- (if ?x then _ else _) = true -> _ => destruct x eqn:E5 end; [|done].
    intros _. apply orth_part in E5 as [?|?]; [by exists ROOK|by exists QUEEN|done].
  - intros (t & Ht & H). destruct t.
    + apply pawn_part in H. rewrite H. by repeat case_match.
    + apply knight_part in H. by rewrite H.
    + apply sliding_complete in H as [-> [->| ->]]; auto; by repeat case_match.
    + apply sliding_complete in H as [-> [->| ->]]; auto; by repeat case_match.
    + apply sliding_complete in H as [-> [->| ->]]; auto; by repeat case_match.
    + apply king_part in H. rewrite H. by repeat case_match.
    + done.
Qed.

(** The query from the target agrees with the rules seen from the attackers. *)
Lemma square_attacked_spec :
  board_square_attacked b sq c = true <->
  exists from, on_board from /\ attacks_from b c from sq.
Proof.
  rewrite square_attacked_types. unfold attacks_from, type_attacks. naive_solver.
Qed.
End SquareAttacked.
