(* ===== verification/Make.v ===== *)
(** * Making and unmaking a move ([board_make.c])

    [board_make_move] pushes an undo entry, changes the position through
    [board_place] and [board_remove], updates the scalar state of every
    variant and rehashes; [board_unmake_move] pops the entry.  The function is
    split at its comment headings into the stages it runs in sequence. *)

From stdpp Require Import base numbers list option.
From Stdlib Require Import ZArith Lia Bool.
From S2P Require Import Prelude Types Board Zobrist.

(** ** [board_make_move] *)

(** Save state to the undo stack. *)
Definition make_save (m : Move) (b : Board) : Board :=
  upd_hist (b_ply b) (fun _ =>
    mkUndo m PIECE_EMPTY SQ_NONE (b_castling b) (b_ep_square b) (b_halfmove b) (b_hash b)
      (b_heir_promoted b) (b_truce_active b) (b_truce_frozen b) (b_ff_moved b)
      (b_kb_unlocked b) (b_kb_idle_kings b) false false SQ_NONE) b.

(** The square of a pawn captured en passant. *)
Definition ep_cap_sq (m : Move) : Square := SQ (SQ_ROW (MOVE_FROM m)) (SQ_COL (MOVE_TO m)).

Definition prison_of (c : Color) : Square :=
  if c == WHITE then STQ_WHITE_PRISON else STQ_BLACK_PRISON.

(** Handle captures. *)
Definition make_captures (idx : Z) (m : Move) (them : Color) (b : Board) : Board :=
  let to := MOVE_TO m in
  if MOVE_IS_EP m then
    let cap_sq := ep_cap_sq m in
    let b := upd_hist idx (set_u_captured (mb b cap_sq)) b in
    let b := upd_hist idx (set_u_captured_sq cap_sq) b in
    board_remove b cap_sq
  else if MOVE_IS_CAPTURE m then
    let captured_piece := mb b to in
    let b := upd_hist idx (set_u_captured captured_piece) b in
    let b := upd_hist idx (set_u_captured_sq to) b in
    let b :=
      if (b_mod b == MOD_SAVE_QUEEN) && negb (captured_piece =? PIECE_EMPTY)
         && (PIECE_TYPE captured_piece == QUEEN) && negb (stq_is_own_half to them) then
        let prison_sq := prison_of them in
        if mb b prison_sq =? PIECE_EMPTY then
          let b := upd_hist idx (set_u_stq_reprisoned true) b in
          upd_hist idx (set_u_stq_reprison_sq prison_sq) b
        else b
      else b in
    let b := board_remove b to in
    if u_stq_reprisoned (hist b idx)
    then board_place b (u_stq_reprison_sq (hist b idx)) them QUEEN
    else b
  else b.

(** Move the piece, promoting it if asked. *)
Definition make_piece (m : Move) (us : Color) (b : Board) : Board :=
  let to := MOVE_TO m in
  let b := board_remove b (MOVE_FROM m) in
  if MOVE_IS_PROMO m then
    let promo_pt := MOVE_PROMO_TYPE m in
    let b := board_place b to us promo_pt in
    let b := if (b_mod b == MOD_HEIR) && (promo_pt == KING) then set_heir us true b else b in
    if (b_mod b == MOD_SUCCESSION) && (promo_pt == KING) then set_heir us true b else b
  else board_place b to us (MOVE_PIECE m).

(** The rook's squares and colour when the king castles to [to]. *)
Definition castle_rook (to : Square) : option (Square * Square * Color) :=
  if to =? SQ 0 6 then Some (SQ 0 7, SQ 0 5, WHITE)
  else if to =? SQ 0 2 then Some (SQ 0 0, SQ 0 3, WHITE)
  else if to =? SQ 7 6 then Some (SQ 7 7, SQ 7 5, BLACK)
  else if to =? SQ 7 2 then Some (SQ 7 0, SQ 7 3, BLACK)
  else None.

(** Castling: also move the rook. *)
Definition make_castle (m : Move) (b : Board) : Board :=
  if MOVE_IS_CASTLE m then
    match castle_rook (MOVE_TO m) with
    | Some (rfrom, rto, c) => board_place (board_remove b rfrom) rto c ROOK
    | None => b
    end
  else b.

(** The square bookkeeping shared by Truce and Friendly Fire when castling. *)
Definition castle_mark (m : Move) (bb : Bitboard) : Bitboard :=
  if MOVE_IS_CASTLE m then
    match castle_rook (MOVE_TO m) with
    | Some (rfrom, rto, _) => BB_SET (BB_CLR bb rfrom) rto
    | None => bb
    end
  else bb.

(** Truce: track which squares hold pieces that have moved. *)
Definition make_truce (m : Move) (b : Board) : Board :=
  let to := MOVE_TO m in
  if (b_mod b == MOD_TRUCE) && b_truce_active b then
    let f := BB_CLR (b_truce_frozen b) (MOVE_FROM m) in
    let f := BB_SET f to in
    let f := if MOVE_IS_EP m then BB_CLR f (ep_cap_sq m)
             else if MOVE_IS_CAPTURE m then BB_SET (BB_CLR f to) to
             else f in
    set_b_truce_frozen (castle_mark m f) b
  else b.

(** Friendly Fire: track which squares have pieces that moved. *)
Definition make_ff (m : Move) (b : Board) : Board :=
  if b_mod b == MOD_FRIENDLY_FIRE then
    let f := BB_CLR (b_ff_moved b) (MOVE_FROM m) in
    let f := BB_SET f (MOVE_TO m) in
    let f := if MOVE_IS_EP m then BB_CLR f (ep_cap_sq m) else f in
    set_b_ff_moved (castle_mark m f) b
  else b.

(** [castling &= ~mask], on a byte. *)
Definition drop_rights (mask castling : Z) : Z := Z.land castling (u8 (Z.lnot mask)).

(** Update castling rights. *)
Definition make_rights (m : Move) (us : Color) (b : Board) : Board :=
  let from := MOVE_FROM m in
  let to := MOVE_TO m in
  let pt := MOVE_PIECE m in
  let r := b_castling b in
  let r := if pt == KING then
             if us == WHITE then drop_rights (Z.lor CASTLE_WK CASTLE_WQ) r
             else drop_rights (Z.lor CASTLE_BK CASTLE_BQ) r
           else r in
  let r := if pt == ROOK then
             let r := if from =? SQ 0 0 then drop_rights CASTLE_WQ r else r in
             let r := if from =? SQ 0 7 then drop_rights CASTLE_WK r else r in
             let r := if from =? SQ 7 0 then drop_rights CASTLE_BQ r else r in
             if from =? SQ 7 7 then drop_rights CASTLE_BK r else r
           else r in
  let r := if to =? SQ 0 0 then drop_rights CASTLE_WQ r else r in
  let r := if to =? SQ 0 7 then drop_rights CASTLE_WK r else r in
  let r := if to =? SQ 7 0 then drop_rights CASTLE_BQ r else r in
  let r := if to =? SQ 7 7 then drop_rights CASTLE_BK r else r in
  set_b_castling r b.

(** En passant square. *)
Definition make_ep (m : Move) (b : Board) : Board :=
  let from := MOVE_FROM m in
  let to := MOVE_TO m in
  let b := set_b_ep_square SQ_NONE b in
  if (b_mod b != MOD_MERCENARY) && (MOVE_PIECE m == PAWN) then
    let diff := to - from in
    if (diff =? 16) || (diff =? -16)
    then set_b_ep_square (SQ ((SQ_ROW from + SQ_ROW to) ÷ 2) (SQ_COL from)) b
    else b
  else b.

(** Halfmove clock and full move number. *)
Definition make_clocks (m : Move) (us : Color) (b : Board) : Board :=
  let b := if (MOVE_PIECE m == PAWN) || MOVE_IS_CAPTURE m
           then set_b_halfmove 0 b
           else set_b_halfmove (b_halfmove b + 1) b in
  if us == BLACK then set_b_fullmove (b_fullmove b + 1) b else b.

(** King's Battle: the three Phase-2 unlock triggers. *)
Definition make_kb (idx : Z) (m : Move) (b : Board) : Board :=
  let pt := MOVE_PIECE m in
  if (b_mod b == MOD_KINGS_BATTLE) && negb (b_kb_unlocked b) then
    if (pt == KING) && MOVE_IS_CAPTURE m && (PIECE_TYPE (u_captured (hist b idx)) == PAWN) then
      let b := set_b_kb_unlocked true b in
      let b := set_b_kb_idle_kings 0 b in
      upd_hist idx (set_u_kb_bonus true) b
    else if (pt == PAWN) && MOVE_IS_PROMO m then
      let b := set_b_kb_unlocked true b in
      set_b_kb_idle_kings 0 b
    else if (pt == KING) && negb (MOVE_IS_CAPTURE m) then
      let b := if b_kb_idle_kings b <? 255
               then set_b_kb_idle_kings (b_kb_idle_kings b + 1) b else b in
      if 6 <=? b_kb_idle_kings b then set_b_kb_unlocked true b else b
    else set_b_kb_idle_kings 0 b
  else b.

(** Switch side, advance the ply and recompute the hash. *)
Definition make_switch (idx : Z) (us them : Color) (b : Board) : Board :=
  let b := set_b_side (if u_kb_bonus (hist b idx) then us else them) b in
  let b := set_b_ply (b_ply b + 1) b in
  set_b_hash (zobrist_compute zob_keys b) b.

(** The part of the move that touches the position. *)
Definition make_position (m : Move) (b : Board) : Board :=
  let idx := b_ply b in
  let us := b_side b in
  let them := color_opposite us in
  make_castle m (make_piece m us (make_captures idx m them (make_save m b))).

(** The part that updates the scalar state. *)
Definition make_state (idx : Z) (m : Move) (us : Color) (b : Board) : Board :=
  make_switch idx us (color_opposite us) (make_kb idx m (make_clocks m us
    (make_ep m (make_rights m us (make_ff m (make_truce m b)))))).

Definition board_make_move (b : Board) (m : Move) : Board :=
  make_state (b_ply b) m (b_side b) (make_position m b).

(** ** [board_unmake_move] *)

(** Undo castling rook move. *)
Definition unmake_castle (m : Move) (b : Board) : Board :=
  if MOVE_IS_CASTLE m then
    match castle_rook (MOVE_TO m) with
    | Some (rfrom, rto, c) => board_place (board_remove b rto) rfrom c ROOK
    | None => b
    end
  else b.

(** Restore the saved scalars. *)
Definition unmake_state (u : Undo) (us : Color) (b : Board) : Board :=
  let b := set_b_castling (u_castling u) b in
  let b := set_b_ep_square (u_ep_square u) b in
  let b := set_b_halfmove (u_halfmove u) b in
  let b := set_b_hash (u_hash u) b in
  let b := set_b_heir_promoted (u_heir_promoted u) b in
  let b := set_b_truce_active (u_truce_active u) b in
  let b := set_b_truce_frozen (u_truce_frozen u) b in
  let b := set_b_ff_moved (u_ff_moved u) b in
  let b := set_b_kb_unlocked (u_kb_unlocked u) b in
  let b := set_b_kb_idle_kings (u_kb_idle_kings u) b in
  if us == BLACK then set_b_fullmove (b_fullmove b - 1) b else b.

(** Put the pieces back: the mover, a re-imprisoned queen, the captured piece. *)
Definition unmake_position (u : Undo) (us : Color) (b : Board) : Board :=
  let m := u_move u in
  let b := board_remove b (MOVE_TO m) in
  let b := board_place b (MOVE_FROM m) us (MOVE_PIECE m) in
  let b := if u_stq_reprisoned u && negb (u_stq_reprison_sq u =? SQ_NONE)
           then board_remove b (u_stq_reprison_sq u) else b in
  let b := if negb (u_captured u =? PIECE_EMPTY)
           then board_place b (u_captured_sq u) (PIECE_COLOR (u_captured u))
                  (PIECE_TYPE (u_captured u))
           else b in
  unmake_castle m b.

Definition board_unmake_move (b : Board) : Board :=
  let b := set_b_ply (b_ply b - 1) b in
  let u := hist b (b_ply b) in
  let us := if u_kb_bonus u then b_side b else color_opposite (b_side b) in
  let b := set_b_side us b in
  unmake_state u us (unmake_position u us b).

(** ** The undo entry a move leaves *)

Definition push_undo (idx : Z) (u : Undo) (b : Board) : Board :=
  set_b_history ((b_history b).[idx <- u]) b.

(** Room on the undo stack: the ply is inside [history]. *)
Definition history_ok (b : Board) : Prop :=
  Z.of_nat (length (b_history b)) = MAX_HISTORY /\ 0 <= b_ply b < MAX_HISTORY.

Lemma hist_push (idx : Z) (u : Undo) (b : Board) :
  in_range (b_history b) idx -> hist (push_undo idx u b) idx = u.
Proof. apply znth_zset_eq. Qed.

Lemma upd_push (idx : Z) (u : Undo) (f : Undo -> Undo) (b : Board) :
  in_range (b_history b) idx -> upd_hist idx f (push_undo idx u b) = push_undo idx (f u) b.
Proof.
  intros H. unfold upd_hist. rewrite hist_push by done.
  unfold push_undo, set_b_history. cbn [b_history]. by rewrite zset_zset_eq.
Qed.

Lemma history_range (b : Board) : history_ok b -> in_range (b_history b) (b_ply b).
Proof. unfold history_ok, in_range. lia. Qed.

(** ** The position a move leads to *)

(** The captured queen goes back to prison. *)
Definition reprisons (b : Board) (m : Move) : bool :=
  negb (MOVE_IS_EP m) && MOVE_IS_CAPTURE m && (b_mod b == MOD_SAVE_QUEEN)
  && negb (mb b (MOVE_TO m) =? PIECE_EMPTY) && (PIECE_TYPE (mb b (MOVE_TO m)) == QUEEN)
  && negb (stq_is_own_half (MOVE_TO m) (color_opposite (b_side b)))
  && (mb b (prison_of (color_opposite (b_side b))) =? PIECE_EMPTY).

Definition captured_sq (m : Move) : Square :=
  if MOVE_IS_EP m then ep_cap_sq m else if MOVE_IS_CAPTURE m then MOVE_TO m else SQ_NONE.

Definition captured_piece (b : Board) (m : Move) : Piece :=
  if MOVE_IS_EP m then mb b (ep_cap_sq m)
  else if MOVE_IS_CAPTURE m then mb b (MOVE_TO m) else PIECE_EMPTY.

Definition undo_entry (b : Board) (m : Move) : Undo :=
  mkUndo m (captured_piece b m) (captured_sq m) (b_castling b) (b_ep_square b) (b_halfmove b)
    (b_hash b) (b_heir_promoted b) (b_truce_active b) (b_truce_frozen b) (b_ff_moved b)
    (b_kb_unlocked b) (b_kb_idle_kings b) false (reprisons b m)
    (if reprisons b m then prison_of (color_opposite (b_side b)) else SQ_NONE).

Definition after_captures (b : Board) (m : Move) : list Piece :=
  let l := b_mailbox b in
  if MOVE_IS_EP m then l.[ep_cap_sq m <- PIECE_EMPTY]
  else if MOVE_IS_CAPTURE m then
    let l := l.[MOVE_TO m <- PIECE_EMPTY] in
    if reprisons b m
    then l.[prison_of (color_opposite (b_side b)) <-
            PIECE_MAKE (color_opposite (b_side b)) QUEEN]
    else l
  else l.

(** The type that arrives on the target square. *)
Definition arriving (m : Move) : PieceType :=
  if MOVE_IS_PROMO m then MOVE_PROMO_TYPE m else MOVE_PIECE m.

Definition after_piece (us : Color) (m : Move) (l : list Piece) : list Piece :=
  (l.[MOVE_FROM m <- PIECE_EMPTY]).[MOVE_TO m <- PIECE_MAKE us (arriving m)].

Definition after_castle (m : Move) (l : list Piece) : list Piece :=
  if MOVE_IS_CASTLE m then
    match castle_rook (MOVE_TO m) with
    | Some (rfrom, rto, c) => (l.[rfrom <- PIECE_EMPTY]).[rto <- PIECE_MAKE c ROOK]
    | None => l
    end
  else l.

(** The abstract move: what happens to the mailbox, square by square. *)
Definition mailbox_after (b : Board) (m : Move) : list Piece :=
  after_castle m (after_piece (b_side b) m (after_captures b m)).

(** Promotion to king raises the side's flag in Heir and Succession. *)
Definition heir_after (b : Board) (m : Move) : list bool :=
  if MOVE_IS_PROMO m && (MOVE_PROMO_TYPE m == KING)
     && ((b_mod b == MOD_HEIR) || (b_mod b == MOD_SUCCESSION))
  then (b_heir_promoted b).[Color_to_Z (b_side b) <- true]
  else b_heir_promoted b.

(** ** When a move fits a board

    What [board_make_move] needs of its argument, and what move generation
    provides: a piece of the side to move on the source square and the target
    square as the flags say. *)
Record move_fits (b : Board) (m : Move) : Prop := {
  mf_side : real_color (b_side b);
  mf_piece : mb b (MOVE_FROM m) = PIECE_MAKE (b_side b) (MOVE_PIECE m);
  mf_type : real_type (MOVE_PIECE m);
  mf_moves : MOVE_FROM m <> MOVE_TO m;
  mf_promo : MOVE_IS_PROMO m = true -> real_type (MOVE_PROMO_TYPE m);
  mf_ep : MOVE_IS_EP m = true ->
    mb b (MOVE_TO m) = PIECE_EMPTY /\ mb b (ep_cap_sq m) <> PIECE_EMPTY /\
    ep_cap_sq m <> MOVE_FROM m;
  mf_capture : MOVE_IS_EP m = false -> MOVE_IS_CAPTURE m = true ->
    mb b (MOVE_TO m) <> PIECE_EMPTY;
  mf_quiet : MOVE_IS_EP m = false -> MOVE_IS_CAPTURE m = false ->
    mb b (MOVE_TO m) = PIECE_EMPTY;
  mf_castle : MOVE_IS_CASTLE m = true ->
    MOVE_IS_EP m = false /\ MOVE_IS_CAPTURE m = false /\
    forall rfrom rto c, castle_rook (MOVE_TO m) = Some (rfrom, rto, c) ->
      mb b rfrom = PIECE_MAKE c ROOK /\ mb b rto = PIECE_EMPTY /\ rfrom <> MOVE_FROM m
}.

Lemma MOVE_FROM_on_board (m : Move) : on_board (MOVE_FROM m).
Proof.
  unfold on_board, MOVE_FROM. change 63 with (Z.ones 6). rewrite Z.land_ones by lia.
  apply Z.mod_pos_bound. lia.
Qed.

Lemma MOVE_TO_on_board (m : Move) : on_board (MOVE_TO m).
Proof.
  unfold on_board, MOVE_TO. change 63 with (Z.ones 6). rewrite Z.land_ones by lia.
  apply Z.mod_pos_bound. lia.
Qed.

Lemma ep_cap_sq_on_board (m : Move) : on_board (ep_cap_sq m).
Proof.
  apply SQ_on_board; [apply SQ_ROW_bound, MOVE_FROM_on_board|apply SQ_COL_bound].
Qed.

Lemma prison_on_board (c : Color) : on_board (prison_of c).
Proof. unfold on_board. by destruct c. Qed.

Lemma castle_rook_on_board (to rfrom rto : Square) (c : Color) :
  castle_rook to = Some (rfrom, rto, c) ->
  on_board rfrom /\ on_board rto /\ real_color c /\ rto <> to /\ rfrom <> rto.
Proof.
  unfold castle_rook. intros H. repeat case_match; simplify_eq; rewrite ?Z.eqb_eq in *; subst;
    unfold on_board; split_and!; by vm_compute.
Qed.

#[export] Hint Resolve MOVE_FROM_on_board MOVE_TO_on_board ep_cap_sq_on_board
  prison_on_board mailbox_range inv_mailbox : board.

(** Decide an equation between mailboxes entry by entry. *)
Ltac mailbox_solve :=
  apply array_ext; [by rewrite ?length_zset|]; intros i Hi;
  rewrite ?length_zset in Hi;
  rewrite ?znth_zset by (rewrite ?in_range_zset; auto with board);
  repeat match goal with
  | |- context [?x =? ?y] => destruct (Z.eqb_spec x y)
  end; try done; try congruence.

(** Read one entry of an updated mailbox. *)
Ltac mailbox_read :=
  rewrite ?znth_zset by (rewrite ?in_range_zset; auto with board);
  repeat match goal with
  | |- context [?x =? ?y] => destruct (Z.eqb_spec x y)
  end; try done; try congruence.

(** ** [board_make_move] refines the abstract move *)

Section MakeImage.
Context (b : Board) (m : Move) (Hinv : board_inv b) (Hfit : move_fits b m)
        (Hh : history_ok b).
Local Abbreviation us := (b_side b).
Local Abbreviation them := (color_opposite (b_side b)).
Local Abbreviation idx := (b_ply b).

Lemma them_real : real_color them.
Proof. pose proof (mf_side b m Hfit) as H. destruct (b_side b); real. Qed.

Lemma push_inv (u : Undo) (b' : Board) : board_inv b' -> board_inv (push_undo idx u b').
Proof.
  intros [Hv Hi]. constructor; [done|].
  change (push_undo idx u (with_mailbox (b_mailbox b') b') = push_undo idx u b').
  by rewrite Hi.
Qed.

Lemma prison_not_to : reprisons b m = true -> prison_of them <> MOVE_TO m.
Proof.
  unfold reprisons. rewrite !andb_true_iff, !negb_true_iff, Z.eqb_eq, Z.eqb_neq.
  intros [[[[[[_ _] _] H] _] _] He] E. by rewrite E in He.
Qed.

Lemma captures_image :
  make_captures idx m them (make_save m b) =
  push_undo idx (undo_entry b m) (with_mailbox (after_captures b m) b).
Proof.
  pose proof (history_range b Hh) as Hr. pose proof (inv_mailbox b Hinv) as Hv.
  unfold make_save, make_captures, after_captures, undo_entry, captured_piece, captured_sq.
  change (upd_hist idx (fun _ => ?e) b) with (push_undo idx e b).
  destruct (MOVE_IS_EP m) eqn:Eep.
  { rewrite !upd_push by done. rewrite remove_image by auto using push_inv with board.
    unfold reprisons. rewrite Eep. done. }
  destruct (MOVE_IS_CAPTURE m) eqn:Ecap.
  2:{ unfold reprisons. rewrite Eep, Ecap. simpl.
      by rewrite (inv_image b Hinv). }
  rewrite !upd_push by done.
  change (mb (push_undo idx ?u b)) with (mb b).
  change (b_mod (push_undo idx ?u b)) with (b_mod b).
  destruct (reprisons b m) eqn:Erep.
  - pose proof (prison_not_to Erep) as Hne. unfold reprisons in Erep.
    apply andb_true_iff in Erep as [Erep1 Erep2]. rewrite Eep, Ecap in Erep1. simpl in Erep1.
    rewrite Erep1, Erep2.
    rewrite remove_image by auto using push_inv with board.
    change (hist (with_mailbox ?l ?x)) with (hist x). rewrite hist_push by done.
    cbn [u_stq_reprisoned set_u_stq_reprison_sq set_u_stq_reprisoned u_stq_reprison_sq].
    rewrite place_image; [done|auto with board|auto with board|apply them_real|done|].
    rewrite mb_with_mailbox, znth_zset_ne by done. by apply Z.eqb_eq.
  - unfold reprisons in Erep. rewrite Eep, Ecap in Erep. simpl in Erep.
    apply andb_false_iff in Erep as [Erep|Erep]; rewrite Erep.
    + rewrite remove_image by auto using push_inv with board.
      change (hist (with_mailbox ?l ?x)) with (hist x). by rewrite hist_push.
    + assert (forall (x : bool) (A : Type) (y : A), (if x then y else y) = y) as Hif
        by by intros [].
      rewrite Hif, remove_image by auto using push_inv with board.
      change (hist (with_mailbox ?l ?x)) with (hist x). by rewrite hist_push.
Qed.

Lemma valid_after_captures : valid_mailbox (after_captures b m).
Proof.
  pose proof them_real. destruct Hinv as [Hv _]. unfold after_captures.
  repeat case_match; auto with board.
Qed.

Lemma arriving_real : real_type (arriving m).
Proof.
  destruct Hfit as [_ _ Ht _ Hp _ _ _ _]. unfold arriving.
  destruct (MOVE_IS_PROMO m); auto.
Qed.

(** The target square is free once the capture has been carried out. *)
Lemma after_captures_to : (after_captures b m).[MOVE_TO m] = PIECE_EMPTY.
Proof.
  destruct Hinv as [Hv _]. unfold after_captures.
  destruct (MOVE_IS_EP m) eqn:Eep.
  { destruct (mf_ep b m Hfit Eep) as (H1 & H2 & _).
    rewrite znth_zset_ne; [done|]. intros E. by rewrite E in H2. }
  destruct (MOVE_IS_CAPTURE m) eqn:Ecap; [|by apply (mf_quiet b m Hfit)].
  destruct (reprisons b m) eqn:Erep.
  - rewrite znth_zset_ne by by apply prison_not_to. rewrite znth_zset_eq; auto with board.
  - rewrite znth_zset_eq; auto with board.
Qed.

Lemma piece_image (b' : Board) (l : list Piece) :
  valid_mailbox l -> l.[MOVE_TO m] = PIECE_EMPTY -> b_mod b' = b_mod b ->
  b_heir_promoted b' = b_heir_promoted b ->
  make_piece m us (with_mailbox l b') =
  set_b_heir_promoted (heir_after b m) (with_mailbox (after_piece us m l) b').
Proof.
  intros Hv He Hmod Hheir. pose proof (mf_side b m Hfit) as Hus.
  pose proof arriving_real as Har. pose proof (mf_moves b m Hfit) as Hmv.
  unfold make_piece, arriving in *.
  rewrite remove_image by auto with board.
  assert (forall t, real_type t -> board_place (with_mailbox (l.[MOVE_FROM m <- PIECE_EMPTY])
            (with_mailbox l b')) (MOVE_TO m) us t =
          with_mailbox ((l.[MOVE_FROM m <- PIECE_EMPTY]).[MOVE_TO m <- PIECE_MAKE us t]) b')
    as Hplace.
  { intros t Ht. rewrite place_image; [done|auto with board|auto with board|done|done|].
    rewrite mb_with_mailbox, znth_zset_ne by done. done. }
  change (b_mailbox (with_mailbox ?x _)) with x.
  unfold heir_after, after_piece, arriving.
  assert (forall x, set_b_heir_promoted (b_heir_promoted b) (with_mailbox x b') =
                    with_mailbox x b') as Hid.
  { intros x. rewrite <- Hheir. by destruct b'. }
  destruct (MOVE_IS_PROMO m); cbn [andb]; rewrite Hplace by done; [|by rewrite Hid].
  change (b_mod (with_mailbox _ ?x)) with (b_mod x). rewrite Hmod.
  destruct (MOVE_PROMO_TYPE m == KING); rewrite ?andb_false_r, ?andb_true_r; cbn [andb];
    [|by rewrite Hid].
  destruct (b_mod b == MOD_HEIR) eqn:E1, (b_mod b == MOD_SUCCESSION) eqn:E2; cbn [orb].
  - apply bool_decide_eq_true in E1, E2. congruence.
  - change (b_mod (set_heir _ _ ?x)) with (b_mod x).
    change (b_mod (with_mailbox _ ?x)) with (b_mod x). rewrite Hmod, E2.
    by rewrite <- Hheir.
  - change (b_mod (with_mailbox _ ?x)) with (b_mod x). rewrite Hmod, E2. by rewrite <- Hheir.
  - change (b_mod (with_mailbox _ ?x)) with (b_mod x). by rewrite Hmod, E2, Hid.
Qed.

Lemma castle_image (b' : Board) (l : list Piece) :
  valid_mailbox l ->
  (forall rfrom rto c, MOVE_IS_CASTLE m = true ->
     castle_rook (MOVE_TO m) = Some (rfrom, rto, c) -> l.[rto] = PIECE_EMPTY) ->
  make_castle m (with_mailbox l b') = with_mailbox (after_castle m l) b'.
Proof.
  intros Hv He. unfold make_castle, after_castle.
  destruct (MOVE_IS_CASTLE m) eqn:Ec; [|done].
  destruct (castle_rook (MOVE_TO m)) as [[[rfrom rto] c]|] eqn:Er; [|done].
  destruct (castle_rook_on_board _ _ _ _ Er) as (Hf & Ht & Hc & Hne & Hne').
  rewrite remove_image by auto with board.
  rewrite place_image; [done|auto with board|done|done|done|].
  rewrite mb_with_mailbox, znth_zset_ne by done. by apply (He rfrom rto c).
Qed.

Lemma valid_after_piece : valid_mailbox (after_piece us m (after_captures b m)).
Proof.
  pose proof valid_after_captures. pose proof arriving_real. pose proof (mf_side b m Hfit).
  unfold after_piece. auto with board.
Qed.

Lemma valid_after : valid_mailbox (mailbox_after b m).
Proof.
  pose proof valid_after_piece. unfold mailbox_after, after_castle.
  destruct (MOVE_IS_CASTLE m); [|done].
  destruct (castle_rook (MOVE_TO m)) as [[[rfrom rto] c]|] eqn:Er; [|done].
  destruct (castle_rook_on_board _ _ _ _ Er) as (_ & _ & Hc & _). auto with board.
Qed.

Lemma castle_target_free (rfrom rto : Square) (c : Color) :
  MOVE_IS_CASTLE m = true -> castle_rook (MOVE_TO m) = Some (rfrom, rto, c) ->
  (after_piece us m (after_captures b m)).[rto] = PIECE_EMPTY.
Proof.
  intros Ec Er. destruct (castle_rook_on_board _ _ _ _ Er) as (Hf & Ht & Hc & Hne & Hne').
  destruct (mf_castle b m Hfit Ec) as (Eep & Ecap & H).
  destruct (H _ _ _ Er) as (H1 & H2 & H3).
  pose proof valid_after_captures as Hv.
  unfold after_piece. rewrite znth_zset_ne by congruence.
  rewrite znth_zset by auto with board. destruct (Z.eqb_spec rto (MOVE_FROM m)); [done|].
  unfold after_captures. by rewrite Eep, Ecap.
Qed.

(** The concrete move implements the abstract one. *)
Lemma position_image :
  make_position m b =
  with_mailbox (mailbox_after b m) (set_b_heir_promoted (heir_after b m)
    (push_undo idx (undo_entry b m) b)).
Proof.
  unfold make_position. rewrite captures_image.
  change (push_undo idx ?u (with_mailbox ?l b)) with (with_mailbox l (push_undo idx u b)).
  rewrite piece_image by (done || apply valid_after_captures || apply after_captures_to).
  change (set_b_heir_promoted ?h (with_mailbox ?l ?x))
    with (with_mailbox l (set_b_heir_promoted h x)).
  rewrite castle_image; [done|apply valid_after_piece|].
  intros. by eapply castle_target_free.
Qed.
End MakeImage.

(** ** The whole move, field by field *)

(** Did the move earn King's Battle's bonus turn? *)
Definition kb_bonus_after (b : Board) (m : Move) : bool :=
  (b_mod b == MOD_KINGS_BATTLE) && negb (b_kb_unlocked b)
  && ((MOVE_PIECE m == KING) && MOVE_IS_CAPTURE m && (PIECE_TYPE (captured_piece b m) == PAWN)).

Definition final_entry (b : Board) (m : Move) : Undo :=
  if kb_bonus_after b m then set_u_kb_bonus true (undo_entry b m) else undo_entry b m.

Definition side_after (b : Board) (m : Move) : Color :=
  if kb_bonus_after b m then b_side b else color_opposite (b_side b).

Definition rights_after (b : Board) (m : Move) : Z := b_castling (make_rights m (b_side b) b).
Definition ep_after (b : Board) (m : Move) : Square :=
  if (b_mod b != MOD_MERCENARY) && (MOVE_PIECE m == PAWN)
     && ((MOVE_TO m - MOVE_FROM m =? 16) || (MOVE_TO m - MOVE_FROM m =? -16))
  then SQ ((SQ_ROW (MOVE_FROM m) + SQ_ROW (MOVE_TO m)) ÷ 2) (SQ_COL (MOVE_FROM m))
  else SQ_NONE.
Definition halfmove_after (b : Board) (m : Move) : Z :=
  if (MOVE_PIECE m == PAWN) || MOVE_IS_CAPTURE m then 0 else b_halfmove b + 1.
Definition fullmove_after (b : Board) : Z :=
  if b_side b == BLACK then b_fullmove b + 1 else b_fullmove b.
Definition truce_after (b : Board) (m : Move) : Bitboard :=
  if (b_mod b == MOD_TRUCE) && b_truce_active b then
    let f := BB_SET (BB_CLR (b_truce_frozen b) (MOVE_FROM m)) (MOVE_TO m) in
    castle_mark m
      (if MOVE_IS_EP m then BB_CLR f (ep_cap_sq m)
       else if MOVE_IS_CAPTURE m then BB_SET (BB_CLR f (MOVE_TO m)) (MOVE_TO m) else f)
  else b_truce_frozen b.
Definition ff_after (b : Board) (m : Move) : Bitboard :=
  if b_mod b == MOD_FRIENDLY_FIRE then
    let f := BB_SET (BB_CLR (b_ff_moved b) (MOVE_FROM m)) (MOVE_TO m) in
    castle_mark m (if MOVE_IS_EP m then BB_CLR f (ep_cap_sq m) else f)
  else b_ff_moved b.

(** A king move that captures nothing, in Phase 1. *)
Definition kb_idle_next (b : Board) : Z :=
  if b_kb_idle_kings b <? 255 then b_kb_idle_kings b + 1 else b_kb_idle_kings b.

Definition kb_idle_after (b : Board) (m : Move) : Z :=
  if (b_mod b == MOD_KINGS_BATTLE) && negb (b_kb_unlocked b) then
    if kb_bonus_after b m then 0
    else if (MOVE_PIECE m == PAWN) && MOVE_IS_PROMO m then 0
    else if (MOVE_PIECE m == KING) && negb (MOVE_IS_CAPTURE m) then kb_idle_next b
    else 0
  else b_kb_idle_kings b.

Definition kb_unlocked_after (b : Board) (m : Move) : bool :=
  if (b_mod b == MOD_KINGS_BATTLE) && negb (b_kb_unlocked b) then
    kb_bonus_after b m
    || ((MOVE_PIECE m == PAWN) && MOVE_IS_PROMO m)
    || ((MOVE_PIECE m == KING) && negb (MOVE_IS_CAPTURE m) && (6 <=? kb_idle_next b))
  else b_kb_unlocked b.

(** The board after the move, with hash [h]. *)
Definition board_after (b : Board) (m : Move) (h : Z) : Board :=
  let l := mailbox_after b m in
  mkBoard (pieces_of l) (occupied_of l) (all_of l) l (side_after b m) (rights_after b m)
    (ep_after b m) (halfmove_after b m) (fullmove_after b) (b_mod b) (heir_after b m)
    (b_truce_active b) (truce_after b m) (ff_after b m) (kb_unlocked_after b m)
    (kb_idle_after b m) h ((b_history b).[b_ply b <- final_entry b m]) (b_ply b + 1).

(** Each stage changes its own field and no other. *)
Lemma truce_stage (m : Move) (b : Board) :
  make_truce m b = set_b_truce_frozen (truce_after b m) b.
Proof. unfold make_truce, truce_after. destruct (_ && _); [done|by destruct b]. Qed.

Lemma ff_stage (m : Move) (b : Board) : make_ff m b = set_b_ff_moved (ff_after b m) b.
Proof. unfold make_ff, ff_after. destruct (_ == _); [done|by destruct b]. Qed.

Lemma ep_stage (m : Move) (b : Board) : make_ep m b = set_b_ep_square (ep_after b m) b.
Proof.
  unfold make_ep, ep_after. change (b_mod (set_b_ep_square _ b)) with (b_mod b).
  destruct (_ && _); [|done]. cbn [andb]. by destruct (_ || _).
Qed.

Lemma clocks_stage (m : Move) (us : Color) (b : Board) :
  make_clocks m us b =
  set_b_halfmove (if (MOVE_PIECE m == PAWN) || MOVE_IS_CAPTURE m then 0 else b_halfmove b + 1)
    (set_b_fullmove (if us == BLACK then b_fullmove b + 1 else b_fullmove b) b).
Proof.
  unfold make_clocks. destruct (_ || _), (us == BLACK); by destruct b.
Qed.

(** The scalar stages before King's Battle, composed. *)
Lemma scalar_stages (m : Move) (us : Color) (b : Board) :
  make_clocks m us (make_ep m (make_rights m us (make_ff m (make_truce m b)))) =
  mkBoard (b_pieces b) (b_occupied b) (b_all b) (b_mailbox b) (b_side b)
    (b_castling (make_rights m us b)) (ep_after b m)
    (if (MOVE_PIECE m == PAWN) || MOVE_IS_CAPTURE m then 0 else b_halfmove b + 1)
    (if us == BLACK then b_fullmove b + 1 else b_fullmove b) (b_mod b) (b_heir_promoted b)
    (b_truce_active b) (truce_after b m) (ff_after b m)
    (b_kb_unlocked b) (b_kb_idle_kings b) (b_hash b) (b_history b) (b_ply b).
Proof. rewrite clocks_stage, ep_stage, ff_stage, truce_stage. reflexivity. Qed.

Section MakeNormal.
Context (b : Board) (m : Move) (Hinv : board_inv b) (Hfit : move_fits b m)
        (Hh : history_ok b).

Lemma kb_stage (b' : Board) :
  b_mod b' = b_mod b -> b_kb_unlocked b' = b_kb_unlocked b ->
  b_kb_idle_kings b' = b_kb_idle_kings b ->
  b_history b' = (b_history b).[b_ply b <- undo_entry b m] ->
  make_kb (b_ply b) m b' =
  set_b_kb_unlocked (kb_unlocked_after b m) (set_b_kb_idle_kings (kb_idle_after b m)
    (set_b_history ((b_history b).[b_ply b <- final_entry b m]) b')).
Proof.
  intros Emod Ekb Eidle Ehist. pose proof (history_range b Hh) as Hr.
  assert (hist b' (b_ply b) = undo_entry b m) as Eu.
  { unfold hist. rewrite Ehist. by apply znth_zset_eq. }
  unfold make_kb, final_entry, kb_idle_after, kb_unlocked_after, kb_bonus_after, kb_idle_next.
  rewrite Emod, Ekb, Eu, <- Ekb, <- Eidle. cbn [u_captured undo_entry].
  destruct ((b_mod b == MOD_KINGS_BATTLE) && negb (b_kb_unlocked b')) eqn:E0; cbn [andb].
  2:{ rewrite <- Ehist. by destruct b'. }
  apply andb_true_iff in E0 as [_ E0]. apply negb_true_iff in E0.
  destruct ((MOVE_PIECE m == KING) && MOVE_IS_CAPTURE m && _) eqn:E1; cbn [orb].
  - unfold upd_hist. change (hist (set_b_kb_idle_kings _ (set_b_kb_unlocked _ b')) (b_ply b))
      with (hist b' (b_ply b)). rewrite Eu.
    change (b_history (set_b_kb_idle_kings _ (set_b_kb_unlocked _ b'))) with (b_history b').
    rewrite Ehist, zset_zset_eq. reflexivity.
  - destruct ((MOVE_PIECE m == PAWN) && MOVE_IS_PROMO m); cbn [orb].
    { rewrite <- Ehist. by destruct b'. }
    destruct ((MOVE_PIECE m == KING) && negb (MOVE_IS_CAPTURE m)); cbn [andb].
    2:{ rewrite <- Ehist, <- E0. by destruct b'. }
    destruct (b_kb_idle_kings b' <? 255) eqn:E2; cbn [b_kb_idle_kings set_b_kb_idle_kings].
    + destruct (6 <=? b_kb_idle_kings b' + 1); rewrite <- Ehist, <- ?E0; by destruct b'.
    + destruct (6 <=? b_kb_idle_kings b'); rewrite <- Ehist, <- ?E0; by destruct b'.
Qed.

Lemma bonus_flag :
  (if u_kb_bonus (final_entry b m) then b_side b else color_opposite (b_side b)) =
  side_after b m.
Proof. unfold final_entry, side_after. by destruct (kb_bonus_after b m). Qed.

(** [board_make_move], field by field. *)
Lemma make_normal :
  board_make_move b m =
  board_after b m (zobrist_compute zob_keys (board_after b m (b_hash b))).
Proof.
  unfold board_make_move, make_state, make_switch. rewrite position_image by done.
  rewrite scalar_stages, kb_stage by reflexivity.
  match goal with |- context [hist (set_b_kb_unlocked ?x ?y) ?i] =>
    assert (hist (set_b_kb_unlocked x y) i = final_entry b m) as ->
  end.
  { apply znth_zset_eq. by apply history_range. }
  rewrite bonus_flag. reflexivity.
Qed.
End MakeNormal.

(** ** Unmaking *)

Section Unmake.
Context (b : Board) (m : Move) (Hinv : board_inv b) (Hfit : move_fits b m)
        (Hh : history_ok b).
Local Abbreviation us := (b_side b).
Local Abbreviation them := (color_opposite (b_side b)).

(** The squares put back by [unmake_position], one after the other. *)
Definition restored (l : list Piece) : list Piece :=
  let l := l.[MOVE_TO m <- PIECE_EMPTY] in
  let l := l.[MOVE_FROM m <- PIECE_MAKE us (MOVE_PIECE m)] in
  let l := if reprisons b m then l.[prison_of them <- PIECE_EMPTY] else l in
  let l := if negb (captured_piece b m =? PIECE_EMPTY)
           then l.[captured_sq m <- captured_piece b m] else l in
  if MOVE_IS_CASTLE m then
    match castle_rook (MOVE_TO m) with
    | Some (rfrom, rto, c) => (l.[rto <- PIECE_EMPTY]).[rfrom <- PIECE_MAKE c ROOK]
    | None => l
    end
  else l.

Lemma castle_facts :
  MOVE_IS_CASTLE m = true ->
  MOVE_IS_EP m = false /\ MOVE_IS_CAPTURE m = false /\ reprisons b m = false /\
  captured_piece b m = PIECE_EMPTY.
Proof.
  intros Ec. destruct (mf_castle b m Hfit Ec) as (Eep & Ecap & _).
  unfold reprisons, captured_piece. by rewrite Eep, Ecap.
Qed.

Lemma reprison_facts :
  reprisons b m = true ->
  MOVE_IS_EP m = false /\ MOVE_IS_CAPTURE m = true /\ MOVE_IS_CASTLE m = false /\
  mb b (prison_of them) = PIECE_EMPTY /\ prison_of them <> MOVE_TO m /\
  prison_of them <> MOVE_FROM m.
Proof.
  intros E. pose proof (prison_not_to b m E) as Hne.
  unfold reprisons in E. rewrite !andb_true_iff, !negb_true_iff, Z.eqb_eq in E.
  destruct E as [[[[[[E1 E2] _] _] _] _] E3].
  split_and!; [done|done| |done|done|].
  - destruct (MOVE_IS_CASTLE m) eqn:Ec; [|done]. apply castle_facts in Ec. naive_solver.
  - intros E. pose proof (mf_piece b m Hfit) as Hp. rewrite <- E, E3 in Hp.
    by apply (PIECE_MAKE_not_empty us (MOVE_PIECE m)); [apply Hfit|].
Qed.

(** Putting the squares back undoes the abstract move. *)
Lemma restored_after : restored (mailbox_after b m) = b_mailbox b.
Proof.
  pose proof (inv_mailbox b Hinv) as Hv. pose proof Hfit as [H1 H2 H3 H4 _ H6 H7 H8 H9].
  unfold mb in *. unfold restored, mailbox_after, after_castle, after_piece.
  destruct (MOVE_IS_CASTLE m) eqn:Ec.
  { destruct (castle_facts Ec) as (Eep & Ecap & Erep & Ecp). destruct (H9 eq_refl) as (_ & _ & H).
    rewrite Erep, Ecp. unfold after_captures. rewrite Eep, Ecap. cbn [negb Z.eqb].
    specialize (H8 Eep Ecap).
    destruct (castle_rook (MOVE_TO m)) as [[[rfrom rto] c]|] eqn:Er.
    - destruct (castle_rook_on_board _ _ _ _ Er) as (Hf & Ht & Hc & Hne & Hne').
      destruct (H _ _ _ eq_refl) as (Hr1 & Hr2 & Hr3). simpl. mailbox_solve.
    - simpl. mailbox_solve. }
  destruct (reprisons b m) eqn:Erep.
  { destruct (reprison_facts Erep) as (Eep & Ecap & _ & Hp1 & Hp2 & Hp3). unfold mb in Hp1.
    specialize (H7 Eep Ecap). unfold captured_piece, captured_sq, after_captures, mb.
    rewrite Eep, Ecap, Erep. apply Z.eqb_neq in H7 as H7'. rewrite H7'. simpl. mailbox_solve. }
  unfold captured_piece, captured_sq, after_captures, mb. rewrite Erep.
  destruct (MOVE_IS_EP m) eqn:Eep.
  { destruct (H6 eq_refl) as (He1 & He2 & He3). apply Z.eqb_neq in He2 as He2'.
    rewrite He2'. simpl. mailbox_solve. }
  destruct (MOVE_IS_CAPTURE m) eqn:Ecap.
  { specialize (H7 eq_refl eq_refl). apply Z.eqb_neq in H7 as H7'. rewrite H7'. simpl.
    mailbox_solve. }
  specialize (H8 eq_refl eq_refl). simpl. mailbox_solve.
Qed.

(** Reading the abstract result at the squares unmake touches. *)
Lemma after_at_from : (mailbox_after b m).[MOVE_FROM m] = PIECE_EMPTY.
Proof.
  pose proof (inv_mailbox b Hinv) as Hv. pose proof (mf_moves b m Hfit) as Hne.
  pose proof (valid_after_captures b m Hinv Hfit) as Hvc.
  assert (H : (after_piece us m (after_captures b m)).[MOVE_FROM m] = PIECE_EMPTY).
  { unfold after_piece. rewrite znth_zset_ne, znth_zset_eq by auto with board. done. }
  unfold mailbox_after, after_castle. destruct (MOVE_IS_CASTLE m) eqn:Ec; [|done].
  destruct (castle_rook (MOVE_TO m)) as [[[rfrom rto] c]|] eqn:Er; [|done].
  destruct (mf_castle b m Hfit Ec) as (_ & _ & Hc). destruct (Hc _ _ _ Er) as (_ & He & Hne').
  rewrite znth_zset_ne, znth_zset_ne; [done|done|]. intros E.
  pose proof (mf_piece b m Hfit) as Hp. rewrite <- E, He in Hp.
  by apply (PIECE_MAKE_not_empty us (MOVE_PIECE m)); [apply Hfit|].
Qed.

(** The square of the captured piece is free when it is put back. *)
Lemma captured_sq_free (l : list Piece) :
  captured_piece b m <> PIECE_EMPTY ->
  l = (if reprisons b m
       then (((mailbox_after b m).[MOVE_TO m <- PIECE_EMPTY]).[MOVE_FROM m <-
              PIECE_MAKE us (MOVE_PIECE m)]).[prison_of them <- PIECE_EMPTY]
       else ((mailbox_after b m).[MOVE_TO m <- PIECE_EMPTY]).[MOVE_FROM m <-
              PIECE_MAKE us (MOVE_PIECE m)]) ->
  l.[captured_sq m] = PIECE_EMPTY /\ on_board (captured_sq m).
Proof.
  intros Hcp ->. pose proof (inv_mailbox b Hinv) as Hv.
  pose proof (valid_after b m Hinv Hfit) as Hva.
  pose proof Hfit as [H1 H2 H3 H4 _ H6 H7 H8 H9].
  destruct (MOVE_IS_CASTLE m) eqn:Ec.
  { apply castle_facts in Ec as (_ & _ & _ & E). congruence. }
  unfold captured_piece, captured_sq in *. destruct (MOVE_IS_EP m) eqn:Eep.
  - destruct (H6 eq_refl) as (He1 & He2 & He3).
    assert (ep_cap_sq m <> MOVE_TO m) as Hne by congruence.
    assert (reprisons b m = false) as -> by (unfold reprisons; by rewrite Eep).
    split; [|auto with board]. mailbox_read.
    unfold mailbox_after, after_castle, after_piece, after_captures. rewrite Ec, Eep.
    mailbox_read.
  - destruct (MOVE_IS_CAPTURE m) eqn:Ecap; [|done]. split; [|auto with board].
    destruct (reprisons b m) eqn:Erep.
    + destruct (reprison_facts Erep) as (_ & _ & _ & Hp1 & Hp2 & Hp3). mailbox_read.
    + mailbox_read.
Qed.

(** The rook's home square is free when the rook goes back. *)
Lemma rook_home_free (rfrom rto : Square) (c : Color) :
  MOVE_IS_CASTLE m = true -> castle_rook (MOVE_TO m) = Some (rfrom, rto, c) ->
  ((((mailbox_after b m).[MOVE_TO m <- PIECE_EMPTY]).[MOVE_FROM m <-
     PIECE_MAKE us (MOVE_PIECE m)]).[rto <- PIECE_EMPTY]).[rfrom] = PIECE_EMPTY.
Proof.
  intros Ec Er. pose proof (inv_mailbox b Hinv) as Hv.
  pose proof (valid_after b m Hinv Hfit) as Hva.
  destruct (castle_rook_on_board _ _ _ _ Er) as (Hf & Ht & Hc & Hne & Hne').
  destruct (mf_castle b m Hfit Ec) as (Eep & Ecap & H).
  destruct (H _ _ _ Er) as (Hr1 & Hr2 & Hr3).
  mailbox_read. unfold mailbox_after, after_castle, after_piece, after_captures.
  rewrite Ec, Er, Eep, Ecap. mailbox_read.
Qed.

(** What the undo entry of a move records. *)
Lemma final_entry_fields :
  u_move (final_entry b m) = m /\
  u_stq_reprisoned (final_entry b m) = reprisons b m /\
  u_stq_reprison_sq (final_entry b m) = (if reprisons b m then prison_of them else SQ_NONE) /\
  u_captured (final_entry b m) = captured_piece b m /\
  u_captured_sq (final_entry b m) = captured_sq m.
Proof. unfold final_entry. by destruct (kb_bonus_after b m). Qed.

(** A queen put back in prison leaves it again. *)
Lemma reprison_image (l : list Z) (X : Board) :
  valid_mailbox l ->
  (if reprisons b m && negb ((if reprisons b m then prison_of them else SQ_NONE) =? SQ_NONE)
   then board_remove (with_mailbox l X) (if reprisons b m then prison_of them else SQ_NONE)
   else with_mailbox l X) =
  with_mailbox (if reprisons b m then l.[prison_of them <- PIECE_EMPTY] else l) X.
Proof.
  intros Hl. destruct (reprisons b m); [|done].
  assert (prison_of them =? SQ_NONE = false) as ->.
  { apply Z.eqb_neq. pose proof (prison_on_board them). unfold SQ_NONE. sq_lia. }
  cbn [andb negb]. by rewrite remove_image by auto with board.
Qed.

Lemma unmake_position_image (X : Board) :
  unmake_position (final_entry b m) us (with_mailbox (mailbox_after b m) X) =
  with_mailbox (b_mailbox b) X.
Proof.
  pose proof (valid_after b m Hinv Hfit) as Hva. pose proof (mf_side b m Hfit) as Hus.
  pose proof (mf_type b m Hfit) as Hpt. pose proof (mf_moves b m Hfit) as Hmv.
  rewrite <- restored_after. unfold unmake_position, restored.
  destruct final_entry_fields as (-> & -> & -> & -> & ->).
  rewrite (remove_image (with_mailbox (mailbox_after b m) X)) by auto with board.
  change (b_mailbox (with_mailbox (mailbox_after b m) X)) with (mailbox_after b m).
  assert (Hi1 : board_inv (with_mailbox ((mailbox_after b m).[MOVE_TO m <- PIECE_EMPTY]) X))
    by auto with board.
  rewrite with_mailbox_twice, (place_image _ Hi1) by
    (auto with board; rewrite mb_with_mailbox, znth_zset_ne by done; apply after_at_from).
  change (b_mailbox (with_mailbox (zset _ (MOVE_TO m) _) X))
    with ((mailbox_after b m).[MOVE_TO m <- PIECE_EMPTY]).
  rewrite with_mailbox_twice. set (l1 := ((mailbox_after b m).[MOVE_TO m <- PIECE_EMPTY]).[MOVE_FROM m <-
              PIECE_MAKE us (MOVE_PIECE m)]).
  set (l2 := if reprisons b m then l1.[prison_of them <- PIECE_EMPTY] else l1).
  assert (Hv1 : valid_mailbox l1) by (subst l1; auto with board).
  assert (Hv2 : valid_mailbox l2) by (subst l2; destruct (reprisons b m); auto with board).
  rewrite (reprison_image l1 X Hv1). fold l2.
  set (l3 := if negb (captured_piece b m =? PIECE_EMPTY)
             then l2.[captured_sq m <- captured_piece b m] else l2).
  assert ((if negb (captured_piece b m =? PIECE_EMPTY)
           then board_place (with_mailbox l2 X) (captured_sq m)
                  (PIECE_COLOR (captured_piece b m)) (PIECE_TYPE (captured_piece b m))
           else with_mailbox l2 X) = with_mailbox l3 X) as ->.
  { subst l3. destruct (Z.eqb_spec (captured_piece b m) PIECE_EMPTY) as [E|E]; [done|].
    cbn [negb]. destruct (captured_sq_free l2 E) as [Hfree Hon].
    { unfold l2. by destruct (reprisons b m). }
    destruct (valid_color_type (captured_piece b m)) as (Hc & Ht & Hp); [|done|].
    { unfold captured_piece in *. repeat case_match; try done; auto with board. }
    rewrite place_image by auto with board. rewrite <- Hp. done. }
  unfold unmake_castle. destruct (MOVE_IS_CASTLE m) eqn:Ec; [|done].
  destruct (castle_rook (MOVE_TO m)) as [[[rfrom rto] c]|] eqn:Er; [|done].
  destruct (castle_facts Ec) as (_ & _ & Erep & Ecp).
  destruct (castle_rook_on_board _ _ _ _ Er) as (Hf & Ht & Hc & _ & _).
  assert (l3 = l1) as -> by (unfold l3, l2; by rewrite Ecp, Erep).
  rewrite remove_image by auto with board.
  rewrite place_image by
    (auto with board; by apply (rook_home_free rfrom rto c)). done.
Qed.

(** Making and unmaking a move gives the board back, but for the scratch slot
    of the undo stack. *)
Lemma unmake_make :
  board_unmake_move (board_make_move b m) = push_undo (b_ply b) (final_entry b m) b.
Proof.
  rewrite make_normal by done. set (h := zobrist_compute _ _).
  unfold board_unmake_move. cbn [b_ply set_b_ply board_after].
  replace (b_ply b + 1 - 1) with (b_ply b) by lia.
  assert (hist (set_b_ply (b_ply b) (board_after b m h)) (b_ply b) = final_entry b m) as ->.
  { apply znth_zset_eq. by apply history_range. }
  assert ((if u_kb_bonus (final_entry b m) then b_side (set_b_ply (b_ply b) (board_after b m h))
           else color_opposite (b_side (set_b_ply (b_ply b) (board_after b m h)))) = us) as ->.
  { change (b_side (set_b_ply _ (board_after b m h))) with (side_after b m).
    unfold final_entry, side_after. destruct (kb_bonus_after b m); [done|].
    apply color_opposite_involutive. }
  assert (set_b_side us (set_b_ply (b_ply b) (board_after b m h)) =
          with_mailbox (mailbox_after b m)
            (set_b_side us (set_b_ply (b_ply b) (board_after b m h)))) as -> by reflexivity.
  rewrite unmake_position_image. set (F := final_entry b m).
  assert (u_castling F = b_castling b /\ u_ep_square F = b_ep_square b /\
          u_halfmove F = b_halfmove b /\ u_hash F = b_hash b /\
          u_heir_promoted F = b_heir_promoted b /\ u_truce_active F = b_truce_active b /\
          u_truce_frozen F = b_truce_frozen b /\ u_ff_moved F = b_ff_moved b /\
          u_kb_unlocked F = b_kb_unlocked b /\ u_kb_idle_kings F = b_kb_idle_kings b)
    as (E1 & E2 & E3 & E4 & E5 & E6 & E7 & E8 & E9 & E10).
  { unfold F, final_entry. by destruct (kb_bonus_after b m). }
  unfold unmake_state. rewrite E1, E2, E3, E4, E5, E6, E7, E8, E9, E10.
  transitivity (push_undo (b_ply b) F (with_mailbox (b_mailbox b) b));
    [|by rewrite (inv_image b Hinv)].
  destruct (us == BLACK) eqn:E.
  - match goal with |- context [set_b_fullmove (?x - 1)] =>
      change x with (fullmove_after b) end.
    assert (fullmove_after b - 1 = b_fullmove b) as ->
      by (unfold fullmove_after; rewrite E; lia).
    reflexivity.
  - unfold board_after. assert (fullmove_after b = b_fullmove b) as ->
      by (unfold fullmove_after; by rewrite E).
    reflexivity.
Qed.
End Unmake.

(** ** Consequences *)

(** A stale entry in the scratch slot is overwritten, so it does not matter. *)
Lemma make_save_push (m : Move) (u : Undo) (b : Board) :
  make_save m (push_undo (b_ply b) u b) = make_save m b.
Proof.
  unfold make_save, upd_hist, push_undo. cbn [b_ply b_history set_b_history].
  rewrite zset_zset_eq. reflexivity.
Qed.

Lemma make_move_push (m : Move) (u : Undo) (b : Board) :
  board_make_move (push_undo (b_ply b) u b) m = board_make_move b m.
Proof.
  unfold board_make_move, make_position.
  change (b_ply (push_undo ?i u b)) with (b_ply b).
  change (b_side (push_undo ?i u b)) with (b_side b). by rewrite make_save_push.
Qed.

Lemma make_inv (b : Board) (m : Move) :
  board_inv b -> move_fits b m -> history_ok b -> board_inv (board_make_move b m).
Proof.
  intros Hinv Hfit Hh. rewrite make_normal by done.
  constructor; [|reflexivity]. by apply valid_after.
Qed.

Lemma make_hash (b : Board) (m : Move) :
  board_inv b -> move_fits b m -> history_ok b ->
  b_hash (board_make_move b m) = zobrist_compute zob_keys (board_make_move b m).
Proof. intros Hinv Hfit Hh. by rewrite make_normal. Qed.
