(* ===== verification/Movegen.v ===== *)
(** * Move generation ([movegen.c], [movegen_pawns.c], [movegen_pieces.c],
      [movegen_legal.c])

    Pseudo-legal generators per piece kind with the rules of the eight
    variants, the legality filter that makes and unmakes each move on a scratch
    board, and the public entry points. *)

From stdpp Require Import base numbers list option.
From Stdlib Require Import ZArith Lia Bool.
From S2P Require Import Prelude Types Board Zobrist Attacks Make.

(** ** Pawns *)

(** Add a promotion move for each type of [promos]. *)
Definition add_promos (ml : MoveList) (from to : Square) (capt : PieceType)
    (promos : list PieceType) : MoveList :=
  fold_left (fun ml p => movelist_add ml (move_encode from to PAWN capt false false true p))
    promos ml.

Definition has_king (b : Board) (c : Color) : bool := negb (pcs b c KING =? BB_EMPTY).

Definition succ_add_promos (b : Board) (ml : MoveList) (from to : Square) (capt : PieceType)
    (us : Color) : MoveList :=
  let them := color_opposite us in
  let hk := has_king b us in
  let pawn_count := bb_popcount (pcs b us PAWN) in
  let is_last_pawn := pawn_count <=? 1 in
  let sq_safe := negb (board_square_attacked b to them) in
  if is_last_pawn && negb hk then
    if sq_safe then add_promos ml from to capt [KING] else ml
  else
    let ml := add_promos ml from to capt [ROOK; BISHOP; KNIGHT] in
    if negb hk && sq_safe then add_promos ml from to capt [KING] else ml.

(** Promotions by the rules of the variant, for a push ([capt = PIECE_NONE])
    or a capture. *)
Definition pawn_promos (b : Board) (ml : MoveList) (sq to : Square) (capt : PieceType)
    (us : Color) : MoveList :=
  if b_mod b == MOD_HEIR then
    let can_promo_king := negb (heir b us) in
    if negb (has_king b us) && can_promo_king then add_promos ml sq to capt [KING]
    else
      let ml := add_promos ml sq to capt [QUEEN; ROOK; BISHOP; KNIGHT] in
      if can_promo_king then add_promos ml sq to capt [KING] else ml
  else if b_mod b == MOD_SUCCESSION then succ_add_promos b ml sq to capt us
  else add_promos ml sq to capt
         (if b_mod b == MOD_SAVE_QUEEN then [ROOK; BISHOP; KNIGHT]
          else [QUEEN; ROOK; BISHOP; KNIGHT]).

(** Mercenary: pawns move like kings. *)
Definition merc_pawn (b : Board) (captures_only truce_no_cap : bool) (them : Color)
    (ml : MoveList) (sq : Square) : MoveList :=
  let targets := king_attacks sq in
  let ml :=
    if negb captures_only then
      fold_left (fun ml to => movelist_add ml (move_simple sq to PAWN))
        (bb_squares (Z.land targets (bb_not (b_all b)))) ml
    else ml in
  if negb truce_no_cap then
    fold_left (fun ml to =>
      let capt := PIECE_TYPE (mb b to) in
      if capt == KING then ml else movelist_add ml (move_capture sq to PAWN capt))
      (bb_squares (Z.land targets (occ b them))) ml
  else ml.

(** Single and double push. *)
Definition pawn_pushes (b : Board) (captures_only : bool) (us : Color) (dir rank2 rank7 : Z)
    (ml : MoveList) (sq : Square) : MoveList :=
  let r := SQ_ROW sq in
  let c := SQ_COL sq in
  let one := SQ (r + dir) c in
  if negb captures_only && SQ_VALID one && (mb b one =? PIECE_EMPTY) then
    if r =? rank7 then pawn_promos b ml sq one PIECE_NONE us
    else
      let ml := movelist_add ml (move_simple sq one PAWN) in
      if r =? rank2 then
        let two := SQ (r + 2 * dir) c in
        if mb b two =? PIECE_EMPTY then movelist_add ml (move_simple sq two PAWN) else ml
      else ml
  else ml.

(** Save the Queen: a prisoner queen is protected while the prison is taken. *)
Definition stq_protected (b : Board) (them : Color) (to : Square) (capt : PieceType) : bool :=
  (b_mod b == MOD_SAVE_QUEEN) && (capt == QUEEN) && negb (stq_is_own_half to them)
  && negb (mb b (prison_of them) =? PIECE_EMPTY).

(** One diagonal of the capture loop. *)
Definition pawn_capture (b : Board) (us them : Color) (dir rank7 : Z) (sq : Square)
    (ml : MoveList) (dc : Z) : MoveList :=
  let r := SQ_ROW sq in
  let nc := SQ_COL sq + dc in
  if (nc <? 0) || (7 <? nc) then ml
  else
    let to := SQ (r + dir) nc in
    if negb (SQ_VALID to) then ml
    else
      let target := mb b to in
      let capt := PIECE_TYPE target in
      let enemy := negb (target =? PIECE_EMPTY) && (PIECE_COLOR target == them) in
      if enemy && (((capt == KING) && negb (b_mod b == MOD_HEIR)) || stq_protected b them to capt)
      then ml
      else
        let ml :=
          if enemy then
            if r =? rank7 then pawn_promos b ml sq to capt us
            else movelist_add ml (move_capture sq to PAWN capt)
          else ml in
        let ml :=
          if (b_mod b == MOD_FRIENDLY_FIRE) && negb (target =? PIECE_EMPTY)
             && (PIECE_COLOR target == us) && negb (capt == KING) && BB_HAS (b_ff_moved b) to then
            if r =? rank7 then add_promos ml sq to capt [QUEEN; ROOK; BISHOP; KNIGHT]
            else movelist_add ml (move_capture sq to PAWN capt)
          else ml in
        if (to =? b_ep_square b) && negb (b_ep_square b =? SQ_NONE) then
          let cap := mb b (SQ r nc) in
          if negb (cap =? PIECE_EMPTY) && (PIECE_COLOR cap == them) then
            movelist_add ml (move_encode sq to PAWN (PIECE_TYPE cap) false true false PIECE_NONE)
          else ml
        else ml.

Definition truce_now (b : Board) : bool := (b_mod b == MOD_TRUCE) && b_truce_active b.

Definition gen_pawn (b : Board) (captures_only : bool) (ml : MoveList) (sq : Square) : MoveList :=
  let us := b_side b in
  let them := color_opposite us in
  let dir := if us == WHITE then 1 else -1 in
  let rank2 := if us == WHITE then 1 else 6 in
  let rank7 := if us == WHITE then 6 else 1 in
  if b_mod b == MOD_MERCENARY then merc_pawn b captures_only (truce_now b) them ml sq
  else
    let ml := pawn_pushes b captures_only us dir rank2 rank7 ml sq in
    if negb (truce_now b)
    then fold_left (pawn_capture b us them dir rank7 sq) [-1; 1] ml
    else ml.

Definition gen_pawn_moves (b : Board) (ml : MoveList) (captures_only : bool) : MoveList :=
  let pawns := pcs b (b_side b) PAWN in
  let pawns := if truce_now b then Z.land pawns (bb_not (b_truce_frozen b)) else pawns in
  fold_left (gen_pawn b captures_only) (bb_squares pawns) ml.

(** ** Pieces *)

Definition piece_targets (b : Board) (pt : PieceType) (sq : Square) : Bitboard :=
  match pt with
  | KNIGHT => knight_attacks sq
  | BISHOP => bishop_attacks_calc sq (b_all b)
  | ROOK => rook_attacks_calc sq (b_all b)
  | QUEEN => Z.lor (bishop_attacks_calc sq (b_all b)) (rook_attacks_calc sq (b_all b))
  | KING => king_attacks sq
  | _ => BB_EMPTY
  end.

Definition add_quiets (ml : MoveList) (sq : Square) (pt : PieceType) (targets : Bitboard)
    : MoveList :=
  fold_left (fun ml to => movelist_add ml (move_simple sq to pt)) (bb_squares targets) ml.

(** Save the Queen: the queen's special moves. *)
Definition stq_queen (b : Board) (captures_only : bool) (us them : Color)
    (ml : MoveList) (sq : Square) : MoveList :=
  if negb (stq_is_own_half sq us) then
    if negb captures_only
    then add_quiets ml sq QUEEN (Z.land (king_attacks sq) (bb_not (b_all b)))
    else ml
  else
    let half := if us == WHITE then 0x00000000FFFFFFFF else 0xFFFFFFFF00000000 in
    let sliding := Z.lor (bishop_attacks_calc sq (b_all b)) (rook_attacks_calc sq (b_all b)) in
    let sliding := Z.land sliding (bb_not (occ b us)) in
    let sliding := Z.land sliding (bb_not (pcs b them QUEEN)) in
    let own_targets := Z.land sliding half in
    let own_targets := if captures_only then Z.land own_targets (occ b them) else own_targets in
    let them_pq := Z.land (pcs b them QUEEN) half in
    let own_targets :=
      if bb_nonzero them_pq then
        let psq := bb_lsb them_pq in
        if stq_on_prison psq them && bb_nonzero (Z.land (king_attacks sq) (BB_SQ psq))
        then Z.lor own_targets (BB_SQ psq) else own_targets
      else own_targets in
    let ml := fold_left (fun ml to =>
      let target := mb b to in
      if negb (target =? PIECE_EMPTY) then
        let capt := PIECE_TYPE target in
        if capt == KING then ml else movelist_add ml (move_capture sq to QUEEN capt)
      else movelist_add ml (move_simple sq to QUEEN)) (bb_squares own_targets) ml in
    if negb captures_only then
      add_quiets ml sq QUEEN (Z.land (Z.land (king_attacks sq) (bb_not (b_all b))) (bb_not half))
    else ml.

(** The targets left after the rules of the variant. *)
Definition filtered_targets (b : Board) (pt : PieceType) (captures_only : bool) (us them : Color)
    (sq : Square) : Bitboard :=
  let targets := piece_targets b pt sq in
  let targets :=
    if b_mod b == MOD_FRIENDLY_FIRE then
      let uncapturable := Z.lor (Z.land (occ b us) (bb_not (b_ff_moved b))) (pcs b us KING) in
      Z.land targets (bb_not uncapturable)
    else Z.land targets (bb_not (occ b us)) in
  let targets :=
    if (pt == KING) && (b_mod b == MOD_HEIR) then
      let opp_king := pcs b them KING in
      if bb_nonzero opp_king then
        let opp_ksq := bb_lsb opp_king in
        Z.land (Z.land targets (bb_not (king_attacks opp_ksq))) (bb_not (BB_SQ opp_ksq))
      else targets
    else targets in
  let targets :=
    if (pt == KING) && (b_mod b == MOD_KINGS_BATTLE) && negb (b_kb_unlocked b)
    then Z.land targets (bb_not (pcs b them KING)) else targets in
  let targets := if truce_now b then Z.land targets (bb_not (occ b them)) else targets in
  if captures_only then
    if b_mod b == MOD_FRIENDLY_FIRE then
      let ff_cap := Z.land (Z.land (occ b us) (b_ff_moved b)) (bb_not (pcs b us KING)) in
      Z.land targets (Z.lor (occ b them) ff_cap)
    else Z.land targets (occ b them)
  else targets.

(** Emit the move to one target. *)
Definition emit_target (b : Board) (pt : PieceType) (them : Color) (sq : Square)
    (ml : MoveList) (to : Square) : MoveList :=
  let target := mb b to in
  if negb (target =? PIECE_EMPTY) then
    let capt := PIECE_TYPE target in
    if (capt == KING) && (negb (b_mod b == MOD_HEIR) || (pt == KING)) then ml
    else if stq_protected b them to capt then ml
    else movelist_add ml (move_capture sq to pt capt)
  else movelist_add ml (move_simple sq to pt).

Definition gen_piece (b : Board) (pt : PieceType) (captures_only : bool)
    (ml : MoveList) (sq : Square) : MoveList :=
  let us := b_side b in
  let them := color_opposite us in
  if (b_mod b == MOD_SAVE_QUEEN) && (pt == QUEEN) then stq_queen b captures_only us them ml sq
  else fold_left (emit_target b pt them sq)
         (bb_squares (filtered_targets b pt captures_only us them sq)) ml.

Definition gen_piece_moves (b : Board) (ml : MoveList) (pt : PieceType) (captures_only : bool)
    : MoveList :=
  if (b_mod b == MOD_KINGS_BATTLE) && negb (b_kb_unlocked b) && negb (pt == KING) then ml
  else
    let p := pcs b (b_side b) pt in
    let p := if truce_now b then Z.land p (bb_not (b_truce_frozen b)) else p in
    fold_left (gen_piece b pt captures_only) (bb_squares p) ml.

(** ** Castling *)

Definition has_right (b : Board) (right : Z) : bool := negb (Z.land (b_castling b) right =? 0).

Definition empty_at (b : Board) (sq : Square) : bool := mb b sq =? PIECE_EMPTY.

(** One castling: the right, the free squares and the squares that must not be
    attacked, then the king's move. *)
Definition castle_one (b : Board) (need_check_safe : bool) (enemy : Color) (right : Z)
    (free safe : list Square) (from to : Square) (ml : MoveList) : MoveList :=
  if has_right b right && forallb (empty_at b) free
     && (negb need_check_safe || forallb (fun s => negb (board_square_attacked b s enemy)) safe)
  then movelist_add ml (move_encode from to KING PIECE_NONE true false false PIECE_NONE)
  else ml.

Definition castle_need_safe (b : Board) : bool :=
  let need := true in
  let need := if (b_mod b == MOD_HEIR) && negb (heir_check_applies b (b_side b))
              then false else need in
  if truce_now b then false else need.

Definition gen_castling (b : Board) (ml : MoveList) : MoveList :=
  let us := b_side b in
  if (b_mod b == MOD_KINGS_BATTLE) && negb (b_kb_unlocked b) then ml
  else if truce_now b
          && bb_nonzero (Z.land (b_truce_frozen b) (BB_SQ (bb_lsb (pcs b us KING)))) then ml
  else
    let need := castle_need_safe b in
    if need && board_in_check b us then ml
    else if us == WHITE then
      let ml := castle_one b need BLACK CASTLE_WK [SQ 0 5; SQ 0 6] [SQ 0 5; SQ 0 6]
                  (SQ 0 4) (SQ 0 6) ml in
      castle_one b need BLACK CASTLE_WQ [SQ 0 1; SQ 0 2; SQ 0 3] [SQ 0 2; SQ 0 3]
        (SQ 0 4) (SQ 0 2) ml
    else
      let ml := castle_one b need WHITE CASTLE_BK [SQ 7 5; SQ 7 6] [SQ 7 5; SQ 7 6]
                  (SQ 7 4) (SQ 7 6) ml in
      castle_one b need WHITE CASTLE_BQ [SQ 7 1; SQ 7 2; SQ 7 3] [SQ 7 2; SQ 7 3]
        (SQ 7 4) (SQ 7 2) ml.

(** ** Legality filter *)

(** [is_legal] works on a scratch board, which it changes and changes back. *)
Definition is_legal (b : Board) (m : Move) : bool * Board :=
  let mover := b_side b in
  let b := board_make_move b m in
  let legal := negb (board_in_check b mover) in
  let legal :=
    if legal && truce_now b then
      let their_king := pcs b (color_opposite mover) KING in
      if negb (their_king =? BB_EMPTY) then
        if board_square_attacked b (bb_lsb their_king) mover then false else legal
      else legal
    else legal in
  (legal, board_unmake_move b).

(** The filtering loop, with the scratch board threaded through it. *)
Definition filter_legal (tmp : Board) (pseudo : MoveList) : MoveList :=
  (fold_left (fun st m =>
     let '(ml, tmp) := st in
     let '(legal, tmp) := is_legal tmp m in
     (if legal then movelist_add ml m else ml, tmp)) pseudo ([], tmp)).1.

(** ** Public API *)

Definition pseudo_moves (b : Board) : MoveList :=
  let ml := gen_pawn_moves b [] false in
  let ml := gen_piece_moves b ml KNIGHT false in
  let ml := gen_piece_moves b ml BISHOP false in
  let ml := gen_piece_moves b ml ROOK false in
  let ml := gen_piece_moves b ml QUEEN false in
  let ml := gen_piece_moves b ml KING false in
  gen_castling b ml.

Definition generate_moves (b : Board) : MoveList := filter_legal b (pseudo_moves b).

Definition pseudo_captures (b : Board) : MoveList :=
  let ml := gen_pawn_moves b [] true in
  let ml := gen_piece_moves b ml KNIGHT true in
  let ml := gen_piece_moves b ml BISHOP true in
  let ml := gen_piece_moves b ml ROOK true in
  let ml := gen_piece_moves b ml QUEEN true in
  gen_piece_moves b ml KING true.

Definition generate_captures (b : Board) : MoveList :=
  if truce_now b then [] else filter_legal b (pseudo_captures b).

Definition has_legal_moves (b : Board) : bool := 0 <? Z.of_nat (length (generate_moves b)).
