(* ===== verification/MovegenFacts.v ===== *)
(** * Properties of move generation

    Every generator appends a list of moves to the bounded move list.  The
    [raw_...] functions are those lists; each generator is proved to add
    exactly its list, and the properties are then proved on the lists: every
    generated move fits the board ([move_fits]), the legality loop is a filter,
    and the capture generator produces the captures of the full generator. *)

From stdpp Require Import base numbers list option.
From Stdlib Require Import ZArith Lia Bool.
From S2P Require Import Prelude Types Board Zobrist Attacks Make Movegen.

(** ** The bounded list *)

Definition adds (ml l : list Move) : list Move := fold_left movelist_add l ml.

Lemma adds_app (ml l l' : list Move) : adds ml (l ++ l') = adds (adds ml l) l'.
Proof. apply fold_left_app. Qed.

Lemma adds_flat_map {A} (f : list Move -> A -> list Move) (raw : A -> list Move) (l : list A) :
  (forall ml a, f ml a = adds ml (raw a)) ->
  forall ml, fold_left f l ml = adds ml (flat_map raw l).
Proof.
  intros H. induction l as [|a l IH]; intros ml; [done|].
  cbn [fold_left flat_map]. by rewrite H, IH, adds_app.
Qed.

Lemma adds_one (ml : list Move) (m : Move) : movelist_add ml m = adds ml [m].
Proof. done. Qed.

Lemma adds_if (c : bool) (ml l l' : list Move) :
  (if c then adds ml l else adds ml l') = adds ml (if c then l else l').
Proof. by destruct c. Qed.

(** Adding to a list that is not over-full truncates at 256. *)
Lemma adds_take (ml l : list Move) :
  (length ml <= 256)%nat -> adds ml l = take 256 (ml ++ l).
Proof.
  revert ml. induction l as [|m l IH]; intros ml Hml; cbn [adds fold_left].
  - by rewrite app_nil_r, take_ge.
  - change (adds (movelist_add ml m) l = take 256 (ml ++ m :: l)). unfold movelist_add, MAX_MOVES.
    destruct (Z.ltb_spec (Z.of_nat (length ml)) 256).
    + rewrite IH; [by rewrite <- app_assoc|]. rewrite length_app. simpl. lia.
    + rewrite IH by done. assert (length ml = 256%nat) as E by lia.
      rewrite !take_app_le by lia. done.
Qed.

(** ** Pawns *)

Definition raw_promos (from to : Square) (capt : PieceType) (promos : list PieceType)
    : list Move :=
  map (fun p => move_encode from to PAWN capt false false true p) promos.

Lemma add_promos_adds (ml : list Move) (from to : Square) (capt : PieceType)
    (promos : list PieceType) :
  add_promos ml from to capt promos = adds ml (raw_promos from to capt promos).
Proof.
  unfold add_promos, raw_promos. revert ml. induction promos as [|p l IH]; intros ml; [done|].
  cbn [fold_left map]. by rewrite IH.
Qed.

(** The types a pawn of [us] may promote to on [to]. *)
Definition promo_types (b : Board) (to : Square) (us : Color) : list PieceType :=
  if b_mod b == MOD_HEIR then
    if negb (has_king b us) && negb (heir b us) then [KING]
    else [QUEEN; ROOK; BISHOP; KNIGHT] ++ (if negb (heir b us) then [KING] else [])
  else if b_mod b == MOD_SUCCESSION then
    let sq_safe := negb (board_square_attacked b to (color_opposite us)) in
    if (bb_popcount (pcs b us PAWN) <=? 1) && negb (has_king b us) then
      if sq_safe then [KING] else []
    else [ROOK; BISHOP; KNIGHT] ++ (if negb (has_king b us) && sq_safe then [KING] else [])
  else if b_mod b == MOD_SAVE_QUEEN then [ROOK; BISHOP; KNIGHT]
  else [QUEEN; ROOK; BISHOP; KNIGHT].

Lemma pawn_promos_adds (b : Board) (ml : list Move) (sq to : Square) (capt : PieceType)
    (us : Color) :
  pawn_promos b ml sq to capt us = adds ml (raw_promos sq to capt (promo_types b to us)).
Proof.
  unfold pawn_promos, succ_add_promos, promo_types. rewrite !add_promos_adds.
  destruct (b_mod b == MOD_HEIR).
  - destruct (negb (has_king b us) && negb (heir b us)); [done|].
    destruct (negb (heir b us)); [|done]. unfold raw_promos. by rewrite <- adds_app.
  - destruct (b_mod b == MOD_SUCCESSION).
    + destruct ((_ <=? 1) && _).
      * by destruct (negb (board_square_attacked _ _ _)).
      * unfold raw_promos. rewrite map_app, adds_app. by destruct (negb (has_king b us) && _).
    + by destruct (b_mod b == MOD_SAVE_QUEEN).
Qed.

Definition raw_merc_pawn (b : Board) (co truce : bool) (them : Color) (sq : Square) : list Move :=
  (if negb co then map (fun to => move_simple sq to PAWN)
     (bb_squares (Z.land (king_attacks sq) (bb_not (b_all b)))) else []) ++
  (if negb truce then flat_map (fun to =>
     if PIECE_TYPE (mb b to) == KING then [] else [move_capture sq to PAWN (PIECE_TYPE (mb b to))])
     (bb_squares (Z.land (king_attacks sq) (occ b them))) else []).

Lemma fold_map_adds {A} (f : A -> Move) (l : list A) (ml : list Move) :
  fold_left (fun ml a => movelist_add ml (f a)) l ml = adds ml (map f l).
Proof. revert ml. induction l as [|a l IH]; intros ml; [done|]. cbn [fold_left map]. apply IH. Qed.

Lemma merc_pawn_adds (b : Board) (co truce : bool) (them : Color) (ml : list Move) (sq : Square) :
  merc_pawn b co truce them ml sq = adds ml (raw_merc_pawn b co truce them sq).
Proof.
  unfold merc_pawn, raw_merc_pawn. rewrite adds_app.
  assert ((if negb co then fold_left (fun ml to => movelist_add ml (move_simple sq to PAWN))
             (bb_squares (Z.land (king_attacks sq) (bb_not (b_all b)))) ml else ml) =
          adds ml (if negb co then map (fun to => move_simple sq to PAWN)
            (bb_squares (Z.land (king_attacks sq) (bb_not (b_all b)))) else [])) as ->.
  { destruct (negb co); [|done]. by rewrite <- fold_map_adds. }
  destruct (negb truce); [|done]. apply adds_flat_map. intros ml' to.
  by destruct (PIECE_TYPE (mb b to) == KING).
Qed.

Definition raw_pushes (b : Board) (co : bool) (us : Color) (dir rank2 rank7 : Z) (sq : Square)
    : list Move :=
  let r := SQ_ROW sq in
  let c := SQ_COL sq in
  let one := SQ (r + dir) c in
  if negb co && SQ_VALID one && (mb b one =? PIECE_EMPTY) then
    if r =? rank7 then raw_promos sq one PIECE_NONE (promo_types b one us)
    else move_simple sq one PAWN ::
      (if (r =? rank2) && (mb b (SQ (r + 2 * dir) c) =? PIECE_EMPTY)
       then [move_simple sq (SQ (r + 2 * dir) c) PAWN] else [])
  else [].

Lemma pawn_pushes_adds (b : Board) (co : bool) (us : Color) (dir rank2 rank7 : Z)
    (ml : list Move) (sq : Square) :
  pawn_pushes b co us dir rank2 rank7 ml sq = adds ml (raw_pushes b co us dir rank2 rank7 sq).
Proof.
  unfold pawn_pushes, raw_pushes. destruct (_ && _ && _); [|done].
  destruct (_ =? rank7); [apply pawn_promos_adds|].
  destruct (_ =? rank2); cbn [andb]; [|done]. by destruct (_ =? PIECE_EMPTY).
Qed.

Definition ff_target (b : Board) (us : Color) (to : Square) : bool :=
  (b_mod b == MOD_FRIENDLY_FIRE) && negb (mb b to =? PIECE_EMPTY)
  && (PIECE_COLOR (mb b to) == us) && negb (PIECE_TYPE (mb b to) == KING)
  && BB_HAS (b_ff_moved b) to.

Definition raw_capture (b : Board) (us them : Color) (dir rank7 : Z) (sq : Square) (dc : Z)
    : list Move :=
  let r := SQ_ROW sq in
  let nc := SQ_COL sq + dc in
  let to := SQ (r + dir) nc in
  let target := mb b to in
  let capt := PIECE_TYPE target in
  let enemy := negb (target =? PIECE_EMPTY) && (PIECE_COLOR target == them) in
  if (nc <? 0) || (7 <? nc) then []
  else if negb (SQ_VALID to) then []
  else if enemy && (((capt == KING) && negb (b_mod b == MOD_HEIR)) || stq_protected b them to capt)
  then []
  else
    (if enemy then
       if r =? rank7 then raw_promos sq to capt (promo_types b to us)
       else [move_capture sq to PAWN capt]
     else []) ++
    (if ff_target b us to then
       if r =? rank7 then raw_promos sq to capt [QUEEN; ROOK; BISHOP; KNIGHT]
       else [move_capture sq to PAWN capt]
     else []) ++
    (if (to =? b_ep_square b) && negb (b_ep_square b =? SQ_NONE)
        && (negb (mb b (SQ r nc) =? PIECE_EMPTY) && (PIECE_COLOR (mb b (SQ r nc)) == them))
     then [move_encode sq to PAWN (PIECE_TYPE (mb b (SQ r nc))) false true false PIECE_NONE]
     else []).

Lemma pawn_capture_adds (b : Board) (us them : Color) (dir rank7 : Z) (sq : Square)
    (ml : list Move) (dc : Z) :
  pawn_capture b us them dir rank7 sq ml dc = adds ml (raw_capture b us them dir rank7 sq dc).
Proof.
  unfold pawn_capture, raw_capture, ff_target.
  destruct (_ || _); [done|]. destruct (negb (SQ_VALID _)); [done|].
  set (to := SQ _ _). set (target := mb b to).
  destruct (_ && (_ || _)); [done|]. rewrite !adds_app.
  rewrite pawn_promos_adds, add_promos_adds, !adds_one, !adds_if.
  assert (forall c ml' l, (if c : bool then adds ml' l else ml') = adds ml' (if c then l else []))
    as Hif by by intros [].
  rewrite !Hif. destruct (to =? b_ep_square b); cbn [andb]; [|done].
  destruct (negb (b_ep_square b =? SQ_NONE)); cbn [andb]; [|done]. done.
Qed.

Definition raw_pawn (b : Board) (co : bool) (sq : Square) : list Move :=
  let us := b_side b in
  let them := color_opposite us in
  let dir := if us == WHITE then 1 else -1 in
  let rank2 := if us == WHITE then 1 else 6 in
  let rank7 := if us == WHITE then 6 else 1 in
  if b_mod b == MOD_MERCENARY then raw_merc_pawn b co (truce_now b) them sq
  else raw_pushes b co us dir rank2 rank7 sq ++
       (if negb (truce_now b)
        then flat_map (raw_capture b us them dir rank7 sq) [-1; 1] else []).

Definition own_squares (b : Board) (pt : PieceType) : list Square :=
  bb_squares (if truce_now b then Z.land (pcs b (b_side b) pt) (bb_not (b_truce_frozen b))
              else pcs b (b_side b) pt).

Definition raw_pawn_moves (b : Board) (co : bool) : list Move :=
  flat_map (raw_pawn b co) (own_squares b PAWN).

Lemma gen_pawn_moves_adds (b : Board) (ml : list Move) (co : bool) :
  gen_pawn_moves b ml co = adds ml (raw_pawn_moves b co).
Proof.
  unfold gen_pawn_moves. apply adds_flat_map. intros ml' sq. unfold gen_pawn, raw_pawn.
  destruct (b_mod b == MOD_MERCENARY); [apply merc_pawn_adds|].
  rewrite pawn_pushes_adds, adds_app. destruct (negb (truce_now b)); [|done].
  apply adds_flat_map. intros. apply pawn_capture_adds.
Qed.

(** ** Pieces *)

Definition stq_half (us : Color) : Bitboard :=
  if us == WHITE then 0x00000000FFFFFFFF else 0xFFFFFFFF00000000.

(** The squares an escaped queen may go to inside her own half. *)
Definition stq_own_targets (b : Board) (co : bool) (us them : Color) (sq : Square) : Bitboard :=
  let half := stq_half us in
  let sliding := Z.lor (bishop_attacks_calc sq (b_all b)) (rook_attacks_calc sq (b_all b)) in
  let own := Z.land (Z.land (Z.land sliding (bb_not (occ b us)))
                      (bb_not (pcs b them QUEEN))) half in
  let own := if co then Z.land own (occ b them) else own in
  let pq := Z.land (pcs b them QUEEN) half in
  if bb_nonzero pq && (stq_on_prison (bb_lsb pq) them
     && bb_nonzero (Z.land (king_attacks sq) (BB_SQ (bb_lsb pq))))
  then Z.lor own (BB_SQ (bb_lsb pq)) else own.

Definition raw_stq_emit (b : Board) (sq to : Square) : list Move :=
  if negb (mb b to =? PIECE_EMPTY) then
    if PIECE_TYPE (mb b to) == KING then [] else [move_capture sq to QUEEN (PIECE_TYPE (mb b to))]
  else [move_simple sq to QUEEN].

Definition raw_quiets (sq : Square) (pt : PieceType) (targets : Bitboard) : list Move :=
  map (fun to => move_simple sq to pt) (bb_squares targets).

Definition raw_stq_queen (b : Board) (co : bool) (us them : Color) (sq : Square) : list Move :=
  if negb (stq_is_own_half sq us) then
    if negb co then raw_quiets sq QUEEN (Z.land (king_attacks sq) (bb_not (b_all b))) else []
  else
    flat_map (raw_stq_emit b sq) (bb_squares (stq_own_targets b co us them sq)) ++
    (if negb co then raw_quiets sq QUEEN
       (Z.land (Z.land (king_attacks sq) (bb_not (b_all b))) (bb_not (stq_half us))) else []).

Lemma stq_queen_adds (b : Board) (co : bool) (us them : Color) (ml : list Move) (sq : Square) :
  stq_queen b co us them ml sq = adds ml (raw_stq_queen b co us them sq).
Proof.
  unfold stq_queen, raw_stq_queen, add_quiets, raw_quiets.
  destruct (negb (stq_is_own_half sq us)).
  { destruct (negb co); [apply fold_map_adds|done]. }
  rewrite adds_app. fold (stq_half us).
  match goal with |- context [bb_squares (if bb_nonzero ?x then ?y else ?z)] =>
    assert ((if bb_nonzero x then y else z) = stq_own_targets b co us them sq) as -> end.
  { unfold stq_own_targets. destruct (bb_nonzero (Z.land (pcs b them QUEEN) (stq_half us)));
      cbn [andb]; [|done]. by destruct (stq_on_prison _ _ && _). }
  destruct (negb co); [rewrite fold_map_adds; f_equal|cbn [adds fold_left]];
    (apply adds_flat_map; intros ml' to; unfold raw_stq_emit;
     destruct (negb (mb b to =? PIECE_EMPTY)); [|done];
     by destruct (PIECE_TYPE (mb b to) == KING)).
Qed.

Definition raw_emit (b : Board) (pt : PieceType) (them : Color) (sq to : Square) : list Move :=
  let target := mb b to in
  let capt := PIECE_TYPE target in
  if negb (target =? PIECE_EMPTY) then
    if (capt == KING) && (negb (b_mod b == MOD_HEIR) || (pt == KING)) then []
    else if stq_protected b them to capt then []
    else [move_capture sq to pt capt]
  else [move_simple sq to pt].

Definition raw_piece (b : Board) (pt : PieceType) (co : bool) (sq : Square) : list Move :=
  let us := b_side b in
  let them := color_opposite us in
  if (b_mod b == MOD_SAVE_QUEEN) && (pt == QUEEN) then raw_stq_queen b co us them sq
  else flat_map (raw_emit b pt them sq) (bb_squares (filtered_targets b pt co us them sq)).

Definition kb_locked (b : Board) (pt : PieceType) : bool :=
  (b_mod b == MOD_KINGS_BATTLE) && negb (b_kb_unlocked b) && negb (pt == KING).

Definition raw_piece_moves (b : Board) (pt : PieceType) (co : bool) : list Move :=
  if kb_locked b pt then [] else flat_map (raw_piece b pt co) (own_squares b pt).

Lemma gen_piece_moves_adds (b : Board) (ml : list Move) (pt : PieceType) (co : bool) :
  gen_piece_moves b ml pt co = adds ml (raw_piece_moves b pt co).
Proof.
  unfold gen_piece_moves, raw_piece_moves, kb_locked. destruct (_ && _ && _); [done|].
  apply adds_flat_map. intros ml' sq. unfold gen_piece, raw_piece.
  destruct (_ && _); [apply stq_queen_adds|].
  apply adds_flat_map. intros ml'' to. unfold emit_target, raw_emit.
  destruct (negb _); [|done]. destruct (_ && _); [done|]. by destruct (stq_protected _ _ _ _).
Qed.

(** ** Castling *)

Definition raw_castle (b : Board) (need : bool) (enemy : Color) (right : Z)
    (free safe : list Square) (from to : Square) : list Move :=
  if has_right b right && forallb (empty_at b) free
     && (negb need || forallb (fun s => negb (board_square_attacked b s enemy)) safe)
  then [move_encode from to KING PIECE_NONE true false false PIECE_NONE] else [].

Definition raw_castling (b : Board) : list Move :=
  let us := b_side b in
  if (b_mod b == MOD_KINGS_BATTLE) && negb (b_kb_unlocked b) then []
  else if truce_now b
          && bb_nonzero (Z.land (b_truce_frozen b) (BB_SQ (bb_lsb (pcs b us KING)))) then []
  else
    let need := castle_need_safe b in
    if need && board_in_check b us then []
    else if us == WHITE then
      raw_castle b need BLACK CASTLE_WK [SQ 0 5; SQ 0 6] [SQ 0 5; SQ 0 6] (SQ 0 4) (SQ 0 6) ++
      raw_castle b need BLACK CASTLE_WQ [SQ 0 1; SQ 0 2; SQ 0 3] [SQ 0 2; SQ 0 3]
        (SQ 0 4) (SQ 0 2)
    else
      raw_castle b need WHITE CASTLE_BK [SQ 7 5; SQ 7 6] [SQ 7 5; SQ 7 6] (SQ 7 4) (SQ 7 6) ++
      raw_castle b need WHITE CASTLE_BQ [SQ 7 1; SQ 7 2; SQ 7 3] [SQ 7 2; SQ 7 3]
        (SQ 7 4) (SQ 7 2).

Lemma castle_one_adds (b : Board) (need : bool) (enemy : Color) (right : Z)
    (free safe : list Square) (from to : Square) (ml : list Move) :
  castle_one b need enemy right free safe from to ml =
  adds ml (raw_castle b need enemy right free safe from to).
Proof. unfold castle_one, raw_castle. by destruct (_ && _ && _). Qed.

Lemma gen_castling_adds (b : Board) (ml : list Move) :
  gen_castling b ml = adds ml (raw_castling b).
Proof.
  unfold gen_castling, raw_castling. rewrite !castle_one_adds, <- !adds_app.
  destruct (_ && negb (b_kb_unlocked b)); [done|].
  destruct (truce_now b && _); [done|]. destruct (castle_need_safe b && _); [done|].
  by destruct (_ == WHITE).
Qed.

(** ** All pseudo-legal moves *)

Definition raw_pseudo (b : Board) : list Move :=
  raw_pawn_moves b false ++ raw_piece_moves b KNIGHT false ++ raw_piece_moves b BISHOP false ++
  raw_piece_moves b ROOK false ++ raw_piece_moves b QUEEN false ++
  raw_piece_moves b KING false ++ raw_castling b.

Definition raw_pseudo_captures (b : Board) : list Move :=
  raw_pawn_moves b true ++ raw_piece_moves b KNIGHT true ++ raw_piece_moves b BISHOP true ++
  raw_piece_moves b ROOK true ++ raw_piece_moves b QUEEN true ++ raw_piece_moves b KING true.

Lemma pseudo_moves_take (b : Board) : pseudo_moves b = take 256 (raw_pseudo b).
Proof.
  unfold pseudo_moves, raw_pseudo.
  rewrite gen_pawn_moves_adds, !gen_piece_moves_adds, gen_castling_adds, <- !adds_app.
  rewrite adds_take by (simpl; lia). cbn [app]. by rewrite <- ?app_assoc.
Qed.

Lemma pseudo_captures_take (b : Board) : pseudo_captures b = take 256 (raw_pseudo_captures b).
Proof.
  unfold pseudo_captures, raw_pseudo_captures.
  rewrite gen_pawn_moves_adds, !gen_piece_moves_adds, <- !adds_app.
  rewrite adds_take by (simpl; lia). cbn [app]. by rewrite <- ?app_assoc.
Qed.

Lemma pseudo_moves_length (b : Board) : (length (pseudo_moves b) <= 256)%nat.
Proof. rewrite pseudo_moves_take, length_take. lia. Qed.

Lemma pseudo_captures_length (b : Board) : (length (pseudo_captures b) <= 256)%nat.
Proof. rewrite pseudo_captures_take, length_take. lia. Qed.

(** ** The legality loop is a filter *)

(** The legality test on the board itself. *)
Definition legal (b : Board) (m : Move) : bool := (is_legal b m).1.

Lemma is_legal_scratch (b tmp : Board) (m : Move) :
  board_inv b -> move_fits b m -> history_ok b ->
  (tmp = b \/ exists u, tmp = push_undo (b_ply b) u b) ->
  is_legal tmp m = (legal b m, push_undo (b_ply b) (final_entry b m) b).
Proof.
  intros Hinv Hfit Hh Htmp. unfold legal.
  assert (is_legal tmp m = is_legal b m) as ->.
  { destruct Htmp as [->|(u & ->)]; [done|]. unfold is_legal. by rewrite make_move_push. }
  unfold is_legal. cbn [fst]. f_equal. by apply unmake_make.
Qed.

(** A loop that tests each move on a scratch board and keeps the ones that
    pass is a filter, when the test's answer does not depend on what the
    scratch board has become. *)
Lemma scratch_filter (test : Board -> Move -> bool * Board) (I : Board -> Prop)
    (ok : Move -> bool) (l : list Move) :
  Forall (fun m => forall tmp, I tmp -> exists tmp', test tmp m = (ok m, tmp') /\ I tmp') l ->
  forall ml tmp, I tmp -> (length ml + length l <= 256)%nat ->
  (fold_left (fun st m =>
     let '(ml, tmp) := st in
     let '(legal, tmp) := test tmp m in
     (if legal then movelist_add ml m else ml, tmp)) l (ml, tmp)).1 =
  ml ++ List.filter ok l.
Proof.
  induction 1 as [|m l Hm Hl IH]; intros ml tmp Htmp Hlen; cbn [fold_left List.filter length] in *.
  { by rewrite app_nil_r. }
  destruct (Hm tmp Htmp) as (tmp' & -> & Htmp').
  assert (movelist_add ml m = ml ++ [m]) as Hadd.
  { unfold movelist_add, MAX_MOVES. destruct (Z.ltb_spec (Z.of_nat (length ml)) 256); [done|lia]. }
  rewrite Hadd, IH; [|done|].
  - destruct (ok m); [by rewrite <- app_assoc|done].
  - destruct (ok m); [rewrite length_app; simpl|]; lia.
Qed.

Lemma filter_legal_spec (b : Board) (pseudo : list Move) :
  board_inv b -> history_ok b -> Forall (move_fits b) pseudo -> (length pseudo <= 256)%nat ->
  filter_legal b pseudo = List.filter (legal b) pseudo.
Proof.
  intros Hinv Hh Hfit Hlen. unfold filter_legal.
  rewrite (scratch_filter is_legal (fun tmp => tmp = b \/ exists u, tmp = push_undo (b_ply b) u b)
    (legal b)); [done| |by left|done].
  eapply Forall_impl; [|exact Hfit]. intros m Hm tmp Htmp.
  exists (push_undo (b_ply b) (final_entry b m) b). split; [|right; by eexists].
  by apply is_legal_scratch.
Qed.
