(* ===== verification/MovegenSound.v ===== *)
(** * Soundness of move generation

    On a board whose castling rights and en-passant square mean what they say,
    every generated move fits the board, so that making it preserves the
    representation invariant and unmaking it restores the board. *)

From stdpp Require Import base numbers list option.
From Stdlib Require Import ZArith Lia Bool.
From S2P Require Import Prelude Types Board Zobrist Attacks Make Movegen MovegenFacts.

(** ** Positions that mean what they say *)

(** A castling right is backed by king and rook on their home squares. *)
Definition castle_ok (b : Board) : Prop :=
  (has_right b CASTLE_WK = true ->
     mb b (SQ 0 4) = PIECE_MAKE WHITE KING /\ mb b (SQ 0 7) = PIECE_MAKE WHITE ROOK) /\
  (has_right b CASTLE_WQ = true ->
     mb b (SQ 0 4) = PIECE_MAKE WHITE KING /\ mb b (SQ 0 0) = PIECE_MAKE WHITE ROOK) /\
  (has_right b CASTLE_BK = true ->
     mb b (SQ 7 4) = PIECE_MAKE BLACK KING /\ mb b (SQ 7 7) = PIECE_MAKE BLACK ROOK) /\
  (has_right b CASTLE_BQ = true ->
     mb b (SQ 7 4) = PIECE_MAKE BLACK KING /\ mb b (SQ 7 0) = PIECE_MAKE BLACK ROOK).

Definition pawn_dir (c : Color) : Z := if c == WHITE then 1 else -1.

(** An en-passant square is free, with the enemy pawn just in front of it. *)
Definition ep_ok (b : Board) : Prop :=
  b_ep_square b <> SQ_NONE ->
  mb b (b_ep_square b) = PIECE_EMPTY /\
  mb b (b_ep_square b - 8 * pawn_dir (b_side b)) = PIECE_MAKE (color_opposite (b_side b)) PAWN.

Record game_inv (b : Board) : Prop := {
  gi_board : board_inv b;
  gi_side : real_color (b_side b);
  gi_castle : castle_ok b;
  gi_ep : ep_ok b
}.

Lemma In_squares_land (x y sq : Z) :
  0 <= x < 2 ^ 64 -> In sq (bb_squares (Z.land x y)) ->
  on_board sq /\ Z.testbit x sq = true /\ Z.testbit y sq = true.
Proof.
  intros Hx Hin. apply elem_of_bb_squares in Hin as [Hs Hb]; [|auto with board].
  by rewrite Z.land_spec, andb_true_iff in Hb.
Qed.

(** No piece attacks its own square. *)
Lemma slide_dirs_irrefl (dirs : list (Z * Z)) (sq occ : Z) :
  good_dirs dirs -> on_board sq -> Z.testbit (slide_dirs dirs sq occ) sq = false.
Proof.
  intros Hd Hs. apply not_true_iff_false. rewrite slide_dirs_spec by (done || sq_lia).
  intros (dr & dc & k & Hin & Hk & Hg & E & _). apply in_grid_spec in Hg as [Hr Hc].
  destruct (Hd dr dc Hin) as (_ & _ & _ & Hne).
  assert (SQ_ROW sq = SQ_ROW sq + k * dr) by (rewrite E at 1; apply SQ_ROW_SQ; lia).
  assert (SQ_COL sq = SQ_COL sq + k * dc) by (rewrite E at 1; apply SQ_COL_SQ; lia).
  nia.
Qed.

Lemma step_away_irrefl (steps : list (Z * Z)) (sq : Square) :
  forallb (fun d => negb ((d.1 =? 0) && (d.2 =? 0))) steps = true -> step_away steps sq sq = false.
Proof.
  intros H. apply not_true_iff_false. intros (d & Hin & E)%existsb_exists.
  rewrite forallb_forall in H. specialize (H d Hin).
  apply andb_true_iff in E as [E1%Z.eqb_eq E2%Z.eqb_eq].
  replace (d.1) with 0 in H by lia. replace (d.2) with 0 in H by lia. done.
Qed.

Lemma king_attacks_irrefl (sq : Square) : on_board sq -> Z.testbit (king_attacks sq) sq = false.
Proof. intros. rewrite king_attacks_spec by done. by apply step_away_irrefl. Qed.

Lemma piece_targets_irrefl (b : Board) (pt : PieceType) (sq : Square) :
  on_board sq -> Z.testbit (piece_targets b pt sq) sq = false.
Proof.
  intros. unfold piece_targets. destruct pt; rewrite ?Z.lor_spec, ?Z.testbit_0_l; try done.
  - rewrite knight_attacks_spec by done. by apply step_away_irrefl.
  - apply slide_dirs_irrefl; auto using bishop_dirs_good.
  - apply slide_dirs_irrefl; auto using rook_dirs_good.
  - apply orb_false_iff; split; apply slide_dirs_irrefl; auto using bishop_dirs_good, rook_dirs_good.
  - by apply king_attacks_irrefl.
Qed.

Lemma piece_targets_bound (b : Board) (pt : PieceType) (sq : Square) :
  on_board sq -> 0 <= piece_targets b pt sq < 2 ^ 64.
Proof. intros. unfold piece_targets. destruct pt; auto with board; unfold BB_EMPTY; lia. Qed.

#[export] Hint Resolve piece_targets_bound : board.

Section Fits.
Context (b : Board) (Hg : game_inv b).
Local Abbreviation us := (b_side b).
Local Abbreviation them := (color_opposite (b_side b)).

Local Definition Hinv : board_inv b := gi_board b Hg.
Local Definition Hus : real_color us := gi_side b Hg.

Lemma Hthem : real_color them.
Proof. pose proof Hus. destruct (b_side b); real. Qed.
Local Hint Resolve Hinv Hus Hthem : board.

Lemma own_squares_spec (pt : PieceType) (sq : Square) :
  real_type pt -> In sq (own_squares b pt) -> on_board sq /\ mb b sq = PIECE_MAKE us pt.
Proof.
  intros Ht Hin. unfold own_squares in Hin.
  assert (on_board sq /\ Z.testbit (pcs b us pt) sq = true) as [Hs Hb].
  { destruct (truce_now b).
    - apply In_squares_land in Hin as (? & ? & _); auto with board.
    - apply elem_of_bb_squares in Hin; auto with board. }
  split; [done|]. rewrite pcs_testbit in Hb; auto with board. by apply Z.eqb_eq.
Qed.

(** A square with one of our pieces is not free. *)
Lemma own_not_empty (sq : Square) (pt : PieceType) :
  mb b sq = PIECE_MAKE us pt -> mb b sq <> PIECE_EMPTY.
Proof. intros ->. apply PIECE_MAKE_not_empty, Hus. Qed.

Lemma mb_type_real (sq : Square) :
  on_board sq -> mb b sq <> PIECE_EMPTY -> real_type (PIECE_TYPE (mb b sq)).
Proof.
  intros Hs He. destruct (valid_color_type (mb b sq)) as (_ & Ht & _); auto using mb_valid, Hinv.
Qed.

Section OneMove.
Context (from to : Square) (pt : PieceType) (Hf : on_board from) (Ht : on_board to)
        (Hpt : real_type pt) (Hp : mb b from = PIECE_MAKE us pt).

Ltac fields :=
  constructor;
  rewrite ?MOVE_FROM_encode, ?MOVE_TO_encode, ?MOVE_PIECE_encode, ?MOVE_IS_PROMO_encode,
    ?MOVE_PROMO_TYPE_encode, ?MOVE_IS_EP_encode, ?MOVE_IS_CAPTURE_encode,
    ?MOVE_IS_CASTLE_encode by done; auto with board.

Lemma empty_ne : mb b to = PIECE_EMPTY -> from <> to.
Proof. intros He ->. by apply (own_not_empty to pt). Qed.

Lemma fits_quiet : mb b to = PIECE_EMPTY -> move_fits b (move_simple from to pt).
Proof. intros He. pose proof (empty_ne He). unfold move_simple. fields; done. Qed.

Lemma fits_capture (capt : PieceType) :
  from <> to -> real_type capt -> mb b to <> PIECE_EMPTY ->
  move_fits b (move_capture from to pt capt).
Proof.
  intros Hne Hc He. unfold move_capture. fields; try done.
  intros _ E. by apply bool_decide_eq_false in E || (rewrite negb_false_iff in E;
    apply bool_decide_eq_true in E).
Qed.

Lemma fits_promo (capt promo : PieceType) :
  from <> to -> real_type promo ->
  (capt = PIECE_NONE /\ mb b to = PIECE_EMPTY \/ real_type capt /\ mb b to <> PIECE_EMPTY) ->
  move_fits b (move_encode from to pt capt false false true promo).
Proof.
  intros Hne Hpr Hc. fields; try done.
  - intros _ E. rewrite negb_true_iff in E. apply bool_decide_eq_false in E. naive_solver.
  - intros _ E. rewrite negb_false_iff in E. apply bool_decide_eq_true in E. naive_solver.
Qed.
End OneMove.

Lemma fits_ep (from to : Square) (capt : PieceType) :
  on_board from -> on_board to -> mb b from = PIECE_MAKE us PAWN -> mb b to = PIECE_EMPTY ->
  SQ_COL to <> SQ_COL from -> mb b (SQ (SQ_ROW from) (SQ_COL to)) <> PIECE_EMPTY ->
  move_fits b (move_encode from to PAWN capt false true false PIECE_NONE).
Proof.
  intros Hf Ht Hp He Hcol Hcap.
  assert (from <> to) by (intros ->; by apply (own_not_empty to PAWN)).
  assert (ep_cap_sq (move_encode from to PAWN capt false true false PIECE_NONE) =
          SQ (SQ_ROW from) (SQ_COL to)) as Ecap.
  { unfold ep_cap_sq. by rewrite MOVE_FROM_encode, MOVE_TO_encode. }
  constructor; rewrite ?Ecap, ?MOVE_FROM_encode, ?MOVE_TO_encode, ?MOVE_PIECE_encode,
    ?MOVE_IS_PROMO_encode, ?MOVE_PROMO_TYPE_encode, ?MOVE_IS_EP_encode, ?MOVE_IS_CASTLE_encode
    by done; auto with board; try done.
  intros _. split_and!; [done|done|]. intros E. apply Hcol. rewrite <- E.
  pose proof (SQ_ROW_bound from Hf). pose proof (SQ_COL_bound to).
  rewrite SQ_COL_SQ; lia.
Qed.

Lemma fits_castle (from to rfrom rto : Square) :
  on_board from -> on_board to -> castle_rook to = Some (rfrom, rto, us) ->
  mb b from = PIECE_MAKE us KING -> mb b rfrom = PIECE_MAKE us ROOK ->
  mb b to = PIECE_EMPTY -> mb b rto = PIECE_EMPTY ->
  move_fits b (move_encode from to KING PIECE_NONE true false false PIECE_NONE).
Proof.
  intros Hf Ht Hr Hk Hrook He He'.
  assert (from <> to) by (intros ->; by apply (own_not_empty to KING)).
  constructor; rewrite ?MOVE_FROM_encode, ?MOVE_TO_encode, ?MOVE_PIECE_encode,
    ?MOVE_IS_PROMO_encode, ?MOVE_PROMO_TYPE_encode, ?MOVE_IS_EP_encode, ?MOVE_IS_CAPTURE_encode,
    ?MOVE_IS_CASTLE_encode by done; auto with board; try done.
  intros _. split_and!; [done|done|]. intros rf rt c E. rewrite Hr in E. simplify_eq.
  split_and!; [done|done|]. intros ->. rewrite Hk in Hrook.
  apply PIECE_MAKE_inj in Hrook; naive_solver.
Qed.

(** ** Pawns *)

Lemma promo_types_real (to : Square) (c : Color) : Forall real_type (promo_types b to c).
Proof. unfold promo_types. repeat case_match; simpl; repeat constructor; done. Qed.

Lemma promos_fit (from to : Square) (capt : PieceType) (promos : list PieceType) :
  on_board from -> on_board to -> mb b from = PIECE_MAKE us PAWN -> from <> to ->
  Forall real_type promos ->
  (capt = PIECE_NONE /\ mb b to = PIECE_EMPTY \/ real_type capt /\ mb b to <> PIECE_EMPTY) ->
  Forall (move_fits b) (raw_promos from to capt promos).
Proof.
  intros Hf Ht Hp Hne Hpr Hc. apply Forall_map. eapply Forall_impl; [|exact Hpr].
  intros p Hreal. by apply fits_promo.
Qed.

Lemma merc_pawn_fits (co truce : bool) (sq : Square) :
  on_board sq -> mb b sq = PIECE_MAKE us PAWN ->
  Forall (move_fits b) (raw_merc_pawn b co truce them sq).
Proof.
  intros Hs Hp. unfold raw_merc_pawn. apply Forall_app. split.
  - destruct (negb co); [|done]. apply Forall_map, List.Forall_forall. intros to Hin.
    apply In_squares_land in Hin as (Ht & _ & Hb); [|auto with board].
    rewrite bb_not_testbit, all_testbit, negb_involutive in Hb by (done || apply Hinv).
    apply fits_quiet; auto with board. by apply Z.eqb_eq.
  - destruct (negb truce); [|done]. apply List.Forall_forall. intros m Hm.
    apply in_flat_map in Hm as (to & Hin & Hm).
    apply In_squares_land in Hin as (Ht & _ & Hb); [|auto with board].
    rewrite occ_testbit in Hb by auto with board. apply bool_decide_eq_true in Hb.
    assert (mb b to <> PIECE_EMPTY) as Hne.
    { intros E. rewrite E in Hb. pose proof Hthem as H. rewrite <- Hb in H. done. }
    destruct (_ == KING); [done|]. destruct Hm as [<-|[]].
    apply fits_capture; auto using mb_type_real with board.
    intros ->. rewrite Hp, PIECE_COLOR_MAKE in Hb. pose proof Hus. destruct (b_side b); real.
Qed.

Lemma pushes_fit (co : bool) (dir rank2 rank7 : Z) (sq : Square) :
  (dir = 1 /\ rank2 = 1 \/ dir = -1 /\ rank2 = 6) ->
  on_board sq -> mb b sq = PIECE_MAKE us PAWN ->
  Forall (move_fits b) (raw_pushes b co us dir rank2 rank7 sq).
Proof.
  intros Hdir Hs Hp. unfold raw_pushes.
  pose proof (SQ_ROW_bound sq Hs) as Hr. pose proof (SQ_COL_bound sq) as Hc.
  destruct (_ && _ && _) eqn:E; [|done]. rewrite !andb_true_iff in E.
  destruct E as [[_ Hv%SQ_VALID_spec] He%Z.eqb_eq].
  assert (sq <> SQ (SQ_ROW sq + dir) (SQ_COL sq)) as Hne.
  { intros E. rewrite E in Hp. by apply own_not_empty in Hp. }
  destruct (_ =? rank7).
  - apply promos_fit; auto using promo_types_real with board.
  - constructor; [by apply fits_quiet|]. destruct ((_ =? rank2) && _) eqn:E2; [|done].
    apply andb_true_iff in E2 as [E2%Z.eqb_eq E3%Z.eqb_eq]. constructor; [|done].
    apply fits_quiet; try done. apply SQ_on_board; lia.
Qed.

Lemma captures_fit (dir rank7 : Z) (sq : Square) (dc : Z) :
  dir = pawn_dir us -> dc = -1 \/ dc = 1 ->
  on_board sq -> mb b sq = PIECE_MAKE us PAWN ->
  Forall (move_fits b) (raw_capture b us them dir rank7 sq dc).
Proof.
  intros Hdir Hdc Hs Hp. unfold raw_capture.
  pose proof (SQ_ROW_bound sq Hs) as Hr. pose proof (SQ_COL_bound sq) as Hc.
  set (nc := SQ_COL sq + dc). set (to := SQ (SQ_ROW sq + dir) nc).
  destruct ((nc <? 0) || (7 <? nc)) eqn:En; [done|].
  apply orb_false_iff in En as [En1 En2]. rewrite Z.ltb_ge in En1, En2.
  destruct (negb (SQ_VALID to)) eqn:Ev; [done|].
  apply negb_false_iff, SQ_VALID_spec in Ev.
  assert (-1 <= dir <= 1) by (subst dir; unfold pawn_dir; case_match; lia).
  assert (SQ_COL to = nc) as Hcol by (apply SQ_COL_SQ; lia).
  assert (sq <> to) as Hne by (intros E; rewrite <- E in Hcol; lia).
  destruct (_ && (_ || _)); [done|].
  assert (forall capt promos, real_type capt -> mb b to <> PIECE_EMPTY -> Forall real_type promos ->
    Forall (move_fits b) (if SQ_ROW sq =? rank7 then raw_promos sq to capt promos
                          else [move_capture sq to PAWN capt])) as Hmoves.
  { intros capt promos Hcapt He Hpr. destruct (_ =? rank7).
    - apply promos_fit; auto with board.
    - constructor; [|done]. by apply fits_capture. }
  apply Forall_app. split; [|apply Forall_app; split].
  - destruct (_ && _) eqn:E; [|done]. apply andb_true_iff in E as [E%negb_true_iff _].
    apply Z.eqb_neq in E. apply Hmoves; auto using mb_type_real, promo_types_real.
  - unfold ff_target. destruct (_ && _) eqn:E; [|done].
    rewrite !andb_true_iff, negb_true_iff, Z.eqb_neq in E. destruct E as [[[[_ E] _] _] _].
    apply Hmoves; auto using mb_type_real. repeat constructor; done.
  - destruct (_ && (_ && _)) eqn:E; [|done]. rewrite !andb_true_iff, !negb_true_iff in E.
    destruct E as [[E1%Z.eqb_eq E2%Z.eqb_neq] [E3%Z.eqb_neq _]].
    destruct (gi_ep b Hg E2) as [He _]. constructor; [|done].
    apply fits_ep; auto; rewrite ?Hcol; [by rewrite E1|lia|done].
Qed.

Lemma pawn_moves_fit (co : bool) : Forall (move_fits b) (raw_pawn_moves b co).
Proof.
  apply List.Forall_forall. intros m Hm. apply in_flat_map in Hm as (sq & Hin & Hm).
  apply own_squares_spec in Hin as [Hs Hp]; [|done]. revert m Hm. apply List.Forall_forall.
  unfold raw_pawn. destruct (b_mod b == MOD_MERCENARY); [by apply merc_pawn_fits|].
  apply Forall_app. split.
  - apply pushes_fit; [|done|done]. destruct (us == WHITE); auto.
  - destruct (negb (truce_now b)); [|done]. cbn [flat_map]. rewrite app_nil_r.
    apply Forall_app. split; apply captures_fit; auto.
Qed.

(** ** Pieces *)

(** The rules of the variant only remove targets. *)
Lemma filtered_targets_bound (pt : PieceType) (co : bool) (sq : Square) :
  on_board sq -> 0 <= filtered_targets b pt co us them sq < 2 ^ 64.
Proof. intros. unfold filtered_targets. repeat case_match; auto 12 with board. Qed.

Lemma filtered_targets_sub (pt : PieceType) (co : bool) (sq n : Square) :
  Z.testbit (filtered_targets b pt co us them sq) n = true ->
  Z.testbit (piece_targets b pt sq) n = true.
Proof.
  unfold filtered_targets. cbv zeta. intros H.
  repeat match type of H with
  | context [if ?c then _ else _] => destruct c
  end; rewrite ?Z.land_spec in H; repeat (apply andb_true_iff in H as [H _]); done.
Qed.

Lemma emit_fits (pt : PieceType) (sq to : Square) :
  on_board sq -> on_board to -> real_type pt -> mb b sq = PIECE_MAKE us pt -> sq <> to ->
  Forall (move_fits b) (raw_emit b pt them sq to).
Proof.
  intros Hs Ht Hpt Hp Hne. unfold raw_emit.
  destruct (Z.eqb_spec (mb b to) PIECE_EMPTY) as [E|E]; cbn [negb].
  - constructor; [by apply fits_quiet|done].
  - destruct (_ && _); [done|]. destruct (stq_protected _ _ _ _); [done|].
    constructor; [|done]. apply fits_capture; auto using mb_type_real.
Qed.

Lemma quiets_fit (sq : Square) (pt : PieceType) (x y : Bitboard) :
  on_board sq -> real_type pt -> mb b sq = PIECE_MAKE us pt -> 0 <= x < 2 ^ 64 ->
  Forall (move_fits b) (raw_quiets sq pt (Z.land (Z.land x (bb_not (b_all b))) y)).
Proof.
  intros Hs Hpt Hp Hx. apply Forall_map, List.Forall_forall. intros to Hin.
  apply In_squares_land in Hin as (Ht & Hb & _); [|auto with board].
  rewrite Z.land_spec, andb_true_iff in Hb. destruct Hb as [_ Hb].
  rewrite bb_not_testbit, all_testbit, negb_involutive in Hb by (done || apply Hinv).
  apply fits_quiet; auto. by apply Z.eqb_eq.
Qed.

Lemma stq_own_targets_bound (co : bool) (sq : Square) :
  on_board sq -> 0 <= stq_own_targets b co us them sq < 2 ^ 64.
Proof. intros. unfold stq_own_targets. repeat case_match; auto 8 with board. Qed.

(** An escaped queen's targets: sliding moves off her own pieces, or the
    prisoner next to her. *)
Lemma stq_own_targets_sub (co : bool) (sq to : Square) :
  on_board sq -> on_board to -> Z.testbit (stq_own_targets b co us them sq) to = true ->
  PIECE_COLOR (mb b to) <> us \/ Z.testbit (king_attacks sq) to = true.
Proof.
  intros Hs Ht. unfold stq_own_targets. cbv zeta.
  set (pq := Z.land (pcs b them QUEEN) (stq_half us)).
  set (own := Z.land (Z.land (Z.land _ (bb_not (occ b us))) _) _).
  assert (0 <= pq < 2 ^ 64) as Hpq by (subst pq; auto with board).
  assert (forall x, Z.testbit (if co then Z.land own x else own) to = true ->
            PIECE_COLOR (mb b to) <> us) as Hown.
  { intros x H. assert (Z.testbit own to = true) as H'.
    { destruct co; [|done]. rewrite Z.land_spec in H. by apply andb_true_iff in H as [? _]. }
    unfold own in H'. rewrite !Z.land_spec, !andb_true_iff, !bb_not_testbit, occ_testbit in H'
      by auto with board.
    destruct H' as [[[_ H'] _] _]. apply negb_true_iff, bool_decide_eq_false in H'. done. }
  destruct (bb_nonzero pq && _) eqn:E; [|intros H; left; by eapply Hown].
  rewrite Z.lor_spec, orb_true_iff. intros [H|H]; [left; by eapply Hown|right].
  apply andb_true_iff in E as [E1 [_ E2]%andb_true_iff].
  apply negb_true_iff, Z.eqb_neq in E1.
  destruct (bb_lsb_spec pq) as (Hl & _ & _); [unfold BB_EMPTY in *; lia|].
  rewrite BB_SQ_testbit in H by sq_lia. apply Z.eqb_eq in H as ->.
  apply bb_nonzero_land in E2 as (n & Hn & Hk & Hb); [|auto with board].
  rewrite BB_SQ_testbit in Hb by sq_lia. by apply Z.eqb_eq in Hb as <-.
Qed.

Lemma stq_queen_fits (co : bool) (sq : Square) :
  on_board sq -> mb b sq = PIECE_MAKE us QUEEN ->
  Forall (move_fits b) (raw_stq_queen b co us them sq).
Proof.
  intros Hs Hp. unfold raw_stq_queen. destruct (negb (stq_is_own_half sq us)).
  { destruct (negb co); [|done].
    replace (Z.land _ _) with (Z.land (Z.land (king_attacks sq) (bb_not (b_all b))) (-1))
      by apply Z.land_m1_r.
    apply quiets_fit; auto with board; done. }
  apply Forall_app. split.
  - apply List.Forall_forall. intros m (to & Hin & Hm)%in_flat_map.
    apply elem_of_bb_squares in Hin as [Ht Hb]; [|auto using stq_own_targets_bound].
    assert (sq <> to) as Hne.
    { intros <-. destruct (stq_own_targets_sub co sq sq Hs Hs Hb) as [Hb'|Hb'].
      - by rewrite Hp, PIECE_COLOR_MAKE in Hb'.
      - by rewrite king_attacks_irrefl in Hb'. }
    revert m Hm. apply List.Forall_forall. unfold raw_stq_emit.
    destruct (Z.eqb_spec (mb b to) PIECE_EMPTY) as [E|E]; cbn [negb].
    + constructor; [by apply fits_quiet|done].
    + destruct (_ == KING); [done|]. constructor; [|done].
      apply fits_capture; auto using mb_type_real; done.
  - destruct (negb co); [|done]. apply quiets_fit; auto with board; done.
Qed.

Lemma piece_moves_fit (pt : PieceType) (co : bool) :
  real_type pt -> Forall (move_fits b) (raw_piece_moves b pt co).
Proof.
  intros Hpt. unfold raw_piece_moves. destruct (kb_locked b pt); [done|].
  apply List.Forall_forall. intros m (sq & Hin & Hm)%in_flat_map.
  apply own_squares_spec in Hin as [Hs Hp]; [|done]. revert m Hm. apply List.Forall_forall.
  unfold raw_piece. destruct ((_ == MOD_SAVE_QUEEN) && _) eqn:E.
  { apply andb_true_iff in E as [_ ->%bool_decide_eq_true]. by apply stq_queen_fits. }
  apply List.Forall_forall. intros m (to & Hin & Hm)%in_flat_map.
  apply elem_of_bb_squares in Hin as [Ht Hb]; [|by apply filtered_targets_bound].
  revert m Hm. apply List.Forall_forall, emit_fits; try done.
  intros <-. apply filtered_targets_sub in Hb. by rewrite piece_targets_irrefl in Hb.
Qed.

(** ** Castling *)

Lemma castle_fits (need : bool) (enemy : Color) (right : Z) (free safe : list Square)
    (from to rfrom rto : Square) :
  on_board from -> on_board to -> castle_rook to = Some (rfrom, rto, us) ->
  In to free -> In rto free ->
  (has_right b right = true -> mb b from = PIECE_MAKE us KING /\ mb b rfrom = PIECE_MAKE us ROOK) ->
  Forall (move_fits b) (raw_castle b need enemy right free safe from to).
Proof.
  intros Hf Ht Hr Hto Hrto Hright. unfold raw_castle.
  destruct (_ && _ && _) eqn:E; [|done]. rewrite !andb_true_iff in E. destruct E as [[E1 E2] _].
  rewrite forallb_forall in E2. destruct (Hright E1) as [Hk Hrk]. constructor; [|done].
  apply (fits_castle from to rfrom rto); auto; by apply Z.eqb_eq, E2.
Qed.

Lemma castling_fits : Forall (move_fits b) (raw_castling b).
Proof.
  unfold raw_castling. destruct (_ && negb (b_kb_unlocked b)); [done|].
  destruct (truce_now b && _); [done|]. destruct (castle_need_safe b && _); [done|].
  destruct (gi_castle b Hg) as (H1 & H2 & H3 & H4). pose proof Hus as Hreal.
  destruct (us == WHITE) eqn:E.
  - apply bool_decide_eq_true in E. apply Forall_app; split.
    + apply (castle_fits _ _ _ _ _ _ _ (SQ 0 7) (SQ 0 5)); rewrite ?E; try done; simpl; auto.
    + apply (castle_fits _ _ _ _ _ _ _ (SQ 0 0) (SQ 0 3)); rewrite ?E; try done; simpl; auto.
  - assert (us = BLACK) as E'.
    { apply bool_decide_eq_false in E. destruct (b_side b); real. }
    apply Forall_app; split.
    + apply (castle_fits _ _ _ _ _ _ _ (SQ 7 7) (SQ 7 5)); rewrite ?E'; try done; simpl; auto.
    + apply (castle_fits _ _ _ _ _ _ _ (SQ 7 0) (SQ 7 3)); rewrite ?E'; try done; simpl; auto.
Qed.

(** Every pseudo-legal move fits the board. *)
Lemma pseudo_fits : Forall (move_fits b) (pseudo_moves b).
Proof.
  rewrite pseudo_moves_take. apply Forall_take. unfold raw_pseudo.
  repeat (apply Forall_app; split); auto using pawn_moves_fit, castling_fits;
    by apply piece_moves_fit.
Qed.

Lemma pseudo_captures_fit : Forall (move_fits b) (pseudo_captures b).
Proof.
  rewrite pseudo_captures_take. apply Forall_take. unfold raw_pseudo_captures.
  repeat (apply Forall_app; split); auto using pawn_moves_fit; by apply piece_moves_fit.
Qed.
End Fits.

(** ** What generated moves never do

    Facts about generated moves that [move_fits] does not say: kings are
    captured in Heir only, an en-passant capture takes the pawn that just
    advanced, a pawn that moves two squares jumps over a free one, and only the
    succession variants promote to king. *)

Record gen_ok (b : Board) (m : Move) : Prop := {
  go_capture : MOVE_IS_EP m = false -> MOVE_IS_CAPTURE m = true -> b_mod b <> MOD_HEIR ->
    PIECE_TYPE (mb b (MOVE_TO m)) <> KING;
  go_ep : MOVE_IS_EP m = true ->
    mb b (ep_cap_sq m) = PIECE_MAKE (color_opposite (b_side b)) PAWN;
  go_ep_capture : MOVE_IS_EP m = true -> MOVE_IS_CAPTURE m = true;
  go_double : MOVE_PIECE m = PAWN -> b_mod b <> MOD_MERCENARY ->
    MOVE_TO m - MOVE_FROM m = 16 \/ MOVE_TO m - MOVE_FROM m = -16 ->
    MOVE_TO m = MOVE_FROM m + 16 * pawn_dir (b_side b) /\
    mb b (MOVE_FROM m + 8 * pawn_dir (b_side b)) = PIECE_EMPTY /\
    MOVE_IS_EP m = false /\ MOVE_IS_CAPTURE m = false /\ MOVE_IS_PROMO m = false;
  go_castle : MOVE_IS_CASTLE m = true ->
    MOVE_PIECE m = KING /\ MOVE_IS_PROMO m = false /\
    exists rfrom rto, castle_rook (MOVE_TO m) = Some (rfrom, rto, b_side b);
  go_promo : MOVE_IS_PROMO m = true -> MOVE_PROMO_TYPE m = KING ->
    b_mod b = MOD_HEIR \/ b_mod b = MOD_SUCCESSION /\ has_king b (b_side b) = false;
  go_promo_pawn : MOVE_IS_PROMO m = true -> MOVE_PIECE m = PAWN
}.

Section Gen.
Context (b : Board) (Hg : game_inv b).
Local Abbreviation us := (b_side b).
Local Abbreviation them := (color_opposite (b_side b)).

Ltac gen_fields :=
  constructor; rewrite ?MOVE_FROM_encode, ?MOVE_TO_encode, ?MOVE_PIECE_encode,
    ?MOVE_IS_PROMO_encode, ?MOVE_PROMO_TYPE_encode, ?MOVE_IS_EP_encode,
    ?MOVE_IS_CAPTURE_encode, ?MOVE_IS_CASTLE_encode by done; try done.

Lemma ok_simple (from to : Square) (pt : PieceType) :
  on_board from -> on_board to ->
  (pt = PAWN -> b_mod b <> MOD_MERCENARY -> to - from = 16 \/ to - from = -16 ->
   to = from + 16 * pawn_dir us /\ mb b (from + 8 * pawn_dir us) = PIECE_EMPTY) ->
  gen_ok b (move_simple from to pt).
Proof. intros Hf Ht H. unfold move_simple. gen_fields. naive_solver. Qed.

Lemma ok_capture (from to : Square) (pt capt : PieceType) :
  on_board from -> on_board to ->
  (b_mod b <> MOD_HEIR -> PIECE_TYPE (mb b to) <> KING) ->
  (pt = PAWN -> b_mod b <> MOD_MERCENARY -> Z.abs (to - from) <> 16) ->
  gen_ok b (move_capture from to pt capt).
Proof.
  intros Hf Ht Hk Hd. unfold move_capture. gen_fields.
  intros E1 E2 E3. exfalso. apply (Hd E1 E2). lia.
Qed.

Lemma ok_promo (from to : Square) (capt promo : PieceType) :
  on_board from -> on_board to -> Z.abs (to - from) <> 16 ->
  (capt <> PIECE_NONE -> b_mod b <> MOD_HEIR -> PIECE_TYPE (mb b to) <> KING) ->
  (promo = KING ->
     b_mod b = MOD_HEIR \/ b_mod b = MOD_SUCCESSION /\ has_king b us = false) ->
  gen_ok b (move_encode from to PAWN capt false false true promo).
Proof.
  intros Hf Ht Hd Hk Hp. gen_fields.
  - intros _ E. rewrite negb_true_iff in E. apply bool_decide_eq_false in E. auto.
  - intros _ _ ?. lia.
Qed.

Lemma promo_types_king (to : Square) :
  In KING (promo_types b to us) ->
  b_mod b = MOD_HEIR \/ b_mod b = MOD_SUCCESSION /\ has_king b us = false.
Proof.
  unfold promo_types. destruct (b_mod b == MOD_HEIR) eqn:E1.
  { left. by apply bool_decide_eq_true in E1. }
  destruct (b_mod b == MOD_SUCCESSION) eqn:E2.
  { intros H. right. apply bool_decide_eq_true in E2. split; [done|].
    destruct (has_king b us); [|done]. rewrite andb_false_r in H. simpl in H. naive_solver. }
  destruct (b_mod b == MOD_SAVE_QUEEN); simpl; naive_solver.
Qed.

Lemma ok_promos (from to : Square) (capt : PieceType) (promos : list PieceType) :
  on_board from -> on_board to -> Z.abs (to - from) <> 16 ->
  (capt <> PIECE_NONE -> b_mod b <> MOD_HEIR -> PIECE_TYPE (mb b to) <> KING) ->
  (In KING promos ->
     b_mod b = MOD_HEIR \/ b_mod b = MOD_SUCCESSION /\ has_king b us = false) ->
  Forall (gen_ok b) (raw_promos from to capt promos).
Proof.
  intros Hf Ht Hd Hk Hp. apply Forall_map, List.Forall_forall. intros p Hin.
  apply ok_promo; auto. intros ->. auto.
Qed.

Lemma diag_not_double (r c dir dc : Z) :
  0 <= r < 8 -> 0 <= c < 8 -> -1 <= dir <= 1 -> dc = -1 \/ dc = 1 ->
  Z.abs (SQ (r + dir) (c + dc) - (r * 8 + c)) <> 16.
Proof. intros. rewrite SQ_small; lia. Qed.

Lemma pushes_ok (co : bool) (rank2 rank7 : Z) (sq : Square) :
  (us = WHITE /\ rank2 = 1 \/ us = BLACK /\ rank2 = 6) ->
  on_board sq -> Forall (gen_ok b) (raw_pushes b co us (pawn_dir us) rank2 rank7 sq).
Proof.
  intros Hus Hs. unfold raw_pushes.
  pose proof (SQ_ROW_bound sq Hs) as Hr. pose proof (SQ_COL_bound sq) as Hc.
  pose proof (SQ_ROW_COL sq) as Eta. set (dir := pawn_dir us).
  assert (dir = 1 /\ rank2 = 1 \/ dir = -1 /\ rank2 = 6) as Hdir.
  { unfold dir, pawn_dir. destruct Hus as [[-> ->]|[-> ->]]; auto. }
  destruct (_ && _ && _) eqn:E; [|done]. rewrite !andb_true_iff in E.
  destruct E as [[_ Hv%SQ_VALID_spec] He%Z.eqb_eq].
  assert (SQ (SQ_ROW sq + dir) (SQ_COL sq) = sq + 8 * dir) as E1 by (rewrite SQ_small; lia).
  assert (SQ (SQ_ROW sq + 2 * dir) (SQ_COL sq) = sq + 16 * dir) as E2 by (rewrite SQ_small; lia).
  rewrite ?E1, ?E2 in *.
  destruct (_ =? rank7).
  - apply ok_promos; [done|done|lia|done|apply promo_types_king].
  - constructor; [apply ok_simple; [done|done|lia]|].
    destruct ((_ =? rank2) && _) eqn:E3; [|done].
    apply andb_true_iff in E3 as [E3%Z.eqb_eq _]. constructor; [|done].
    apply ok_simple; [done| |done]. rewrite <- E2. apply SQ_on_board; lia.
Qed.

Lemma captures_ok (rank7 : Z) (sq : Square) (dc : Z) :
  dc = -1 \/ dc = 1 -> on_board sq ->
  Forall (gen_ok b) (raw_capture b us them (pawn_dir us) rank7 sq dc).
Proof.
  intros Hdc Hs. unfold raw_capture.
  pose proof (SQ_ROW_bound sq Hs) as Hr. pose proof (SQ_COL_bound sq) as Hc.
  pose proof (SQ_ROW_COL sq) as Eta. set (dir := pawn_dir us).
  assert (-1 <= dir <= 1) as Hdir by (unfold dir, pawn_dir; case_match; lia).
  pose proof (diag_not_double (SQ_ROW sq) (SQ_COL sq) dir dc Hr Hc Hdir Hdc) as Hnd.
  rewrite <- Eta in Hnd.
  set (nc := SQ_COL sq + dc) in *. set (to := SQ (SQ_ROW sq + dir) nc) in *.
  destruct ((nc <? 0) || (7 <? nc)) eqn:En; [done|].
  apply orb_false_iff in En as [En1%Z.ltb_ge En2%Z.ltb_ge].
  destruct (negb (SQ_VALID to)) eqn:Ev; [done|].
  apply negb_false_iff, SQ_VALID_spec in Ev.
  set (enemy := negb (mb b to =? PIECE_EMPTY) && (PIECE_COLOR (mb b to) == them)).
  destruct (enemy && _) eqn:Eb; [done|].
  assert (forall promos, (b_mod b <> MOD_HEIR -> PIECE_TYPE (mb b to) <> KING) ->
    (In KING promos ->
       b_mod b = MOD_HEIR \/ b_mod b = MOD_SUCCESSION /\ has_king b us = false) ->
    Forall (gen_ok b) (if SQ_ROW sq =? rank7 then raw_promos sq to (PIECE_TYPE (mb b to)) promos
                          else [move_capture sq to PAWN (PIECE_TYPE (mb b to))])) as Hmoves.
  { intros promos Hk Hp. destruct (_ =? rank7); [by apply ok_promos|].
    constructor; [|done]. by apply ok_capture. }
  apply Forall_app. split; [|apply Forall_app; split].
  - destruct enemy; [|done]. cbn [andb] in Eb.
    apply orb_false_iff in Eb as [Eb _]. apply Hmoves; [|apply promo_types_king].
    intros Hm Hk. rewrite Hk in Eb. rewrite bool_decide_eq_true_2 in Eb by done.
    by rewrite bool_decide_eq_false_2 in Eb.
  - destruct (ff_target b us to) eqn:E; [|done]. unfold ff_target in E.
    rewrite !andb_true_iff, !negb_true_iff in E. destruct E as [[_ E] _].
    apply bool_decide_eq_false in E. apply Hmoves; [done|]. simpl. intros [?|[?|[?|[?|[]]]]]; discriminate.
  - destruct (_ && (_ && _)) eqn:E; [|done]. rewrite !andb_true_iff, !negb_true_iff in E.
    destruct E as [[E1%Z.eqb_eq E2%Z.eqb_neq] _].
    destruct (gi_ep b Hg E2) as [_ He]. rewrite <- E1 in He. constructor; [|done].
    assert (mb b (SQ (SQ_ROW sq) nc) = PIECE_MAKE them PAWN) as Epawn.
    { rewrite <- He. f_equal. fold dir. unfold to. rewrite !SQ_small; lia. }
    gen_fields.
    + intros _. unfold ep_cap_sq. rewrite MOVE_FROM_encode, MOVE_TO_encode by done.
      by assert (SQ_COL to = nc) as -> by (apply SQ_COL_SQ; lia).
    + intros _. rewrite Epawn. by destruct (b_side b).
    + intros _ _ ?. lia.
Qed.

Lemma merc_pawn_ok (co truce : bool) (sq : Square) :
  b_mod b = MOD_MERCENARY -> on_board sq ->
  Forall (gen_ok b) (raw_merc_pawn b co truce them sq).
Proof.
  intros Hm Hs. unfold raw_merc_pawn. apply Forall_app. split.
  - destruct (negb co); [|done]. apply Forall_map, List.Forall_forall. intros to Hin.
    apply In_squares_land in Hin as (Ht & _); [|auto with board]. by apply ok_simple.
  - destruct (negb truce); [|done]. apply List.Forall_forall. intros m Hin.
    apply in_flat_map in Hin as (to & Hin & Hin').
    apply In_squares_land in Hin as (Ht & _); [|auto with board].
    destruct (_ == KING) eqn:E; [done|]. destruct Hin' as [<-|[]].
    apply bool_decide_eq_false in E. by apply ok_capture.
Qed.

Lemma pawn_moves_ok (co : bool) : Forall (gen_ok b) (raw_pawn_moves b co).
Proof.
  apply List.Forall_forall. intros m Hm. apply in_flat_map in Hm as (sq & Hin & Hm).
  apply own_squares_spec in Hin as [Hs Hp]; [|done|done]. revert m Hm. apply List.Forall_forall.
  unfold raw_pawn. destruct (b_mod b == MOD_MERCENARY) eqn:E.
  { apply bool_decide_eq_true in E. by apply merc_pawn_ok. }
  fold (pawn_dir us). apply Forall_app. split.
  - apply pushes_ok; [|done]. pose proof (gi_side b Hg) as H. destruct (b_side b); try real.
    all: auto.
  - destruct (negb (truce_now b)); [|done]. cbn [flat_map]. rewrite app_nil_r.
    apply Forall_app. split; apply captures_ok; auto.
Qed.

Lemma quiets_ok (sq : Square) (pt : PieceType) (x : Bitboard) :
  on_board sq -> pt <> PAWN -> 0 <= x < 2 ^ 64 -> Forall (gen_ok b) (raw_quiets sq pt x).
Proof.
  intros Hs Hpt Hx. apply Forall_map, List.Forall_forall. intros to Hin.
  apply elem_of_bb_squares in Hin as [Ht _]; [|done]. by apply ok_simple.
Qed.

Lemma piece_moves_ok (pt : PieceType) (co : bool) :
  real_type pt -> pt <> PAWN -> Forall (gen_ok b) (raw_piece_moves b pt co).
Proof.
  intros Hpt Hne. pose proof (gi_board b Hg) as Hinv.
  unfold raw_piece_moves. destruct (kb_locked b pt); [done|].
  apply List.Forall_forall. intros m (sq & Hin & Hm)%in_flat_map.
  apply own_squares_spec in Hin as [Hs _]; [|done|done]. revert m Hm. apply List.Forall_forall.
  unfold raw_piece, raw_stq_queen. destruct ((_ == MOD_SAVE_QUEEN) && _).
  - destruct (negb (stq_is_own_half sq us)).
    { destruct (negb co); [|done]. apply quiets_ok; auto with board. }
    apply Forall_app. split; [|destruct (negb co); [|done]; apply quiets_ok; auto with board].
    apply List.Forall_forall. intros m (to & Hin & Hm)%in_flat_map.
    apply elem_of_bb_squares in Hin as [Ht _]; [|by apply stq_own_targets_bound].
    unfold raw_stq_emit in Hm. destruct (negb _).
    + destruct (_ == KING) eqn:E; [done|]. destruct Hm as [<-|[]].
      apply bool_decide_eq_false in E. by apply ok_capture.
    + destruct Hm as [<-|[]]. by apply ok_simple.
  - apply List.Forall_forall. intros m (to & Hin & Hm)%in_flat_map.
    apply elem_of_bb_squares in Hin as [Ht _]; [|by apply filtered_targets_bound].
    unfold raw_emit in Hm. destruct (negb _).
    + destruct ((_ == KING) && _) eqn:E; [done|]. destruct (stq_protected _ _ _ _); [done|].
      destruct Hm as [<-|[]]. apply ok_capture; [done|done| |done]. intros Hh Hk.
      rewrite bool_decide_eq_true_2, bool_decide_eq_false_2 in E; done.
    + destruct Hm as [<-|[]]. by apply ok_simple.
Qed.

Lemma castle_gen_ok (need : bool) (enemy : Color) (right : Z) (free safe : list Square)
    (from to rfrom rto : Square) :
  on_board from -> on_board to -> castle_rook to = Some (rfrom, rto, us) ->
  Forall (gen_ok b) (raw_castle b need enemy right free safe from to).
Proof.
  intros Hf Ht Hr. unfold raw_castle. destruct (_ && _ && _); [|done]. constructor; [|done].
  gen_fields. intros _. split_and!; [done|done|by eauto].
Qed.

Lemma castling_ok : Forall (gen_ok b) (raw_castling b).
Proof.
  unfold raw_castling. destruct (_ && negb (b_kb_unlocked b)); [done|].
  destruct (truce_now b && _); [done|]. destruct (castle_need_safe b && _); [done|].
  pose proof (gi_side b Hg) as Hreal.
  destruct (us == WHITE) eqn:E.
  - apply bool_decide_eq_true in E.
    apply Forall_app; split; eapply castle_gen_ok; rewrite ?E; try done.
  - assert (us = BLACK) as E'.
    { apply bool_decide_eq_false in E. destruct (b_side b); real. }
    apply Forall_app; split; eapply castle_gen_ok; rewrite ?E'; try done.
Qed.

Lemma pseudo_ok : Forall (gen_ok b) (pseudo_moves b).
Proof.
  rewrite pseudo_moves_take. apply Forall_take. unfold raw_pseudo.
  repeat (apply Forall_app; split); auto using pawn_moves_ok, castling_ok;
    by apply piece_moves_ok.
Qed.

Lemma pseudo_captures_ok : Forall (gen_ok b) (pseudo_captures b).
Proof.
  rewrite pseudo_captures_take. apply Forall_take. unfold raw_pseudo_captures.
  repeat (apply Forall_app; split); auto using pawn_moves_ok; by apply piece_moves_ok.
Qed.
End Gen.
