(* ===== verification/Game.v ===== *)
(** * Games: legal moves, lines of play and what they preserve

    [generate_moves] is a filter of the pseudo-legal moves by the legality
    test, the mover is never left in check, and the positions reached by legal
    moves keep the invariants the generators rely on in every variant but Heir
    Recast, where a counterexample is given. *)

From stdpp Require Import base numbers list option relations.
From Stdlib Require Import ZArith Lia Bool.
From S2P Require Import Prelude Types Board Zobrist Attacks Make Movegen MovegenFacts MovegenSound.

(** ** Legal moves *)

Section Legal.
Context (b : Board) (Hg : game_inv b) (Hh : history_ok b).

Lemma generate_filter : generate_moves b = List.filter (legal b) (pseudo_moves b).
Proof.
  apply filter_legal_spec;
    auto using pseudo_fits, pseudo_moves_length, gi_board.
Qed.

Lemma generate_in (m : Move) :
  In m (generate_moves b) <-> In m (pseudo_moves b) /\ legal b m = true.
Proof. rewrite generate_filter. apply filter_In. Qed.

Lemma generated_fits (m : Move) : In m (generate_moves b) -> move_fits b m.
Proof.
  intros [Hin _]%generate_in. pose proof (pseudo_fits b Hg) as H.
  rewrite List.Forall_forall in H. auto.
Qed.

Lemma generated_ok (m : Move) : In m (generate_moves b) -> gen_ok b m.
Proof.
  intros [Hin _]%generate_in. pose proof (pseudo_ok b Hg) as H.
  rewrite List.Forall_forall in H. auto.
Qed.

Lemma captures_in_truce : truce_now b = true -> generate_captures b = [].
Proof. intros E. unfold generate_captures. by rewrite E. Qed.

Lemma captures_filter :
  truce_now b = false ->
  generate_captures b = List.filter (legal b) (pseudo_captures b).
Proof.
  intros E. unfold generate_captures. rewrite E. apply filter_legal_spec;
    auto using pseudo_captures_fit, pseudo_captures_length, gi_board.
Qed.
End Legal.

(** What the legality test says. *)
Lemma legal_in_check (b : Board) (m : Move) :
  legal b m = true -> board_in_check (board_make_move b m) (b_side b) = false.
Proof.
  unfold legal, is_legal. cbn [fst]. set (b' := board_make_move b m).
  destruct (board_in_check b' (b_side b)); [|done]. cbn [negb andb]. done.
Qed.

(** ** The invariant is preserved *)

Lemma drop_testbit (mask r k : Z) :
  0 <= k < 8 -> Z.testbit (drop_rights mask r) k = Z.testbit r k && negb (Z.testbit mask k).
Proof.
  intros Hk. unfold drop_rights, u8. rewrite Z.land_spec.
  change 256 with (2 ^ 8). rewrite Z.mod_pow2_bits_low, Z.lnot_spec by lia. done.
Qed.

Lemma drop_if_testbit (c : bool) (mask r k : Z) :
  0 <= k < 8 ->
  Z.testbit (if c then drop_rights mask r else r) k =
  Z.testbit r k && negb (c && Z.testbit mask k).
Proof. intros. destruct c; [by apply drop_testbit|]. by rewrite andb_true_r. Qed.

Lemma has_right_testbit (b : Board) (k : Z) :
  0 <= k -> has_right b (2 ^ k) = Z.testbit (b_castling b) k.
Proof.
  intros Hk. unfold has_right. apply eq_iff_eq_true. rewrite negb_true_iff, Z.eqb_neq. split.
  - intros H. destruct (Z.testbit (b_castling b) k) eqn:E; [done|]. exfalso. apply H.
    apply bits_ext. intros n Hn. rewrite Z.land_spec, Z.pow2_bits_eqb, Z.testbit_0_l by lia.
    destruct (Z.eqb_spec k n) as [->|]; [by rewrite E|by rewrite andb_false_r].
  - intros H E. apply (f_equal (fun x => Z.testbit x k)) in E.
    by rewrite Z.land_spec, H, Z.pow2_bits_true, Z.testbit_0_l in E by lia.
Qed.

(** The four rights: the bit, the side, the squares of king and rook. *)
Definition right_table : list (Z * Color * Square * Square) :=
  [(0, WHITE, SQ 0 4, SQ 0 7); (1, WHITE, SQ 0 4, SQ 0 0);
   (2, BLACK, SQ 7 4, SQ 7 7); (3, BLACK, SQ 7 4, SQ 7 0)].

Lemma castle_ok_table (b : Board) :
  castle_ok b <->
  forall k c ks rs, In (k, c, ks, rs) right_table -> Z.testbit (b_castling b) k = true ->
    mb b ks = PIECE_MAKE c KING /\ mb b rs = PIECE_MAKE c ROOK.
Proof.
  unfold castle_ok.
  change CASTLE_WK with (2 ^ 0). change CASTLE_WQ with (2 ^ 1).
  change CASTLE_BK with (2 ^ 2). change CASTLE_BQ with (2 ^ 3).
  rewrite !has_right_testbit by lia. split.
  - intros (H1 & H2 & H3 & H4) k c ks rs Hin. simpl in Hin.
    destruct Hin as [E|[E|[E|[E|[]]]]]; injection E as <- <- <- <-; auto.
  - intros H. split_and!; intros Hb; eapply H; [|exact Hb| |exact Hb| |exact Hb| |exact Hb];
      simpl; auto.
Qed.

(** A right that survives the move was there, and the move touched neither
    the king nor the rook it needs. *)
Lemma rights_after_kept (b : Board) (m : Move) (k : Z) (c : Color) (ks rs : Square) :
  real_color (b_side b) -> In (k, c, ks, rs) right_table ->
  Z.testbit (rights_after b m) k = true ->
  Z.testbit (b_castling b) k = true /\ ~ (MOVE_PIECE m = KING /\ b_side b = c) /\
  ~ (MOVE_PIECE m = ROOK /\ MOVE_FROM m = rs) /\ MOVE_TO m <> rs.
Proof.
  intros Hside Hin Hb. unfold rights_after, make_rights in Hb. cbn [b_castling set_b_castling] in Hb.
  cbv zeta in Hb.
  set (r1 := if MOVE_PIECE m == KING then _ else b_castling b) in Hb.
  set (r2 := if MOVE_PIECE m == ROOK then _ else r1) in Hb.
  assert (0 <= k < 8) as Hk.
  { simpl in Hin. destruct Hin as [E|[E|[E|[E|[]]]]]; injection E as <- _ _ _; lia. }
  rewrite !drop_if_testbit in Hb by done. rewrite !andb_true_iff in Hb.
  destruct Hb as [[[[H2 T1] T2] T3] T4].
  assert (Z.testbit r1 k = true /\ ~ (MOVE_PIECE m = ROOK /\ MOVE_FROM m = rs)) as [H1 HR].
  { unfold r2 in H2. destruct (MOVE_PIECE m == ROOK) eqn:E.
    - rewrite !drop_if_testbit in H2 by done. rewrite !andb_true_iff in H2.
      destruct H2 as [[[[H2 F1] F2] F3] F4]. split; [done|]. intros [_ Hf].
      simpl in Hin. destruct Hin as [Ei|[Ei|[Ei|[Ei|[]]]]]; injection Ei as <- <- <- <-;
        rewrite Hf in *; done.
    - apply bool_decide_eq_false in E. split; [done|]. by intros [? _]. }
  assert (Z.testbit (b_castling b) k = true /\ ~ (MOVE_PIECE m = KING /\ b_side b = c)) as [H0 HK].
  { unfold r1 in H1. destruct (MOVE_PIECE m == KING) eqn:E.
    - destruct (b_side b == WHITE) eqn:Es; rewrite drop_testbit in H1 by done;
        apply andb_true_iff in H1 as [H1 HM]; (split; [done|]); intros [_ Hc];
        simpl in Hin; destruct Hin as [Ei|[Ei|[Ei|[Ei|[]]]]]; injection Ei as <- <- <- <-;
        rewrite Hc in *; done.
    - apply bool_decide_eq_false in E. split; [done|]. by intros [? _]. }
  split_and!; try done. intros Ht. simpl in Hin.
  destruct Hin as [Ei|[Ei|[Ei|[Ei|[]]]]]; injection Ei as <- <- <- <-; rewrite Ht in *; done.
Qed.

(** A move that the step lemmas apply to: every move the generators emit. *)
Definition playable (b : Board) (m : Move) : Prop := move_fits b m /\ gen_ok b m.

Lemma generated_playable (b : Board) (m : Move) :
  game_inv b -> history_ok b -> In m (generate_moves b) -> playable b m.
Proof. split; eauto using generated_fits, generated_ok. Qed.

Lemma captured_playable (b : Board) (m : Move) :
  game_inv b -> history_ok b -> In m (generate_captures b) -> playable b m.
Proof.
  intros Hg Hh Hin. destruct (truce_now b) eqn:E; [by rewrite captures_in_truce in Hin|].
  rewrite captures_filter in Hin by done. apply filter_In in Hin as [Hin _].
  pose proof (pseudo_captures_fit b Hg) as Hf. pose proof (pseudo_captures_ok b Hg) as Ho.
  rewrite List.Forall_forall in Hf, Ho. split; auto.
Qed.

Section Step.
Context (b : Board) (m : Move) (Hg : game_inv b) (Hh : history_ok b) (Hok : playable b m).
Local Abbreviation us := (b_side b).
Local Abbreviation them := (color_opposite (b_side b)).

Local Definition Hinv : board_inv b := gi_board b Hg.
Local Definition Hfit : move_fits b m := proj1 Hok.
Local Definition Hgen : gen_ok b m := proj2 Hok.

Lemma made : exists h, board_make_move b m = board_after b m h.
Proof. rewrite (make_normal b m Hinv Hfit Hh). by eexists. Qed.

(** A piece the move does not name stays where it is. *)
Lemma after_keep (sq : Square) :
  on_board sq -> mb b sq <> PIECE_EMPTY -> sq <> MOVE_FROM m -> sq <> MOVE_TO m ->
  (MOVE_IS_EP m = true -> sq <> ep_cap_sq m) ->
  (MOVE_IS_CASTLE m = true ->
     forall rf rt c, castle_rook (MOVE_TO m) = Some (rf, rt, c) -> sq <> rf) ->
  (mailbox_after b m).[sq] = mb b sq.
Proof.
  intros Hs Hne Hf Ht Hep Hc. unfold mailbox_after, after_castle.
  assert ((after_piece us m (after_captures b m)).[sq] = mb b sq) as Hp.
  { unfold after_piece, after_captures. rewrite !znth_zset_ne by done.
    destruct (MOVE_IS_EP m); [specialize (Hep eq_refl); by rewrite znth_zset_ne|].
    destruct (MOVE_IS_CAPTURE m); [|done].
    destruct (reprisons b m) eqn:Er; [|by rewrite znth_zset_ne].
    destruct (reprison_facts b m Hfit Er) as (_ & _ & _ & Hpr & _ & _).
    assert (sq <> prison_of them) by congruence. by rewrite !znth_zset_ne. }
  destruct (MOVE_IS_CASTLE m) eqn:Ec; [|done].
  destruct (castle_rook (MOVE_TO m)) as [[[rf rt] c]|] eqn:Er; [|done].
  destruct (mf_castle b m Hfit Ec) as (_ & _ & H). destruct (H _ _ _ Er) as (_ & Hrt & _).
  assert (sq <> rt) by congruence. specialize (Hc eq_refl _ _ _ eq_refl). by rewrite !znth_zset_ne.
Qed.

(** Outside Heir a move that lands on a piece lands on no king. *)
Lemma to_not_king (c : Color) :
  b_mod b <> MOD_HEIR -> real_color c -> mb b (MOVE_TO m) <> PIECE_MAKE c KING.
Proof.
  intros Hm Hc E. pose proof Hfit as F. pose proof Hgen as G.
  assert (mb b (MOVE_TO m) <> PIECE_EMPTY) as Hne.
  { rewrite E. by apply PIECE_MAKE_not_empty. }
  destruct (MOVE_IS_EP m) eqn:Eep; [by destruct (mf_ep b m F Eep) as (? & _)|].
  destruct (MOVE_IS_CAPTURE m) eqn:Ecap; [|by apply Hne, (mf_quiet b m F)].
  apply (go_capture b m G Eep Ecap Hm). by rewrite E, PIECE_TYPE_MAKE.
Qed.

Lemma make_castle_ok : b_mod b <> MOD_HEIR -> castle_ok (board_make_move b m).
Proof.
  intros Hm. destruct made as [h ->]. rewrite castle_ok_table. intros k c ks rs Hk Hb.
  change (b_castling (board_after b m h)) with (rights_after b m) in Hb.
  destruct (rights_after_kept b m k c ks rs (gi_side b Hg) Hk Hb) as (Hb' & HK & HR & Ht).
  pose proof (proj1 (castle_ok_table b) (gi_castle b Hg) k c ks rs Hk Hb') as [Eks Ers].
  change (mb (board_after b m h)) with (fun sq => (mailbox_after b m).[sq]). cbv beta.
  pose proof (mf_piece b m Hfit) as Hp.
  assert (on_board ks /\ on_board rs /\ real_color c) as (Hon & Hon' & Hc).
  { simpl in Hk. destruct Hk as [E|[E|[E|[E|[]]]]]; injection E as <- <- <- <-; done. }
  assert (forall t sq, t <> PAWN -> mb b sq = PIECE_MAKE c t -> MOVE_IS_EP m = true ->
            sq <> ep_cap_sq m) as Hep.
  { intros t sq Hnt Esq Eep ->. rewrite (go_ep b m Hgen Eep) in Esq.
    apply PIECE_MAKE_inj in Esq as [_ ?]. congruence. }
  rewrite <- Eks, <- Ers. split; apply after_keep; try done.
  - rewrite Eks. by apply PIECE_MAKE_not_empty.
  - intros ->. rewrite Hp in Eks. apply PIECE_MAKE_inj in Eks. naive_solver.
  - intros ->. by apply (to_not_king c Hm).
  - by apply (Hep KING).
  - intros Ec rf rt c' Er ->. destruct (mf_castle b m Hfit Ec) as (_ & _ & H).
    destruct (H _ _ _ Er) as (E & _ & _). rewrite E in Eks.
    apply PIECE_MAKE_inj in Eks. naive_solver.
  - rewrite Ers. by apply PIECE_MAKE_not_empty.
  - intros ->. rewrite Hp in Ers. apply PIECE_MAKE_inj in Ers. naive_solver.
  - by apply (Hep ROOK).
  - intros Ec rf rt c' Er ->. destruct (mf_castle b m Hfit Ec) as (_ & _ & H).
    destruct (H _ _ _ Er) as (E & _ & _). rewrite E in Ers.
    apply PIECE_MAKE_inj in Ers as [-> _]. destruct (go_castle b m Hgen Ec) as (E1 & _ & r1 & r2 & E2).
    rewrite Er in E2. naive_solver.
Qed.

Lemma make_ep_ok : ep_ok (board_make_move b m).
Proof.
  destruct made as [h ->]. unfold ep_ok. cbn [b_ep_square board_after b_side].
  change (mb (board_after b m h)) with (fun sq => (mailbox_after b m).[sq]). cbv beta.
  unfold ep_after. destruct (_ && _ && _) eqn:E; [intros _|done].
  rewrite !andb_true_iff in E. destruct E as [[E1 E2] E3].
  apply negb_true_iff, bool_decide_eq_false in E1. apply bool_decide_eq_true in E2.
  rewrite orb_true_iff, !Z.eqb_eq in E3.
  destruct (go_double b m Hgen E2 E1 E3) as (Et & Emid & Eep & Ecap & Epr).
  pose proof (mf_piece b m Hfit) as Hp. rewrite E2 in Hp.
  pose proof (gi_side b Hg) as Hside. pose proof (inv_mailbox b Hinv) as Hv.
  assert (MOVE_IS_CASTLE m = false) as Ec.
  { destruct (MOVE_IS_CASTLE m) eqn:Ec; [|done].
    destruct (go_castle b m Hgen Ec) as (E & _). congruence. }
  assert (kb_bonus_after b m = false) as Eb.
  { unfold kb_bonus_after. rewrite E2. cbn. by rewrite andb_false_r. }
  unfold side_after. rewrite Eb, color_opposite_involutive.
  pose proof (MOVE_FROM_on_board m) as Hf. pose proof (MOVE_TO_on_board m) as Hto.
  assert (pawn_dir them = - pawn_dir us /\ (pawn_dir us = 1 \/ pawn_dir us = -1)) as [-> Hdir].
  { unfold pawn_dir. destruct (b_side b); real || auto. }
  assert (SQ ((SQ_ROW (MOVE_FROM m) + SQ_ROW (MOVE_TO m)) ÷ 2) (SQ_COL (MOVE_FROM m)) =
          MOVE_FROM m + 8 * pawn_dir us) as ->.
  { rewrite Et, !SQ_ROW_div. rewrite SQ_COL_mod.
    rewrite Z.quot_div_nonneg by (unfold on_board in *; Z.to_euclidean_division_equations; lia).
    unfold on_board in *. rewrite SQ_small; Z.to_euclidean_division_equations; lia. }
  assert (forall l, after_castle m l = l) as Hac by (intros; unfold after_castle; by rewrite Ec).
  unfold mailbox_after. rewrite Hac. unfold after_piece, after_captures, arriving.
  rewrite Eep, Ecap, Epr, E2. split.
  - rewrite !znth_zset_ne by lia. done.
  - replace (MOVE_FROM m + 8 * pawn_dir us - 8 * - pawn_dir us) with (MOVE_TO m) by lia.
    by rewrite znth_zset_eq by auto with board.
Qed.

Lemma make_game_inv : b_mod b <> MOD_HEIR -> game_inv (board_make_move b m).
Proof.
  intros Hm. constructor; auto using make_castle_ok, make_ep_ok.
  - exact (make_inv b m Hinv Hfit Hh).
  - destruct made as [h ->]. cbn [b_side board_after]. unfold side_after.
    pose proof (gi_side b Hg). destruct (kb_bonus_after b m); [done|].
    destruct (b_side b); real.
Qed.

Lemma make_mod : b_mod (board_make_move b m) = b_mod b.
Proof. by destruct made as [h ->]. Qed.

Lemma make_ply : b_ply (board_make_move b m) = b_ply b + 1.
Proof. by destruct made as [h ->]. Qed.

Lemma make_history_length : length (b_history (board_make_move b m)) = length (b_history b).
Proof. destruct made as [h ->]. apply length_zset. Qed.
End Step.

(** ** Kings

    [board_in_check] looks at the least king of a side only; outside Heir
    there is never more than one. *)

Definition kings_ok (b : Board) : Prop :=
  forall c s1 s2, real_color c -> on_board s1 -> on_board s2 ->
  mb b s1 = PIECE_MAKE c KING -> mb b s2 = PIECE_MAKE c KING -> s1 = s2.

(** Where the kings of the new position come from. *)
Lemma king_origin (b : Board) (m : Move) (sq : Square) (c : Color) :
  board_inv b -> move_fits b m -> on_board sq ->
  (mailbox_after b m).[sq] = PIECE_MAKE c KING ->
  sq = MOVE_TO m /\ c = b_side b /\ arriving m = KING \/
  mb b sq = PIECE_MAKE c KING /\ sq <> MOVE_FROM m \/ c = COLOR_NONE.
Proof.
  intros Hinv Hfit Hs H. pose proof (inv_mailbox b Hinv) as Hv.
  pose proof (valid_after_captures b m Hinv Hfit) as Hvc.
  pose proof (valid_after_piece b m Hinv Hfit) as Hvp.
  destruct (decide (c = COLOR_NONE)) as [->|Hc]; [by auto|].
  assert ((after_piece (b_side b) m (after_captures b m)).[sq] = PIECE_MAKE c KING) as Hp.
  { revert H. unfold mailbox_after, after_castle. destruct (MOVE_IS_CASTLE m); [|done].
    destruct (castle_rook (MOVE_TO m)) as [[[rf rt] c']|] eqn:Er; [|done].
    destruct (castle_rook_on_board _ _ _ _ Er) as (? & ? & ? & _).
    rewrite !znth_zset by (rewrite ?in_range_zset; auto with board).
    destruct (sq =? rt); [by intros [_ ?]%PIECE_MAKE_inj|].
    destruct (sq =? rf); [|done]. intros E. exfalso. by apply (PIECE_MAKE_not_empty c KING). }
  unfold after_piece in Hp.
  rewrite !znth_zset in Hp by (rewrite ?in_range_zset; auto with board).
  destruct (Z.eqb_spec sq (MOVE_TO m)) as [->|].
  { left. apply PIECE_MAKE_inj in Hp. naive_solver. }
  destruct (Z.eqb_spec sq (MOVE_FROM m)) as [->|].
  { exfalso. by apply (PIECE_MAKE_not_empty c KING). }
  right; left. split; [|done]. unfold after_captures, mb in *.
  destruct (MOVE_IS_EP m).
  { rewrite znth_zset in Hp by auto with board. destruct (_ =? _); [|done].
    exfalso. by apply (PIECE_MAKE_not_empty c KING). }
  destruct (MOVE_IS_CAPTURE m); [|done].
  destruct (reprisons b m); rewrite ?znth_zset in Hp by (rewrite ?in_range_zset; auto with board).
  - destruct (sq =? prison_of _); [by apply PIECE_MAKE_inj in Hp as [_ ?]|].
    destruct (sq =? MOVE_TO m); [|done]. exfalso. by apply (PIECE_MAKE_not_empty c KING).
  - destruct (sq =? MOVE_TO m); [|done]. exfalso. by apply (PIECE_MAKE_not_empty c KING).
Qed.

Lemma has_king_spec (b : Board) (c : Color) :
  board_inv b -> real_color c ->
  has_king b c = true <-> exists sq, on_board sq /\ mb b sq = PIECE_MAKE c KING.
Proof.
  intros Hinv Hc. unfold has_king. rewrite negb_true_iff, Z.eqb_neq.
  assert (0 <= pcs b c KING < 2 ^ 64) as Hb by auto with board. split.
  - intros Hne. destruct (bb_lsb_spec (pcs b c KING)) as (Hs & Ht & _); [unfold BB_EMPTY in *; lia|].
    exists (bb_lsb (pcs b c KING)). split; [done|].
    rewrite pcs_testbit in Ht by auto with board. by apply Z.eqb_eq.
  - intros (sq & Hs & E) H0. rewrite <- Z.eqb_eq in E.
    rewrite <- pcs_testbit in E by auto with board. by rewrite H0, Z.testbit_0_l in E.
Qed.

Lemma kings_ok_after (b : Board) (m : Move) :
  game_inv b -> history_ok b -> move_fits b m -> gen_ok b m -> b_mod b <> MOD_HEIR ->
  kings_ok b -> kings_ok (board_make_move b m).
Proof.
  intros Hg Hh Hfit Hok Hm Hk. pose proof (gi_board b Hg) as Hinv.
  rewrite (make_normal b m Hinv Hfit Hh). set (h := zobrist_compute _ _).
  assert (forall sq, arriving m = KING -> on_board sq ->
            mb b sq = PIECE_MAKE (b_side b) KING -> sq <> MOVE_FROM m -> False) as Hnew.
  { intros sq Ha Hs E Hne. unfold arriving in Ha. destruct (MOVE_IS_PROMO m) eqn:Ep.
    - destruct (go_promo b m Hok Ep Ha) as [?|[_ Hno]]; [done|].
      apply not_true_iff_false in Hno. apply Hno, has_king_spec; [done|by apply gi_side|eauto].
    - pose proof (mf_piece b m Hfit) as Hp. rewrite Ha in Hp.
      apply Hne, (Hk (b_side b)); auto with board. by apply gi_side. }
  intros c s1 s2 Hc H1 H2 E1 E2.
  apply king_origin in E1 as [(-> & -> & Ha)|[[E1 N1]|?]]; [| |done|done|done|done];
  apply king_origin in E2 as [(-> & E & Ha')|[[E2 N2]|?]]; try done.
  - exfalso. by apply (Hnew s2).
  - subst c. exfalso. by apply (Hnew s1).
  - by apply (Hk c).
Qed.

Lemma make_kings_ok (b : Board) (m : Move) :
  game_inv b -> history_ok b -> In m (generate_moves b) -> b_mod b <> MOD_HEIR ->
  kings_ok b -> kings_ok (board_make_move b m).
Proof.
  intros Hg Hh Hin. apply kings_ok_after; auto using generated_fits, generated_ok.
Qed.

(** With one king a side, [board_in_check] answers for every king. *)
Lemma in_check_spec (b : Board) (c : Color) :
  board_inv b -> kings_ok b -> real_color c -> b_mod b <> MOD_HEIR -> truce_now b = false ->
  board_in_check b c = true <->
  exists ksq from, on_board ksq /\ on_board from /\ mb b ksq = PIECE_MAKE c KING /\
    attacks_from b (color_opposite c) from ksq.
Proof.
  intros Hinv Hk Hc Hm Ht. unfold board_in_check. fold (truce_now b). rewrite Ht.
  rewrite (bool_decide_eq_false_2 (b_mod b = MOD_HEIR)) by done. cbn [andb].
  assert (real_color (color_opposite c)) as Hc' by (destruct c; real).
  pose proof (has_king_spec b c Hinv Hc) as Hhas. unfold has_king in Hhas.
  destruct (Z.eqb_spec (pcs b c KING) BB_EMPTY) as [E|E]; cbn [negb] in Hhas.
  { split; [done|]. intros (ksq & _ & ? & _ & ? & _). apply Hhas. eauto. }
  destruct (bb_lsb_spec (pcs b c KING)) as (Hs & Hb & _).
  { assert (0 <= pcs b c KING < 2 ^ 64) by auto with board. unfold BB_EMPTY in *. lia. }
  rewrite pcs_testbit in Hb by auto with board. apply Z.eqb_eq in Hb.
  rewrite square_attacked_spec by done. split.
  - intros (from & Hf & Ha). eauto 10.
  - intros (ksq & from & Hks & Hf & Ek & Ha). exists from. split; [done|].
    by rewrite (Hk c (bb_lsb (pcs b c KING)) ksq).
Qed.

(** ** Lines of play *)

(** A legal move with room on the undo stack. *)
Inductive step (b : Board) : Board -> Prop :=
| step_move (m : Move) :
    history_ok b -> In m (generate_moves b) -> step b (board_make_move b m).

Definition reachable : Board -> Board -> Prop := rtc step.

(** The invariant of play outside Heir. *)
Record play_inv (b : Board) : Prop := {
  pi_game : game_inv b;
  pi_kings : kings_ok b;
  pi_mod : b_mod b <> MOD_HEIR
}.

Lemma step_play_inv (b b' : Board) : play_inv b -> step b b' -> play_inv b'.
Proof.
  intros [Hg Hk Hm] [m Hh Hin]. constructor.
  - apply make_game_inv; auto using generated_playable.
  - by apply make_kings_ok.
  - rewrite make_mod; auto using generated_playable.
Qed.

Lemma reachable_play_inv (b b' : Board) : play_inv b -> reachable b b' -> play_inv b'.
Proof. intros Hp Hr. induction Hr; eauto using step_play_inv. Qed.

(** A line: each move is legal where it is played. *)
Fixpoint legal_line (b : Board) (ms : list Move) : Prop :=
  match ms with
  | [] => True
  | m :: ms => history_ok b /\ In m (generate_moves b) /\ legal_line (board_make_move b m) ms
  end.

Definition play (b : Board) (ms : list Move) : Board := fold_left board_make_move ms b.

Definition take_back (n : nat) (b : Board) : Board := Nat.iter n board_unmake_move b.

Lemma legal_line_reachable (b : Board) (ms : list Move) : legal_line b ms -> reachable b (play b ms).
Proof.
  revert b. induction ms as [|m ms IH]; intros b Hl; [apply rtc_refl|].
  destruct Hl as (Hh & Hin & Hl). apply rtc_l with (board_make_move b m); [by constructor|].
  by apply IH.
Qed.

Lemma remove_history (h : list Undo) (b : Board) (sq : Square) :
  board_remove (set_b_history h b) sq = set_b_history h (board_remove b sq).
Proof.
  unfold board_remove. change (mb (set_b_history h b)) with (mb b).
  by destruct (mb b sq =? PIECE_EMPTY).
Qed.

Lemma place_history (h : list Undo) (b : Board) (sq : Square) (c : Color) (t : PieceType) :
  board_place (set_b_history h b) sq c t = set_b_history h (board_place b sq c t).
Proof. done. Qed.

(** [board_unmake_move] reads one entry of the stack. *)
Lemma unmake_history (h : list Undo) (b : Board) :
  h.[b_ply b - 1] = hist b (b_ply b - 1) ->
  board_unmake_move (set_b_history h b) = set_b_history h (board_unmake_move b).
Proof.
  intros E. unfold board_unmake_move.
  change (hist (set_b_ply ?p (set_b_history h b)) ?q) with (h.[q]).
  change (b_ply (set_b_ply ?p ?x)) with p. change (b_ply (set_b_history h b)) with (b_ply b).
  rewrite E. change (hist (set_b_ply ?p b)) with (hist b).
  set (u := hist b (b_ply b - 1)).
  change (b_side (set_b_ply ?p (set_b_history h b))) with (b_side b).
  change (b_side (set_b_ply ?p b)) with (b_side b).
  set (us := if u_kb_bonus u then _ else _).
  change (set_b_side us (set_b_ply ?p (set_b_history h b))) with
    (set_b_history h (set_b_side us (set_b_ply p b))).
  set (X := set_b_side us _).
  assert (unmake_position u us (set_b_history h X) = set_b_history h (unmake_position u us X)) as ->.
  { unfold unmake_position, unmake_castle.
    destruct (_ && _), (negb _), (MOVE_IS_CASTLE _);
      try destruct (castle_rook _) as [[[? ?] ?]|];
      by repeat (rewrite remove_history || rewrite place_history). }
  unfold unmake_state. by destruct (us == BLACK).
Qed.

(** [b'] is [b] but for entries of the stack that are not in use. *)
Definition same_game (b b' : Board) : Prop :=
  exists h, b' = set_b_history h b /\ length h = length (b_history b) /\
    forall i, 0 <= i < b_ply b -> h.[i] = (b_history b).[i].

Lemma take_back_play (b : Board) (ms : list Move) :
  play_inv b -> legal_line b ms -> same_game b (take_back (length ms) (play b ms)).
Proof.
  revert b. induction ms as [|m ms IH]; intros b Hp Hl.
  { exists (b_history b). split_and!; [by destruct b|done|done]. }
  destruct Hl as (Hh & Hin & Hl). pose proof (pi_game b Hp) as Hg.
  pose proof (generated_playable b m Hg Hh Hin) as Hok.
  destruct (IH (board_make_move b m)) as (h & E & Hlen & Hagree).
  { eapply step_play_inv; [done|by constructor]. }
  { done. }
  change (take_back (length (m :: ms)) (play b (m :: ms)))
    with (board_unmake_move (take_back (length ms) (play (board_make_move b m) ms))).
  rewrite E.
  pose proof (make_ply b m Hg Hh Hok) as Eply. rewrite Eply in Hagree.
  destruct Hh as [Hhl Hply].
  rewrite unmake_history by (rewrite Eply; apply Hagree; lia).
  rewrite (unmake_make b m (gi_board b Hg) (generated_fits b Hg (conj Hhl Hply) m Hin) (conj Hhl Hply)).
  exists h. split_and!; [done| |].
  - by rewrite Hlen, make_history_length.
  - intros i Hi. rewrite Hagree by lia. destruct (made b m Hg (conj Hhl Hply) Hok) as [h' ->].
    cbn [b_history board_after]. apply znth_zset_ne. lia.
Qed.
