(* ===== verification/Captures.v ===== *)
(** * The capture generator ([generate_captures] in [movegen.c])

    Quiescence search asks for captures only.  The generator runs the same
    code with [captures_only] set, which narrows the target sets before moves
    are emitted; the result is exactly the captures of the full generator, in
    the same order. *)

From stdpp Require Import base numbers list option.
From Stdlib Require Import ZArith Lia Bool.
From S2P Require Import Prelude Types Board Zobrist Attacks Make Movegen MovegenFacts MovegenSound Game.

Local Abbreviation caps := (List.filter MOVE_IS_CAPTURE).

Lemma filter_flat_map {A B} (P : B -> bool) (f : A -> list B) (l : list A) :
  List.filter P (flat_map f l) = flat_map (fun a => List.filter P (f a)) l.
Proof. induction l as [|a l IH]; [done|]. cbn [flat_map]. by rewrite List.filter_app, IH. Qed.

Lemma flat_map_ext_in {A B} (f g : A -> list B) (l : list A) :
  (forall a, In a l -> f a = g a) -> flat_map f l = flat_map g l.
Proof.
  induction l as [|a l IH]; intros H; [done|]. cbn [flat_map].
  rewrite H by (by left). rewrite IH; [done|]. intros; apply H; by right.
Qed.

(** Narrowing the targets and filtering the moves come to the same. *)
Lemma flat_map_squares (x y : Z) (f g : Square -> list Move) :
  0 <= x < 2 ^ 64 -> 0 <= y < 2 ^ 64 ->
  (forall sq, on_board sq ->
     (if Z.testbit x sq then f sq else []) = (if Z.testbit y sq then g sq else [])) ->
  flat_map f (bb_squares x) = flat_map g (bb_squares y).
Proof.
  intros Hx Hy H. rewrite !bb_squares_filter by done.
  assert (forall l, Forall on_board l ->
    flat_map f (List.filter (Z.testbit x) l) = flat_map g (List.filter (Z.testbit y) l)) as Hl.
  { induction 1 as [|sq l Hs _ IH]; [done|]. specialize (H sq Hs). cbn [List.filter].
    destruct (Z.testbit x sq), (Z.testbit y sq); cbn [flat_map]; rewrite IH;
      [by rewrite H|by rewrite H|by rewrite <- H|done]. }
  apply Hl. apply List.Forall_forall. intros sq Hin.
  rewrite <- list_elem_of_In, elem_of_seqZ in Hin. unfold on_board. lia.
Qed.

Lemma simple_flag (sq to : Square) (pt : PieceType) :
  on_board sq -> on_board to -> MOVE_IS_CAPTURE (move_simple sq to pt) = false.
Proof. intros. unfold move_simple. by rewrite MOVE_IS_CAPTURE_encode. Qed.

Lemma caps_quiets (l : list Square) (sq : Square) (pt : PieceType) :
  on_board sq -> Forall on_board l -> caps (map (fun to => move_simple sq to pt) l) = [].
Proof.
  intros Hs. induction 1 as [|to l Ht _ IH]; [done|]. cbn [map List.filter].
  by rewrite simple_flag.
Qed.

Lemma bb_squares_on_board (x : Z) : 0 <= x < 2 ^ 64 -> Forall on_board (bb_squares x).
Proof. intros Hx. apply List.Forall_forall. intros sq Hin. by apply elem_of_bb_squares in Hin as [? _]. Qed.

(** All moves of a list are captures, or none is. *)
Lemma caps_all (l : list Move) : Forall (fun m => MOVE_IS_CAPTURE m = true) l -> caps l = l.
Proof. induction 1 as [|m l Hm _ IH]; [done|]. cbn [List.filter]. by rewrite Hm, IH. Qed.

Lemma caps_none (l : list Move) : Forall (fun m => MOVE_IS_CAPTURE m = false) l -> caps l = [].
Proof. induction 1 as [|m l Hm _ IH]; [done|]. cbn [List.filter]. by rewrite Hm. Qed.

Lemma capture_flag (from to : Square) (pt capt promo : PieceType) (ca ep pr : bool) :
  on_board from -> on_board to -> real_type capt ->
  MOVE_IS_CAPTURE (move_encode from to pt capt ca ep pr promo) = true.
Proof.
  intros Hf Ht Hc. rewrite MOVE_IS_CAPTURE_encode by done. apply negb_true_iff.
  by apply bool_decide_eq_false.
Qed.

Section Caps.
Context (b : Board) (Hg : game_inv b).
Local Abbreviation us := (b_side b).
Local Abbreviation them := (color_opposite (b_side b)).

Local Definition Hinv : board_inv b := gi_board b Hg.
Local Definition Hus : real_color us := gi_side b Hg.
Local Definition Hthem' : real_color them := Hthem b Hg.
Local Hint Resolve Hinv Hus Hthem' : board.

(** *** Pawns *)

Lemma promos_quiet (from to : Square) (promos : list PieceType) :
  on_board from -> on_board to -> caps (raw_promos from to PIECE_NONE promos) = [].
Proof.
  intros Hf Hto. apply caps_none, Forall_map, List.Forall_forall. intros p _.
  by rewrite MOVE_IS_CAPTURE_encode.
Qed.

Lemma promos_capture (from to : Square) (capt : PieceType) (promos : list PieceType) :
  on_board from -> on_board to -> real_type capt ->
  caps (raw_promos from to capt promos) = raw_promos from to capt promos.
Proof.
  intros. apply caps_all, Forall_map, List.Forall_forall. intros p _. by apply capture_flag.
Qed.

Lemma pushes_caps (dir rank2 rank7 : Z) (sq : Square) :
  (dir = 1 /\ rank2 = 1 \/ dir = -1 /\ rank2 = 6) -> on_board sq ->
  caps (raw_pushes b false us dir rank2 rank7 sq) = raw_pushes b true us dir rank2 rank7 sq.
Proof.
  intros Hdir Hs. unfold raw_pushes.
  pose proof (SQ_ROW_bound sq Hs) as Hr. pose proof (SQ_COL_bound sq) as Hc.
  cbn [negb andb]. destruct (_ && _) eqn:E; [|done].
  apply andb_true_iff in E as [Hv%SQ_VALID_spec _].
  destruct (_ =? rank7); [by apply promos_quiet|]. 
  cbn [List.filter]. rewrite simple_flag by done.
  destruct ((_ =? rank2) && _) eqn:E; [|done]. apply andb_true_iff in E as [E%Z.eqb_eq _].
  cbn [List.filter]. rewrite simple_flag; [done|done|apply SQ_on_board; lia].
Qed.

Lemma capture_caps (dir rank7 : Z) (sq : Square) (dc : Z) :
  on_board sq ->
  caps (raw_capture b us them dir rank7 sq dc) = raw_capture b us them dir rank7 sq dc.
Proof.
  intros Hs. apply caps_all. unfold raw_capture.
  pose proof (SQ_ROW_bound sq Hs) as Hr.
  set (nc := SQ_COL sq + dc). set (to := SQ (SQ_ROW sq + dir) nc).
  destruct ((nc <? 0) || (7 <? nc)) eqn:En; [done|].
  apply orb_false_iff in En as [En1%Z.ltb_ge En2%Z.ltb_ge].
  destruct (negb (SQ_VALID to)) eqn:Ev; [done|]. apply negb_false_iff, SQ_VALID_spec in Ev.
  destruct (_ && (_ || _)); [done|].
  assert (forall promos, mb b to <> PIECE_EMPTY ->
    Forall (fun m => MOVE_IS_CAPTURE m = true)
      (if SQ_ROW sq =? rank7 then raw_promos sq to (PIECE_TYPE (mb b to)) promos
       else [move_capture sq to PAWN (PIECE_TYPE (mb b to))])) as Hmoves.
  { intros promos He. pose proof (mb_type_real b Hg to Ev He). destruct (_ =? rank7).
    - apply Forall_map, List.Forall_forall. intros p _. by apply capture_flag.
    - constructor; [by apply capture_flag|done]. }
  apply Forall_app. split; [|apply Forall_app; split].
  - destruct (_ && _) eqn:E; [|done].
    apply andb_true_iff in E as [E%negb_true_iff%Z.eqb_neq _]. by apply Hmoves.
  - unfold ff_target. destruct (_ && _) eqn:E; [|done]. rewrite !andb_true_iff in E.
    destruct E as [[[[_ E%negb_true_iff%Z.eqb_neq] _] _] _]. by apply Hmoves.
  - destruct (_ && (_ && _)) eqn:E; [|done]. rewrite !andb_true_iff in E.
    destruct E as [_ [E%negb_true_iff%Z.eqb_neq _]]. constructor; [|done].
    apply capture_flag; auto. apply mb_type_real; [done|apply SQ_on_board; lia|done].
Qed.

Lemma merc_caps (sq : Square) :
  on_board sq ->
  caps (raw_merc_pawn b false false them sq) = raw_merc_pawn b true false them sq.
Proof.
  intros Hs. unfold raw_merc_pawn. cbn [negb app]. rewrite List.filter_app.
  rewrite caps_quiets by auto using bb_squares_on_board with board. cbn [app].
  apply caps_all. apply List.Forall_forall. intros m (to & Hin & Hm)%in_flat_map.
  apply In_squares_land in Hin as (Hto & _ & Hb); [|auto with board].
  rewrite occ_testbit in Hb by auto with board. apply bool_decide_eq_true in Hb.
  destruct (_ == KING); [done|]. destruct Hm as [<-|[]]. apply capture_flag; auto.
  apply mb_type_real; [done|done|]. intros E. rewrite E in Hb.
  pose proof (Hthem b Hg) as H. rewrite <- Hb in H. done.
Qed.

Lemma pawn_caps :
  truce_now b = false -> caps (raw_pawn_moves b false) = raw_pawn_moves b true.
Proof.
  intros Ht.
  unfold raw_pawn_moves. rewrite filter_flat_map. apply flat_map_ext_in. intros sq Hin.
  apply own_squares_spec in Hin as [Hs _]; [|done|done]. unfold raw_pawn. rewrite Ht.
  destruct (b_mod b == MOD_MERCENARY); [by apply merc_caps|].
  cbn [negb flat_map]. rewrite app_nil_r, !List.filter_app, !capture_caps by done.
  f_equal. apply pushes_caps; [|done]. destruct (us == WHITE); auto.
Qed.

(** *** Pieces *)

(** The narrowing [captures_only] adds. *)
Definition capture_mask : Bitboard :=
  if b_mod b == MOD_FRIENDLY_FIRE
  then Z.lor (occ b them) (Z.land (Z.land (occ b us) (b_ff_moved b)) (bb_not (pcs b us KING)))
  else occ b them.

Lemma filtered_captures (pt : PieceType) (sq : Square) :
  filtered_targets b pt true us them sq =
  Z.land (filtered_targets b pt false us them sq) capture_mask.
Proof. unfold filtered_targets, capture_mask. by destruct (b_mod b == MOD_FRIENDLY_FIRE). Qed.

Lemma capture_mask_bound : 0 <= capture_mask < 2 ^ 64.
Proof. unfold capture_mask. case_match; auto with board. Qed.

(** The targets before narrowing, on the pieces of the mover: only friendly
    fire leaves any. *)
Lemma filtered_own (pt : PieceType) (sq to : Square) :
  on_board to -> Z.testbit (filtered_targets b pt false us them sq) to = true ->
  if b_mod b == MOD_FRIENDLY_FIRE
  then Z.testbit (occ b us) to = true ->
       Z.testbit (b_ff_moved b) to = true /\ Z.testbit (pcs b us KING) to = false
  else Z.testbit (occ b us) to = false.
Proof.
  intros Hto H. unfold filtered_targets in H. cbv zeta in H.
  set (T := if b_mod b == MOD_FRIENDLY_FIRE then _ else _) in H.
  assert (Z.testbit T to = true) as HT.
  { repeat match type of H with
    | context [if ?c then _ else _] => destruct c
    end; rewrite ?Z.land_spec in H; repeat (apply andb_true_iff in H as [H _]); done. }
  unfold T in HT. destruct (b_mod b == MOD_FRIENDLY_FIRE).
  - rewrite Z.land_spec, bb_not_testbit, Z.lor_spec, Z.land_spec, bb_not_testbit in HT by done.
    apply andb_true_iff in HT as [_ HT]. apply negb_true_iff, orb_false_iff in HT as [HT ->].
    intros Ho. rewrite Ho in HT. cbn [andb] in HT. by apply negb_false_iff in HT.
  - rewrite Z.land_spec, bb_not_testbit in HT by done.
    apply andb_true_iff in HT as [_ HT]. by apply negb_true_iff in HT.
Qed.

(** A piece is ours, theirs or none. *)
Lemma color_cases (to : Square) :
  on_board to ->
  Z.testbit (occ b us) to || Z.testbit (occ b them) to = negb (mb b to =? PIECE_EMPTY).
Proof.
  intros Hto. rewrite !occ_testbit by auto with board. pose proof Hus as Hu.
  destruct (Z.eqb_spec (mb b to) PIECE_EMPTY) as [->|E].
  - cbn. destruct (b_side b); real.
  - destruct (valid_color_type (mb b to)) as (Hc & _); [auto using mb_valid, Hinv|done|].
    destruct (PIECE_COLOR (mb b to)), (b_side b); real.
Qed.

Lemma capture_mask_spec (pt : PieceType) (sq to : Square) :
  on_board to -> Z.testbit (filtered_targets b pt false us them sq) to = true ->
  Z.testbit capture_mask to = negb (mb b to =? PIECE_EMPTY).
Proof.
  intros Hto HT. pose proof (filtered_own pt sq to Hto HT) as Ho.
  rewrite <- color_cases by done. unfold capture_mask.
  destruct (b_mod b == MOD_FRIENDLY_FIRE).
  - rewrite Z.lor_spec, !Z.land_spec, bb_not_testbit by done.
    destruct (Z.testbit (occ b us) to); cbn [andb orb]; [|by rewrite orb_false_r].
    destruct Ho as [-> ->]; [done|]. by rewrite orb_true_r.
  - by rewrite Ho.
Qed.

Lemma emit_caps (pt : PieceType) (sq to : Square) :
  on_board sq -> on_board to ->
  caps (raw_emit b pt them sq to) =
  if negb (mb b to =? PIECE_EMPTY) then raw_emit b pt them sq to else [].
Proof.
  intros Hs Hto. unfold raw_emit. destruct (Z.eqb_spec (mb b to) PIECE_EMPTY) as [E|E]; cbn [negb].
  - cbn [List.filter]. by rewrite simple_flag.
  - destruct (_ && _); [done|]. destruct (stq_protected _ _ _ _); [done|].
    cbn [List.filter]. unfold move_capture. by rewrite capture_flag by auto using mb_type_real.
Qed.

Lemma stq_emit_caps (sq to : Square) :
  on_board sq -> on_board to ->
  caps (raw_stq_emit b sq to) =
  if negb (mb b to =? PIECE_EMPTY) then raw_stq_emit b sq to else [].
Proof.
  intros Hs Hto. unfold raw_stq_emit.
  destruct (Z.eqb_spec (mb b to) PIECE_EMPTY) as [E|E]; cbn [negb].
  - cbn [List.filter]. by rewrite simple_flag.
  - destruct (_ == KING); [done|]. cbn [List.filter]. unfold move_capture.
    by rewrite capture_flag by auto using mb_type_real.
Qed.

(** The escaped queen's targets, narrowed. *)
Lemma stq_own_captures (sq to : Square) :
  on_board sq -> on_board to ->
  Z.testbit (stq_own_targets b true us them sq) to =
  Z.testbit (stq_own_targets b false us them sq) to && negb (mb b to =? PIECE_EMPTY).
Proof.
  intros Hs Hto. rewrite <- color_cases by done. unfold stq_own_targets. cbv zeta.
  set (pq := Z.land (pcs b them QUEEN) (stq_half us)).
  set (own := Z.land (Z.land (Z.land _ (bb_not (occ b us))) _) _).
  assert (0 <= pq < 2 ^ 64) as Hpq by (subst pq; auto with board).
  assert (Z.testbit own to = true -> Z.testbit (occ b us) to = false) as Hown.
  { unfold own. rewrite !Z.land_spec, bb_not_testbit, !andb_true_iff by done.
    intros [[[_ H%negb_true_iff] _] _]. done. }
  assert (Z.testbit (Z.land own (occ b them)) to =
          Z.testbit own to && (Z.testbit (occ b us) to || Z.testbit (occ b them) to)) as E0.
  { rewrite Z.land_spec. destruct (Z.testbit own to); [|done]. by rewrite Hown. }
  destruct (bb_nonzero pq && _) eqn:E; [|done].
  apply andb_true_iff in E as [E%negb_true_iff%Z.eqb_neq _].
  destruct (bb_lsb_spec pq) as (Hl & Hb & _); [unfold BB_EMPTY in *; lia|].
  rewrite !Z.lor_spec, E0, BB_SQ_testbit by sq_lia.
  destruct (Z.eqb_spec to (bb_lsb pq)) as [->|]; [|by rewrite !orb_false_r].
  rewrite !orb_true_r. cbn [andb]. unfold pq in Hb at 1.
  rewrite Z.land_spec, pcs_testbit in Hb by auto with board.
  apply andb_true_iff in Hb as [Hb%Z.eqb_eq _]. fold pq in Hb.
  rewrite !occ_testbit, Hb, PIECE_COLOR_MAKE by auto with board.
  rewrite (bool_decide_eq_true_2 (them = them)) by done. by rewrite orb_true_r.
Qed.

Lemma piece_caps (pt : PieceType) :
  real_type pt -> caps (raw_piece_moves b pt false) = raw_piece_moves b pt true.
Proof.
  intros Hpt. unfold raw_piece_moves. destruct (kb_locked b pt); [done|].
  rewrite filter_flat_map. apply flat_map_ext_in. intros sq Hin.
  apply own_squares_spec in Hin as [Hs _]; [|done|done].
  unfold raw_piece. destruct ((_ == MOD_SAVE_QUEEN) && _).
  - unfold raw_stq_queen. destruct (negb (stq_is_own_half sq us)); cbn [negb].
    { apply caps_quiets; auto using bb_squares_on_board with board. }
    rewrite List.filter_app. unfold raw_quiets.
    rewrite caps_quiets, !app_nil_r, filter_flat_map by auto using bb_squares_on_board with board.
    apply flat_map_squares; [by apply stq_own_targets_bound..|].
    intros to Hto. rewrite stq_own_captures, stq_emit_caps by done.
    destruct (Z.testbit _ to), (negb _); done.
  - rewrite filter_flat_map, filtered_captures.
    assert (0 <= filtered_targets b pt false us them sq < 2 ^ 64)
      by (by apply filtered_targets_bound).
    apply flat_map_squares; [done|auto with board|].
    intros to Hto. rewrite Z.land_spec, emit_caps by done.
    destruct (Z.testbit (filtered_targets b pt false us them sq) to) eqn:E; [|done].
    by rewrite (capture_mask_spec pt sq to Hto E).
Qed.

Lemma castling_caps : caps (raw_castling b) = [].
Proof.
  unfold raw_castling. destruct (_ && negb (b_kb_unlocked b)); [done|].
  destruct (truce_now b && _); [done|]. destruct (castle_need_safe b && _); [done|].
  unfold raw_castle. destruct (us == WHITE);
    destruct (_ && _ && _), (_ && _ && _); cbn [app List.filter];
    rewrite ?MOVE_IS_CAPTURE_encode by done; done.
Qed.

Lemma pseudo_caps :
  truce_now b = false -> caps (raw_pseudo b) = raw_pseudo_captures b.
Proof.
  intros Ht.
  unfold raw_pseudo, raw_pseudo_captures.
  rewrite !List.filter_app, pawn_caps, !piece_caps, castling_caps, app_nil_r by done. done.
Qed.
End Caps.

Lemma filter_comm {A} (P Q : A -> bool) (l : list A) :
  List.filter P (List.filter Q l) = List.filter Q (List.filter P l).
Proof.
  induction l as [|a l IH]; [done|]. cbn [List.filter].
  destruct (P a) eqn:EP, (Q a) eqn:EQ; cbn [List.filter]; rewrite ?EP, ?EQ, ?IH; done.
Qed.

(** During the truce nothing is a capture. *)
Section Truce.
Context (b : Board) (Hg : game_inv b) (Ht : truce_now b = true).
Local Abbreviation us := (b_side b).
Local Abbreviation them := (color_opposite (b_side b)).

Lemma truce_mod : b_mod b = MOD_TRUCE.
Proof. unfold truce_now in Ht. apply andb_true_iff in Ht as [H _].
  by apply bool_decide_eq_true in H. Qed.

Lemma truce_target_free (pt : PieceType) (sq to : Square) :
  on_board to -> Z.testbit (filtered_targets b pt false us them sq) to = true ->
  mb b to = PIECE_EMPTY.
Proof.
  intros Hto HT. pose proof (filtered_own b pt sq to Hto HT) as Ho.
  pose proof (color_cases b Hg to Hto) as Hc. rewrite truce_mod in Ho. cbn in Ho. rewrite Ho in Hc.
  unfold filtered_targets in HT. rewrite Ht, truce_mod in HT. cbn in HT.
  rewrite !andb_false_r in HT. cbn in HT.
  rewrite !Z.land_spec, !bb_not_testbit, !andb_true_iff in HT by done.
  destruct HT as [_ HT%negb_true_iff]. rewrite HT in Hc. cbn [orb] in Hc.
  symmetry in Hc. apply negb_false_iff in Hc. by apply Z.eqb_eq.
Qed.

Lemma truce_piece_caps (pt : PieceType) :
  real_type pt -> caps (raw_piece_moves b pt false) = [].
Proof.
  intros Hpt. unfold raw_piece_moves. destruct (kb_locked b pt); [done|].
  apply caps_none, List.Forall_forall. intros m (sq & Hin & Hm)%in_flat_map.
  apply own_squares_spec in Hin as [Hs _]; [|done|done].
  unfold raw_piece in Hm. rewrite truce_mod in Hm. cbn [andb bool_decide] in Hm.
  apply in_flat_map in Hm as (to & Hin & Hm).
  apply elem_of_bb_squares in Hin as [Hto Hb]; [|by apply filtered_targets_bound].
  pose proof (truce_target_free pt sq to Hto Hb) as E.
  unfold raw_emit in Hm. rewrite E in Hm. cbn [negb Z.eqb PIECE_EMPTY] in Hm.
  destruct Hm as [<-|[]]. by apply simple_flag.
Qed.

Lemma truce_pawn_caps : caps (raw_pawn_moves b false) = [].
Proof.
  apply caps_none, List.Forall_forall. intros m (sq & Hin & Hm)%in_flat_map.
  apply own_squares_spec in Hin as [Hs _]; [|done|done].
  unfold raw_pawn in Hm. rewrite Ht, truce_mod in Hm. cbn [negb bool_decide] in Hm.
  rewrite app_nil_r in Hm.
  assert (In m (caps (raw_pushes b false us (if us == WHITE then 1 else -1)
    (if us == WHITE then 1 else 6) (if us == WHITE then 6 else 1) sq)) -> False) as Hno.
  { rewrite pushes_caps; [done| |done]. destruct (us == WHITE); auto. }
  rewrite filter_In in Hno. apply not_true_iff_false. naive_solver.
Qed.

Lemma truce_caps : caps (raw_pseudo b) = [].
Proof.
  unfold raw_pseudo.
  by rewrite !List.filter_app, truce_pawn_caps, !truce_piece_caps, castling_caps by done.
Qed.
End Truce.

Lemma captures_of_moves (b : Board) :
  game_inv b -> history_ok b -> (length (raw_pseudo b) <= 256)%nat ->
  generate_captures b = caps (generate_moves b).
Proof.
  intros Hg Hh Hlen. rewrite generate_filter, filter_comm, pseudo_moves_take by done.
  rewrite take_ge by done. destruct (truce_now b) eqn:Ht.
  - by rewrite captures_in_truce, truce_caps.
  - rewrite captures_filter, pseudo_captures_take by done.
    rewrite pseudo_caps by done. rewrite take_ge; [done|].
    rewrite <- pseudo_caps by done. etransitivity; [apply filter_length_le|done].
Qed.
