(* ===== verification/Fen.v ===== *)
(** * FEN: reading, writing and the start position ([board_fen.c], and the
      board set-up of [bridge.c])

    A C string is the list of its characters' codes, without the terminating
    NUL.  [board_set_fen] accepts any string but does not check it: it steps
    over the end of the string when the en-passant field ends after the file,
    overflows an [int] on a long counter, and indexes the key table out of
    bounds when the en-passant square is not on the board.  In these cases,
    undefined in C, the model gives [None]. *)

From Stdlib Require Import String Ascii.
From stdpp Require Import base numbers list option.
From Stdlib Require Import ZArith Lia Bool List.
From S2P Require Import Prelude Types Board Zobrist.

(** ** Characters *)

Definition chars (s : string) : list Z :=
  map (fun a => Z.of_N (N_of_ascii a)) (list_ascii_of_string s).

(** [fen[i]], with the suffix from [i] on in hand. *)
Definition fen_at (s : list Z) : Z := match s with [] => 0 | c :: _ => c end.

Definition isupper (ch : Z) : bool := (65 <=? ch) && (ch <=? 90).
Definition tolower (ch : Z) : Z := if isupper ch then ch + 32 else ch.
Definition islower (ch : Z) : bool := (97 <=? ch) && (ch <=? 122).
Definition toupper (ch : Z) : Z := if islower ch then ch - 32 else ch.

Definition ch_space : Z := 32.
Definition ch_dash : Z := 45.
Definition ch_slash : Z := 47.
Definition ch_0 : Z := 48.
Definition ch_1 : Z := 49.
Definition ch_8 : Z := 56.
Definition ch_9 : Z := 57.
Definition ch_a : Z := 97.
Definition ch_h : Z := 104.

(** ** [board_set_fen] *)

(** The piece a letter stands for. *)
Definition fen_piece (ch : Z) : PieceType :=
  let l := tolower ch in
  if l =? 112 then PAWN
  else if l =? 110 then KNIGHT
  else if l =? 98 then BISHOP
  else if l =? 114 then ROOK
  else if l =? 113 then QUEEN
  else if l =? 107 then KING
  else PIECE_NONE.

(** 1. Piece placement: the loop up to a space or the end of the string. *)
Fixpoint fen_placement (s : list Z) (row col : Z) (b : Board) : list Z * Board :=
  match s with
  | [] => (s, b)
  | ch :: s' =>
      if (ch =? 0) || (ch =? ch_space) then (s, b)
      else if ch =? ch_slash then fen_placement s' (row - 1) 0 b
      else if (ch_1 <=? ch) && (ch <=? ch_8) then fen_placement s' row (col + (ch - ch_0)) b
      else
        let c := if isupper ch then WHITE else BLACK in
        let t := fen_piece ch in
        let b := if (t != PIECE_NONE) && (0 <=? row) && (col <? 8)
                 then board_place b (SQ row col) c t else b in
        fen_placement s' row (col + 1) b
  end.

(** [while (fen[i] && fen[i] != ' ') i++;] *)
Fixpoint fen_skip (s : list Z) : list Z :=
  match s with
  | [] => []
  | ch :: s' => if (ch =? 0) || (ch =? ch_space) then s else fen_skip s'
  end.

(** [if (fen[i] == ' ') i++;] *)
Definition fen_space (s : list Z) : list Z := if fen_at s =? ch_space then tl s else s.

(** 3. Castling *)
Definition castle_letter (ch r : Z) : Z :=
  if ch =? 75 then Z.lor r CASTLE_WK
  else if ch =? 81 then Z.lor r CASTLE_WQ
  else if ch =? 107 then Z.lor r CASTLE_BK
  else if ch =? 113 then Z.lor r CASTLE_BQ
  else r.

Fixpoint fen_castling (s : list Z) (r : Z) : list Z * Z :=
  match s with
  | [] => (s, r)
  | ch :: s' =>
      if (ch =? 0) || (ch =? ch_space) then (s, r) else fen_castling s' (castle_letter ch r)
  end.

(** 4. En passant.  A file at the very end of the string makes the second
    [i++] step over the terminator. *)
Definition fen_ep (s : list Z) (ep : Square) : option (list Z * Square) :=
  let ch := fen_at s in
  if ch =? ch_dash then Some (tl s, SQ_NONE)
  else if (ch_a <=? ch) && (ch <=? ch_h) then
    let s1 := tl s in
    if fen_at s1 =? 0 then None
    else Some (tl s1, SQ (fen_at s1 - ch_1) (ch - ch_a))
  else Some (s, ep).

(** [n * 10 + (ch - '0')] in [int] arithmetic. *)
Definition int_range (n : Z) : bool := (- 2 ^ 31 <=? n) && (n <? 2 ^ 31).

Definition fen_digit (n ch : Z) : option Z :=
  let tens := n * 10 in
  let sum := tens + (ch - ch_0) in
  if int_range tens && int_range sum then Some sum else None.

(** 5. Halfmove clock *)
Fixpoint fen_halfmove (s : list Z) (n : Z) : option (list Z * Z) :=
  match s with
  | [] => Some (s, n)
  | ch :: s' =>
      if (ch =? 0) || (ch =? ch_space) then Some (s, n)
      else match fen_digit n ch with Some n => fen_halfmove s' n | None => None end
  end.

(** 6. Fullmove number *)
Fixpoint fen_fullmove (s : list Z) (n : Z) : option Z :=
  match s with
  | [] => Some n
  | ch :: s' =>
      if (ch_0 <=? ch) && (ch <=? ch_9)
      then match fen_digit n ch with Some n => fen_fullmove s' n | None => None end
      else Some n
  end.

(** [board_refresh] reads [zob_ep[b->ep_square]], an array of 64 keys. *)
Definition ep_key_exists (b : Board) : bool :=
  (b_ep_square b =? SQ_NONE) || SQ_VALID (b_ep_square b).

Definition board_set_fen (b : Board) (fen : list Z) : option Board :=
  let b := board_clear b in
  let '(s, b) := fen_placement fen 7 0 b in
  let s := fen_space s in
  let b := set_b_side (if fen_at s =? 98 then BLACK else WHITE) b in
  let s := fen_space (fen_skip s) in
  let '(s, r) := fen_castling s 0 in
  let b := set_b_castling r b in
  let s := fen_space s in
  match fen_ep s (b_ep_square b) with
  | None => None
  | Some (s, ep) =>
      let b := set_b_ep_square ep b in
      let s := fen_space s in
      match fen_halfmove s 0 with
      | None => None
      | Some (s, hm) =>
          let b := set_b_halfmove hm b in
          let s := fen_space s in
          match fen_fullmove s 0 with
          | None => None
          | Some fm =>
              let b := set_b_fullmove (if fm <? 1 then 1 else fm) b in
              if ep_key_exists b then Some (board_refresh b) else None
          end
      end
  end.

(** ** [board_get_fen] *)

(** [printf]'s "%d". *)
Fixpoint digits (fuel : nat) (n : Z) (acc : list Z) : list Z :=
  match fuel with
  | O => acc
  | S f =>
      let acc := (ch_0 + n mod 10) :: acc in
      if n / 10 =? 0 then acc else digits f (n / 10) acc
  end.

(** Ten digits are enough for a 32-bit [int]. *)
Definition print_int (n : Z) : list Z :=
  if n <? 0 then ch_dash :: digits 10 (- n) [] else digits 10 n [].

Definition syms : list Z := [112; 110; 98; 114; 113; 107].

Definition piece_char (p : Piece) : Z :=
  let ch := syms.[PieceType_to_Z (PIECE_TYPE p)] in
  if PIECE_COLOR p == WHITE then toupper ch else ch.

(** The inner loop over the columns, from [col] with [empty] pending. *)
Definition row_step (b : Board) (row : Z) (st : list Z * Z) (col : Z) : list Z * Z :=
  let '(buf, empty) := st in
  let p := mb b (SQ row col) in
  if p =? PIECE_EMPTY then (buf, empty + 1)
  else
    let '(buf, empty) := if 0 <? empty then (buf ++ [ch_0 + empty], 0) else (buf, empty) in
    (buf ++ [piece_char p], empty).

Definition fen_row (b : Board) (buf : list Z) (row : Z) : list Z :=
  let '(buf, empty) := fold_left (row_step b row) (seqZ 0 8) (buf, 0) in
  let buf := if 0 <? empty then buf ++ [ch_0 + empty] else buf in
  if 0 <? row then buf ++ [ch_slash] else buf.

Definition fen_rights (r : Z) : list Z :=
  if r =? 0 then [ch_dash]
  else (if negb (Z.land r CASTLE_WK =? 0) then [75] else []) ++
       (if negb (Z.land r CASTLE_WQ =? 0) then [81] else []) ++
       (if negb (Z.land r CASTLE_BK =? 0) then [107] else []) ++
       (if negb (Z.land r CASTLE_BQ =? 0) then [113] else []).

Definition fen_ep_field (ep : Square) : list Z :=
  if ep =? SQ_NONE then [ch_dash] else [ch_a + SQ_COL ep; ch_1 + SQ_ROW ep].

(** The characters written to the buffer. *)
Definition fen_text (b : Board) : list Z :=
  let buf := fold_left (fen_row b) [7; 6; 5; 4; 3; 2; 1; 0] [] in
  let buf := buf ++ [ch_space] in
  let buf := buf ++ [if b_side b == WHITE then 119 else 98] in
  let buf := buf ++ [ch_space] in
  let buf := buf ++ fen_rights (b_castling b) in
  let buf := buf ++ [ch_space] in
  let buf := buf ++ fen_ep_field (b_ep_square b) in
  buf ++ [ch_space] ++ print_int (b_halfmove b) ++ [ch_space] ++ print_int (b_fullmove b).

(** The characters are stored one by one with no look at [bufsize], and the
    terminator goes after the last one: a buffer too small for both is
    overrun. *)
Definition board_get_fen (b : Board) (bufsize : Z) : option (list Z) :=
  let s := fen_text b in
  if Z.of_nat (length s) + 1 <=? bufsize then Some s else None.

(** ** [board_init] *)

Definition startpos : list Z :=
  chars "rnbqkbnr/pppppppp/8/8/8/8/PPPPPPPP/RNBQKBNR w KQkq - 0 1".

Definition board_init (b : Board) (md : GameMod) : option Board :=
  match board_set_fen b startpos with
  | Some b => Some (set_b_mod md b)
  | None => None
  end.

(** ** The board set-up of [engine_find_move] and [engine_apply_move] *)

Definition engine_setup (b : Board) (fen : list Z) (md : GameMod) (heir_wp heir_bp : Z)
    (truce_active : Z) (truce_frozen : Z) : option Board :=
  match board_set_fen b fen with
  | None => None
  | Some b =>
      let b := set_b_mod md b in
      let b := set_heir WHITE (negb (heir_wp =? 0)) b in
      let b := set_heir BLACK (negb (heir_bp =? 0)) b in
      let b := set_b_truce_active (negb (truce_active =? 0)) b in
      let b := set_b_truce_frozen (u64 truce_frozen) b in
      let b := set_b_ff_moved
                 (if b_mod b == MOD_FRIENDLY_FIRE then u64 truce_frozen else 0) b in
      let b := if b_mod b == MOD_FRIENDLY_FIRE then set_b_truce_frozen 0 b else b in
      let b := set_b_kb_unlocked
                 (if b_mod b == MOD_KINGS_BATTLE then negb (truce_active =? 0) else false) b in
      Some (if b_mod b == MOD_KINGS_BATTLE then set_b_truce_active false b else b)
  end.

(** ** Concrete positions *)

Definition blank : Board := board_clear (mkBoard [] [] 0 [] WHITE 0 0 0 0 MOD_CLASSIC [] false 0 0
  false 0 0 [] 0).

Example startpos_text :
  option_map fen_text (board_init blank MOD_CLASSIC) = Some startpos.
Proof. vm_compute. reflexivity. Qed.

(** ** Reading any string gives a well-formed board *)

(** The squares the placement loop has yet to reach are free. *)
Definition ahead_free (l : list Piece) (row col : Z) : Prop :=
  forall r c, 0 <= r < 8 -> 0 <= c < 8 -> r < row \/ r = row /\ col <= c ->
  l.[SQ r c] = PIECE_EMPTY.

Lemma SQ_inj (r c r' c' : Z) :
  0 <= r < 8 -> 0 <= c < 8 -> 0 <= r' < 8 -> 0 <= c' < 8 -> SQ r c = SQ r' c' -> r = r' /\ c = c'.
Proof. intros. rewrite !SQ_small in * by lia. lia. Qed.

Lemma fen_placement_valid (s : list Z) :
  forall row col l b, valid_mailbox l -> row <= 7 -> 0 <= col -> ahead_free l row col ->
  exists s' l', fen_placement s row col (with_mailbox l b) = (s', with_mailbox l' b) /\
                valid_mailbox l'.
Proof.
  induction s as [|ch s IH]; intros row col l b Hv Hrow Hcol Hfree; cbn [fen_placement].
  { by exists [], l. }
  destruct ((ch =? 0) || (ch =? ch_space)); [by exists (ch :: s), l|].
  destruct (ch =? ch_slash).
  { apply IH; [done|lia|lia|]. intros r c Hr Hc H. apply Hfree; lia. }
  destruct ((ch_1 <=? ch) && (ch <=? ch_8)) eqn:Ed.
  { apply andb_true_iff in Ed as [E%Z.leb_le _]. unfold ch_1, ch_0 in *.
    apply IH; [done|done|lia|]. intros r c Hr Hc H. apply Hfree; lia. }
  destruct ((fen_piece ch != PIECE_NONE) && (0 <=? row) && (col <? 8)) eqn:E.
  - rewrite !andb_true_iff, Z.leb_le, Z.ltb_lt in E. destruct E as [[Et Hr] Hc].
    apply negb_true_iff, bool_decide_eq_false in Et.
    assert (on_board (SQ row col)) as Hs by (apply SQ_on_board; lia).
    assert (real_color (if isupper ch then WHITE else BLACK)) as Hcol' by (by destruct (isupper ch)).
    rewrite place_image; [|auto with board|done|done|done|].
    2:{ rewrite mb_with_mailbox. apply Hfree; lia. }
    rewrite with_mailbox_twice. apply IH; [auto with board|done|lia|].
    intros r c Hr' Hc' H. cbn [b_mailbox with_mailbox]. rewrite znth_zset_ne; [apply Hfree; lia|].
    intros Es. apply SQ_inj in Es; lia.
  - apply IH; [done|done|lia|]. intros r c Hr Hc H. apply Hfree; lia.
Qed.

Lemma clear_image (b : Board) :
  board_clear b = with_mailbox (replicate 64 PIECE_EMPTY) (board_clear b).
Proof. symmetry. apply (inv_image _ (board_clear_inv b)). Qed.

Lemma ahead_free_clear : ahead_free (replicate 64 PIECE_EMPTY) 7 0.
Proof.
  intros r c Hr Hc _. pose proof (SQ_on_board r c Hr Hc) as H.
  unfold on_board in H. unfold znth. destruct (Z.ltb_spec (SQ r c) 0); [lia|].
  apply list_lookup_total_correct, lookup_replicate. split; [done|lia].
Qed.

Lemma fen_castling_bound (s : list Z) :
  forall r, 0 <= r < 16 -> 0 <= (fen_castling s r).2 < 16.
Proof.
  induction s as [|ch s IH]; intros r Hr; cbn [fen_castling]; [done|].
  destruct (_ || _); [done|]. apply IH. unfold castle_letter.
  assert (forall x, 0 <= x < 16 -> 0 <= Z.lor r x < 16) as H.
  { intros x Hx. change 16 with (2 ^ 4). apply bits_bounded; [lia|]. intros n Hn.
    rewrite Z.lor_spec. apply orb_false_iff. split.
    - destruct (Z.eqb_spec r 0) as [->|]; [apply Z.testbit_0_l|].
      apply Z.bits_above_log2; [lia|]. assert (Z.log2 r < 4) by (apply Z.log2_lt_pow2; lia). lia.
    - destruct (Z.eqb_spec x 0) as [->|]; [apply Z.testbit_0_l|].
      apply Z.bits_above_log2; [lia|]. assert (Z.log2 x < 4) by (apply Z.log2_lt_pow2; lia). lia. }
  repeat case_match; try done; apply H; unfold CASTLE_WK, CASTLE_WQ, CASTLE_BK, CASTLE_BQ; lia.
Qed.

(** What [board_set_fen] leaves besides the position. *)
Record fresh_board (b : Board) : Prop := {
  fb_inv : board_inv b;
  fb_side : real_color (b_side b);
  fb_castling : 0 <= b_castling b < 16;
  fb_ep : b_ep_square b = SQ_NONE \/ on_board (b_ep_square b);
  fb_halfmove : - 2 ^ 31 <= b_halfmove b < 2 ^ 31;
  fb_fullmove : 1 <= b_fullmove b < 2 ^ 31;
  fb_hash : b_hash b = zobrist_compute zob_keys b;
  fb_ply : b_ply b = 0;
  fb_history : Z.of_nat (length (b_history b)) = MAX_HISTORY;
  fb_heir : b_heir_promoted b = [false; false];
  fb_truce : b_truce_active b = false /\ b_truce_frozen b = 0;
  fb_moved : b_ff_moved b = 0;
  fb_kb : b_kb_unlocked b = false /\ b_kb_idle_kings b = 0;
  fb_mod : b_mod b = MOD_CLASSIC
}.

Lemma fen_digit_range (n ch m : Z) : fen_digit n ch = Some m -> - 2 ^ 31 <= m < 2 ^ 31.
Proof. unfold fen_digit, int_range. case_match; [|done]. intros [= <-]. lia. Qed.

Lemma fen_halfmove_range (s : list Z) :
  forall n s' m, - 2 ^ 31 <= n < 2 ^ 31 -> fen_halfmove s n = Some (s', m) -> - 2 ^ 31 <= m < 2 ^ 31.
Proof.
  induction s as [|ch s IH]; intros n s' m Hn; cbn [fen_halfmove]; [intros [= _ <-]; done|].
  destruct (_ || _); [intros [= _ <-]; done|].
  destruct (fen_digit n ch) eqn:E; [|done]. apply IH. by eapply fen_digit_range.
Qed.

Lemma fen_fullmove_range (s : list Z) :
  forall n m, - 2 ^ 31 <= n < 2 ^ 31 -> fen_fullmove s n = Some m -> - 2 ^ 31 <= m < 2 ^ 31.
Proof.
  induction s as [|ch s IH]; intros n m Hn; cbn [fen_fullmove]; [intros [= <-]; done|].
  destruct (_ && _); [|intros [= <-]; done].
  destruct (fen_digit n ch) eqn:E; [|done]. apply IH. by eapply fen_digit_range.
Qed.

Lemma board_set_fen_fresh (b0 b : Board) (fen : list Z) :
  board_set_fen b0 fen = Some b -> fresh_board b.
Proof.
  unfold board_set_fen. rewrite clear_image.
  destruct (fen_placement_valid fen 7 0 (replicate 64 PIECE_EMPTY) (board_clear b0))
    as (s & l & -> & Hv).
  { apply (board_clear_inv b0). }
  { done. }
  { done. }
  { apply ahead_free_clear. }
  pose proof (fen_castling_bound (fen_space (fen_skip (fen_space s))) 0 ltac:(lia)) as Hr.
  destruct (fen_castling (fen_space (fen_skip (fen_space s))) 0) as [s1 r]. cbn [snd] in Hr.
  destruct (fen_ep _ _) as [[s2 ep]|]; [|done].
  destruct (fen_halfmove (fen_space s2) 0) as [[s3 hm]|] eqn:Ehm; [|done].
  apply fen_halfmove_range in Ehm; [|lia].
  destruct (fen_fullmove (fen_space s3) 0) as [fm|] eqn:Efm; [|done].
  apply fen_fullmove_range in Efm; [|lia].
  match goal with |- context [board_refresh ?x] => set (X := x) end.
  destruct (ep_key_exists X) eqn:Eep; [|done]. intros [= <-].
  unfold ep_key_exists in Eep. apply orb_true_iff in Eep. rewrite Z.eqb_eq, SQ_VALID_spec in Eep.
  assert (board_inv X) as HX by (by constructor).
  rewrite board_refresh_hash by done.
  constructor; try done.
  - cbn [b_side set_b_hash]. unfold X. cbn. by destruct (_ =? 98).
  - change (b_fullmove (set_b_hash _ X)) with (if fm <? 1 then 1 else fm).
    destruct (Z.ltb_spec fm 1); lia.
Qed.

(** ** The hash of a position that has been set up *)

(** The keys of the flags that are set. *)
Definition flag_keys (b : Board) : Z :=
  Z.lxor (Z.lxor (if heir b WHITE then (zob_heir_promoted zob_keys).[0] else 0)
                 (if heir b BLACK then (zob_heir_promoted zob_keys).[1] else 0))
         (Z.lxor (if b_truce_active b then zob_truce_active zob_keys else 0)
                 (if b_kb_unlocked b then zob_kb_unlocked zob_keys else 0)).

(** No two of these keys cancel out. *)
Lemma flag_keys_zero (b : Board) :
  flag_keys b = 0 <->
  heir b WHITE = false /\ heir b BLACK = false /\ b_truce_active b = false /\ b_kb_unlocked b = false.
Proof.
  unfold flag_keys. destruct (heir b WHITE), (heir b BLACK), (b_truce_active b), (b_kb_unlocked b);
    (split; [intros H; vm_compute in H; first [discriminate H|done]|naive_solver]).
Qed.

Lemma zobrist_flags (b b' : Board) :
  zobrist_pieces zob_keys b' = zobrist_pieces zob_keys b -> b_side b' = b_side b ->
  b_castling b' = b_castling b -> b_ep_square b' = b_ep_square b -> flag_keys b = 0 ->
  zobrist_compute zob_keys b' = Z.lxor (zobrist_compute zob_keys b) (flag_keys b').
Proof.
  intros Ep Es Ec Ee (Hw & Hb & Ht & Hk)%flag_keys_zero. unfold zobrist_compute, flag_keys, colors.
  cbn [fold_left Color_to_Z]. rewrite Ep, Es, Ec, Ee, Hw, Hb, Ht, Hk.
  set (h := if negb _ then _ else _). generalize h. intros x.
  destruct (heir b' WHITE), (heir b' BLACK), (b_truce_active b'), (b_kb_unlocked b');
    rewrite ?Z.lxor_0_r, ?Z.lxor_0_l, ?Z.lxor_assoc; done.
Qed.

Lemma setup_hash (b0 b : Board) (fen : list Z) (md : GameMod) (hw hb ta tf : Z) :
  engine_setup b0 fen md hw hb ta tf = Some b ->
  zobrist_compute zob_keys b = Z.lxor (b_hash b) (flag_keys b) /\
  (flag_keys b = 0 <-> hw = 0 /\ hb = 0 /\ ta = 0).
Proof.
  unfold engine_setup. destruct (board_set_fen b0 fen) as [b1|] eqn:E; [|done].
  apply board_set_fen_fresh in E. intros [= <-]. cbv zeta. set (b := if _ == _ then _ else _).
  assert (b_hash b = b_hash b1) as Eh by (unfold b; by repeat case_match).
  split.
  - rewrite Eh, (fb_hash _ E). apply zobrist_flags; try (unfold b; by repeat case_match).
    destruct (fb_truce _ E), (fb_kb _ E). apply flag_keys_zero. unfold heir. by rewrite (fb_heir _ E).
  - rewrite flag_keys_zero. rewrite <- (Z.eqb_eq hw), <- (Z.eqb_eq hb), <- (Z.eqb_eq ta).
    assert (heir b WHITE = negb (hw =? 0) /\ heir b BLACK = negb (hb =? 0)) as [-> ->].
    { unfold b, set_heir, heir. repeat case_match; cbn; by rewrite (fb_heir _ E). }
    assert (b_truce_active b = (if md == MOD_KINGS_BATTLE then false else negb (ta =? 0)) /\
            b_kb_unlocked b = (if md == MOD_KINGS_BATTLE then negb (ta =? 0) else false)) as [-> ->].
    { unfold b. by destruct md. }
    destruct (hw =? 0), (hb =? 0), (ta =? 0), (md == MOD_KINGS_BATTLE); cbn; split; naive_solver.
Qed.
