(* ===== verification/FenRound.v ===== *)
(** * FEN round trip

    Reading back what [board_get_fen] writes gives the same position, side,
    rights, en-passant square and clocks.  The placement loop is followed
    square by square in the order it scans the board. *)

From stdpp Require Import base numbers list option.
From Stdlib Require Import ZArith Lia Bool.
From S2P Require Import Prelude Types Board Zobrist Fen.

(** ** The part of a mailbox already scanned *)

(** The position of a square in the order of the placement field. *)
Definition scan (sq : Square) : Z := (7 - SQ_ROW sq) * 8 + SQ_COL sq.

Definition scanned (l : list Piece) (n : Z) : list Piece :=
  map (fun i => if scan i <? n then l.[i] else PIECE_EMPTY) (seqZ 0 64).

Lemma length_scanned (l : list Piece) (n : Z) : length (scanned l n) = 64%nat.
Proof. unfold scanned. by rewrite length_map, length_seqZ. Qed.

Lemma znth_map_seqZ {A} `{Inhabited A} (f : Z -> A) (n i : Z) :
  0 <= i < n -> (map f (seqZ 0 n)).[i] = f i.
Proof.
  intros Hi. unfold znth. destruct (Z.ltb_spec i 0); [lia|].
  apply list_lookup_total_correct. change (map f (seqZ 0 n)) with (f <$> seqZ 0 n).
  rewrite list_lookup_fmap, lookup_seqZ_lt by lia. cbn. f_equal. f_equal. lia.
Qed.

Lemma scanned_at (l : list Piece) (n : Z) (i : Square) :
  on_board i -> (scanned l n).[i] = if scan i <? n then l.[i] else PIECE_EMPTY.
Proof. intros. unfold scanned. by rewrite znth_map_seqZ. Qed.

Lemma scan_inj (i j : Square) : on_board i -> on_board j -> scan i = scan j -> i = j.
Proof.
  intros Hi Hj E. unfold scan in E. rewrite (SQ_ROW_COL i), (SQ_ROW_COL j).
  pose proof (SQ_COL_bound i). pose proof (SQ_COL_bound j). lia.
Qed.

Lemma scan_bound (i : Square) : on_board i -> 0 <= scan i < 64.
Proof.
  intros Hi. unfold scan. pose proof (SQ_COL_bound i). pose proof (SQ_ROW_bound i Hi). lia.
Qed.

Lemma scanned_valid (l : list Piece) (n : Z) : valid_mailbox l -> valid_mailbox (scanned l n).
Proof.
  intros Hl. split; [apply length_scanned|]. unfold scanned. apply Forall_map, List.Forall_forall.
  intros i Hi. rewrite <- list_elem_of_In, elem_of_seqZ in Hi.
  destruct (scan i <? n); [|by left]. apply valid_at; [done|]. unfold on_board. lia.
Qed.

Lemma scanned_place (l : list Piece) (n : Z) (sq : Square) :
  on_board sq -> scan sq = n -> (scanned l n).[sq <- l.[sq]] = scanned l (n + 1).
Proof.
  intros Hs Hn. apply array_ext; [by rewrite length_zset, !length_scanned|].
  intros i Hi. rewrite length_zset, length_scanned in Hi.
  assert (on_board i) as Hi' by (unfold on_board; lia).
  rewrite znth_zset by (unfold in_range; rewrite length_scanned; unfold on_board in *; lia).
  rewrite !scanned_at by done. destruct (Z.eqb_spec i sq) as [->|Hne].
  - by replace (scan sq <? n + 1) with true by lia.
  - destruct (Z.eqb_spec (scan i) n) as [E|E].
    + exfalso. apply Hne, scan_inj; congruence.
    + by replace (scan i <? n + 1) with (scan i <? n) by lia.
Qed.

Lemma scanned_skip (l : list Piece) (n : Z) (sq : Square) :
  on_board sq -> scan sq = n -> l.[sq] = PIECE_EMPTY -> scanned l (n + 1) = scanned l n.
Proof.
  intros Hs Hn He. rewrite <- (scanned_place l n sq) by done. rewrite He.
  apply zset_same.
  - unfold in_range. rewrite length_scanned. unfold on_board in Hs. lia.
  - rewrite scanned_at by done. by replace (scan sq <? n) with false by lia.
Qed.

Lemma scanned_all (l : list Piece) : length l = 64%nat -> scanned l 64 = l.
Proof.
  intros Hl. apply array_ext; [by rewrite length_scanned|]. intros i Hi.
  rewrite length_scanned in Hi. assert (on_board i) as Hi' by (unfold on_board; lia).
  rewrite scanned_at by done. pose proof (scan_bound i Hi').
  by replace (scan i <? 64) with true by lia.
Qed.

Lemma scanned_none (l : list Piece) : scanned l 0 = replicate 64 PIECE_EMPTY.
Proof.
  apply array_ext; [by rewrite length_scanned|]. intros i Hi. rewrite length_scanned in Hi.
  assert (on_board i) as Hi' by (unfold on_board; lia).
  rewrite scanned_at by done. pose proof (scan_bound i Hi').
  replace (scan i <? 0) with false by lia.
  unfold znth. destruct (Z.ltb_spec i 0); [lia|].
  symmetry. apply list_lookup_total_correct, lookup_replicate. split; [done|lia].
Qed.

(** ** One row *)

(** The characters of a row, from the pieces on it. *)
Fixpoint row_chars (ps : list Piece) (empty : Z) : list Z :=
  match ps with
  | [] => if 0 <? empty then [ch_0 + empty] else []
  | p :: ps =>
      if p =? PIECE_EMPTY then row_chars ps (empty + 1)
      else (if 0 <? empty then [ch_0 + empty] else []) ++ piece_char p :: row_chars ps 0
  end.

Lemma row_step_chars (b : Board) (row : Z) (cols : list Z) :
  forall buf empty, 0 <= empty ->
  (let '(buf, empty) := fold_left (row_step b row) cols (buf, empty) in
   if 0 <? empty then buf ++ [ch_0 + empty] else buf) =
  buf ++ row_chars (map (fun c => mb b (SQ row c)) cols) empty.
Proof.
  induction cols as [|c cols IH]; intros buf empty He; cbn [fold_left map row_chars].
  { destruct (0 <? empty); [done|by rewrite app_nil_r]. }
  unfold row_step at 2. destruct (mb b (SQ row c) =? PIECE_EMPTY).
  - by rewrite IH by lia.
  - destruct (Z.ltb_spec 0 empty).
    + rewrite IH by lia. by rewrite <- !app_assoc.
    + replace empty with 0 by lia. rewrite IH by lia. by rewrite <- !app_assoc.
Qed.

Definition row_pieces (b : Board) (row : Z) : list Piece :=
  map (fun c => mb b (SQ row c)) (seqZ 0 8).

Lemma fen_row_chars (b : Board) (buf : list Z) (row : Z) :
  fen_row b buf row =
  buf ++ row_chars (row_pieces b row) 0 ++ (if 0 <? row then [ch_slash] else []).
Proof.
  unfold fen_row. pose proof (row_step_chars b row (seqZ 0 8) buf 0 ltac:(lia)) as H.
  destruct (fold_left _ _ _) as [buf' empty]. rewrite H. unfold row_pieces.
  destruct (0 <? row); by rewrite <- ?app_assoc, ?app_nil_r.
Qed.

Lemma piece_char_spec (p : Piece) :
  valid_piece p -> p <> PIECE_EMPTY ->
  let ch := piece_char p in
  (ch =? 0) || (ch =? ch_space) = false /\ ch =? ch_slash = false /\
  (ch_1 <=? ch) && (ch <=? ch_8) = false /\
  (if isupper ch then WHITE else BLACK) = PIECE_COLOR p /\ fen_piece ch = PIECE_TYPE p.
Proof.
  intros [->|(c & t & Hc & Ht & ->)]; [done|]. intros _.
  destruct c, t; try real; by vm_compute.
Qed.

Section RowParse.
Context (l : list Piece) (X : Board) (row : Z) (Hv : valid_mailbox l) (Hrow : 0 <= row < 8).

Lemma digit_step (e : Z) (rest : list Z) (col : Z) (b : Board) :
  1 <= e <= 8 ->
  fen_placement ((ch_0 + e) :: rest) row col b = fen_placement rest row (col + e) b.
Proof.
  intros He. cbn [fen_placement]. unfold ch_0, ch_1, ch_8, ch_space, ch_slash.
  replace ((48 + e =? 0) || (48 + e =? 32)) with false by lia.
  replace (48 + e =? 47) with false by lia.
  replace ((49 <=? 48 + e) && (48 + e <=? 56)) with true by lia.
  f_equal. lia.
Qed.

Lemma scan_SQ (col : Z) : 0 <= col < 8 -> scan (SQ row col) = (7 - row) * 8 + col.
Proof. intros. unfold scan. rewrite SQ_ROW_SQ, SQ_COL_SQ; lia. Qed.

Lemma row_parse (ps : list Piece) (rest : list Z) :
  forall col empty, 0 <= empty <= col -> col + Z.of_nat (length ps) = 8 ->
  ps = map (fun c => l.[SQ row c]) (seqZ col (8 - col)) ->
  fen_placement (row_chars ps empty ++ rest) row (col - empty)
    (with_mailbox (scanned l ((7 - row) * 8 + col)) X) =
  fen_placement rest row 8 (with_mailbox (scanned l ((7 - row) * 8 + 8)) X).
Proof.
  induction ps as [|p ps IH]; intros col empty He Hlen Hps; cbn [row_chars].
  { cbn [length] in Hlen. replace col with 8 in * by lia. destruct (Z.ltb_spec 0 empty).
    - cbn [app]. rewrite digit_step by lia. f_equal. lia.
    - cbn [app]. f_equal. lia. }
  cbn [length] in Hlen. rewrite (seqZ_cons col (8 - col)) in Hps by lia.
  cbn [map] in Hps. injection Hps as Hp Hps.
  replace (Z.succ col) with (col + 1) in Hps by lia.
  replace (Z.pred (8 - col)) with (8 - (col + 1)) in Hps by lia.
  assert (on_board (SQ row col)) as Hs by (apply SQ_on_board; lia).
  pose proof (scan_SQ col ltac:(lia)) as Hscan.
  destruct (Z.eqb_spec p PIECE_EMPTY) as [E|E].
  - rewrite <- (scanned_skip l _ (SQ row col) Hs Hscan) by congruence.
    replace (col - empty) with (col + 1 - (empty + 1)) by lia.
    replace ((7 - row) * 8 + col + 1) with ((7 - row) * 8 + (col + 1)) by lia.
    apply IH; [lia|lia|done].
  - assert (forall col', col' = col ->
      fen_placement (piece_char p :: row_chars ps 0 ++ rest) row col'
        (with_mailbox (scanned l ((7 - row) * 8 + col)) X) =
      fen_placement rest row 8 (with_mailbox (scanned l ((7 - row) * 8 + 8)) X)) as Hone.
    { intros col' ->. cbn [fen_placement].
      assert (valid_piece p) as Hvp by (rewrite Hp; by apply valid_at).
      destruct (piece_char_spec p Hvp E) as (-> & -> & -> & -> & ->).
      destruct (valid_color_type p Hvp E) as (Hc & Ht & Ep).
      replace ((PIECE_TYPE p != PIECE_NONE) && (0 <=? row) && (col <? 8)) with true.
      2:{ symmetry. rewrite !andb_true_iff, Z.leb_le, Z.ltb_lt. split_and!; [|lia|lia].
          apply negb_true_iff. by apply bool_decide_eq_false. }
      rewrite place_image; [|apply with_mailbox_inv; by apply scanned_valid|done|done|done|].
      2:{ rewrite mb_with_mailbox, scanned_at by done.
          by replace (scan (SQ row col) <? (7 - row) * 8 + col) with false by lia. }
      rewrite with_mailbox_twice, <- Ep. cbn [b_mailbox with_mailbox].
      rewrite Hp, scanned_place by done.
      replace ((7 - row) * 8 + col + 1) with ((7 - row) * 8 + (col + 1)) by lia.
      specialize (IH (col + 1) 0). rewrite Z.sub_0_r in IH. apply IH; [lia|lia|done]. }
    rewrite <- app_assoc. destruct (Z.ltb_spec 0 empty).
    + cbn [app]. rewrite digit_step by lia. apply Hone. lia.
    + cbn [app]. apply Hone. lia.
Qed.
End RowParse.

(** ** The placement field *)

Definition placement (b : Board) : list Z :=
  fold_left (fen_row b) [7; 6; 5; 4; 3; 2; 1; 0] [].

Definition row_text (b : Board) (row : Z) : list Z :=
  row_chars (row_pieces b row) 0 ++ (if 0 <? row then [ch_slash] else []).

Lemma fold_rows (b : Board) (rows buf : list Z) :
  fold_left (fen_row b) rows buf = buf ++ flat_map (row_text b) rows.
Proof.
  revert buf. induction rows as [|row rows IH]; intros buf; [by rewrite app_nil_r|].
  cbn [fold_left flat_map]. by rewrite IH, fen_row_chars, <- app_assoc.
Qed.

Lemma placement_rows (b : Board) :
  placement b = flat_map (row_text b) [7; 6; 5; 4; 3; 2; 1; 0].
Proof. apply fold_rows. Qed.

Lemma row_text_parse (b : Board) (X : Board) (row : Z) (rest : list Z) :
  valid_mailbox (b_mailbox b) -> 0 <= row < 8 ->
  fen_placement (row_text b row ++ rest) row 0
    (with_mailbox (scanned (b_mailbox b) ((7 - row) * 8)) X) =
  fen_placement ((if 0 <? row then [ch_slash] else []) ++ rest) row 8
    (with_mailbox (scanned (b_mailbox b) ((7 - row) * 8 + 8)) X).
Proof.
  intros Hv Hrow. unfold row_text. rewrite <- app_assoc.
  pose proof (row_parse (b_mailbox b) X row Hv Hrow (row_pieces b row)
    ((if 0 <? row then [ch_slash] else []) ++ rest) 0 0) as H.
  rewrite Z.add_0_r, Z.sub_0_r in H. apply H; [lia| |done].
  unfold row_pieces. rewrite length_map, length_seqZ. lia.
Qed.

Lemma placement_parse (b : Board) (X : Board) (rest : list Z) :
  valid_mailbox (b_mailbox b) ->
  fen_placement (placement b ++ ch_space :: rest) 7 0 (with_mailbox (replicate 64 PIECE_EMPTY) X) =
  (ch_space :: rest, with_mailbox (b_mailbox b) X).
Proof.
  intros Hv. rewrite placement_rows, <- (scanned_none (b_mailbox b)).
  change (scanned (b_mailbox b) 0) with (scanned (b_mailbox b) ((7 - 7) * 8)).
  assert (forall row rest, 0 < row < 8 ->
    fen_placement (row_text b row ++ rest) row 0
      (with_mailbox (scanned (b_mailbox b) ((7 - row) * 8)) X) =
    fen_placement rest (row - 1) 0
      (with_mailbox (scanned (b_mailbox b) ((7 - (row - 1)) * 8)) X)) as Hrow.
  { intros row rest' Hrow. rewrite row_text_parse by (done || lia).
    replace (0 <? row) with true by lia.
    replace ((7 - row) * 8 + 8) with ((7 - (row - 1)) * 8) by lia. done. }
  cbn [flat_map]. rewrite app_nil_r, <- !app_assoc.
  rewrite (Hrow 7), (Hrow (7 - 1)), (Hrow (7 - 1 - 1)), (Hrow (7 - 1 - 1 - 1)),
    (Hrow (7 - 1 - 1 - 1 - 1)), (Hrow (7 - 1 - 1 - 1 - 1 - 1)),
    (Hrow (7 - 1 - 1 - 1 - 1 - 1 - 1)) by lia.
  change (7 - 1 - 1 - 1 - 1 - 1 - 1 - 1) with 0.
  rewrite row_text_parse by (done || lia).
  change ((7 - 0) * 8 + 8) with 64. by rewrite scanned_all by apply Hv.
Qed.

(** ** The other fields *)

Lemma rights_parse (r : Z) (rest : list Z) :
  0 <= r < 16 -> fen_castling (fen_rights r ++ ch_space :: rest) 0 = (ch_space :: rest, r).
Proof.
  intros Hr.
  assert (In r [0;1;2;3;4;5;6;7;8;9;10;11;12;13;14;15]) as H by (simpl; lia).
  simpl in H. repeat destruct H as [<-|H]; try reflexivity. done.
Qed.

Lemma ep_parse (ep ep0 : Square) (rest : list Z) :
  ep = SQ_NONE \/ on_board ep ->
  fen_ep (fen_ep_field ep ++ ch_space :: rest) ep0 = Some (ch_space :: rest, ep).
Proof.
  intros [->|Hs]; [done|]. unfold fen_ep_field, SQ_NONE.
  destruct (Z.eqb_spec ep (-1)) as [->|_]; [unfold on_board in Hs; lia|].
  pose proof (SQ_COL_bound ep) as Hc. pose proof (SQ_ROW_bound ep Hs) as Hr.
  unfold fen_ep. cbn [fen_at app tl]. unfold ch_a, ch_dash, ch_h, ch_1.
  replace (97 + SQ_COL ep =? 45) with false by lia.
  replace ((97 <=? 97 + SQ_COL ep) && (97 + SQ_COL ep <=? 104)) with true by lia.
  replace (49 + SQ_ROW ep =? 0) with false by lia.
  do 2 f_equal. rewrite SQ_small by lia. pose proof (SQ_ROW_COL ep). lia.
Qed.

(** *** Numbers *)

Definition is_digit (ch : Z) : Prop := ch_0 <= ch <= ch_9.

Definition value (ds : list Z) (v : Z) : Z := fold_left (fun v ch => v * 10 + (ch - ch_0)) ds v.

Lemma digits_value (fuel : nat) :
  forall n acc, 0 <= n < 10 ^ Z.of_nat fuel -> (0 < fuel)%nat ->
  exists ds, digits fuel n acc = ds ++ acc /\ Forall is_digit ds /\ value ds 0 = n /\
             (0 < length ds <= fuel)%nat.
Proof.
  induction fuel as [|f IH]; intros n acc Hn Hf; [lia|]. cbn [digits].
  assert (is_digit (ch_0 + n mod 10)) as Hd.
  { unfold is_digit, ch_0, ch_9. pose proof (Z.mod_pos_bound n 10). lia. }
  pose proof (Z.div_mod n 10 ltac:(lia)) as Hdm.
  destruct (Z.eqb_spec (n / 10) 0) as [E|E].
  - exists [ch_0 + n mod 10]. split_and!; [done|by constructor| |simpl; lia|simpl; lia].
    cbn [value fold_left]. lia.
  - assert (n / 10 < 10 ^ Z.of_nat f) as Hlt.
    { apply Z.div_lt_upper_bound; [lia|].
      rewrite Nat2Z.inj_succ, Z.pow_succ_r in Hn by lia. lia. }
    assert (0 <= n / 10) by (apply Z.div_pos; lia).
    destruct f as [|f']; [simpl in Hlt; lia|].
    destruct (IH (n / 10) ((ch_0 + n mod 10) :: acc)) as (ds & -> & Hds & Hval & Hlen); [lia|lia|].
    exists (ds ++ [ch_0 + n mod 10]). split_and!.
    + by rewrite <- app_assoc.
    + apply Forall_app. split; [done|by constructor].
    + unfold value in *. rewrite fold_left_app, Hval. cbn [fold_left]. lia.
    + rewrite length_app. simpl. lia.
    + rewrite length_app. simpl. lia.
Qed.

Lemma print_int_value (n : Z) :
  0 <= n < 2 ^ 31 ->
  Forall is_digit (print_int n) /\ value (print_int n) 0 = n /\
  (0 < length (print_int n) <= 10)%nat.
Proof.
  intros Hn. unfold print_int. replace (n <? 0) with false by lia.
  destruct (digits_value 10 n []) as (ds & -> & H); [simpl; lia|lia|].
  by rewrite app_nil_r.
Qed.

Lemma value_mono (ds : list Z) (v : Z) : Forall is_digit ds -> 0 <= v -> v <= value ds v.
Proof.
  intros H. revert v. induction H as [|d ds Hd _ IH]; intros v Hv; [done|].
  unfold value in *. cbn [fold_left]. unfold is_digit, ch_0, ch_9 in Hd.
  etransitivity; [|apply IH; unfold ch_0; lia]. unfold ch_0. lia.
Qed.

Lemma digit_reads (d v : Z) (ds : list Z) :
  is_digit d -> Forall is_digit ds -> 0 <= v -> value (d :: ds) v < 2 ^ 31 ->
  fen_digit v d = Some (v * 10 + (d - ch_0)) /\ 0 <= v * 10 + (d - ch_0).
Proof.
  intros Hd Hds Hv Hlt. unfold is_digit, ch_0, ch_9 in Hd.
  pose proof (value_mono ds (v * 10 + (d - ch_0)) Hds ltac:(unfold ch_0; lia)) as Hm.
  unfold value in *. cbn [fold_left] in Hlt. unfold fen_digit, int_range, ch_0 in *.
  split; [|lia]. rewrite (proj2 (andb_true_iff _ _)); [done|]. split; lia.
Qed.

Lemma halfmove_digits (ds rest : list Z) (v : Z) :
  Forall is_digit ds -> 0 <= v -> value ds v < 2 ^ 31 ->
  fen_halfmove (ds ++ ch_space :: rest) v = Some (ch_space :: rest, value ds v).
Proof.
  intros H. revert v. induction H as [|d ds Hd Hds IH]; intros v Hv Hlt; [done|].
  cbn [app fen_halfmove]. destruct (digit_reads d v ds Hd Hds Hv Hlt) as [-> Hv'].
  unfold is_digit, ch_0, ch_9 in Hd.
  replace ((d =? 0) || (d =? ch_space)) with false by (unfold ch_space; lia). by apply IH.
Qed.

Lemma fullmove_digits (ds : list Z) (v : Z) :
  Forall is_digit ds -> 0 <= v -> value ds v < 2 ^ 31 -> fen_fullmove ds v = Some (value ds v).
Proof.
  intros H. revert v. induction H as [|d ds Hd Hds IH]; intros v Hv Hlt; [done|].
  cbn [fen_fullmove]. destruct (digit_reads d v ds Hd Hds Hv Hlt) as [-> Hv'].
  unfold is_digit in Hd. replace ((ch_0 <=? d) && (d <=? ch_9)) with true by lia. by apply IH.
Qed.

(** ** The round trip *)

(** What a FEN record can carry. *)
Record fen_ok (b : Board) : Prop := {
  fo_inv : board_inv b;
  fo_side : real_color (b_side b);
  fo_castling : 0 <= b_castling b < 16;
  fo_ep : b_ep_square b = SQ_NONE \/ on_board (b_ep_square b);
  fo_halfmove : 0 <= b_halfmove b < 2 ^ 31;
  fo_fullmove : 1 <= b_fullmove b < 2 ^ 31
}.

(** The same position with everything FEN does not carry at its default. *)
Definition fen_copy (b : Board) : Board :=
  board_refresh
    (mkBoard (b_pieces b) (b_occupied b) (b_all b) (b_mailbox b) (b_side b) (b_castling b)
       (b_ep_square b) (b_halfmove b) (b_fullmove b) MOD_CLASSIC [false; false] false 0 0 false 0 0
       (replicate (Z.to_nat MAX_HISTORY) undo_zero) 0).

Lemma fen_text_fields (b : Board) :
  fen_text b =
  placement b ++ ch_space :: (if b_side b == WHITE then 119 else 98) :: ch_space ::
  fen_rights (b_castling b) ++ ch_space :: fen_ep_field (b_ep_square b) ++ ch_space ::
  print_int (b_halfmove b) ++ ch_space :: print_int (b_fullmove b).
Proof. unfold fen_text. fold (placement b). by rewrite <- !app_assoc. Qed.

Lemma fen_space_cons (s : list Z) : fen_space (ch_space :: s) = s.
Proof. done. Qed.

Lemma side_skip (c : Color) (s : list Z) :
  fen_skip ((if c == WHITE then 119 else 98) :: ch_space :: s) = ch_space :: s.
Proof. by destruct (c == WHITE). Qed.

Lemma set_get_fen (b0 b : Board) :
  fen_ok b -> board_set_fen b0 (fen_text b) = Some (fen_copy b).
Proof.
  intros [Hinv Hside Hcas Hep Hhm Hfm]. rewrite fen_text_fields.
  unfold board_set_fen. rewrite clear_image, placement_parse by apply Hinv.
  destruct (print_int_value (b_halfmove b) Hhm) as (Dh & Vh & _).
  destruct (print_int_value (b_fullmove b) ltac:(lia)) as (Df & Vf & _).
  rewrite fen_space_cons, side_skip, fen_space_cons, rights_parse by done.
  rewrite fen_space_cons, ep_parse by done.
  rewrite fen_space_cons, halfmove_digits, fen_space_cons, fullmove_digits by (done || lia).
  rewrite Vh, Vf. replace (b_fullmove b <? 1) with false by lia.
  match goal with |- context [ep_key_exists ?X] => assert (ep_key_exists X = true) as -> end.
  { unfold ep_key_exists. cbn [b_ep_square set_b_ep_square set_b_halfmove set_b_fullmove].
    rewrite orb_true_iff, Z.eqb_eq, SQ_VALID_spec. done. }
  unfold fen_copy. do 2 f_equal.
  assert ((if fen_at ((if b_side b == WHITE then 119 else 98) :: _) =? 98 then BLACK else WHITE) =
          b_side b) as ->.
  { cbn [fen_at]. destruct (b_side b); real. }
  transitivity (with_mailbox (b_mailbox b)
    (mkBoard (b_pieces b) (b_occupied b) (b_all b) (b_mailbox b) (b_side b) (b_castling b)
       (b_ep_square b) (b_halfmove b) (b_fullmove b) MOD_CLASSIC [false; false] false 0 0 false 0 0
       (replicate (Z.to_nat MAX_HISTORY) undo_zero) 0)); [done|].
  pose proof (inv_image b Hinv) as E. apply (f_equal b_pieces) in E as E1.
  apply (f_equal b_occupied) in E as E2. apply (f_equal b_all) in E as E3.
  unfold with_mailbox in *. cbn in E1, E2, E3. cbn. by rewrite E1, E2, E3.
Qed.

(** ** Room for the text *)

Lemma row_chars_length (ps : list Piece) :
  forall empty, 0 <= empty ->
  (length (row_chars ps empty) <= length ps + (if (0 <? empty)%Z then 1 else 0))%nat.
Proof.
  induction ps as [|p ps IH]; intros empty He; cbn [row_chars length].
  { destruct (0 <? empty); simpl; lia. }
  destruct (p =? PIECE_EMPTY).
  - specialize (IH (empty + 1) ltac:(lia)). replace (0 <? empty + 1) with true in IH by lia. lia.
  - specialize (IH 0 ltac:(lia)). simpl in IH. rewrite length_app. cbn [length].
    destruct (0 <? empty); simpl; lia.
Qed.

Lemma placement_length (b : Board) : (length (placement b) <= 71)%nat.
Proof.
  rewrite placement_rows. cbn [flat_map]. rewrite !length_app.
  assert (forall row, (length (row_text b row) <= 8 + (if (0 <? row)%Z then 1 else 0))%nat) as H.
  { intros row. unfold row_text. rewrite length_app.
    pose proof (row_chars_length (row_pieces b row) 0 ltac:(lia)) as Hr.
    assert (length (row_pieces b row) = 8%nat) as El.
    { unfold row_pieces. by rewrite length_map, length_seqZ. }
    rewrite El in Hr. simpl in Hr. destruct (0 <? row); simpl; lia. }
  pose proof (H 7). pose proof (H 6). pose proof (H 5). pose proof (H 4). pose proof (H 3).
  pose proof (H 2). pose proof (H 1). pose proof (H 0). simpl in *. lia.
Qed.

Lemma fen_text_length (b : Board) :
  0 <= b_halfmove b < 2 ^ 31 -> 0 <= b_fullmove b < 2 ^ 31 ->
  (length (fen_text b) <= 103)%nat.
Proof.
  intros Hh Hf. rewrite fen_text_fields.
  pose proof (placement_length b).
  destruct (print_int_value (b_halfmove b) Hh) as (_ & _ & ?).
  destruct (print_int_value (b_fullmove b) Hf) as (_ & _ & ?).
  assert (length (fen_rights (b_castling b)) <= 4)%nat.
  { unfold fen_rights. repeat case_match; simpl; lia. }
  assert (length (fen_ep_field (b_ep_square b)) <= 2)%nat.
  { unfold fen_ep_field. case_match; simpl; lia. }
  repeat (rewrite length_app || cbn [length]). lia.
Qed.

(** Write and read back; 104 bytes are enough for the text and its terminator. *)
Lemma write_fen (b b1 : Board) (bufsize : Z) :
  fen_ok b -> 104 <= bufsize ->
  exists text, board_get_fen b bufsize = Some text /\ board_set_fen b1 text = Some (fen_copy b).
Proof.
  intros Hb Hs. exists (fen_text b). split; [|by apply set_get_fen].
  pose proof (fen_text_length b (fo_halfmove b Hb)) as Hl. pose proof (fo_fullmove b Hb).
  specialize (Hl ltac:(lia)). unfold board_get_fen. case_match eqn:E; [done|]. lia.
Qed.
