(* ===== verification/Decide.v ===== *)
(** * Deciding the invariants on concrete positions

    Boolean versions of the invariants, each with the lemma that it implies the
    invariant, so that a position read from a FEN record can be shown to be one
    the theorems apply to by evaluating the check. *)

From Stdlib Require Import String.
From stdpp Require Import base numbers list option relations.
From Stdlib Require Import ZArith Lia Bool List.
From S2P Require Import Prelude Types Board Zobrist Attacks Make Movegen MovegenFacts MovegenSound Game Fen.

(** ** Positions from FEN records *)

(** A position as the engine sets it up, in a variant. *)
Definition position (fen : string) (md : GameMod) : Board :=
  match board_set_fen blank (chars fen) with
  | Some b => set_b_mod md b
  | None => blank
  end.

Definition start (md : GameMod) : Board :=
  match board_init blank md with Some b => b | None => blank end.

(** ** The checks *)

Definition all_pieces : list Piece :=
  PIECE_EMPTY :: flat_map (fun c => map (PIECE_MAKE c) piece_types) colors.

Definition mailbox_check (b : Board) : bool :=
  (length (b_mailbox b) =? 64)%nat && forallb (fun p => existsb (Z.eqb p) all_pieces) (b_mailbox b).

Definition image_check (b : Board) : bool :=
  bool_decide (b_pieces b = pieces_of (b_mailbox b)) &&
  bool_decide (b_occupied b = occupied_of (b_mailbox b)) &&
  (b_all b =? all_of (b_mailbox b)).

Definition board_check (b : Board) : bool := mailbox_check b && image_check b.

Definition stands (b : Board) (sq : Square) (c : Color) (t : PieceType) : bool :=
  mb b sq =? PIECE_MAKE c t.

Definition castle_check (b : Board) : bool :=
  (negb (has_right b CASTLE_WK) || stands b (SQ 0 4) WHITE KING && stands b (SQ 0 7) WHITE ROOK) &&
  (negb (has_right b CASTLE_WQ) || stands b (SQ 0 4) WHITE KING && stands b (SQ 0 0) WHITE ROOK) &&
  (negb (has_right b CASTLE_BK) || stands b (SQ 7 4) BLACK KING && stands b (SQ 7 7) BLACK ROOK) &&
  (negb (has_right b CASTLE_BQ) || stands b (SQ 7 4) BLACK KING && stands b (SQ 7 0) BLACK ROOK).

Definition ep_check (b : Board) : bool :=
  (b_ep_square b =? SQ_NONE) ||
  (mb b (b_ep_square b) =? PIECE_EMPTY) &&
  stands b (b_ep_square b - 8 * pawn_dir (b_side b)) (color_opposite (b_side b)) PAWN.

Definition game_check (b : Board) : bool :=
  board_check b && (b_side b != COLOR_NONE) && castle_check b && ep_check b.

(** At most one king of each colour. *)
Definition kings_check (b : Board) : bool :=
  forallb (fun c => (length (List.filter (fun sq => stands b sq c KING) (seqZ 0 64)) <=? 1)%nat)
    colors.

Definition play_check (b : Board) : bool :=
  game_check b && kings_check b && (b_mod b != MOD_HEIR).

Definition history_check (b : Board) : bool :=
  (Z.of_nat (length (b_history b)) =? MAX_HISTORY) && (0 <=? b_ply b) && (b_ply b <? MAX_HISTORY).

(** Evaluates whether each move of a line is legal where it is played. *)
Fixpoint line_check (b : Board) (ms : list Move) : bool :=
  match ms with
  | [] => true
  | m :: ms => history_check b && existsb (Z.eqb m) (generate_moves b)
               && line_check (board_make_move b m) ms
  end.

(** ** What they imply *)

Lemma all_pieces_valid (p : Piece) : existsb (Z.eqb p) all_pieces = true -> valid_piece p.
Proof.
  intros H. apply existsb_exists in H as (q & Hq & ->%Z.eqb_eq).
  destruct Hq as [<-|Hq]; [by left|]. right.
  apply in_flat_map in Hq as (c & Hc & Hq). apply in_map_iff in Hq as (t & <- & Ht).
  exists c, t. split_and!; [| |done].
  - destruct Hc as [<-|[<-|[]]]; done.
  - by repeat destruct Ht as [<-|Ht].
Qed.

Lemma board_check_inv (b : Board) : board_check b = true -> board_inv b.
Proof.
  unfold board_check, mailbox_check, image_check. rewrite !andb_true_iff.
  intros [[Hl Hv] [[Hp Ho] Ha]]. apply Nat.eqb_eq in Hl. rewrite forallb_forall in Hv.
  apply bool_decide_eq_true in Hp, Ho. apply Z.eqb_eq in Ha. constructor.
  - split; [done|]. apply List.Forall_forall. auto using all_pieces_valid.
  - unfold with_mailbox. rewrite <- Hp, <- Ho, <- Ha. by destruct b.
Qed.

Lemma right_check (r p q : bool) : negb r || p && q = true -> r = true -> p = true /\ q = true.
Proof. by destruct r, p, q. Qed.

Lemma castle_check_ok (b : Board) : castle_check b = true -> castle_ok b.
Proof.
  unfold castle_check, castle_ok, stands. rewrite !andb_true_iff.
  intros [[[H1 H2] H3] H4]. split_and!; intros Hr; rewrite <- !Z.eqb_eq; eauto using right_check.
Qed.

Lemma ep_check_ok (b : Board) : ep_check b = true -> ep_ok b.
Proof.
  unfold ep_check, ep_ok, stands. rewrite orb_true_iff, andb_true_iff, !Z.eqb_eq. tauto.
Qed.

Lemma game_check_inv (b : Board) : game_check b = true -> game_inv b.
Proof.
  unfold game_check. rewrite !andb_true_iff. intros [[[H1 H2] H3] H4].
  constructor; auto using board_check_inv, castle_check_ok, ep_check_ok.
  apply negb_true_iff, bool_decide_eq_false in H2. done.
Qed.

Lemma kings_check_ok (b : Board) : kings_check b = true -> kings_ok b.
Proof.
  unfold kings_check. rewrite forallb_forall. intros H c s1 s2 Hc H1 H2 E1 E2.
  assert (In c colors) as Hin by (destruct c; real || simpl; auto).
  specialize (H c Hin). apply Nat.leb_le in H.
  assert (forall s, on_board s -> mb b s = PIECE_MAKE c KING ->
            In s (List.filter (fun sq => stands b sq c KING) (seqZ 0 64))) as Hf.
  { intros s Hs E. apply filter_In. split; [|by apply Z.eqb_eq].
    apply list_elem_of_In, elem_of_seqZ. unfold on_board in Hs. lia. }
  pose proof (Hf s1 H1 E1) as I1. pose proof (Hf s2 H2 E2) as I2.
  destruct (List.filter _ _) as [|x [|y l]]; simpl in *; try lia; naive_solver.
Qed.

Lemma play_check_inv (b : Board) : play_check b = true -> play_inv b.
Proof.
  unfold play_check. rewrite !andb_true_iff. intros [[H1 H2] H3].
  constructor; auto using game_check_inv, kings_check_ok.
  by apply negb_true_iff, bool_decide_eq_false in H3.
Qed.

Lemma history_check_ok (b : Board) : history_check b = true -> history_ok b.
Proof. unfold history_check, history_ok. rewrite !andb_true_iff. lia. Qed.

Lemma In_check (m : Move) (l : list Move) : existsb (Z.eqb m) l = true -> In m l.
Proof. intros H. by apply existsb_exists in H as (q & Hq & ->%Z.eqb_eq). Qed.

Lemma line_check_ok (ms : list Move) : forall b, line_check b ms = true -> legal_line b ms.
Proof.
  induction ms as [|m ms IH]; intros b H; [done|]. cbn [line_check legal_line] in *.
  rewrite !andb_true_iff in H. destruct H as [[H1 H2] H3].
  auto using history_check_ok, In_check.
Qed.

Ltac check :=
  lazymatch goal with
  | |- play_inv _ => apply play_check_inv
  | |- game_inv _ => apply game_check_inv
  | |- board_inv _ => apply board_check_inv
  | |- history_ok _ => apply history_check_ok
  | |- legal_line _ _ => apply line_check_ok
  | |- In _ _ => apply In_check
  end; vm_compute; reflexivity.

(** ** The initial position *)

(** [board_set_fen] forgets the board it is given. *)
Lemma board_set_fen_any (b0 b1 : Board) (fen : list Z) :
  board_set_fen b0 fen = board_set_fen b1 fen.
Proof. unfold board_set_fen. by change (board_clear b0) with (board_clear b1). Qed.

Lemma startpos_reads : board_set_fen blank startpos <> None.
Proof. vm_compute. discriminate. Qed.

Lemma board_init_start (b0 b : Board) (md : GameMod) : board_init b0 md = Some b -> b = start md.
Proof.
  unfold start, board_init. rewrite (board_set_fen_any b0 blank).
  pose proof startpos_reads as H. destruct (board_set_fen blank startpos); [|done].
  by intros [= <-].
Qed.

Lemma start_play (md : GameMod) : md <> MOD_HEIR -> play_inv (start md).
Proof. intros Hm. destruct md; try (destruct Hm; reflexivity); check. Qed.

Lemma start_history (md : GameMod) : history_ok (start md).
Proof. destruct md; check. Qed.
