(* ===== verification/ClassicRules.v ===== *)
(** * The rules of chess, and that move generation implements them

    [classic_move] states the moves of the standard game on the mailbox, with
    no bitboards: how each piece travels, what it may take, the pawn's steps,
    promotions, en passant and castling.  In the classic variant the
    pseudo-legal generators emit these moves and no others, and
    [generate_moves] those that leave the mover's king unattacked. *)

From stdpp Require Import base numbers list option relations.
From Stdlib Require Import ZArith Lia Bool.
From S2P Require Import Prelude Types Board Zobrist Attacks Make Movegen MovegenFacts MovegenSound Game.

(** ** The rules *)

(** [to] lies on a ray of [dirs] from [from], with free squares in between. *)
Definition line_free (b : Board) (dirs : list (Z * Z)) (from to : Square) : Prop :=
  exists dr dc k, In (dr, dc) dirs /\ 1 <= k /\
    in_grid (SQ_ROW from + k * dr) (SQ_COL from + k * dc) = true /\
    to = SQ (SQ_ROW from + k * dr) (SQ_COL from + k * dc) /\
    (forall j, 1 <= j < k -> mb b (SQ (SQ_ROW from + j * dr) (SQ_COL from + j * dc)) = PIECE_EMPTY).

Definition reaches (b : Board) (t : PieceType) (from to : Square) : Prop :=
  match t with
  | KNIGHT => step_away kn from to = true
  | BISHOP => line_free b bishop_dirs from to
  | ROOK => line_free b rook_dirs from to
  | QUEEN => line_free b bishop_dirs from to \/ line_free b rook_dirs from to
  | KING => step_away king_steps from to = true
  | _ => False
  end.

Definition home_row (c : Color) : Z := if c == WHITE then 1 else 6.
Definition last_row (c : Color) : Z := if c == WHITE then 6 else 1.

Definition attacked (b : Board) (c : Color) (sq : Square) : Prop :=
  exists from, on_board from /\ attacks_from b c from sq.

(** Colour, right, squares that must be free, squares the king may not pass
    under attack, and the king's move. *)
Definition castlings : list (Color * Z * list Square * list Square * Square * Square) :=
  [ (WHITE, CASTLE_WK, [SQ 0 5; SQ 0 6], [SQ 0 5; SQ 0 6], SQ 0 4, SQ 0 6);
    (WHITE, CASTLE_WQ, [SQ 0 1; SQ 0 2; SQ 0 3], [SQ 0 2; SQ 0 3], SQ 0 4, SQ 0 2);
    (BLACK, CASTLE_BK, [SQ 7 5; SQ 7 6], [SQ 7 5; SQ 7 6], SQ 7 4, SQ 7 6);
    (BLACK, CASTLE_BQ, [SQ 7 1; SQ 7 2; SQ 7 3], [SQ 7 2; SQ 7 3], SQ 7 4, SQ 7 2) ].

(** An officer's or king's move. *)
Inductive officer_move (b : Board) (t : PieceType) : Move -> Prop :=
| om_quiet (from to : Square) :
    on_board from -> on_board to -> mb b from = PIECE_MAKE (b_side b) t -> reaches b t from to ->
    mb b to = PIECE_EMPTY -> officer_move b t (move_simple from to t)
| om_take (from to : Square) (v : PieceType) :
    on_board from -> on_board to -> mb b from = PIECE_MAKE (b_side b) t -> reaches b t from to ->
    real_type v -> v <> KING -> mb b to = PIECE_MAKE (color_opposite (b_side b)) v ->
    officer_move b t (move_capture from to t v).

(** The move of the pawn on [from]. *)
Inductive pawn_move (b : Board) (from : Square) : Move -> Prop :=
| pm_push (to : Square) :
    on_board to -> to = from + 8 * pawn_dir (b_side b) -> mb b to = PIECE_EMPTY ->
    SQ_ROW from <> last_row (b_side b) -> pawn_move b from (move_simple from to PAWN)
| pm_double (mid to : Square) :
    mid = from + 8 * pawn_dir (b_side b) -> to = from + 16 * pawn_dir (b_side b) ->
    mb b mid = PIECE_EMPTY -> mb b to = PIECE_EMPTY -> SQ_ROW from = home_row (b_side b) ->
    pawn_move b from (move_simple from to PAWN)
| pm_promote (to : Square) (p : PieceType) :
    to = from + 8 * pawn_dir (b_side b) -> mb b to = PIECE_EMPTY ->
    SQ_ROW from = last_row (b_side b) -> In p [QUEEN; ROOK; BISHOP; KNIGHT] ->
    pawn_move b from (move_encode from to PAWN PIECE_NONE false false true p)
| pm_take (to : Square) (v : PieceType) :
    on_board to -> pawn_step (b_side b) from to = true -> real_type v -> v <> KING ->
    mb b to = PIECE_MAKE (color_opposite (b_side b)) v -> SQ_ROW from <> last_row (b_side b) ->
    pawn_move b from (move_capture from to PAWN v)
| pm_take_promote (to : Square) (v p : PieceType) :
    on_board to -> pawn_step (b_side b) from to = true -> real_type v -> v <> KING ->
    mb b to = PIECE_MAKE (color_opposite (b_side b)) v -> SQ_ROW from = last_row (b_side b) ->
    In p [QUEEN; ROOK; BISHOP; KNIGHT] ->
    pawn_move b from (move_encode from to PAWN v false false true p)
| pm_en_passant (to : Square) :
    on_board to -> pawn_step (b_side b) from to = true -> to = b_ep_square b ->
    pawn_move b from (move_encode from to PAWN PAWN false true false PIECE_NONE).

Inductive classic_move (b : Board) : Move -> Prop :=
| cm_officer (t : PieceType) (m : Move) : officer_move b t m -> classic_move b m
| cm_pawn (from : Square) (m : Move) :
    on_board from -> mb b from = PIECE_MAKE (b_side b) PAWN -> pawn_move b from m ->
    classic_move b m
| cm_castle (right : Z) (free safe : list Square) (from to : Square) :
    In (b_side b, right, free, safe, from, to) castlings -> has_right b right = true ->
    (forall s, In s free -> mb b s = PIECE_EMPTY) ->
    (forall s, In s (from :: safe) -> ~ attacked b (color_opposite (b_side b)) s) ->
    classic_move b (move_encode from to KING PIECE_NONE true false false PIECE_NONE).

(** ** Officers and the king *)

Lemma line_free_slides (b : Board) (dirs : list (Z * Z)) (from to : Square) :
  board_inv b -> good_dirs dirs -> on_board from ->
  slides dirs (b_all b) from to <-> line_free b dirs from to.
Proof.
  intros Hinv Hd Hf. unfold slides, line_free.
  apply exist_proper; intros dr. apply exist_proper; intros dc. apply exist_proper; intros k.
  split; intros (Hin & Hk & Hg & E & Hfree); split_and!; try done; intros j Hj;
    destruct (Hd dr dc Hin) as (_ & Hdr & Hdc & _);
    pose proof (SQ_ROW_bound from Hf) as Hr; pose proof (SQ_COL_bound from) as Hc;
    assert (on_board (SQ (SQ_ROW from + j * dr) (SQ_COL from + j * dc))) as Hs
      by (pose proof (ray_convex (SQ_ROW from) (SQ_COL from) dr dc j k ltac:(lia) ltac:(lia)
            ltac:(lia) Hr Hc Hg) as [? ?]%in_grid_spec; by apply SQ_on_board);
    specialize (Hfree j Hj).
  - rewrite all_testbit in Hfree by done. by apply negb_false_iff, Z.eqb_eq in Hfree.
  - rewrite all_testbit by done. by rewrite Hfree.
Qed.

Lemma reaches_targets (b : Board) (t : PieceType) (from to : Square) :
  board_inv b -> on_board from -> on_board to ->
  Z.testbit (piece_targets b t from) to = true <-> reaches b t from to.
Proof.
  intros Hinv Hf Ht. pose proof bishop_dirs_good as Hbd. pose proof rook_dirs_good as Hrd.
  assert (0 <= to) by (unfold on_board in Ht; lia).
  unfold piece_targets, reaches, bishop_attacks_calc, rook_attacks_calc. destruct t.
  - by rewrite Z.testbit_0_l.
  - by rewrite knight_attacks_spec.
  - by rewrite slide_dirs_spec, line_free_slides.
  - by rewrite slide_dirs_spec, line_free_slides.
  - by rewrite Z.lor_spec, orb_true_iff, !slide_dirs_spec, !line_free_slides.
  - by rewrite king_attacks_spec.
  - by rewrite Z.testbit_0_l.
Qed.

Section Classic.
Context (b : Board) (Hg : game_inv b) (Hmod : b_mod b = MOD_CLASSIC).
Local Abbreviation us := (b_side b).
Local Abbreviation them := (color_opposite (b_side b)).

Local Definition Hi : board_inv b := gi_board b Hg.
Local Definition Hu : real_color us := gi_side b Hg.
Local Definition Ht : real_color them := Hthem b Hg.
Local Hint Resolve Hi Hu Ht : board.

Lemma classic_mod (md : GameMod) : md <> MOD_CLASSIC -> (b_mod b == md) = false.
Proof. intros H. apply bool_decide_eq_false. by rewrite Hmod. Qed.

Lemma no_truce : truce_now b = false.
Proof. unfold truce_now. by rewrite classic_mod. Qed.

Lemma own_squares_iff (t : PieceType) (sq : Square) :
  real_type t -> In sq (own_squares b t) <-> on_board sq /\ mb b sq = PIECE_MAKE us t.
Proof.
  intros Htype. unfold own_squares. rewrite no_truce, elem_of_bb_squares by auto with board.
  split; intros [Hs H]; (split; [done|]);
    [rewrite pcs_testbit in H by auto with board|rewrite pcs_testbit by auto with board];
    by apply Z.eqb_eq.
Qed.

(** A square is free, ours or theirs. *)
Lemma square_cases (sq : Square) :
  on_board sq ->
  mb b sq = PIECE_EMPTY \/
  exists c t, real_type t /\ (c = us \/ c = them) /\ mb b sq = PIECE_MAKE c t.
Proof.
  intros Hs. destruct (mb_valid b Hi sq Hs) as [E|(c & t & Hc & Htype & E)]; [by left|].
  right. exists c, t. split_and!; try done. pose proof Hu. destruct c, (b_side b); auto; done.
Qed.

Lemma us_not_them : us <> them.
Proof. pose proof Hu. destruct (b_side b); done. Qed.

Lemma classic_targets (t : PieceType) (from : Square) :
  filtered_targets b t false us them from = Z.land (piece_targets b t from) (bb_not (occ b us)).
Proof. unfold filtered_targets. by rewrite !classic_mod, !andb_false_r, no_truce by done. Qed.

Lemma target_iff (t : PieceType) (from to : Square) :
  on_board from ->
  In to (bb_squares (filtered_targets b t false us them from)) <->
  on_board to /\ reaches b t from to /\ PIECE_COLOR (mb b to) <> us.
Proof.
  intros Hf. rewrite classic_targets, elem_of_bb_squares by auto with board.
  split.
  - intros [Hs H]. rewrite Z.land_spec, andb_true_iff, reaches_targets in H by auto with board.
    rewrite bb_not_testbit, occ_testbit, negb_true_iff, bool_decide_eq_false in H
      by auto with board. naive_solver.
  - intros (Hs & Hr & Hc). split; [done|].
    rewrite Z.land_spec, andb_true_iff, reaches_targets by auto with board. split; [done|].
    by rewrite bb_not_testbit, occ_testbit, negb_true_iff, bool_decide_eq_false by auto with board.
Qed.

Lemma emit_iff (t : PieceType) (from to : Square) (m : Move) :
  on_board to -> PIECE_COLOR (mb b to) <> us ->
  In m (raw_emit b t them from to) <->
  mb b to = PIECE_EMPTY /\ m = move_simple from to t \/
  exists v, real_type v /\ v <> KING /\ mb b to = PIECE_MAKE them v /\ m = move_capture from to t v.
Proof.
  intros Hto Hc. unfold raw_emit, stq_protected. rewrite !classic_mod by done. cbn [andb negb orb].
  rewrite andb_true_r. destruct (square_cases to Hto) as [E|(c & v & Hv & [->| ->] & E)]; rewrite E.
  - split; [intros [<-|[]]; auto|]. intros [[_ ->]|(v & Hv & _ & E' & _)]; [by left|].
    exfalso. symmetry in E'. by apply (PIECE_MAKE_not_empty them v Ht).
  - rewrite E, PIECE_COLOR_MAKE in Hc. done.
  - rewrite PIECE_TYPE_MAKE.
    assert ((PIECE_MAKE them v =? PIECE_EMPTY) = false) as ->
      by (apply Z.eqb_neq, PIECE_MAKE_not_empty, Ht).
    cbn [negb]. destruct (bool_decide_reflect (v = KING)) as [->|Hk].
    + split; [intros []|]. intros [[E' _]|(v & _ & Hv' & E' & _)].
      * by apply (PIECE_MAKE_not_empty them KING Ht) in E'.
      * apply PIECE_MAKE_inj in E' as [_ E']. congruence.
    + split; [intros [<-|[]]; eauto 10|]. intros [[E' _]|(v' & _ & _ & E' & ->)].
      * by apply (PIECE_MAKE_not_empty them v Ht) in E'.
      * apply PIECE_MAKE_inj in E' as [_ ->]. by left.
Qed.

Lemma officer_rules (t : PieceType) (m : Move) :
  real_type t -> In m (raw_piece_moves b t false) <-> officer_move b t m.
Proof.
  intros Htype. unfold raw_piece_moves, kb_locked, raw_piece. rewrite !classic_mod by done.
  cbn [andb]. rewrite in_flat_map. split.
  - intros (from & Hin & Hm). apply own_squares_iff in Hin as [Hf Hp]; [|done].
    apply in_flat_map in Hm as (to & Hto & Hm). apply target_iff in Hto as (Hto & Hr & Hc); [|done].
    apply emit_iff in Hm as [[He ->]|(v & ? & ? & ? & ->)]; [| |done|done]; by constructor.
  - intros [from to Hf Hto Hp Hr He|from to v Hf Hto Hp Hr Hv Hk He]; exists from;
      (split; [by apply own_squares_iff|]); apply in_flat_map; exists to;
      (split; [apply target_iff; [done|split_and!; try done]|apply emit_iff; try done]).
    all: try (rewrite He, ?PIECE_COLOR_MAKE; pose proof us_not_them; pose proof Hu; try done; congruence).
    + by left.
    + right. eauto 10.
Qed.

(** ** Pawns *)

Lemma promo_rule (to : Square) (c : Color) : promo_types b to c = [QUEEN; ROOK; BISHOP; KNIGHT].
Proof. unfold promo_types. by rewrite !classic_mod. Qed.

Lemma promos_iff (from to : Square) (capt : PieceType) (c : Color) (m : Move) :
  In m (raw_promos from to capt (promo_types b to c)) <->
  exists p, In p [QUEEN; ROOK; BISHOP; KNIGHT] /\ m = move_encode from to PAWN capt false false true p.
Proof.
  unfold raw_promos. rewrite promo_rule, in_map_iff.
  split; intros (p & H1 & H2); exists p; auto.
Qed.

Lemma dir_unit : pawn_dir us = 1 \/ pawn_dir us = -1.
Proof. unfold pawn_dir. destruct (us == WHITE); auto. Qed.

(** The square [k] rows ahead. *)
Lemma ahead (from k : Z) :
  on_board from -> -2 <= k <= 2 -> SQ (SQ_ROW from + k) (SQ_COL from) = from + 8 * k.
Proof.
  intros Hf Hk. pose proof (SQ_ROW_bound from Hf). pose proof (SQ_COL_bound from).
  rewrite SQ_small by lia. pose proof (SQ_ROW_COL from). lia.
Qed.

Lemma rows_apart : home_row us <> last_row us.
Proof. unfold home_row, last_row. by destruct (us == WHITE). Qed.

Lemma home_rows (from : Square) :
  on_board from -> SQ_ROW from = home_row us ->
  on_board (from + 8 * pawn_dir us) /\ on_board (from + 16 * pawn_dir us).
Proof.
  intros Hf. unfold home_row, pawn_dir, on_board in *. rewrite SQ_ROW_div.
  destruct (us == WHITE); intros; Z.to_euclidean_division_equations; lia.
Qed.

Lemma last_rows (from : Square) :
  on_board from -> SQ_ROW from = last_row us -> on_board (from + 8 * pawn_dir us).
Proof.
  intros Hf. unfold last_row, pawn_dir, on_board in *. rewrite SQ_ROW_div.
  destruct (us == WHITE); intros; Z.to_euclidean_division_equations; lia.
Qed.

Lemma In_cons (x m : Move) (l : list Move) : In m (x :: l) <-> m = x \/ In m l.
Proof. cbn [In]. split; intros [H|H]; auto. Qed.

Lemma push_rules (from : Square) (m : Move) :
  on_board from ->
  In m (raw_pushes b false us (pawn_dir us) (home_row us) (last_row us) from) <->
  let one := from + 8 * pawn_dir us in
  let two := from + 16 * pawn_dir us in
  on_board one /\ mb b one = PIECE_EMPTY /\
  (SQ_ROW from = last_row us /\
     (exists p, In p [QUEEN; ROOK; BISHOP; KNIGHT] /\
                m = move_encode from one PAWN PIECE_NONE false false true p) \/
   SQ_ROW from <> last_row us /\
     (m = move_simple from one PAWN \/
      SQ_ROW from = home_row us /\ mb b two = PIECE_EMPTY /\ m = move_simple from two PAWN)).
Proof.
  intros Hf. pose proof dir_unit as Hd. unfold raw_pushes. cbv zeta.
  rewrite (ahead from (pawn_dir us)), (ahead from (2 * pawn_dir us)) by (done || lia).
  replace (8 * (2 * pawn_dir us)) with (16 * pawn_dir us) by lia. cbn [negb andb].
  set (one := from + 8 * pawn_dir us). set (two := from + 16 * pawn_dir us).
  destruct (SQ_VALID one) eqn:Ev; cbn [andb].
  2:{ apply not_true_iff_false in Ev. rewrite SQ_VALID_spec in Ev. split; [intros []|naive_solver]. }
  apply SQ_VALID_spec in Ev. destruct (Z.eqb_spec (mb b one) PIECE_EMPTY) as [He|He].
  2:{ split; [intros []|naive_solver]. }
  destruct (Z.eqb_spec (SQ_ROW from) (last_row us)) as [Hl|Hl].
  { rewrite promos_iff. tauto. }
  destruct (Z.eqb_spec (SQ_ROW from) (home_row us)) as [Hh|Hh]; cbn [andb].
  - destruct (Z.eqb_spec (mb b two) PIECE_EMPTY) as [He2|He2]; rewrite !In_cons; cbn [In]; tauto.
  - rewrite In_cons. cbn [In]. tauto.
Qed.

Lemma pawn_step_iff (from to : Square) :
  on_board from -> on_board to ->
  pawn_step us from to = true <->
  exists dc, (dc = -1 \/ dc = 1) /\ 0 <= SQ_COL from + dc <= 7 /\
    to = SQ (SQ_ROW from + pawn_dir us) (SQ_COL from + dc).
Proof.
  intros Hf Hto. pose proof dir_unit as Hd.
  pose proof (SQ_ROW_bound from Hf). pose proof (SQ_COL_bound from).
  pose proof (SQ_ROW_bound to Hto). pose proof (SQ_COL_bound to).
  unfold pawn_step. fold (pawn_dir us). rewrite andb_true_iff, !Z.eqb_eq. split.
  - intros [Hr Hc]. exists (SQ_COL to - SQ_COL from). split_and!; [lia|lia|lia|].
    rewrite SQ_small by lia. rewrite (SQ_ROW_COL to) at 1. lia.
  - intros (dc & Hdc & Hc & ->). rewrite SQ_ROW_SQ, SQ_COL_SQ by lia. lia.
Qed.

(** The pawn taken en passant stands beside the capturing one. *)
Lemma ep_victim (from dc : Z) :
  on_board from -> 0 <= SQ_COL from + dc <= 7 ->
  SQ (SQ_ROW from + pawn_dir us) (SQ_COL from + dc) = b_ep_square b ->
  on_board (b_ep_square b) ->
  mb b (b_ep_square b) = PIECE_EMPTY /\
  mb b (SQ (SQ_ROW from) (SQ_COL from + dc)) = PIECE_MAKE them PAWN.
Proof.
  intros Hf Hc E Hon. pose proof dir_unit as Hd. pose proof (SQ_ROW_bound from Hf) as Hr.
  destruct (gi_ep b Hg) as [He Hv]; [unfold SQ_NONE, on_board in *; lia|].
  split; [done|]. rewrite <- Hv, <- E. f_equal. rewrite !SQ_small by lia. lia.
Qed.

Definition take_rule (from to : Square) (m : Move) : Prop :=
  (exists v, real_type v /\ v <> KING /\ mb b to = PIECE_MAKE them v /\
     (SQ_ROW from = last_row us /\
        (exists p, In p [QUEEN; ROOK; BISHOP; KNIGHT] /\
                   m = move_encode from to PAWN v false false true p) \/
      SQ_ROW from <> last_row us /\ m = move_capture from to PAWN v)) \/
  to = b_ep_square b /\ m = move_encode from to PAWN PAWN false true false PIECE_NONE.

Lemma enemy_take (from to : Square) (v : PieceType) (m : Move) :
  real_type v -> v <> KING -> mb b to = PIECE_MAKE them v -> to <> b_ep_square b ->
  In m (if SQ_ROW from =? last_row us then raw_promos from to v (promo_types b to us)
        else [move_capture from to PAWN v]) <-> take_rule from to m.
Proof.
  intros Hv Hk E Hep. unfold take_rule. split.
  - intros H. left. exists v. split_and!; try done.
    destruct (Z.eqb_spec (SQ_ROW from) (last_row us)); [left; by rewrite <- promos_iff|].
    right. destruct H as [<-|[]]. done.
  - intros [(v' & _ & _ & E' & H)|[? _]]; [|done]. rewrite E in E'.
    apply PIECE_MAKE_inj in E' as [_ <-].
    destruct (Z.eqb_spec (SQ_ROW from) (last_row us)).
    + destruct H as [[_ H]|[? _]]; [|done]. by apply promos_iff.
    + destruct H as [[? _]|[_ ->]]; [done|]. by left.
Qed.

Lemma no_take (from to : Square) (m : Move) :
  (forall v, real_type v -> v <> KING -> mb b to <> PIECE_MAKE them v) -> to <> b_ep_square b ->
  ~ take_rule from to m.
Proof. intros Hv Hep [(v & ? & ? & E & _)|[? _]]; [by apply (Hv v)|done]. Qed.

(** A diagonal target that is not the en-passant square. *)
Lemma diagonal_rule (from to : Square) (m : Move) :
  on_board to -> to <> b_ep_square b ->
  In m (if negb (mb b to =? PIECE_EMPTY) && (PIECE_COLOR (mb b to) == them)
           && (PIECE_TYPE (mb b to) == KING) then []
        else if negb (mb b to =? PIECE_EMPTY) && (PIECE_COLOR (mb b to) == them) then
          if SQ_ROW from =? last_row us
          then raw_promos from to (PIECE_TYPE (mb b to)) (promo_types b to us)
          else [move_capture from to PAWN (PIECE_TYPE (mb b to))]
        else []) <-> take_rule from to m.
Proof.
  intros Hto Eep. destruct (square_cases to Hto) as [E|(c & v & Hv & [->| ->] & E)]; rewrite E.
  - split; [intros []|]. intros H. exfalso. revert H. apply no_take; [|done].
    intros v _ _ E'. rewrite E in E'. symmetry in E'.
    by apply PIECE_MAKE_not_empty in E'; [|apply Ht].
  - rewrite PIECE_COLOR_MAKE, (bool_decide_eq_false_2 (us = them)) by apply us_not_them.
    rewrite andb_false_r. split; [intros []|]. intros H. exfalso. revert H.
    apply no_take; [|done]. intros w _ _ E'. rewrite E in E'.
    apply PIECE_MAKE_inj in E' as [E' _]. by apply us_not_them.
  - rewrite PIECE_COLOR_MAKE, PIECE_TYPE_MAKE, (bool_decide_eq_true_2 (them = them)) by done.
    replace (PIECE_MAKE them v =? PIECE_EMPTY) with false
      by (symmetry; apply Z.eqb_neq, PIECE_MAKE_not_empty, Ht).
    cbn [negb andb]. destruct (bool_decide_reflect (v = KING)) as [->|Hk]; cbn [andb].
    + split; [intros []|]. intros H. exfalso. revert H. apply no_take; [|done].
      intros w _ Hw E'. rewrite E in E'. apply PIECE_MAKE_inj in E' as [_ E']. congruence.
    + by apply enemy_take.
Qed.

Lemma take_rules (from dc : Z) (m : Move) :
  on_board from ->
  In m (raw_capture b us them (pawn_dir us) (last_row us) from dc) <->
  0 <= SQ_COL from + dc <= 7 /\
  on_board (SQ (SQ_ROW from + pawn_dir us) (SQ_COL from + dc)) /\
  take_rule from (SQ (SQ_ROW from + pawn_dir us) (SQ_COL from + dc)) m.
Proof.
  intros Hf. unfold raw_capture, stq_protected, ff_target. cbv zeta.
  rewrite !classic_mod by done. cbn [andb orb negb]. rewrite andb_true_r, orb_false_r.
  set (nc := SQ_COL from + dc). set (to := SQ (SQ_ROW from + pawn_dir us) nc).
  destruct ((nc <? 0) || (7 <? nc)) eqn:En.
  { split; [intros []|]. intros [H _]. lia. }
  destruct (SQ_VALID to) eqn:Ev; cbn [negb].
  2:{ apply not_true_iff_false in Ev. rewrite SQ_VALID_spec in Ev. split; [intros []|tauto]. }
  apply SQ_VALID_spec in Ev. assert (0 <= nc <= 7) as Hnc by lia.
  transitivity (take_rule from to m); [|tauto].
  destruct (Z.eqb_spec to (b_ep_square b)) as [Eep|Eep].
  - destruct (ep_victim from dc) as [He Hv]; [done|done|done|by rewrite <- Eep|]. fold nc in Hv.
    rewrite Eep, He, Hv, PIECE_COLOR_MAKE, PIECE_TYPE_MAKE.
    rewrite (bool_decide_eq_true_2 (them = them)) by done.
    replace (PIECE_MAKE them PAWN =? PIECE_EMPTY) with false
      by (symmetry; apply Z.eqb_neq, PIECE_MAKE_not_empty, Ht).
    replace (b_ep_square b =? SQ_NONE) with false
      by (rewrite <- Eep; unfold on_board, SQ_NONE in *; lia).
    change (PIECE_EMPTY =? PIECE_EMPTY) with true. cbn [negb andb app].
    rewrite In_cons. unfold take_rule. split; [intros [->|[]]; by right|].
    intros [(v & _ & _ & E & _)|[_ ->]]; [|by left]. rewrite He in E.
    symmetry in E. by apply PIECE_MAKE_not_empty in E; [|apply Ht].
  - cbn [andb]. rewrite app_nil_r. by apply diagonal_rule.
Qed.

Lemma take_move (from to : Square) (m : Move) :
  on_board to -> pawn_step us from to = true -> take_rule from to m -> pawn_move b from m.
Proof.
  intros Hto Hs [(v & Hv & Hk & E & [[Hl (p & Hp & ->)]|[Hl ->]])|[E ->]];
    by econstructor.
Qed.

(** The two diagonals of the capture loop are the squares a step away. *)
Lemma diagonals (from : Square) (m : Move) :
  on_board from ->
  In m (flat_map (raw_capture b us them (pawn_dir us) (last_row us) from) [-1; 1]) <->
  exists to, on_board to /\ pawn_step us from to = true /\ take_rule from to m.
Proof.
  intros Hf. rewrite in_flat_map. split.
  - intros (dc & Hdc & Hm). apply take_rules in Hm as (Hc & Hon & Hr); [|done].
    eexists. split_and!; [exact Hon| |exact Hr]. apply pawn_step_iff; [done|done|].
    exists dc. split_and!; try lia. destruct Hdc as [<-|[<-|[]]]; auto.
  - intros (to & Hto & Hs & Hr). apply pawn_step_iff in Hs as (dc & Hdc & Hc & ->); [|done..].
    exists dc. split; [destruct Hdc as [->| ->]; simpl; auto|]. by apply take_rules.
Qed.

Lemma one_pawn (from : Square) (m : Move) :
  on_board from -> In m (raw_pawn b false from) <-> pawn_move b from m.
Proof.
  intros Hf. unfold raw_pawn. rewrite classic_mod, no_truce by done. cbn [negb].
  rewrite in_app_iff. fold (pawn_dir us) (home_row us) (last_row us).
  rewrite push_rules, diagonals by done. cbv zeta. split.
  - intros [(Hon & He & [[Hl (p & Hp & ->)]|[Hl [->|(Hh & He2 & ->)]]])|(to & Hto & Hs & Hr)].
    + by eapply pm_promote.
    + by eapply pm_push.
    + by eapply pm_double.
    + by eapply take_move.
  - pose proof rows_apart as Hapart. intros Hm.
    destruct Hm as [to Hto -> He Hl|mid to -> -> He He2 Hh|to p -> He Hl Hp
                   |to v Hto Hs Hv Hk E Hl|to v p Hto Hs Hv Hk E Hl Hp|to Hto Hs E].
    + left. split_and!; [done|done|]. right. split; [done|]. by left.
    + left. destruct (home_rows from Hf Hh) as [H1 H2]. split_and!; [done|done|].
      right. split; [congruence|]. by right.
    + left. split_and!; [by apply last_rows|done|]. left. split; [done|]. by exists p.
    + right. exists to. split_and!; [done|done|]. left. exists v. split_and!; auto.
    + right. exists to. split_and!; [done|done|]. left. exists v. split_and!; auto.
      left. split; [done|]. by exists p.
    + right. exists to. split_and!; [done|done|]. by right.
Qed.

Lemma pawn_rules (m : Move) :
  In m (raw_pawn_moves b false) <->
  exists from, on_board from /\ mb b from = PIECE_MAKE us PAWN /\ pawn_move b from m.
Proof.
  unfold raw_pawn_moves. rewrite in_flat_map. split.
  - intros (from & Hin & Hm). apply own_squares_iff in Hin as [Hf Hp]; [|done].
    exists from. split_and!; try done. by apply one_pawn.
  - intros (from & Hf & Hp & Hm). exists from.
    split; [by apply own_squares_iff|by apply one_pawn].
Qed.

(** ** Castling *)

Lemma not_attacked (c : Color) (sq : Square) :
  real_color c -> on_board sq ->
  negb (board_square_attacked b sq c) = true <-> ~ attacked b c sq.
Proof.
  intros Hc Hs. unfold attacked. rewrite <- square_attacked_spec by auto with board.
  by rewrite negb_true_iff, not_true_iff_false.
Qed.

Lemma castle_rule (right : Z) (free safe : list Square) (from to : Square) (m : Move) :
  Forall on_board safe ->
  In m (raw_castle b true them right free safe from to) <->
  has_right b right = true /\ (forall s, In s free -> mb b s = PIECE_EMPTY) /\
  (forall s, In s safe -> ~ attacked b them s) /\
  m = move_encode from to KING PIECE_NONE true false false PIECE_NONE.
Proof.
  intros Hon. rewrite List.Forall_forall in Hon. unfold raw_castle.
  assert (forallb (empty_at b) free = true <-> forall s, In s free -> mb b s = PIECE_EMPTY) as Hfree.
  { rewrite forallb_forall. unfold empty_at. by setoid_rewrite Z.eqb_eq. }
  assert (forallb (fun s => negb (board_square_attacked b s them)) safe = true <->
          forall s, In s safe -> ~ attacked b them s) as Hsafe.
  { rewrite forallb_forall. split; intros H s Hs; apply not_attacked; auto with board. }
  cbn [negb orb]. destruct (has_right b right); cbn [andb].
  2:{ split; [intros []|]. by intros [? _]. }
  rewrite <- Hfree, <- Hsafe. destruct (forallb (empty_at b) free); cbn [andb].
  2:{ split; [intros []|]. by intros (_ & ? & _). }
  destruct (forallb _ safe).
  - rewrite In_cons. cbn [In]. tauto.
  - split; [intros []|]. by intros (_ & _ & ? & _).
Qed.

(** With a castling right the king stands on its home square, and there only. *)
Lemma castle_check_square (right : Z) (free safe : list Square) (from to : Square) :
  kings_ok b -> In (us, right, free, safe, from, to) castlings -> has_right b right = true ->
  board_in_check b us = true <-> attacked b them from.
Proof.
  intros Hk Hin Hr. rewrite in_check_spec by (auto with board || by rewrite Hmod || apply no_truce).
  assert (on_board from /\ mb b from = PIECE_MAKE us KING) as [Hon E].
  { destruct (gi_castle b Hg) as (H1 & H2 & H3 & H4). unfold castlings in Hin. cbn [In] in Hin.
    destruct Hin as [E|[E|[E|[E|[]]]]]; injection E as Eu <- <- <- <- <-;
      rewrite <- Eu; (split; [unfold on_board; vm_compute; split; congruence|]).
    - apply (H1 Hr).
    - apply (H2 Hr).
    - apply (H3 Hr).
    - apply (H4 Hr). }
  unfold attacked. split.
  - intros (ksq & s & Hks & Hs & Ek & Ha). exists s. split; [done|].
    by rewrite (Hk us from ksq) by auto with board.
  - intros (s & Hs & Ha). exists from, s. done.
Qed.

Lemma castlings_safe (c : Color) (right : Z) (free safe : list Square) (from to : Square) :
  In (c, right, free, safe, from, to) castlings -> Forall on_board safe.
Proof.
  unfold castlings. cbn [In]. intros [E|[E|[E|[E|[]]]]]; injection E as <- <- <- <- <- <-;
    repeat constructor; done.
Qed.

Lemma castle_table (m : Move) :
  board_in_check b us = false ->
  In m (raw_castling b) <->
  exists right free safe from to, In (us, right, free, safe, from, to) castlings /\
    In m (raw_castle b true them right free safe from to).
Proof.
  intros Hc. unfold raw_castling, castle_need_safe. rewrite !classic_mod, no_truce by done.
  cbn [andb]. rewrite Hc. unfold castlings. cbn [In]. split.
  - destruct (bool_decide_reflect (us = WHITE)) as [Eu|Eu].
    + rewrite in_app_iff. rewrite Eu. intros [H|H]; repeat eexists; [|exact H| |exact H]; auto.
    + assert (us = BLACK) as E by (pose proof Hu; destruct (b_side b); done).
      rewrite in_app_iff. rewrite E. intros [H|H]; repeat eexists; [|exact H| |exact H]; auto.
  - intros (right & free & safe & from & to & Hin & Hm).
    destruct Hin as [E|[E|[E|[E|[]]]]]; injection E as Eu <- <- <- <- <-;
      rewrite <- Eu in *; change (WHITE == WHITE) with true; change (BLACK == WHITE) with false;
      rewrite in_app_iff; auto.
Qed.

Lemma castle_rules (m : Move) :
  kings_ok b ->
  In m (raw_castling b) <->
  exists right free safe from to, In (us, right, free, safe, from, to) castlings /\
    has_right b right = true /\ (forall s, In s free -> mb b s = PIECE_EMPTY) /\
    (forall s, In s (from :: safe) -> ~ attacked b them s) /\
    m = move_encode from to KING PIECE_NONE true false false PIECE_NONE.
Proof.
  intros Hk. destruct (board_in_check b us) eqn:Hc.
  - assert (raw_castling b = []) as ->.
    { unfold raw_castling, castle_need_safe. rewrite !classic_mod, no_truce by done.
      cbn [andb]. by rewrite Hc. }
    split; [intros []|]. intros (right & free & safe & from & to & Hin & Hr & _ & Hs & _).
    apply (Hs from); [by left|]. by apply (castle_check_square right free safe from to).
  - rewrite castle_table by done. split.
    + intros (right & free & safe & from & to & Hin & Hm).
      apply castle_rule in Hm as (Hr & Hf & Hs & ->); [|by eapply castlings_safe].
      repeat eexists; [exact Hin|done|done|]. intros s [<-|Hin']; [|by apply Hs].
      intros Ha. apply (castle_check_square right free safe from to Hk Hin Hr) in Ha. congruence.
    + intros (right & free & safe & from & to & Hin & Hr & Hf & Hs & ->).
      exists right, free, safe, from, to. split; [done|].
      apply castle_rule; [by eapply castlings_safe|]. split_and!; try done.
      intros s Hin'. apply Hs. by right.
Qed.

(** ** All moves *)

Lemma pseudo_rules (m : Move) : kings_ok b -> In m (raw_pseudo b) <-> classic_move b m.
Proof.
  intros Hk. unfold raw_pseudo. rewrite !in_app_iff, pawn_rules, !officer_rules, castle_rules by done.
  split.
  - intros [(from & Hf & Hp & Hm)|[H|[H|[H|[H|[H|H]]]]]]; try by eapply cm_officer.
    + by eapply cm_pawn.
    + destruct H as (right & free & safe & from & to & Hin & Hr & Hf & Hs & ->).
      by eapply cm_castle.
  - intros [t m' H|from m' Hf Hp H|right free safe from to Hin Hr Hf Hs].
    + assert (t = KNIGHT \/ t = BISHOP \/ t = ROOK \/ t = QUEEN \/ t = KING) as Ht.
      { destruct H as [from to _ _ _ H|from to v _ _ _ H]; destruct t; done || tauto. }
      destruct Ht as [->|[->|[->|[->| ->]]]]; tauto.
    + left. by exists from.
    + do 6 right. by exists right, free, safe, from, to.
Qed.
End Classic.

(** ** Legal moves *)

(** Every king of [c] stands unattacked. *)
Definition king_safe (b : Board) (c : Color) : Prop :=
  forall ksq, on_board ksq -> mb b ksq = PIECE_MAKE c KING -> ~ attacked b (color_opposite c) ksq.

(** The king [board_in_check] looks at. *)
Lemma lsb_king (b : Board) (c : Color) :
  board_inv b -> real_color c -> pcs b c KING <> BB_EMPTY ->
  on_board (bb_lsb (pcs b c KING)) /\ mb b (bb_lsb (pcs b c KING)) = PIECE_MAKE c KING.
Proof.
  intros Hinv Hc Hne. assert (0 <= pcs b c KING < 2 ^ 64) by auto with board.
  destruct (bb_lsb_spec (pcs b c KING)) as (Hon & Hb & _); [unfold BB_EMPTY in *; lia|].
  rewrite pcs_testbit in Hb by auto with board. split; [done|]. by apply Z.eqb_eq.
Qed.

(** Kings of [c] are safe exactly when the first one is not attacked. *)
Lemma king_safe_lsb (b : Board) (c : Color) :
  board_inv b -> real_color c -> kings_ok b ->
  king_safe b c <->
  (pcs b c KING <> BB_EMPTY ->
   board_square_attacked b (bb_lsb (pcs b c KING)) (color_opposite c) = false).
Proof.
  intros Hinv Hc Hk. assert (real_color (color_opposite c)) as Hc' by (destruct c; real). split.
  - intros Hs Hne. destruct (lsb_king b c Hinv Hc Hne) as [Hon E].
    apply not_true_iff_false. rewrite square_attacked_spec by done. by apply Hs.
  - intros H ksq Hks E Ha.
    assert (pcs b c KING <> BB_EMPTY) as Hne.
    { pose proof (proj2 (has_king_spec b c Hinv Hc) (ex_intro _ ksq (conj Hks E))) as Hhas.
      unfold has_king in Hhas. by apply negb_true_iff, Z.eqb_neq in Hhas. }
    destruct (lsb_king b c Hinv Hc Hne) as [Hon E']. specialize (H Hne).
    rewrite (Hk c _ ksq Hc Hon Hks E' E) in H. apply not_true_iff_false in H. apply H.
    by apply square_attacked_spec.
Qed.

Lemma king_safe_no_check (b : Board) (c : Color) :
  board_inv b -> real_color c -> king_safe b c -> board_in_check b c = false.
Proof.
  intros Hinv Hc Hs. assert (real_color (color_opposite c)) as Hc' by (destruct c; real).
  unfold board_in_check. destruct (Z.eqb_spec (pcs b c KING) BB_EMPTY) as [E|E]; [done|].
  destruct ((b_mod b == MOD_HEIR) && _); [done|]. destruct (_ && _); [done|].
  destruct (lsb_king b c Hinv Hc E) as [Hon Ek].
  apply not_true_iff_false. rewrite square_attacked_spec by done. by apply Hs.
Qed.

Lemma truce_no_check (b : Board) (c : Color) : truce_now b = true -> board_in_check b c = false.
Proof.
  unfold truce_now, board_in_check. cbv zeta. intros ->.
  destruct (pcs b c KING =? BB_EMPTY); [done|].
  by destruct ((b_mod b == MOD_HEIR) && _).
Qed.

(** The legality test in a truce. *)
Lemma legal_truce_test (b : Board) (m : Move) :
  let b' := board_make_move b m in
  let them := color_opposite (b_side b) in
  truce_now b' = true ->
  legal b m = true <->
  (pcs b' them KING <> BB_EMPTY ->
   board_square_attacked b' (bb_lsb (pcs b' them KING)) (b_side b) = false).
Proof.
  intros b' them Ht. unfold legal, is_legal. cbn [fst]. fold b'.
  rewrite truce_no_check, Ht by done. cbn [negb andb]. fold them.
  destruct (Z.eqb_spec (pcs b' them KING) BB_EMPTY) as [E|E]; cbn [negb]; [done|].
  destruct (board_square_attacked _ _ _); split; try done. intros H. by specialize (H E).
Qed.

(** Outside a truce, legality is the safety of the mover's king. *)
Lemma legal_king_safe (b : Board) (m : Move) :
  play_inv b -> history_ok b -> truce_now b = false ->
  In m (generate_moves b) <->
  In m (pseudo_moves b) /\ king_safe (board_make_move b m) (b_side b).
Proof.
  intros [Hg Hk Hm] Hh Ht. rewrite generate_in by done.
  pose proof (pseudo_fits b Hg) as Hfits. pose proof (gi_side b Hg) as Hside.
  split; intros [Hin Hl]; (split; [done|]);
    assert (move_fits b m) as Hfit by (rewrite List.Forall_forall in Hfits; auto);
    pose proof (make_inv b m (gi_board b Hg) Hfit Hh) as Hinv';
    assert (b_mod (board_make_move b m) = b_mod b /\ truce_now (board_make_move b m) = false)
      as [Hmod' Ht'] by (rewrite make_normal by (done || apply gi_board, Hg); done).
  - pose proof (legal_in_check b m Hl) as Hc.
    assert (In m (generate_moves b)) as Hgen by (by apply generate_in).
    intros ksq Hks Ek (from & Hf & Ha). apply not_true_iff_false in Hc. apply Hc.
    apply in_check_spec; [done|by apply make_kings_ok|done|by rewrite Hmod'|done|]. by exists ksq, from.
  - unfold legal, is_legal. cbn [fst]. by rewrite Ht', andb_false_r, king_safe_no_check.
Qed.

(** In a truce it is the safety of the opponent's. *)
Lemma legal_truce (b : Board) (m : Move) :
  play_inv b -> history_ok b -> truce_now b = true ->
  In m (generate_moves b) <->
  In m (pseudo_moves b) /\ king_safe (board_make_move b m) (color_opposite (b_side b)).
Proof.
  intros [Hg Hk Hm] Hh Ht. rewrite generate_in by done.
  pose proof (pseudo_fits b Hg) as Hfits. rewrite List.Forall_forall in Hfits.
  pose proof (pseudo_ok b Hg) as Hoks. rewrite List.Forall_forall in Hoks.
  assert (real_color (color_opposite (b_side b))) as Hside' by apply (Hthem b Hg).
  split; intros [Hin Hl]; (split; [done|]); specialize (Hfits m Hin); specialize (Hoks m Hin);
    pose proof (kings_ok_after b m Hg Hh Hfits Hoks Hm Hk) as Hk';
    pose proof (make_inv b m (gi_board b Hg) Hfits Hh) as Hinv';
    assert (truce_now (board_make_move b m) = true) as Ht'
      by (rewrite make_normal by (done || apply gi_board, Hg); done).
  - apply (proj2 (king_safe_lsb _ _ Hinv' Hside' Hk')). rewrite color_opposite_involutive.
    exact (proj1 (legal_truce_test b m Ht') Hl).
  - apply (proj2 (legal_truce_test b m Ht')).
    pose proof (proj1 (king_safe_lsb _ _ Hinv' Hside' Hk') Hl) as H.
    by rewrite color_opposite_involutive in H.
Qed.

Lemma classic_legal (b : Board) (m : Move) :
  play_inv b -> b_mod b = MOD_CLASSIC -> history_ok b -> (length (raw_pseudo b) <= 256)%nat ->
  In m (generate_moves b) <-> classic_move b m /\ king_safe (board_make_move b m) (b_side b).
Proof.
  intros Hp Hmod Hh Hlen. rewrite legal_king_safe by (done || by apply no_truce).
  rewrite pseudo_moves_take, take_ge by done. rewrite pseudo_rules; [done|apply Hp|done|apply Hp].
Qed.
