(* ===== verification/Variants.v ===== *)
(** * What the variants' rules guarantee

    Truce: nothing is captured, a piece moves once, and so every line of play
    ends.  King's Battle: while the pieces are locked only kings and pawns
    move, and the counter that unlocks them stays below its threshold.
    Friendly Fire: the only own pieces taken are moved ones, never the king.
    Save the Queen: a prisoner taken by anything but a queen reappears in
    prison. *)

From stdpp Require Import base numbers list option relations.
From Stdlib Require Import ZArith Lia Bool.
From S2P Require Import Prelude Types Board Zobrist Attacks Make Movegen MovegenFacts MovegenSound Game Captures.

(** ** Where pseudo-legal moves come from *)

Section Origin.
Context (b : Board) (Hg : game_inv b).
Local Abbreviation us := (b_side b).
Local Abbreviation them := (color_opposite (b_side b)).

Local Definition Hi : board_inv b := gi_board b Hg.
Local Definition Hu : real_color us := gi_side b Hg.
Local Definition Ht : real_color them := Hthem b Hg.
Local Hint Resolve Hi Hu Ht : board.

Lemma promos_shape (sq to : Square) (capt : PieceType) (promos : list PieceType) (m : Move) :
  In m (raw_promos sq to capt promos) ->
  exists pr p, m = move_encode sq to PAWN capt false false pr p.
Proof. intros (p & <- & _)%in_map_iff. eauto. Qed.

Definition pawn_encoded (sq : Square) (m : Move) : Prop :=
  exists to capt ep pr p, on_board to /\ m = move_encode sq to PAWN capt false ep pr p.

Lemma take_shape (c : bool) (sq to : Square) (capt : PieceType) (promos : list PieceType)
    (m : Move) :
  on_board to ->
  In m (if c then raw_promos sq to capt promos else [move_capture sq to PAWN capt]) ->
  pawn_encoded sq m.
Proof.
  intros Hto H. unfold pawn_encoded. destruct c.
  - apply promos_shape in H as (pr & p & ->). eauto 10.
  - destruct H as [<-|[]]. unfold move_capture. eauto 10.
Qed.

Lemma capture_shape (dir rank7 dc : Z) (sq : Square) (m : Move) :
  In m (raw_capture b us them dir rank7 sq dc) -> pawn_encoded sq m.
Proof.
  unfold raw_capture. destruct (_ || _); [done|].
  destruct (SQ_VALID _) eqn:Hv; cbn [negb]; [|done]. apply SQ_VALID_spec in Hv.
  destruct (_ && (_ || _)); [done|]. rewrite !in_app_iff. intros [H|[H|H]].
  - destruct (negb _ && _); [by eapply take_shape|done].
  - destruct (ff_target _ _ _); [by eapply take_shape|done].
  - destruct (_ && (_ && _)); [|done]. destruct H as [<-|[]]. unfold pawn_encoded. eauto 10.
Qed.

Lemma pawn_shape (sq : Square) (m : Move) :
  on_board sq -> In m (raw_pawn b false sq) -> pawn_encoded sq m.
Proof.
  intros Hs. unfold raw_pawn, pawn_encoded. destruct (b_mod b == MOD_MERCENARY).
  - unfold raw_merc_pawn. rewrite in_app_iff. intros [H|H].
    + apply in_map_iff in H as (to & <- & Hto).
      apply In_squares_land in Hto as (Hto & _ & _); [|auto with board]. unfold move_simple. eauto 10.
    + destruct (negb (truce_now b)); [|done]. apply in_flat_map in H as (to & Hto & H).
      apply In_squares_land in Hto as (Hto & _ & _); [|auto with board].
      destruct (_ == KING); [done|]. destruct H as [<-|[]]. unfold move_capture. eauto 10.
  - rewrite in_app_iff. intros [H|H].
    + unfold raw_pushes in H. destruct (_ && _ && _) eqn:E; [|done].
      rewrite !andb_true_iff, SQ_VALID_spec in E. destruct E as [[_ Hv] _].
      destruct (_ =? (if us == WHITE then 6 else 1)).
      { apply promos_shape in H as (pr & p & ->). eauto 10. }
      destruct H as [<-|H]; [unfold move_simple; eauto 10|].
      destruct (_ && _) eqn:E2; [|done]. apply andb_true_iff in E2 as [E2%Z.eqb_eq _].
      destruct H as [<-|[]]. do 5 eexists. split; [|reflexivity].
      pose proof (SQ_COL_bound sq). apply SQ_on_board; destruct (us == WHITE); lia.
    + destruct (negb (truce_now b)); [|done]. apply in_flat_map in H as (dc & _ & H).
      by eapply capture_shape.
Qed.

Lemma quiets_shape (sq : Square) (pt : PieceType) (x : Bitboard) (m : Move) :
  0 <= x < 2 ^ 64 -> In m (raw_quiets sq pt x) ->
  exists to capt, on_board to /\ m = move_encode sq to pt capt false false false PIECE_NONE.
Proof.
  intros Hx (to & <- & Hto)%in_map_iff. apply elem_of_bb_squares in Hto as [Hto _]; [|done].
  unfold move_simple. eauto.
Qed.

Lemma piece_shape (pt : PieceType) (sq : Square) (m : Move) :
  on_board sq -> In m (raw_piece b pt false sq) ->
  exists to capt, on_board to /\ m = move_encode sq to pt capt false false false PIECE_NONE.
Proof.
  intros Hs. unfold raw_piece. destruct (_ && _) eqn:E.
  - apply andb_true_iff in E as [_ ->%bool_decide_eq_true]. unfold raw_stq_queen.
    destruct (negb (stq_is_own_half sq us)); cbn [negb].
    { apply quiets_shape. auto with board. }
    rewrite in_app_iff. intros [H|H]; [|revert H; apply quiets_shape; auto with board].
    apply in_flat_map in H as (to & Hto & H).
    apply elem_of_bb_squares in Hto as [Hto _]; [|by apply stq_own_targets_bound].
    unfold raw_stq_emit in H. repeat case_match; try done; destruct H as [<-|[]];
      unfold move_simple, move_capture; eauto.
  - intros (to & Hto & H)%in_flat_map.
    apply elem_of_bb_squares in Hto as [Hto _]; [|by apply filtered_targets_bound].
    unfold raw_emit in H. repeat case_match; try done; destruct H as [<-|[]];
      unfold move_simple, move_capture; eauto.
Qed.

Lemma castle_shape (need : bool) (enemy : Color) (right : Z) (free safe : list Square)
    (from to : Square) (m : Move) :
  In m (raw_castle b need enemy right free safe from to) ->
  has_right b right = true /\ m = move_encode from to KING PIECE_NONE true false false PIECE_NONE.
Proof.
  unfold raw_castle. destruct (has_right b right); [|done]. destruct (_ && _); [|done].
  by intros [<-|[]].
Qed.

(** The king's squares, for every castling move. *)
Lemma castling_shape (m : Move) :
  In m (raw_castling b) ->
  exists from to right, has_right b right = true /\
    In (right, us, from, to) [(CASTLE_WK, WHITE, SQ 0 4, SQ 0 6); (CASTLE_WQ, WHITE, SQ 0 4, SQ 0 2);
       (CASTLE_BK, BLACK, SQ 7 4, SQ 7 6); (CASTLE_BQ, BLACK, SQ 7 4, SQ 7 2)] /\
    m = move_encode from to KING PIECE_NONE true false false PIECE_NONE.
Proof.
  unfold raw_castling. destruct (_ && negb (b_kb_unlocked b)); [done|].
  destruct (truce_now b && _); [done|]. destruct (castle_need_safe b && _); [done|].
  pose proof Hu as Hus. cbn [In].
  destruct (bool_decide_reflect (us = WHITE)) as [->|Eu];
    [|assert (us = BLACK) as -> by (destruct (b_side b); done)];
    rewrite in_app_iff; intros [[E ->]%castle_shape|[E ->]%castle_shape]; eauto 15.
Qed.

(** A pseudo-legal move starts on an own piece that may move, or castles. *)
Lemma pseudo_origin (m : Move) :
  In m (raw_pseudo b) ->
  In (MOVE_FROM m) (own_squares b (MOVE_PIECE m)) /\ MOVE_IS_CASTLE m = false /\
    (MOVE_PIECE m <> PAWN -> kb_locked b (MOVE_PIECE m) = false) \/
  In m (raw_castling b).
Proof.
  unfold raw_pseudo. rewrite !in_app_iff. intros [H|H].
  - apply in_flat_map in H as (sq & Hsq & H). left.
    destruct (own_squares_spec b Hg PAWN sq) as [Hs _]; [done|done|].
    apply pawn_shape in H as (to & capt & ep & pr & p & Hto & ->); [|done].
    rewrite MOVE_FROM_encode, MOVE_PIECE_encode, MOVE_IS_CASTLE_encode by done. done.
  - assert (forall pt, real_type pt -> In m (raw_piece_moves b pt false) ->
      In (MOVE_FROM m) (own_squares b (MOVE_PIECE m)) /\ MOVE_IS_CASTLE m = false /\
      (MOVE_PIECE m <> PAWN -> kb_locked b (MOVE_PIECE m) = false)) as Hp.
    { intros pt Hpt Hm. unfold raw_piece_moves in Hm. destruct (kb_locked b pt) eqn:Ek; [done|].
      apply in_flat_map in Hm as (sq & Hsq & Hm).
      destruct (own_squares_spec b Hg pt sq) as [Hs _]; [done|done|].
      apply piece_shape in Hm as (to & capt & Hto & ->); [|done].
      rewrite MOVE_FROM_encode, MOVE_PIECE_encode, MOVE_IS_CASTLE_encode by done. done. }
    destruct H as [H|[H|[H|[H|[H|H]]]]]; [left; eapply Hp; [|exact H]; done..|by right].
Qed.
End Origin.

(** ** Truce *)

Lemma clr_testbit (bb sq n : Z) :
  on_board sq -> on_board n -> Z.testbit (BB_CLR bb sq) n = Z.testbit bb n && negb (n =? sq).
Proof.
  intros Hs Hn. unfold BB_CLR. by rewrite Z.land_spec, bb_not_testbit, BB_SQ_testbit by sq_lia.
Qed.

Lemma set_testbit (bb sq n : Z) :
  on_board sq -> on_board n -> Z.testbit (BB_SET bb sq) n = Z.testbit bb n || (n =? sq).
Proof. intros Hs Hn. unfold BB_SET. by rewrite Z.lor_spec, BB_SQ_testbit by sq_lia. Qed.

(** A piece that may still move in the truce: it has not moved yet. *)
Definition fresh_at (b : Board) (sq : Square) : bool :=
  negb (mb b sq =? PIECE_EMPTY) && negb (Z.testbit (b_truce_frozen b) sq).

(** How many pieces have not moved yet. *)
Definition fresh_pieces (b : Board) : nat := length (List.filter (fresh_at b) (seqZ 0 64)).

Lemma filter_shorter {A} (P Q : A -> bool) (l : list A) (x : A) :
  (forall y, In y l -> Q y = true -> P y = true) -> In x l -> P x = true -> Q x = false ->
  (length (List.filter Q l) < length (List.filter P l))%nat.
Proof.
  assert (forall l, (forall y, In y l -> Q y = true -> P y = true) ->
            (length (List.filter Q l) <= length (List.filter P l))%nat) as Hle.
  { intros l'. induction l' as [|a l' IH]; intros H; [done|]. cbn [List.filter].
    specialize (IH (fun y Hy => H y (or_intror Hy))). specialize (H a (or_introl eq_refl)).
    destruct (Q a), (P a); cbn [length]; lia || (by discriminate H). }
  induction l as [|a l IH]; intros H Hx HP HQ; [done|]. cbn [List.filter].
  specialize (Hle l (fun y Hy => H y (or_intror Hy))).
  destruct Hx as [->|Hx].
  - rewrite HP, HQ. cbn [length]. lia.
  - specialize (IH (fun y Hy => H y (or_intror Hy)) Hx HP HQ).
    specialize (H a (or_introl eq_refl)). destruct (Q a), (P a); cbn [length]; lia || (by discriminate H).
Qed.

Lemma In_take {A} (n : nat) (l : list A) (x : A) : In x (take n l) -> In x l.
Proof. rewrite <- (take_drop n l) at 2. rewrite in_app_iff. auto. Qed.

Lemma generated_raw (b : Board) (m : Move) :
  game_inv b -> history_ok b -> In m (generate_moves b) -> In m (raw_pseudo b).
Proof.
  intros Hg Hh [Hin _]%generate_in; [|done|done]. rewrite pseudo_moves_take in Hin.
  by eapply In_take.
Qed.

Lemma castle_king_home (b : Board) (m : Move) :
  game_inv b -> In m (raw_castling b) -> mb b (MOVE_FROM m) = PIECE_MAKE (b_side b) KING.
Proof.
  intros Hg (from & to & right & Hr & Hin & ->)%castling_shape; [|done].
  destruct (gi_castle b Hg) as (H1 & H2 & H3 & H4). cbn [In] in Hin.
  destruct Hin as [E|[E|[E|[E|[]]]]]; injection E as <- <- <- <-;
    rewrite MOVE_FROM_encode by (unfold on_board; vm_compute; split; congruence).
  - apply (H1 Hr).
  - apply (H2 Hr).
  - apply (H3 Hr).
  - apply (H4 Hr).
Qed.

Section TruceMove.
Context (b : Board) (m : Move) (Hp : play_inv b) (Ht : truce_now b = true) (Hh : history_ok b)
        (Hin : In m (generate_moves b)).
Local Abbreviation us := (b_side b).

Local Definition Hg : game_inv b := pi_game b Hp.
Local Definition Hb : board_inv b := gi_board b Hg.
Local Definition Hs : real_color us := gi_side b Hg.
Local Definition Hfit : move_fits b m := generated_fits b Hg Hh m Hin.
Local Hint Resolve Hg Hb Hs Hfit : board.

Lemma truce_no_capture : MOVE_IS_CAPTURE m = false.
Proof.
  apply not_true_iff_false. intros Hc.
  assert (In m (List.filter MOVE_IS_CAPTURE (raw_pseudo b))) as H.
  { apply filter_In. split; [by apply generated_raw; auto with board|done]. }
  rewrite truce_caps in H by auto with board. done.
Qed.

Lemma truce_from_fresh : Z.testbit (b_truce_frozen b) (MOVE_FROM m) = false.
Proof.
  destruct (pseudo_origin b Hg m) as [(Ho & _)|Hc]; [by apply generated_raw; auto with board| |].
  - unfold own_squares in Ho. rewrite Ht in Ho.
    apply In_squares_land in Ho as (Hon & _ & Hf); [|apply pcs_bound; auto with board; apply Hfit].
    rewrite bb_not_testbit in Hf by done. by apply negb_true_iff in Hf.
  - pose proof (castle_king_home b m Hg Hc) as Ek.
    unfold raw_castling in Hc. rewrite Ht in Hc. cbn [andb] in Hc.
    destruct (_ && negb (b_kb_unlocked b)); [done|]. destruct (bb_nonzero _) eqn:Hz; [done|].
    destruct (bb_lsb_spec (pcs b us KING)) as (Hl & Hlb & _).
    { assert (0 <= pcs b us KING < 2 ^ 64) by auto with board.
      assert (Z.testbit (pcs b us KING) (MOVE_FROM m) = true)
        by (rewrite pcs_testbit by auto with board; by apply Z.eqb_eq).
      destruct (Z.eqb_spec (pcs b us KING) 0) as [E|]; [|lia]. by rewrite E, Z.testbit_0_l in *. }
    rewrite pcs_testbit in Hlb by auto with board. apply Z.eqb_eq in Hlb.
    assert (bb_lsb (pcs b us KING) = MOVE_FROM m) as El
      by (apply (pi_kings b Hp us); auto with board).
    rewrite El in Hz. destruct (Z.testbit (b_truce_frozen b) (MOVE_FROM m)) eqn:E; [|done].
    exfalso. apply not_true_iff_false in Hz. apply Hz. unfold bb_nonzero. apply negb_true_iff, Z.eqb_neq.
    intros E0. apply (f_equal (fun x => Z.testbit x (MOVE_FROM m))) in E0.
    rewrite Z.land_spec, E, BB_SQ_testbit, Z.eqb_refl, Z.testbit_0_l in E0
      by (pose proof (MOVE_FROM_on_board m); sq_lia). done.
Qed.

Lemma not_reprison : reprisons b m = false.
Proof.
  unfold reprisons. assert ((b_mod b == MOD_SAVE_QUEEN) = false) as ->.
  { unfold truce_now in Ht. apply andb_true_iff in Ht as [->%bool_decide_eq_true _]. done. }
  by rewrite !andb_false_r.
Qed.

(** A square that holds a piece after the move, other than the ones it
    names, held it before. *)
Lemma after_occupied (sq : Square) :
  on_board sq -> (mailbox_after b m).[sq] <> PIECE_EMPTY ->
  sq <> MOVE_TO m ->
  (MOVE_IS_CASTLE m = true -> forall rf rt c, castle_rook (MOVE_TO m) = Some (rf, rt, c) -> sq <> rt) ->
  mb b sq <> PIECE_EMPTY /\ sq <> MOVE_FROM m /\ (MOVE_IS_EP m = true -> sq <> ep_cap_sq m) /\
  (MOVE_IS_CASTLE m = true -> forall rf rt c, castle_rook (MOVE_TO m) = Some (rf, rt, c) -> sq <> rf).
Proof.
  intros Hon Ho Hto Hrt.
  assert (sq <> MOVE_FROM m) as Hfrom.
  { intros ->. apply Ho. apply after_at_from; auto with board. }
  pose proof (inv_mailbox b Hb) as Hv.
  pose proof (valid_after_captures b m Hb Hfit) as Hvc.
  pose proof (valid_after_piece b m Hb Hfit) as Hvp.
  assert ((after_piece us m (after_captures b m)).[sq] <> PIECE_EMPTY /\
    (MOVE_IS_CASTLE m = true -> forall rf rt c, castle_rook (MOVE_TO m) = Some (rf, rt, c) -> sq <> rf))
    as [Hpc Hrf].
  { revert Ho. unfold mailbox_after, after_castle. destruct (MOVE_IS_CASTLE m); [|done].
    destruct (castle_rook (MOVE_TO m)) as [[[rf rt] c]|] eqn:Er; [|done].
    destruct (castle_rook_on_board _ _ _ _ Er) as (? & ? & _).
    specialize (Hrt eq_refl _ _ _ eq_refl). rewrite znth_zset_ne by done.
    intros Ho. assert (sq <> rf) by (intros ->; apply Ho; by rewrite znth_zset_eq by auto with board).
    rewrite znth_zset_ne in Ho by done. split; [done|]. intros _ rf' rt' c' [= <- <- <-]. done. }
  unfold after_piece in Hpc. rewrite !znth_zset_ne in Hpc by done.
  unfold after_captures in Hpc. rewrite not_reprison in Hpc.
  destruct (MOVE_IS_EP m).
  - assert (sq <> ep_cap_sq m).
    { intros ->. apply Hpc. by rewrite znth_zset_eq by auto with board. }
    rewrite znth_zset_ne in Hpc by done. auto.
  - destruct (MOVE_IS_CAPTURE m); rewrite ?znth_zset_ne in Hpc by done; auto.
Qed.

Definition marks (bb : Bitboard) : Bitboard :=
  let f := BB_SET (BB_CLR bb (MOVE_FROM m)) (MOVE_TO m) in
  castle_mark m (if MOVE_IS_EP m then BB_CLR f (ep_cap_sq m)
                 else if MOVE_IS_CAPTURE m then BB_SET (BB_CLR f (MOVE_TO m)) (MOVE_TO m) else f).

Lemma ep_not_to : MOVE_IS_EP m = true -> MOVE_TO m <> ep_cap_sq m.
Proof. intros Ee E. destruct (mf_ep b m Hfit Ee) as (H1 & H2 & _). congruence. Qed.

Lemma castle_rook_not_to (rf rt : Square) (c : Color) :
  MOVE_IS_CASTLE m = true -> castle_rook (MOVE_TO m) = Some (rf, rt, c) -> MOVE_TO m <> rf.
Proof.
  intros Ec Er E. destruct (mf_castle b m Hfit Ec) as (H1 & H2 & H).
  destruct (H _ _ _ Er) as (H3 & _). pose proof (mf_quiet b m Hfit H1 H2) as Hq.
  rewrite E, H3 in Hq. by apply PIECE_MAKE_not_empty in Hq;
    [|destruct (castle_rook_on_board _ _ _ _ Er) as (_ & _ & ? & _)].
Qed.

(** The bookkeeping marks the squares the pieces arrive on. *)
Lemma marks_arrival (bb : Bitboard) :
  Z.testbit (marks bb) (MOVE_TO m) = true /\
  (MOVE_IS_CASTLE m = true -> forall rf rt c, castle_rook (MOVE_TO m) = Some (rf, rt, c) ->
     Z.testbit (marks bb) rt = true).
Proof.
  pose proof (MOVE_TO_on_board m) as Hto. pose proof (ep_cap_sq_on_board m) as Hep.
  set (f := if MOVE_IS_EP m
            then BB_CLR (BB_SET (BB_CLR bb (MOVE_FROM m)) (MOVE_TO m)) (ep_cap_sq m)
            else if MOVE_IS_CAPTURE m
            then BB_SET (BB_CLR (BB_SET (BB_CLR bb (MOVE_FROM m)) (MOVE_TO m)) (MOVE_TO m)) (MOVE_TO m)
            else BB_SET (BB_CLR bb (MOVE_FROM m)) (MOVE_TO m)).
  assert (Z.testbit f (MOVE_TO m) = true) as Hf.
  { unfold f. destruct (MOVE_IS_EP m) eqn:Ee.
    - rewrite clr_testbit, set_testbit, Z.eqb_refl, orb_true_r by done.
      apply negb_true_iff, Z.eqb_neq. by apply ep_not_to.
    - destruct (MOVE_IS_CAPTURE m); by rewrite set_testbit, Z.eqb_refl, orb_true_r by done. }
  unfold marks. fold f. unfold castle_mark. destruct (MOVE_IS_CASTLE m) eqn:Ec; [|by split].
  destruct (castle_rook (MOVE_TO m)) as [[[rf rt] c]|] eqn:Er; [|by split].
  destruct (castle_rook_on_board _ _ _ _ Er) as (Hrf & Hrt & _).
  pose proof (castle_rook_not_to rf rt c Ec Er) as Hne.
  rewrite set_testbit, clr_testbit, Hf by done. split.
  - rewrite (proj2 (Z.eqb_neq _ _) Hne). done.
  - intros _ rf' rt' c' [= <- <- <-]. by rewrite set_testbit, Z.eqb_refl, orb_true_r by done.
Qed.

(** ... and keeps the marks of the squares the move does not name. *)
Lemma marks_kept (bb : Bitboard) (sq : Square) :
  on_board sq -> sq <> MOVE_FROM m -> (MOVE_IS_EP m = true -> sq <> ep_cap_sq m) ->
  (MOVE_IS_CASTLE m = true -> forall rf rt c, castle_rook (MOVE_TO m) = Some (rf, rt, c) -> sq <> rf) ->
  Z.testbit bb sq = true -> Z.testbit (marks bb) sq = true.
Proof.
  intros Hon Hfrom Hep Hrf Hm. pose proof (MOVE_TO_on_board m). pose proof (MOVE_FROM_on_board m).
  pose proof (ep_cap_sq_on_board m).
  set (f := BB_SET (BB_CLR bb (MOVE_FROM m)) (MOVE_TO m)).
  assert (Z.testbit f sq = true) as Hf.
  { unfold f. rewrite set_testbit, clr_testbit, Hm by done. by rewrite (proj2 (Z.eqb_neq _ _) Hfrom). }
  set (g := if MOVE_IS_EP m then BB_CLR f (ep_cap_sq m)
            else if MOVE_IS_CAPTURE m then BB_SET (BB_CLR f (MOVE_TO m)) (MOVE_TO m) else f).
  assert (Z.testbit g sq = true) as Hgg.
  { unfold g. destruct (MOVE_IS_EP m).
    - rewrite clr_testbit, Hf by done. by rewrite (proj2 (Z.eqb_neq _ _) (Hep eq_refl)).
    - destruct (MOVE_IS_CAPTURE m); [|done]. rewrite set_testbit, clr_testbit, Hf by done.
      by destruct (sq =? MOVE_TO m). }
  unfold marks. fold f. fold g. unfold castle_mark. destruct (MOVE_IS_CASTLE m); [|done].
  destruct (castle_rook (MOVE_TO m)) as [[[rf rt] c]|] eqn:Er; [|done].
  destruct (castle_rook_on_board _ _ _ _ Er) as (Hr1 & Hr2 & _).
  specialize (Hrf eq_refl _ _ _ eq_refl).
  rewrite set_testbit, clr_testbit, Hgg by done. by rewrite (proj2 (Z.eqb_neq _ _) Hrf).
Qed.

Lemma truce_made :
  exists h, board_make_move b m = board_after b m h /\
            b_truce_frozen (board_after b m h) = marks (b_truce_frozen b).
Proof.
  destruct (made b m Hg Hh (generated_playable b m Hg Hh Hin)) as [h E]. exists h. split; [done|].
  change (b_truce_frozen (board_after b m h)) with (truce_after b m).
  unfold truce_after. fold (truce_now b). by rewrite Ht.
Qed.

Lemma fresh_after (sq : Square) :
  on_board sq -> fresh_at (board_make_move b m) sq = true ->
  fresh_at b sq = true /\ sq <> MOVE_FROM m.
Proof.
  intros Hon. destruct truce_made as (h & -> & Ef). unfold fresh_at. rewrite Ef.
  change (mb (board_after b m h) sq) with ((mailbox_after b m).[sq]).
  rewrite !andb_true_iff, !negb_true_iff, !Z.eqb_neq. intros [Ho Hf].
  destruct (marks_arrival (b_truce_frozen b)) as [Ha1 Ha2].
  assert (sq <> MOVE_TO m) as Hto by (intros ->; congruence).
  destruct (after_occupied sq Hon Ho Hto) as (H1 & H2 & H3 & H4).
  { intros Ec rf rt c Er ->. specialize (Ha2 Ec rf rt c Er). congruence. }
  split_and!; try done. destruct (Z.testbit (b_truce_frozen b) sq) eqn:E; [|done].
  by rewrite marks_kept in Hf.
Qed.

Lemma fresh_decreases : (fresh_pieces (board_make_move b m) < fresh_pieces b)%nat.
Proof.
  apply (filter_shorter (fresh_at b) (fresh_at (board_make_move b m)) _ (MOVE_FROM m)).
  - intros sq Hsq Hfr. apply fresh_after; [|done].
    apply list_elem_of_In, elem_of_seqZ in Hsq. unfold on_board. lia.
  - apply list_elem_of_In, elem_of_seqZ. pose proof (MOVE_FROM_on_board m). unfold on_board in *. lia.
  - unfold fresh_at. rewrite truce_from_fresh, (mf_piece b m Hfit).
    rewrite (proj2 (Z.eqb_neq _ _)); [done|]. by apply PIECE_MAKE_not_empty; auto with board.
  - apply not_true_iff_false. intros Hf. apply fresh_after in Hf; [|auto with board]. naive_solver.
Qed.
End TruceMove.

(** When every piece of the side to move has moved there is no legal move. *)
Lemma frozen_play_inv (b : Board) (f : Bitboard) : play_inv b -> play_inv (set_b_truce_frozen f b).
Proof.
  intros [[[H1 H2] Hs Hc He] Hk Hm]. constructor; [|exact Hk|exact Hm].
  constructor; [|exact Hs|exact Hc|exact He]. constructor; [exact H1|].
  exact (f_equal (set_b_truce_frozen f) H2).
Qed.

Lemma all_frozen_no_moves (b : Board) (f : Bitboard) :
  play_inv b -> truce_now b = true -> history_ok b ->
  (forall sq, on_board sq -> PIECE_COLOR (mb b sq) = b_side b -> Z.testbit f sq = true) ->
  generate_moves (set_b_truce_frozen f b) = [].
Proof.
  intros Hp Ht Hh Hf. set (b' := set_b_truce_frozen f b).
  pose proof (frozen_play_inv b f Hp) as Hp'. fold b' in Hp'.
  destruct (generate_moves b') as [|m l] eqn:E; [done|exfalso].
  assert (In m (generate_moves b')) as Hin by (rewrite E; by left).
  pose proof (truce_from_fresh b' m Hp' Ht Hh Hin) as Hfree.
  pose proof (generated_fits b' (pi_game b' Hp') Hh m Hin) as Hfit.
  change (b_truce_frozen b') with f in Hfree. rewrite Hf in Hfree; [done|auto with board|].
  change (mb b (MOVE_FROM m)) with (mb b' (MOVE_FROM m)). rewrite (mf_piece _ _ Hfit).
  apply PIECE_COLOR_MAKE.
Qed.

(** Each legal move of the truce uses up a piece, so play in the truce ends. *)
Lemma truce_line_bound (ms : list Move) :
  forall b, play_inv b -> truce_now b = true -> legal_line b ms ->
  (length ms <= fresh_pieces b)%nat.
Proof.
  induction ms as [|m ms IH]; intros b Hp Ht Hl; [simpl; lia|]. destruct Hl as (Hh & Hin & Hl).
  pose proof (fresh_decreases b m Hp Ht Hh Hin) as Hd.
  assert (truce_now (board_make_move b m) = true) as Ht'.
  { destruct (truce_made b m Hp Ht Hh Hin) as (h & -> & _). exact Ht. }
  assert (play_inv (board_make_move b m)) as Hp' by (eapply step_play_inv; [done|by constructor]).
  specialize (IH _ Hp' Ht' Hl). cbn [length]. lia.
Qed.

Lemma fresh_pieces_bound (b : Board) : (fresh_pieces b <= 64)%nat.
Proof. unfold fresh_pieces. etransitivity; [apply filter_length_le|]. by rewrite length_seqZ. Qed.

(** ** King's Battle *)

Definition kb_ok (b : Board) : Prop :=
  0 <= b_kb_idle_kings b /\ (kb_phase1 b = true -> b_kb_idle_kings b < 6).

(** The king takes a pawn. *)
Definition kings_kill (b : Board) (m : Move) : Prop :=
  MOVE_PIECE m = KING /\ MOVE_IS_CAPTURE m = true /\ PIECE_TYPE (captured_piece b m) = PAWN.

Section KingsBattle.
Context (b : Board) (m : Move) (Hg : game_inv b) (Hh : history_ok b)
        (Hin : In m (generate_moves b)).

Lemma kb_locked_movers :
  kb_phase1 b = true ->
  (MOVE_PIECE m = PAWN \/ MOVE_PIECE m = KING) /\ MOVE_IS_CASTLE m = false.
Proof.
  intros Hk. destruct (pseudo_origin b Hg m) as [(_ & Hc & Hl)|Hc]; [by apply generated_raw| |].
  - split; [|done]. destruct (decide (MOVE_PIECE m = PAWN)) as [|Hp]; [by left|right].
    specialize (Hl Hp). unfold kb_locked in Hl. fold (kb_phase1 b) in Hl. rewrite Hk in Hl.
    cbn [andb] in Hl. by apply negb_false_iff, bool_decide_eq_true in Hl.
  - unfold raw_castling in Hc. fold (kb_phase1 b) in Hc. by rewrite Hk in Hc.
Qed.

Lemma kb_bonus_iff : kb_phase1 b = true -> kb_bonus_after b m = true <-> kings_kill b m.
Proof.
  intros Hk. unfold kb_bonus_after, kings_kill. fold (kb_phase1 b). rewrite Hk. cbn [andb].
  rewrite !andb_true_iff, !bool_decide_eq_true. tauto.
Qed.

Lemma kb_idle_next_small : b_kb_idle_kings b < 6 -> kb_idle_next b = b_kb_idle_kings b + 1.
Proof. intros H. unfold kb_idle_next. by replace (_ <? 255) with true by lia. Qed.

Lemma kb_unlock_iff :
  kb_phase1 b = true -> kb_ok b ->
  kb_unlocked_after b m = true <->
  kings_kill b m \/ (MOVE_PIECE m = PAWN /\ MOVE_IS_PROMO m = true) \/
  (MOVE_PIECE m = KING /\ MOVE_IS_CAPTURE m = false /\ b_kb_idle_kings b = 5).
Proof.
  intros Hk [H0 H6]. specialize (H6 Hk). unfold kb_unlocked_after. fold (kb_phase1 b). rewrite Hk.
  rewrite !orb_true_iff, kb_bonus_iff, !andb_true_iff, negb_true_iff, !bool_decide_eq_true by done.
  rewrite Z.leb_le, kb_idle_next_small by done.
  assert (6 <= b_kb_idle_kings b + 1 <-> b_kb_idle_kings b = 5) as -> by lia. tauto.
Qed.

Lemma kb_ok_step : kb_ok b -> kb_ok (board_make_move b m).
Proof.
  intros [H0 H6]. destruct (made b m Hg Hh (generated_playable b m Hg Hh Hin)) as [h ->]. unfold kb_ok.
  change (b_kb_idle_kings (board_after b m h)) with (kb_idle_after b m).
  change (kb_phase1 (board_after b m h))
    with ((b_mod b == MOD_KINGS_BATTLE) && negb (kb_unlocked_after b m)).
  unfold kb_idle_after, kb_unlocked_after. fold (kb_phase1 b).
  destruct (kb_phase1 b) eqn:Hk.
  - specialize (H6 eq_refl). rewrite kb_idle_next_small by done.
    destruct (kb_bonus_after b m); cbn [orb].
    { split; [lia|]. cbn [negb]. by rewrite andb_false_r. }
    destruct ((_ == PAWN) && _); cbn [orb]; [split; [lia|]; cbn [negb]; by rewrite andb_false_r|].
    destruct ((_ == KING) && _); cbn [andb]; [|lia].
    split; [lia|]. rewrite andb_true_iff, negb_true_iff. lia.
  - split; [done|]. fold (kb_phase1 b). by rewrite Hk.
Qed.
End KingsBattle.

(** A king move that takes nothing is counted, anything else starts over. *)
Definition idle_step (n : Z) (m : Move) : Z :=
  if (MOVE_PIECE m == KING) && negb (MOVE_IS_CAPTURE m) then n + 1 else 0.

(** The king moves that took nothing at the end of a line. *)
Definition idle_run (ms : list Move) : Z := fold_left idle_step ms 0.

Lemma kb_idle_step (b : Board) (m : Move) :
  game_inv b -> history_ok b -> In m (generate_moves b) -> kb_ok b ->
  kb_phase1 (board_make_move b m) = true ->
  kb_phase1 b = true /\ b_kb_idle_kings (board_make_move b m) = idle_step (b_kb_idle_kings b) m.
Proof.
  intros Hg Hh Hin [H0 H6]. destruct (made b m Hg Hh (generated_playable b m Hg Hh Hin)) as [h ->].
  change (b_kb_idle_kings (board_after b m h)) with (kb_idle_after b m).
  change (kb_phase1 (board_after b m h))
    with ((b_mod b == MOD_KINGS_BATTLE) && negb (kb_unlocked_after b m)).
  unfold kb_idle_after, kb_unlocked_after, idle_step. fold (kb_phase1 b).
  destruct (kb_phase1 b) eqn:Hk; [|fold (kb_phase1 b); by rewrite Hk].
  rewrite kb_idle_next_small by auto. rewrite andb_true_iff, negb_true_iff, !orb_false_iff.
  intros (_ & (-> & ->) & _). done.
Qed.

Lemma kb_idle_line (ms : list Move) :
  forall b n, play_inv b -> kb_ok b -> (kb_phase1 b = true -> b_kb_idle_kings b = n) ->
  legal_line b ms -> kb_phase1 (play b ms) = true ->
  b_kb_idle_kings (play b ms) = fold_left idle_step ms n.
Proof.
  induction ms as [|m ms IH]; intros b n Hp Hk Hn Hl Hph; [by apply Hn|].
  destruct Hl as (Hh & Hin & Hl). apply (IH (board_make_move b m)); auto.
  - eapply step_play_inv; [exact Hp|]. by constructor.
  - apply kb_ok_step; auto. apply Hp.
  - intros H. destruct (kb_idle_step b m (pi_game b Hp) Hh Hin Hk H) as [H1 ->]. by rewrite Hn.
Qed.

Lemma reachable_kb_ok (b b' : Board) : play_inv b -> kb_ok b -> reachable b b' -> kb_ok b'.
Proof.
  intros Hp Hk Hr. induction Hr as [b|b b1 b' Hs Hr IH]; [done|].
  apply IH; [by eapply step_play_inv|]. destruct Hs as [m Hh Hin].
  apply kb_ok_step; auto. apply Hp.
Qed.

(** ** What may be taken *)

(** Own pieces in Friendly Fire only, and then moved ones other than the king;
    a prisoner queen only while her prison is free, but by a queen. *)
Record take_ok (b : Board) (m : Move) : Prop := {
  tk_own : PIECE_COLOR (mb b (MOVE_TO m)) = b_side b ->
    b_mod b = MOD_FRIENDLY_FIRE /\ Z.testbit (b_ff_moved b) (MOVE_TO m) = true /\
    PIECE_TYPE (mb b (MOVE_TO m)) <> KING;
  tk_prisoner : PIECE_COLOR (mb b (MOVE_TO m)) = color_opposite (b_side b) ->
    b_mod b = MOD_SAVE_QUEEN -> PIECE_TYPE (mb b (MOVE_TO m)) = QUEEN ->
    stq_is_own_half (MOVE_TO m) (color_opposite (b_side b)) = false -> MOVE_PIECE m <> QUEEN ->
    mb b (prison_of (color_opposite (b_side b))) = PIECE_EMPTY
}.

Definition takes_ok (b : Board) (m : Move) : Prop :=
  MOVE_IS_EP m = false -> MOVE_IS_CAPTURE m = true -> take_ok b m.

Section Takes.
Context (b : Board) (Hg : game_inv b).
Local Abbreviation us := (b_side b).
Local Abbreviation them := (color_opposite (b_side b)).

Local Definition Hi2 : board_inv b := gi_board b Hg.
Local Definition Hu2 : real_color us := gi_side b Hg.
Local Definition Ht2 : real_color them := Hthem b Hg.
Local Hint Resolve Hi2 Hu2 Ht2 : board.

Lemma sides_differ : us <> them.
Proof. pose proof Hu2. destruct (b_side b); done. Qed.

Lemma quiet_takes (from to : Square) (pt promo : PieceType) (ca ep pr : bool) :
  on_board from -> on_board to ->
  takes_ok b (move_encode from to pt PIECE_NONE ca ep pr promo).
Proof. intros Hf Hto. unfold takes_ok. by rewrite MOVE_IS_CAPTURE_encode by done. Qed.

(** An encoded capture is fine when its target is. *)
Definition target_ok (pt : PieceType) (to : Square) : Prop :=
  (PIECE_COLOR (mb b to) = us ->
     b_mod b = MOD_FRIENDLY_FIRE /\ Z.testbit (b_ff_moved b) to = true /\
     PIECE_TYPE (mb b to) <> KING) /\
  (PIECE_COLOR (mb b to) = them -> stq_protected b them to (PIECE_TYPE (mb b to)) = false \/ pt = QUEEN).

Lemma target_takes (from to : Square) (pt capt promo : PieceType) (ca ep pr : bool) :
  on_board from -> on_board to -> target_ok pt to ->
  takes_ok b (move_encode from to pt capt ca ep pr promo).
Proof.
  intros Hf Hto [H1 H2] _ _. constructor; rewrite ?MOVE_TO_encode, ?MOVE_PIECE_encode by done; [done|].
  intros Ec Em Et Eh Hq. destruct (H2 Ec) as [Hs|?]; [|done]. unfold stq_protected in Hs.
  rewrite Em, Et, Eh in Hs. cbn in Hs. apply negb_false_iff in Hs. by apply Z.eqb_eq.
Qed.

Lemma promos_take (sq to : Square) (capt : PieceType) (promos : list PieceType) :
  on_board sq -> on_board to -> capt = PIECE_NONE \/ target_ok PAWN to ->
  Forall (takes_ok b) (raw_promos sq to capt promos).
Proof.
  intros Hs Hto Hc. apply Forall_map, List.Forall_forall. intros p _.
  destruct Hc as [->|Hc]; [by apply quiet_takes|by apply target_takes].
Qed.

Lemma pushes_take (co : bool) (dir rank2 rank7 : Z) (sq : Square) :
  dir = 1 /\ rank2 = 1 \/ dir = -1 /\ rank2 = 6 -> on_board sq ->
  Forall (takes_ok b) (raw_pushes b co us dir rank2 rank7 sq).
Proof.
  intros Hdir Hs. unfold raw_pushes. destruct (_ && _ && _) eqn:E; [|done].
  rewrite !andb_true_iff, SQ_VALID_spec in E. destruct E as [[_ Hv] _].
  destruct (_ =? rank7); [apply promos_take; auto|].
  constructor; [by apply quiet_takes|]. destruct (_ && _) eqn:E2; [|done].
  apply andb_true_iff in E2 as [E2%Z.eqb_eq _]. constructor; [|done].
  apply quiet_takes; [done|]. pose proof (SQ_COL_bound sq). apply SQ_on_board; lia.
Qed.

Lemma captures_take (dir rank7 : Z) (sq : Square) (dc : Z) :
  on_board sq -> Forall (takes_ok b) (raw_capture b us them dir rank7 sq dc).
Proof.
  intros Hs. unfold raw_capture. set (to := SQ _ _). destruct (_ || _); [done|].
  destruct (SQ_VALID to) eqn:Hv; cbn [negb]; [|done]. apply SQ_VALID_spec in Hv.
  set (enemy := negb _ && (_ == them)). destruct (enemy && _) eqn:Eg; [done|].
  assert (forall c capt promos, target_ok PAWN to ->
    Forall (takes_ok b) (if c : bool then raw_promos sq to capt promos
                         else [move_capture sq to PAWN capt])) as Hmoves.
  { intros c capt promos Hok. destruct c; [apply promos_take; auto|].
    constructor; [|done]. by apply target_takes. }
  apply Forall_app. split; [|apply Forall_app; split].
  - destruct enemy eqn:Ee; [|done]. apply Hmoves. unfold enemy in Ee.
    apply andb_true_iff in Ee as [_ Ee%bool_decide_eq_true]. cbn [andb] in Eg.
    apply orb_false_iff in Eg as [_ Eg]. split; [|by left]. intros E. exfalso.
    apply sides_differ. congruence.
  - destruct (ff_target b us to) eqn:Ef; [|done]. apply Hmoves. unfold ff_target in Ef.
    rewrite !andb_true_iff, !bool_decide_eq_true, negb_true_iff, BB_HAS_testbit in Ef by sq_lia.
    destruct Ef as [[[[Em _] Ec] Ek] Eb]. apply negb_true_iff, bool_decide_eq_false in Ek.
    split; [done|]. intros E. exfalso. apply sides_differ. congruence.
  - destruct (_ && (_ && _)); [|done]. constructor; [|done].
    intros E. by rewrite MOVE_IS_EP_encode in E.
Qed.

Lemma merc_take (co truce : bool) (sq : Square) :
  b_mod b = MOD_MERCENARY -> on_board sq -> Forall (takes_ok b) (raw_merc_pawn b co truce them sq).
Proof.
  intros Hm Hs. apply Forall_app. split.
  - destruct (negb co); [|done]. apply Forall_map, List.Forall_forall. intros to Hin.
    apply In_squares_land in Hin as (Hto & _ & _); [|auto with board]. by apply quiet_takes.
  - destruct (negb truce); [|done]. apply List.Forall_forall. intros m (to & Hin & Hm')%in_flat_map.
    apply In_squares_land in Hin as (Hto & _ & Hb); [|auto with board].
    rewrite occ_testbit, bool_decide_eq_true in Hb by auto with board.
    destruct (_ == KING); [done|]. destruct Hm' as [<-|[]]. apply target_takes; [done|done|].
    split; [intros E; exfalso; apply sides_differ; congruence|]. intros _. left.
    unfold stq_protected. by rewrite Hm.
Qed.

Lemma pawns_take (co : bool) : Forall (takes_ok b) (raw_pawn_moves b co).
Proof.
  apply List.Forall_forall. intros m (sq & Hin & Hm)%in_flat_map.
  apply own_squares_spec in Hin as [Hs _]; [|done|done]. revert m Hm. apply List.Forall_forall.
  unfold raw_pawn. destruct (bool_decide_reflect (b_mod b = MOD_MERCENARY)); [by apply merc_take|].
  apply Forall_app. split.
  - apply pushes_take; [|done]. destruct (us == WHITE); auto.
  - destruct (negb (truce_now b)); [|done]. cbn [flat_map]. rewrite app_nil_r.
    apply Forall_app. split; by apply captures_take.
Qed.

(** An escaped queen never aims at her own side. *)
Lemma stq_target_color (co : bool) (sq to : Square) :
  on_board sq -> on_board to -> Z.testbit (stq_own_targets b co us them sq) to = true ->
  PIECE_COLOR (mb b to) <> us.
Proof.
  intros Hs Hto Hb. pose proof (stq_own_targets_sub b Hg co sq to Hs Hto Hb) as [?|Hk]; [done|].
  revert Hb. unfold stq_own_targets. cbv zeta. set (pq := Z.land (pcs b them QUEEN) (stq_half us)).
  set (own := if co then _ else _).
  assert (Z.testbit own to = true -> PIECE_COLOR (mb b to) <> us) as Hown.
  { intros H. assert (Z.testbit (bb_not (occ b us)) to = true) as H'.
    { unfold own in H. destruct co; rewrite ?Z.land_spec, ?andb_true_iff in H; tauto. }
    rewrite bb_not_testbit, occ_testbit in H' by auto with board.
    by apply negb_true_iff, bool_decide_eq_false in H'. }
  destruct (bb_nonzero pq && _) eqn:E; [|done]. rewrite Z.lor_spec, orb_true_iff.
  intros [H|H]; [auto|]. apply andb_true_iff in E as [E _]. apply negb_true_iff, Z.eqb_neq in E.
  assert (0 <= pq < 2 ^ 64) as Hpq by (unfold pq; auto with board).
  destruct (bb_lsb_spec pq) as (Hl & Hlb & _); [unfold BB_EMPTY in *; lia|].
  rewrite BB_SQ_testbit in H by sq_lia. apply Z.eqb_eq in H as ->.
  unfold pq in Hlb at 1. rewrite Z.land_spec, andb_true_iff in Hlb. destruct Hlb as [Hlb _].
  rewrite pcs_testbit, Z.eqb_eq in Hlb by auto with board. rewrite Hlb, PIECE_COLOR_MAKE.
  pose proof sides_differ. congruence.
Qed.

Lemma quiets_take (sq : Square) (pt : PieceType) (x : Bitboard) :
  on_board sq -> 0 <= x < 2 ^ 64 -> Forall (takes_ok b) (raw_quiets sq pt x).
Proof.
  intros Hs Hx. apply Forall_map, List.Forall_forall. intros to Hin.
  apply elem_of_bb_squares in Hin as [Hto _]; [|done]. by apply quiet_takes.
Qed.

Lemma stq_take (co : bool) (sq : Square) :
  on_board sq -> Forall (takes_ok b) (raw_stq_queen b co us them sq).
Proof.
  intros Hs. unfold raw_stq_queen. destruct (negb (stq_is_own_half sq us)).
  { destruct (negb co); [|done]. apply quiets_take; auto with board. }
  apply Forall_app. split.
  - apply List.Forall_forall. intros m (to & Hin & Hm)%in_flat_map.
    apply elem_of_bb_squares in Hin as [Hto Hb]; [|by apply stq_own_targets_bound].
    apply stq_target_color in Hb; [|done|done]. unfold raw_stq_emit in Hm.
    repeat case_match; try done; destruct Hm as [<-|[]]; [|by apply quiet_takes].
    apply target_takes; [done|done|]. split; [done|by right].
  - destruct (negb co); [|done]. apply quiets_take; auto with board.
Qed.

Lemma emit_take (pt : PieceType) (sq to : Square) :
  on_board sq -> on_board to ->
  Z.testbit (filtered_targets b pt false us them sq) to = true ->
  Forall (takes_ok b) (raw_emit b pt them sq to).
Proof.
  intros Hs Hto Hb. pose proof (filtered_own b pt sq to Hto Hb) as Ho.
  unfold raw_emit. destruct (negb _); [|constructor; [by apply quiet_takes|done]].
  destruct (_ && _); [done|]. destruct (stq_protected _ _ _ _) eqn:Est; [done|].
  constructor; [|done]. apply target_takes; [done|done|]. split; [|by left]. intros Ec.
  assert (Z.testbit (occ b us) to = true) as Hocc
    by (rewrite occ_testbit, bool_decide_eq_true by auto with board; done).
  destruct (bool_decide_reflect (b_mod b = MOD_FRIENDLY_FIRE)) as [Em|Em].
  - destruct (Ho Hocc) as [Hf Hk]. split_and!; [done|done|]. intros Et.
    rewrite pcs_testbit in Hk by auto with board. apply Z.eqb_neq in Hk. apply Hk.
    rewrite <- Ec, <- Et. destruct (mb_valid b Hi2 to Hto) as [E|(c & t & _ & _ & ->)].
    + rewrite E in Ec. pose proof Hu2. by destruct (b_side b).
    + by rewrite PIECE_COLOR_MAKE, PIECE_TYPE_MAKE.
  - congruence.
Qed.

Lemma pieces_take (pt : PieceType) :
  real_type pt -> Forall (takes_ok b) (raw_piece_moves b pt false).
Proof.
  intros Hpt. unfold raw_piece_moves. destruct (kb_locked b pt); [done|].
  apply List.Forall_forall. intros m (sq & Hin & Hm)%in_flat_map.
  apply own_squares_spec in Hin as [Hs _]; [|done|done]. revert m Hm. apply List.Forall_forall.
  unfold raw_piece. destruct (_ && _); [by apply stq_take|].
  apply List.Forall_forall. intros m (to & Hin & Hm)%in_flat_map.
  apply elem_of_bb_squares in Hin as [Hto Hb]; [|by apply filtered_targets_bound].
  revert m Hm. apply List.Forall_forall. by apply emit_take.
Qed.

Lemma castling_take : Forall (takes_ok b) (raw_castling b).
Proof.
  apply List.Forall_forall. intros m (from & to & right & _ & Hin & ->)%castling_shape; [|done].
  cbn [In] in Hin. destruct Hin as [E|[E|[E|[E|[]]]]]; injection E as <- _ <- <-;
    apply quiet_takes; unfold on_board; vm_compute; split; congruence.
Qed.

Lemma pseudo_take : Forall (takes_ok b) (raw_pseudo b).
Proof.
  unfold raw_pseudo. repeat (apply Forall_app; split);
    auto using pawns_take, castling_take; by apply pieces_take.
Qed.
End Takes.

Lemma generated_take (b : Board) (m : Move) :
  game_inv b -> history_ok b -> In m (generate_moves b) -> takes_ok b m.
Proof.
  intros Hg Hh Hin. pose proof (pseudo_take b Hg) as H. rewrite List.Forall_forall in H.
  by apply H, generated_raw.
Qed.

(** A prisoner taken by a pawn, an officer or the king is back in prison. *)
Lemma prisoner_returns (b : Board) (m : Move) :
  game_inv b -> history_ok b -> In m (generate_moves b) -> b_mod b = MOD_SAVE_QUEEN ->
  MOVE_IS_EP m = false -> MOVE_IS_CAPTURE m = true -> MOVE_PIECE m <> QUEEN ->
  mb b (MOVE_TO m) = PIECE_MAKE (color_opposite (b_side b)) QUEEN ->
  stq_is_own_half (MOVE_TO m) (color_opposite (b_side b)) = false ->
  mb (board_make_move b m) (prison_of (color_opposite (b_side b))) =
  PIECE_MAKE (color_opposite (b_side b)) QUEEN.
Proof.
  intros Hg Hh Hin Hm Eep Ecap Hq E Hh'.
  destruct (generated_take b m Hg Hh Hin Eep Ecap) as [_ Hpr].
  rewrite E, PIECE_COLOR_MAKE, PIECE_TYPE_MAKE in Hpr. specialize (Hpr eq_refl Hm eq_refl Hh' Hq).
  pose proof (generated_fits b Hg Hh m Hin) as Hfit. pose proof (gi_board b Hg) as Hinv.
  assert (reprisons b m = true) as Er.
  { unfold reprisons. rewrite Eep, Ecap, Hm, E, Hh', Hpr, PIECE_TYPE_MAKE. cbn [negb andb].
    rewrite (proj2 (Z.eqb_neq _ _)); [done|]. apply PIECE_MAKE_not_empty, Hthem, Hg. }
  destruct (reprison_facts b m Hfit Er) as (_ & _ & Ec & _ & Hto & Hfrom).
  destruct (made b m Hg Hh (generated_playable b m Hg Hh Hin)) as [h ->].
  change (mb (board_after b m h) ?s) with ((mailbox_after b m).[s]).
  unfold mailbox_after, after_castle, after_piece, after_captures. rewrite Ec, Eep, Ecap, Er.
  rewrite !znth_zset_ne by done. pose proof (inv_mailbox b Hinv).
  by rewrite znth_zset_eq by (rewrite in_range_zset; auto with board).
Qed.
