(* ===== verification/PositionTheorems.v ===== *)
(** * Theorems about positions and moves

    The properties of the board, the move generators, the rules of the
    variants, FEN and hashing, each with a concrete instance where it has
    hypotheses. *)

From Stdlib Require Import String.
From stdpp Require Import base numbers list option relations.
From Stdlib Require Import ZArith Lia Bool List.
From S2P Require Import Prelude Types Board Zobrist Attacks Make Movegen MovegenFacts MovegenSound Game Captures Fen FenRound Decide ClassicRules Variants.

(** ** Lines and positions the instances use *)

Definition open_game : list Move :=
  [move_simple (SQ 1 4) (SQ 3 4) PAWN; move_simple (SQ 6 4) (SQ 4 4) PAWN;
   move_simple (SQ 0 6) (SQ 2 5) KNIGHT].

(** A middlegame with castling on both sides and an en-passant square. *)
Definition middlegame : Board :=
  position "r3k2r/ppp2ppp/2n5/3pP3/8/2N5/PPP2PPP/R3K2R w KQkq d6 0 9" MOD_CLASSIC.

Definition truce_start : Board := set_b_truce_active true (start MOD_TRUCE).

(** ** Legal moves of the standard game *)

(** C1: In the classic variant the generator is sound and complete: a move is
    in [generate_moves] exactly when it is a move by the rules of chess and
    leaves the mover's king unattacked (the list holds 256 moves, so the
    position must not have more pseudo-legal ones). *)
Theorem classic_generation (b : Board) (m : Move) :
  play_inv b -> b_mod b = MOD_CLASSIC -> history_ok b -> (length (raw_pseudo b) <= 256)%nat ->
  In m (generate_moves b) <-> classic_move b m /\ king_safe (board_make_move b m) (b_side b).
Proof. apply classic_legal. Qed.

Lemma classic_generation_witness :
  In (move_encode (SQ 4 4) (SQ 5 3) PAWN PAWN false true false PIECE_NONE) (generate_moves middlegame) <->
  classic_move middlegame (move_encode (SQ 4 4) (SQ 5 3) PAWN PAWN false true false PIECE_NONE) /\
  king_safe (board_make_move middlegame
    (move_encode (SQ 4 4) (SQ 5 3) PAWN PAWN false true false PIECE_NONE)) (b_side middlegame).
Proof.
  apply (classic_generation middlegame); [check|vm_compute; reflexivity|check|].
  apply Nat.leb_le. vm_compute. reflexivity.
Defined.

(** C2: Outside Heir, taking back a line of legal moves that fits the 512 entries
    of the undo stack restores the board, every field of it, up to entries of
    the undo stack that are not in use. *)
Theorem line_taken_back (b : Board) (ms : list Move) :
  play_inv b -> legal_line b ms -> same_game b (take_back (length ms) (play b ms)).
Proof. apply take_back_play. Qed.

Lemma line_taken_back_witness :
  same_game (start MOD_CLASSIC) (take_back (length open_game) (play (start MOD_CLASSIC) open_game)).
Proof. apply (line_taken_back (start MOD_CLASSIC) open_game); check. Defined.

(** C5: Every position reached by legal moves from the initial position of any
    variant but Heir has consistent bitboards, castling rights backed by king
    and rook, a capturable en-passant pawn and at most one king a side. *)
Theorem reachable_from_start (b0 s b : Board) (md : GameMod) :
  md <> MOD_HEIR -> board_init b0 md = Some s -> reachable s b -> play_inv b.
Proof.
  intros Hm Hs Hr. apply board_init_start in Hs as ->. eapply reachable_play_inv; [|exact Hr].
  by apply start_play.
Qed.

Lemma reachable_from_start_witness :
  play_inv (play (start MOD_MERCENARY) [move_simple (SQ 1 4) (SQ 2 4) PAWN]).
Proof.
  apply (reachable_from_start blank (start MOD_MERCENARY) _ MOD_MERCENARY); [discriminate| |].
  - vm_compute. reflexivity.
  - apply legal_line_reachable. check.
Defined.

(** C6: [board_square_attacked], which looks outwards from the target, answers
    whether some piece of the given colour attacks it by the rule of its own
    type from its own square, with the special attackers of Mercenary, King's
    Battle and Save the Queen. *)
Theorem attack_query (b : Board) (c : Color) (sq : Square) :
  board_inv b -> real_color c -> on_board sq ->
  board_square_attacked b sq c = true <->
  exists from, on_board from /\ attacks_from b c from sq.
Proof. intros. by apply square_attacked_spec. Qed.

Lemma attack_query_witness :
  board_square_attacked middlegame (SQ 5 3) WHITE = true <->
  exists from, on_board from /\ attacks_from middlegame WHITE from (SQ 5 3).
Proof. apply (attack_query middlegame); [check|discriminate|apply SQ_on_board; lia]. Defined.

(** C7: [board_make_move] implements the abstract move: on a pseudo-legal move
    of a consistent board its whole effect is [board_after], which gives every
    field of the new board from the mailbox and the old fields. *)
Theorem make_refines (b : Board) (m : Move) :
  game_inv b -> history_ok b -> In m (pseudo_moves b) ->
  board_make_move b m =
  board_after b m (zobrist_compute zob_keys (board_after b m (b_hash b))).
Proof.
  intros Hg Hh Hin. apply make_normal; [apply Hg| |done].
  pose proof (pseudo_fits b Hg) as H. rewrite List.Forall_forall in H. auto.
Qed.

Lemma make_refines_witness :
  let m := move_encode (SQ 0 4) (SQ 0 6) KING PIECE_NONE true false false PIECE_NONE in
  board_make_move middlegame m =
  board_after middlegame m (zobrist_compute zob_keys (board_after middlegame m (b_hash middlegame))).
Proof.
  intros m. apply (make_refines middlegame m); [check|check|].
  check.
Defined.

(** C10: In every variant but Heir, and outside an active truce, the legal moves
    are the pseudo-legal ones after which no king of the mover is attacked. *)
Theorem legality (b : Board) (m : Move) :
  play_inv b -> history_ok b -> truce_now b = false ->
  In m (generate_moves b) <->
  In m (pseudo_moves b) /\ king_safe (board_make_move b m) (b_side b).
Proof. apply legal_king_safe. Qed.

Lemma legality_witness :
  let m := move_simple (SQ 1 4) (SQ 3 4) PAWN in
  In m (generate_moves (start MOD_SUCCESSION)) <->
  In m (pseudo_moves (start MOD_SUCCESSION)) /\
  king_safe (board_make_move (start MOD_SUCCESSION) m) (b_side (start MOD_SUCCESSION)).
Proof.
  intros m. apply (legality (start MOD_SUCCESSION) m); [check|check|vm_compute; reflexivity].
Defined.

(** C11: [generate_captures] lists exactly the captures among the legal moves,
    in the same order, in every variant. *)
Theorem captures_are_the_captures (b : Board) :
  game_inv b -> history_ok b -> (length (raw_pseudo b) <= 256)%nat ->
  generate_captures b = List.filter MOVE_IS_CAPTURE (generate_moves b).
Proof. apply captures_of_moves. Qed.

Lemma captures_are_the_captures_witness :
  generate_captures middlegame = List.filter MOVE_IS_CAPTURE (generate_moves middlegame).
Proof.
  apply (captures_are_the_captures middlegame); [check|check|].
  apply Nat.leb_le. vm_compute. reflexivity.
Defined.

(** ** The variants *)

(** C13: During an active truce a legal move takes nothing, starts from a piece
    that has not moved yet, and leaves the opponent's king unattacked; and the
    pseudo-legal moves with that last property are legal. *)
Theorem truce_rules (b : Board) (m : Move) :
  play_inv b -> history_ok b -> truce_now b = true ->
  (In m (generate_moves b) <->
   In m (pseudo_moves b) /\ king_safe (board_make_move b m) (color_opposite (b_side b))) /\
  (In m (generate_moves b) ->
   MOVE_IS_CAPTURE m = false /\ BB_HAS (b_truce_frozen b) (MOVE_FROM m) = false /\
   BB_HAS (b_truce_frozen (board_make_move b m)) (MOVE_TO m) = true).
Proof.
  intros Hp Hh Ht. split; [by apply legal_truce|]. intros Hin.
  pose proof (MOVE_FROM_on_board m). pose proof (MOVE_TO_on_board m).
  rewrite !BB_HAS_testbit by sq_lia. split_and!.
  - by apply (truce_no_capture b m Hp Ht Hh Hin).
  - by apply (truce_from_fresh b m Hp Ht Hh Hin).
  - destruct (truce_made b m Hp Ht Hh Hin) as (h & -> & ->).
    apply (marks_arrival b m Hp Hh Hin).
Qed.

Lemma truce_rules_witness :
  let m := move_simple (SQ 1 4) (SQ 3 4) PAWN in
  (In m (generate_moves truce_start) <->
   In m (pseudo_moves truce_start) /\
   king_safe (board_make_move truce_start m) (color_opposite (b_side truce_start))) /\
  (In m (generate_moves truce_start) ->
   MOVE_IS_CAPTURE m = false /\ BB_HAS (b_truce_frozen truce_start) (MOVE_FROM m) = false /\
   BB_HAS (b_truce_frozen (board_make_move truce_start m)) (MOVE_TO m) = true).
Proof. intros m. apply (truce_rules truce_start m); [check|check|vm_compute; reflexivity]. Defined.

(** C22: A truce cannot be played forever: each move uses up a piece that had
    not moved, so a line of legal moves is at most as long as there are such
    pieces, and at most 64 moves. *)
Theorem truce_ends (b : Board) (ms : list Move) :
  play_inv b -> truce_now b = true -> legal_line b ms ->
  (length ms <= fresh_pieces b <= 64)%nat.
Proof.
  intros Hp Ht Hl. split; [by apply truce_line_bound|apply fresh_pieces_bound].
Qed.

Lemma truce_ends_witness : (length open_game <= fresh_pieces truce_start <= 64)%nat.
Proof. apply (truce_ends truce_start open_game); [check|vm_compute; reflexivity|check]. Defined.

(** C15: King's Battle, Phase 1, after any line of legal moves from its start:
    only kings and pawns move and nobody castles; the mover keeps the turn
    exactly when its king took a pawn; and the code begins Phase 2 exactly when
    a king took a pawn, a pawn promoted, or a king move that takes nothing
    follows five such moves in a row by either side, whether or not captures
    were possible. *)
Theorem kings_battle_phase1 (ms : list Move) (b : Board) (m : Move) :
  legal_line (start MOD_KINGS_BATTLE) ms -> b = play (start MOD_KINGS_BATTLE) ms ->
  kb_phase1 b = true -> history_ok b -> In m (generate_moves b) ->
  (MOVE_PIECE m = PAWN \/ MOVE_PIECE m = KING) /\ MOVE_IS_CASTLE m = false /\
  (b_side (board_make_move b m) = b_side b <-> kings_kill b m) /\
  (b_kb_unlocked (board_make_move b m) = true <->
   kings_kill b m \/ (MOVE_PIECE m = PAWN /\ MOVE_IS_PROMO m = true) \/
   (MOVE_PIECE m = KING /\ MOVE_IS_CAPTURE m = false /\ idle_run ms = 5)).
Proof.
  intros Hl Eb Hk Hh Hin. pose proof (start_play MOD_KINGS_BATTLE ltac:(discriminate)) as Hs.
  assert (kb_ok (start MOD_KINGS_BATTLE)) as Hs0 by (split; vm_compute; congruence).
  pose proof (legal_line_reachable _ _ Hl) as Hr. rewrite <- Eb in Hr.
  assert (play_inv b) as Hp by (by eapply reachable_play_inv).
  pose proof (reachable_kb_ok _ _ Hs Hs0 Hr) as Hok.
  assert (b_kb_idle_kings b = idle_run ms) as <-.
  { rewrite Eb in *. apply (kb_idle_line ms (start MOD_KINGS_BATTLE) 0); auto. }
  destruct (kb_locked_movers b m (pi_game b Hp) Hh Hin Hk) as [H1 H2].
  destruct (made b m (pi_game b Hp) Hh (generated_playable b m (pi_game b Hp) Hh Hin)) as [h ->].
  split_and!; [done|done| |by apply kb_unlock_iff].
  change (b_side (board_after b m h)) with (side_after b m).
  rewrite <- kb_bonus_iff by done. unfold side_after.
  pose proof (gi_side b (pi_game b Hp)). destruct (kb_bonus_after b m), (b_side b); done.
Qed.

(** Six king moves in a row that take nothing. *)
Definition king_walk : list Move :=
  [move_simple (SQ 1 4) (SQ 3 4) PAWN; move_simple (SQ 6 4) (SQ 4 4) PAWN;
   move_simple (SQ 0 4) (SQ 1 4) KING; move_simple (SQ 7 4) (SQ 6 4) KING;
   move_simple (SQ 1 4) (SQ 0 4) KING; move_simple (SQ 6 4) (SQ 7 4) KING;
   move_simple (SQ 0 4) (SQ 1 4) KING].

Lemma kings_battle_phase1_witness :
  let b := play (start MOD_KINGS_BATTLE) king_walk in
  let m := move_simple (SQ 7 4) (SQ 6 4) KING in
  b_kb_unlocked (board_make_move b m) = true /\
  (MOVE_PIECE m = PAWN \/ MOVE_PIECE m = KING) /\ MOVE_IS_CASTLE m = false /\
  (b_side (board_make_move b m) = b_side b <-> kings_kill b m) /\
  (b_kb_unlocked (board_make_move b m) = true <->
   kings_kill b m \/ (MOVE_PIECE m = PAWN /\ MOVE_IS_PROMO m = true) \/
   (MOVE_PIECE m = KING /\ MOVE_IS_CAPTURE m = false /\ idle_run king_walk = 5)).
Proof.
  intros b m. split; [vm_compute; reflexivity|].
  apply (kings_battle_phase1 king_walk b m); [check|reflexivity|vm_compute; reflexivity|check|check].
Defined.

(** C20: Friendly fire: a legal capture of an own piece happens in that variant
    only, and takes a piece that has moved and is not the king. *)
Theorem friendly_fire_captures (b : Board) (m : Move) :
  game_inv b -> history_ok b -> In m (generate_moves b) ->
  MOVE_IS_EP m = false -> MOVE_IS_CAPTURE m = true ->
  PIECE_COLOR (mb b (MOVE_TO m)) = b_side b ->
  b_mod b = MOD_FRIENDLY_FIRE /\ BB_HAS (b_ff_moved b) (MOVE_TO m) = true /\
  PIECE_TYPE (mb b (MOVE_TO m)) <> KING.
Proof.
  intros Hg Hh Hin He Hc Hown. pose proof (MOVE_TO_on_board m).
  rewrite BB_HAS_testbit by sq_lia. by apply (generated_take b m Hg Hh Hin He Hc).
Qed.

(** The white knight on f3 has moved; the e-pawn's neighbour may take it. *)
Definition friendly : Board := play (start MOD_FRIENDLY_FIRE)
  [move_simple (SQ 0 6) (SQ 2 5) KNIGHT; move_simple (SQ 6 4) (SQ 5 4) PAWN].

Lemma friendly_fire_captures_witness :
  let m := move_capture (SQ 1 4) (SQ 2 5) PAWN KNIGHT in
  b_mod friendly = MOD_FRIENDLY_FIRE /\ BB_HAS (b_ff_moved friendly) (MOVE_TO m) = true /\
  PIECE_TYPE (mb friendly (MOVE_TO m)) <> KING.
Proof.
  intros m. apply (friendly_fire_captures friendly m); [check|check| |vm_compute; reflexivity..].
  check.
Defined.

(** C21: Save the Queen: a prisoner queen taken by a pawn, an officer or a king
    is not lost, it stands in its prison after the move. *)
Theorem prisoner_back_in_prison (b : Board) (m : Move) :
  game_inv b -> history_ok b -> In m (generate_moves b) -> b_mod b = MOD_SAVE_QUEEN ->
  MOVE_IS_EP m = false -> MOVE_IS_CAPTURE m = true -> MOVE_PIECE m <> QUEEN ->
  mb b (MOVE_TO m) = PIECE_MAKE (color_opposite (b_side b)) QUEEN ->
  stq_is_own_half (MOVE_TO m) (color_opposite (b_side b)) = false ->
  mb (board_make_move b m) (prison_of (color_opposite (b_side b))) =
  PIECE_MAKE (color_opposite (b_side b)) QUEEN.
Proof. apply prisoner_returns. Qed.

(** The black queen has left d1 for e2, where the white king takes it. *)
Definition prison_break : Board := position "4k3/8/8/8/8/8/4q3/4K3 w - - 0 1" MOD_SAVE_QUEEN.

Lemma prisoner_back_in_prison_witness :
  mb (board_make_move prison_break (move_capture (SQ 0 4) (SQ 1 4) KING QUEEN))
     (prison_of (color_opposite (b_side prison_break))) =
  PIECE_MAKE (color_opposite (b_side prison_break)) QUEEN.
Proof.
  apply (prisoner_back_in_prison prison_break (move_capture (SQ 0 4) (SQ 1 4) KING QUEEN));
    [check|check| |vm_compute; reflexivity..| | |]; [|vm_compute; discriminate|vm_compute; reflexivity..].
  check.
Defined.

(** ** FEN *)

(** C18: Writing a position as FEN and reading it back gives the same position
    (pieces, side, castling, en passant, clocks) with a fresh history, whatever
    board it is read into; the text has at most 103 characters, so a buffer of
    104 bytes is enough. *)
Theorem fen_round_trip (b0 b : Board) (bufsize : Z) :
  fen_ok b -> 104 <= bufsize ->
  exists text, board_get_fen b bufsize = Some text /\ board_set_fen b0 text = Some (fen_copy b).
Proof. apply write_fen. Qed.

Lemma fen_round_trip_witness :
  exists text, board_get_fen middlegame 104 = Some text /\
               board_set_fen blank text = Some (fen_copy middlegame).
Proof.
  apply (fen_round_trip blank middlegame 104); [|lia].
  constructor; [check|vm_compute; discriminate|vm_compute; split; congruence| |
                vm_compute; split; congruence..].
  right. vm_compute. split; congruence.
Defined.

(** C19: Whatever string it is given, when [board_set_fen] does not leave the
    string, overflow an [int] counter or index the en-passant keys outside the
    board (a field such as a9 or a0), the cases in which the C program is
    undefined, it leaves a consistent board: bitboards that agree with the
    mailbox, castling rights in range, an en-passant square on the board or
    none, counters that fit an [int], a move number of at least 1, no flag of a
    variant set, an empty history and the hash of the position. *)
Theorem fen_any_string (b0 b : Board) (fen : list Z) :
  board_set_fen b0 fen = Some b -> fresh_board b.
Proof. apply board_set_fen_fresh. Qed.

Lemma fen_any_string_witness :
  fresh_board (position "9x/8/qQ/ppppppppppp/8/8/zz w QQ - 007" MOD_CLASSIC).
Proof.
  apply (fen_any_string blank _ (chars "9x/8/qQ/ppppppppppp/8/8/zz w QQ - 007")).
  vm_compute. reflexivity.
Defined.

(** ** Primitives *)

(** C28: Packing a move into 32 bits loses nothing: each accessor gives back
    the component it was built from. *)
Theorem move_fields (from to : Square) (piece captured promo : PieceType)
    (castle ep is_promo : bool) :
  on_board from -> on_board to ->
  let m := move_encode from to piece captured castle ep is_promo promo in
  0 <= m < 2 ^ 24 /\ MOVE_FROM m = from /\ MOVE_TO m = to /\ MOVE_PIECE m = piece /\
  MOVE_CAPTURED m = captured /\ MOVE_IS_CASTLE m = castle /\ MOVE_IS_EP m = ep /\
  MOVE_IS_PROMO m = is_promo /\ MOVE_PROMO_TYPE m = promo.
Proof.
  intros Hf Ht m. split_and!; [| |apply MOVE_FROM_encode|apply MOVE_TO_encode|apply MOVE_PIECE_encode
    |apply MOVE_CAPTURED_encode|apply MOVE_IS_CASTLE_encode|apply MOVE_IS_EP_encode
    |apply MOVE_IS_PROMO_encode|apply MOVE_PROMO_TYPE_encode]; try done; unfold m;
    rewrite move_encode_sum by done; unfold on_board in *;
    pose proof (PieceType_to_Z_bound piece); pose proof (PieceType_to_Z_bound captured);
    pose proof (PieceType_to_Z_bound promo); destruct castle, ep, is_promo; simpl Z.b2z; lia.
Qed.

Lemma move_fields_witness :
  let m := move_encode 52 61 PAWN ROOK false false true KING in
  0 <= m < 2 ^ 24 /\ MOVE_FROM m = 52 /\ MOVE_TO m = 61 /\ MOVE_PIECE m = PAWN /\
  MOVE_CAPTURED m = ROOK /\ MOVE_IS_CASTLE m = false /\ MOVE_IS_EP m = false /\
  MOVE_IS_PROMO m = true /\ MOVE_PROMO_TYPE m = KING.
Proof. apply (move_fields 52 61 PAWN ROOK KING false false true); unfold on_board; lia. Defined.

(** C29: The while-loop over a bitboard ([bb_pop_lsb] until it is zero) visits
    exactly the set bits, each once, from the lowest to the highest. *)
Theorem bitboard_loop (bb : Bitboard) :
  0 <= bb < 2 ^ 64 -> bb_squares bb = List.filter (Z.testbit bb) (seqZ 0 64).
Proof. apply bb_squares_filter. Qed.

Lemma bitboard_loop_witness :
  bb_squares 0x8000000000001001 = List.filter (Z.testbit 0x8000000000001001) (seqZ 0 64).
Proof. apply (bitboard_loop 0x8000000000001001). lia. Defined.

(** C30: The ray loops of [bishop_attacks_calc] and [rook_attacks_calc] compute
    the squares on a diagonal or on a rank or file with nothing in between, and
    the relation they compute is symmetric. *)
Theorem sliding_attacks (occ sq n : Z) :
  on_board sq -> on_board n ->
  (Z.testbit (bishop_attacks_calc sq occ) n = true <-> slides bishop_dirs occ sq n) /\
  (Z.testbit (rook_attacks_calc sq occ) n = true <-> slides rook_dirs occ sq n) /\
  Z.testbit (bishop_attacks_calc sq occ) n = Z.testbit (bishop_attacks_calc n occ) sq /\
  Z.testbit (rook_attacks_calc sq occ) n = Z.testbit (rook_attacks_calc n occ) sq.
Proof.
  intros Hs Hn. pose proof bishop_dirs_good as Hb. pose proof rook_dirs_good as Hr.
  unfold bishop_attacks_calc, rook_attacks_calc.
  split_and!; auto using slide_dirs_sym; apply slide_dirs_spec; auto; sq_lia.
Qed.

Lemma sliding_attacks_witness :
  (Z.testbit (bishop_attacks_calc 0 0x0000001000000000) 36 = true <->
     slides bishop_dirs 0x0000001000000000 0 36) /\
  (Z.testbit (rook_attacks_calc 0 0x0000001000000000) 36 = true <->
     slides rook_dirs 0x0000001000000000 0 36) /\
  Z.testbit (bishop_attacks_calc 0 0x0000001000000000) 36 =
    Z.testbit (bishop_attacks_calc 36 0x0000001000000000) 0 /\
  Z.testbit (rook_attacks_calc 0 0x0000001000000000) 36 =
    Z.testbit (rook_attacks_calc 36 0x0000001000000000) 0.
Proof. apply (sliding_attacks 0x0000001000000000 0 36); unfold on_board; lia. Defined.

(** ** Hashing *)

(** C31: [zobrist_init] draws 853 keys from its generator, all non-zero 64-bit
    numbers and pairwise distinct, so that putting a piece on a free square
    always changes the hash: by the piece's own key. *)
Theorem zobrist_separates (b : Board) (sq : Square) (c : Color) (t : PieceType) :
  board_inv b -> on_board sq -> real_color c -> real_type t -> mb b sq = PIECE_EMPTY ->
  zobrist_init zob_start = zob_keys /\ length (zob_all_keys zob_keys) = 853%nat /\
  Forall (fun k => 0 < k < 2 ^ 64) (zob_all_keys zob_keys) /\ List.NoDup (zob_all_keys zob_keys) /\
  zobrist_compute zob_keys (board_place b sq c t) =
    Z.lxor (zobrist_compute zob_keys b) (piece_key zob_keys c t sq) /\
  zobrist_compute zob_keys (board_place b sq c t) <> zobrist_compute zob_keys b.
Proof.
  intros Hinv Hs Hc Ht He. pose proof zob_keys_good as (H1 & H2 & H3 & H4).
  split_and!; [done..|by apply zobrist_place|]. rewrite zobrist_place by done. intros E.
  assert (piece_key zob_keys c t sq = 0) as E0.
  { apply (f_equal (Z.lxor (zobrist_compute zob_keys b))) in E.
    by rewrite <- Z.lxor_assoc, Z.lxor_nilpotent in E. }
  pose proof (piece_key_nonzero c t sq Hc Ht Hs). lia.
Qed.

Lemma zobrist_separates_witness :
  zobrist_init zob_start = zob_keys /\ length (zob_all_keys zob_keys) = 853%nat /\
  Forall (fun k => 0 < k < 2 ^ 64) (zob_all_keys zob_keys) /\ List.NoDup (zob_all_keys zob_keys) /\
  zobrist_compute zob_keys (board_place middlegame 27 WHITE QUEEN) =
    Z.lxor (zobrist_compute zob_keys middlegame) (piece_key zob_keys WHITE QUEEN 27) /\
  zobrist_compute zob_keys (board_place middlegame 27 WHITE QUEEN) <> zobrist_compute zob_keys middlegame.
Proof.
  apply (zobrist_separates middlegame 27 WHITE QUEEN);
    [check|unfold on_board; lia|discriminate|discriminate|vm_compute; reflexivity].
Defined.

(** C32: The hash of the root position is stale whenever a flag of the variant is
    set: [board_set_fen] hashes the board before the bridge sets the flags, and
    nothing hashes it again.  After the set-up the stored hash differs from the
    one [zobrist_compute] gives the position by the keys of the flags, and it is
    right exactly when no king was promoted and [truce_active], which in King's
    Battle says that Phase 2 has begun, is zero. *)
Theorem root_hash_stale (b0 b : Board) (fen : list Z) (md : GameMod) (hw hb ta tf : Z) :
  engine_setup b0 fen md hw hb ta tf = Some b ->
  zobrist_compute zob_keys b = Z.lxor (b_hash b) (flag_keys b) /\
  (b_hash b = zobrist_compute zob_keys b <-> hw = 0 /\ hb = 0 /\ ta = 0).
Proof.
  intros E. destruct (setup_hash b0 b fen md hw hb ta tf E) as [Ez Hz]. split; [done|].
  rewrite Ez, <- Hz. split; [|intros ->; by rewrite Z.lxor_0_r]. intros H.
  apply (f_equal (Z.lxor (b_hash b))) in H. rewrite <- Z.lxor_assoc, Z.lxor_nilpotent in H. done.
Qed.

(** The initial position of King's Battle, Phase 2, as the bridge sets it up. *)
Definition kb_root : Board := default blank (engine_setup blank startpos MOD_KINGS_BATTLE 0 0 1 0).

Lemma root_hash_stale_witness :
  zobrist_compute zob_keys kb_root = Z.lxor (b_hash kb_root) (flag_keys kb_root) /\
  (b_hash kb_root = zobrist_compute zob_keys kb_root <-> 0 = 0 /\ 0 = 0 /\ 1 = 0).
Proof.
  apply (root_hash_stale blank kb_root startpos MOD_KINGS_BATTLE 0 0 1 0). vm_compute. reflexivity.
Defined.

(** C33: The hash does not determine the legal moves of a truce: it is the same
    whichever pieces have moved, and yet once every piece of the side to move
    has, there is no legal move. *)
Theorem hash_ignores_frozen (b : Board) (moved : Bitboard) :
  play_inv b -> truce_now b = true -> history_ok b ->
  (forall sq, on_board sq -> PIECE_COLOR (mb b sq) = b_side b -> Z.testbit moved sq = true) ->
  zobrist_compute zob_keys (set_b_truce_frozen moved b) = zobrist_compute zob_keys b /\
  generate_moves (set_b_truce_frozen moved b) = [].
Proof. intros Hp Ht Hh Hm. split; [done|]. by apply all_frozen_no_moves. Qed.

Lemma hash_ignores_frozen_witness :
  generate_moves truce_start <> [] /\
  zobrist_compute zob_keys (set_b_truce_frozen 0xffff truce_start) = zobrist_compute zob_keys truce_start /\
  generate_moves (set_b_truce_frozen 0xffff truce_start) = [].
Proof.
  split; [intros E; apply (f_equal (@length Move)) in E; revert E; vm_compute; discriminate|].
  apply (hash_ignores_frozen truce_start 0xffff); [check|vm_compute; reflexivity|check|].
  intros sq Hs. apply (forall_range (fun sq => negb (PIECE_COLOR (mb truce_start sq) == b_side truce_start) ||
    Z.testbit 0xffff sq) 64) in Hs; [|vm_compute; reflexivity].
  intros E. rewrite E in Hs. rewrite bool_decide_eq_true_2 in Hs by reflexivity. exact Hs.
Defined.

(** ** Heir Recast

    Why the claims leave Heir out. *)

(** White castles short while the black queen walks in and takes the king. *)
Definition heir_line : list Move :=
  [ move_simple (SQ 0 6) (SQ 2 5) KNIGHT; move_simple (SQ 6 4) (SQ 5 4) PAWN;
    move_simple (SQ 1 4) (SQ 3 4) PAWN; move_simple (SQ 7 3) (SQ 4 6) QUEEN;
    move_simple (SQ 0 5) (SQ 1 4) BISHOP; move_capture (SQ 4 6) (SQ 1 6) QUEEN PAWN;
    move_simple (SQ 1 0) (SQ 2 0) PAWN; move_capture (SQ 1 6) (SQ 1 5) QUEEN PAWN;
    move_simple (SQ 2 0) (SQ 3 0) PAWN; move_capture (SQ 1 5) (SQ 0 4) QUEEN KING ].

Definition heir_castle : Move :=
  move_encode (SQ 0 4) (SQ 0 6) KING PIECE_NONE true false false PIECE_NONE.

Definition heir_position : Board := play (start MOD_HEIR) heir_line.

(** A side keeps its castling rights when its king is taken on the home square:
    after the line White has no king and Black's queen stands on e1, and yet
    castling is generated as a legal move; it makes a white king appear, removes
    the black queen, and taking it back does not restore the queen. *)
Example heir_castles_without_king :
  legal_line (start MOD_HEIR) heir_line /\
  has_king heir_position WHITE = false /\
  mb heir_position (SQ 0 4) = PIECE_MAKE BLACK QUEEN /\
  In heir_castle (generate_moves heir_position) /\
  has_king (board_make_move heir_position heir_castle) WHITE = true /\
  pcs (board_make_move heir_position heir_castle) BLACK QUEEN = BB_EMPTY /\
  mb (board_unmake_move (board_make_move heir_position heir_castle)) (SQ 0 4) =
    PIECE_MAKE WHITE KING.
Proof. split_and!; [check| | |check|..]; vm_compute; reflexivity. Qed.
