(* ===== verification/EvalTables.v ===== *)
(** * Evaluation tables ([eval_common.c] and the per-variant eval files)

    Material values and piece-square tables, row 0 first, from White's side. *)

From stdpp Require Import base list.
From Stdlib Require Import ZArith.
From S2P Require Import Prelude.

Definition MATERIAL : list Z :=
  [100; 320; 330; 500; 900; 0].

Definition PST_PAWN : list Z :=
  [0; 0; 0; 0; 0; 0; 0; 0;
   5; 10; 10; -20; -20; 10; 10; 5;
   5; -5; -10; 0; 0; -10; -5; 5;
   0; 0; 0; 20; 20; 0; 0; 0;
   5; 5; 10; 25; 25; 10; 5; 5;
   10; 10; 20; 30; 30; 20; 10; 10;
   50; 50; 50; 50; 50; 50; 50; 50;
   0; 0; 0; 0; 0; 0; 0; 0].

Definition PST_KNIGHT : list Z :=
  [-50; -40; -30; -30; -30; -30; -40; -50;
   -40; -20; 0; 5; 5; 0; -20; -40;
   -30; 5; 10; 15; 15; 10; 5; -30;
   -30; 0; 15; 20; 20; 15; 0; -30;
   -30; 5; 15; 20; 20; 15; 5; -30;
   -30; 0; 10; 15; 15; 10; 0; -30;
   -40; -20; 0; 0; 0; 0; -20; -40;
   -50; -40; -30; -30; -30; -30; -40; -50].

Definition PST_BISHOP : list Z :=
  [-20; -10; -10; -10; -10; -10; -10; -20;
   -10; 5; 0; 0; 0; 0; 5; -10;
   -10; 10; 10; 10; 10; 10; 10; -10;
   -10; 0; 10; 10; 10; 10; 0; -10;
   -10; 5; 5; 10; 10; 5; 5; -10;
   -10; 0; 5; 10; 10; 5; 0; -10;
   -10; 0; 0; 0; 0; 0; 0; -10;
   -20; -10; -10; -10; -10; -10; -10; -20].

Definition PST_ROOK : list Z :=
  [0; 0; 0; 5; 5; 0; 0; 0;
   -5; 0; 0; 0; 0; 0; 0; -5;
   -5; 0; 0; 0; 0; 0; 0; -5;
   -5; 0; 0; 0; 0; 0; 0; -5;
   -5; 0; 0; 0; 0; 0; 0; -5;
   -5; 0; 0; 0; 0; 0; 0; -5;
   5; 10; 10; 10; 10; 10; 10; 5;
   0; 0; 0; 0; 0; 0; 0; 0].

Definition PST_QUEEN : list Z :=
  [-20; -10; -10; -5; -5; -10; -10; -20;
   -10; 0; 5; 0; 0; 0; 0; -10;
   -10; 5; 5; 5; 5; 5; 0; -10;
   0; 0; 5; 5; 5; 5; 0; -5;
   -5; 0; 5; 5; 5; 5; 0; -5;
   -10; 0; 5; 5; 5; 5; 0; -10;
   -10; 0; 0; 0; 0; 0; 0; -10;
   -20; -10; -10; -5; -5; -10; -10; -20].

Definition PST_KING_MG : list Z :=
  [20; 30; 10; 0; 0; 10; 30; 20;
   20; 20; 0; 0; 0; 0; 20; 20;
   -10; -20; -20; -20; -20; -20; -20; -10;
   -20; -30; -30; -40; -40; -30; -30; -20;
   -30; -40; -40; -50; -50; -40; -40; -30;
   -30; -40; -40; -50; -50; -40; -40; -30;
   -30; -40; -40; -50; -50; -40; -40; -30;
   -30; -40; -40; -50; -50; -40; -40; -30].

Definition PST_KING_EG : list Z :=
  [-50; -30; -30; -30; -30; -30; -30; -50;
   -30; -30; 0; 0; 0; 0; -30; -30;
   -30; -10; 20; 30; 30; 20; -10; -30;
   -30; -10; 30; 40; 40; 30; -10; -30;
   -30; -10; 30; 40; 40; 30; -10; -30;
   -30; -10; 20; 30; 30; 20; -10; -30;
   -30; -20; -10; 0; 0; -10; -20; -30;
   -50; -40; -30; -20; -20; -30; -40; -50].

Definition PST_MERC_PAWN : list Z :=
  [0; 0; 0; 0; 0; 0; 0; 0;
   5; 10; 12; 15; 15; 12; 10; 5;
   12; 22; 35; 45; 45; 35; 22; 12;
   18; 32; 50; 65; 65; 50; 32; 18;
   18; 32; 50; 65; 65; 50; 32; 18;
   12; 22; 35; 45; 45; 35; 22; 12;
   5; 10; 12; 15; 15; 12; 10; 5;
   0; 0; 0; 0; 0; 0; 0; 0].

Definition PST_HEIR_PAWN : list Z :=
  [0; 0; 0; 0; 0; 0; 0; 0;
   5; 10; 10; 5; 5; 10; 10; 5;
   10; 15; 20; 25; 25; 20; 15; 10;
   15; 20; 30; 35; 35; 30; 20; 15;
   25; 30; 40; 50; 50; 40; 30; 25;
   40; 45; 55; 65; 65; 55; 45; 40;
   70; 75; 80; 90; 90; 80; 75; 70;
   0; 0; 0; 0; 0; 0; 0; 0].

Definition PST_TRUCE_PAWN : list Z :=
  [0; 0; 0; 0; 0; 0; 0; 0;
   2; 5; 8; 12; 12; 8; 5; 2;
   5; 10; 18; 28; 28; 18; 10; 5;
   8; 15; 28; 38; 38; 28; 15; 8;
   12; 20; 32; 42; 42; 32; 20; 12;
   18; 25; 35; 45; 45; 35; 25; 18;
   25; 30; 40; 50; 50; 40; 30; 25;
   0; 0; 0; 0; 0; 0; 0; 0].

Definition PST_TRUCE_KNIGHT : list Z :=
  [-50; -35; -25; -25; -25; -25; -35; -50;
   -35; -15; 5; 8; 8; 5; -15; -35;
   -20; 8; 18; 25; 25; 18; 8; -20;
   -15; 10; 25; 35; 35; 25; 10; -15;
   -15; 12; 28; 38; 38; 28; 12; -15;
   -20; 10; 22; 30; 30; 22; 10; -20;
   -35; -15; 5; 10; 10; 5; -15; -35;
   -50; -35; -25; -25; -25; -25; -35; -50].

Definition PST_TRUCE_BISHOP : list Z :=
  [-20; -10; -15; -10; -10; -15; -10; -20;
   -10; 10; 5; 8; 8; 5; 10; -10;
   -10; 12; 15; 18; 18; 15; 12; -10;
   -5; 10; 18; 22; 22; 18; 10; -5;
   -5; 12; 18; 22; 22; 18; 12; -5;
   -10; 12; 15; 18; 18; 15; 12; -10;
   -10; 15; 10; 8; 8; 10; 15; -10;
   -20; -10; -15; -10; -10; -15; -10; -20].

Definition PST_KB_KING_P1 : list Z :=
  [-40; -25; -15; 0; 0; -15; -25; -40;
   -20; 0; 12; 22; 22; 12; 0; -20;
   -5; 15; 35; 48; 48; 35; 15; -5;
   5; 25; 50; 65; 65; 50; 25; 5;
   15; 35; 58; 75; 75; 58; 35; 15;
   20; 38; 55; 68; 68; 55; 38; 20;
   10; 20; 35; 45; 45; 35; 20; 10;
   -5; 5; 15; 25; 25; 15; 5; -5].

Definition PST_KB_PAWN_P1 : list Z :=
  [0; 0; 0; 0; 0; 0; 0; 0;
   5; 8; 10; 15; 15; 10; 8; 5;
   10; 15; 22; 30; 30; 22; 15; 10;
   15; 22; 35; 45; 45; 35; 22; 15;
   25; 32; 45; 55; 55; 45; 32; 25;
   40; 48; 58; 70; 70; 58; 48; 40;
   65; 72; 80; 90; 90; 80; 72; 65;
   0; 0; 0; 0; 0; 0; 0; 0].

