(* ===== verification/EvalCommon.v ===== *)
(** * Common evaluation ([eval_types.h], [eval_common.c])

    Material, piece-square tables, mobility and game phase
    ([eval_common_init]), then pawn structure, passed pawns, rook files, king
    safety and threats ([eval_common_finish]).  Arrays indexed by colour are
    two-element lists; a [while (bb) ... bb_pop_lsb] loop is a fold over
    [bb_squares]. *)

From stdpp Require Import base numbers list option.
From Stdlib Require Import ZArith Lia Bool.
From S2P Require Import Prelude Types Board Attacks Movegen EvalTables.

(** ** [eval_types.h] *)

Record EvalContext := mkCtx {
  ctx_score : Z;
  ctx_material : list Z;
  ctx_non_pawn_material : list Z;
  ctx_pawn_count : list Z;
  ctx_bishop_count : list Z;
  ctx_king_sq : list Z;
  ctx_queen_sq : list Z;
  ctx_pawn_atk : list Bitboard;
  ctx_phase : Z;
  ctx_mg_weight : Z;
  ctx_eg_weight : Z
}.

(** [a[c]] for an array indexed by colour, and such an array from its entries. *)
Definition at_color (l : list Z) (c : Color) : Z := l.[Color_to_Z c].
Definition by_color (f : Color -> Z) : list Z := map f colors.

Notation "l @ c" := (at_color l c) (at level 1, left associativity, format "l @ c").

Definition mirror (sq : Z) : Z := Z.lxor sq 56.

Definition chebyshev_distance_sq (a b : Z) : Z :=
  let dr := Z.abs (SQ_ROW a - SQ_ROW b) in
  let dc := Z.abs (SQ_COL a - SQ_COL b) in
  if dc <? dr then dr else dc.

Definition distance_from_center_sq (sq : Z) : Z :=
  let row := SQ_ROW sq in
  let col := SQ_COL sq in
  let row_dist := if row <? 4 then 3 - row else row - 4 in
  let col_dist := if col <? 4 then 3 - col else col - 4 in
  row_dist + col_dist.

(** A sum over the squares of a bitboard. *)
Definition bb_sum (f : Square -> Z) (bb : Bitboard) : Z :=
  fold_left (fun acc sq => acc + f sq) (bb_squares bb) 0.

(** A union over the squares of a bitboard, on top of [acc]. *)
Definition bb_union (f : Square -> Bitboard) (acc bb : Bitboard) : Bitboard :=
  fold_left (fun acc sq => Z.lor acc (f sq)) (bb_squares bb) acc.

(** [score += (c == WHITE) ? x : -x] *)
Definition signed (c : Color) (x : Z) : Z := if c == WHITE then x else - x.

(** The loop [for c = 0 .. 1] around such an update. *)
Definition both_sides (f : Color -> Z) : Z :=
  fold_left (fun score c => score + signed c (f c)) colors 0.

(** The rank of a square counted from its side's back rank. *)
Definition rel_row (c : Color) (sq : Square) : Z :=
  if c == WHITE then SQ_ROW sq else 7 - SQ_ROW sq.

Definition FILE_A : Bitboard := 0x0101010101010101.
Definition FILE_H : Bitboard := 0x8080808080808080.

(** [(Bitboard)0x0101010101010101ULL << col] *)
Definition file_mask (col : Z) : Bitboard := u64 (Z.shiftl FILE_A col).

(** ** [eval_common_init] *)

(** Pawn attack bitboards. *)
Definition pawn_atk_of (b : Board) (c : Color) : Bitboard :=
  let p := pcs b c PAWN in
  if b_mod b == MOD_MERCENARY then bb_union king_attacks BB_EMPTY p
  else if c == WHITE then
    Z.lor (u64 (Z.shiftl (Z.land p (bb_not FILE_A)) 7)) (u64 (Z.shiftl (Z.land p (bb_not FILE_H)) 9))
  else
    Z.lor (Z.shiftr (Z.land p (bb_not FILE_H)) 7) (Z.shiftr (Z.land p (bb_not FILE_A)) 9).

(** The material value of a piece in the variant. *)
Definition piece_mat (b : Board) (c : Color) (t : PieceType) (sq : Square) : Z :=
  let mat := MATERIAL.[PieceType_to_Z t] in
  let mat := if (t == PAWN) && (b_mod b == MOD_MERCENARY) then 180 else mat in
  let mat := if (t == PAWN) && (b_mod b == MOD_HEIR) then 140 else mat in
  let mat := if (t == KING) && (b_mod b == MOD_HEIR)
             then if negb (heir_check_applies b c) then 250 else 0 else mat in
  let mat := if (t == QUEEN) && (b_mod b == MOD_SAVE_QUEEN)
             then if stq_is_own_half sq c then 1100 else 150 else mat in
  if b_mod b == MOD_SUCCESSION then
    let mat := if t == QUEEN then 1300 else mat in
    let mat := if t == PAWN then 160 else mat in
    if t == KING then 700 else mat
  else mat.

(** [PST_TABLE[t][idx]] *)
Definition PST_TABLE (t : PieceType) : list Z :=
  match t with
  | PAWN => PST_PAWN | KNIGHT => PST_KNIGHT | BISHOP => PST_BISHOP
  | ROOK => PST_ROOK | QUEEN => PST_QUEEN | _ => PST_KING_MG
  end.

(** The piece-square contribution, middlegame and endgame. *)
Definition piece_pst (b : Board) (c : Color) (t : PieceType) (sq : Square) : Z * Z :=
  let idx := if c == WHITE then sq else mirror sq in
  let rank := rel_row c sq in
  let kb1 := (b_mod b == MOD_KINGS_BATTLE) && negb (b_kb_unlocked b) in
  if (t == PAWN) && (b_mod b == MOD_MERCENARY) then
    let adv := if (1 <=? rank) && (rank <=? 6) then rank * rank * 3 else 0 in
    (PST_MERC_PAWN.[idx] + adv, PST_MERC_PAWN.[idx] + adv * 2)
  else if (t == PAWN) && (b_mod b == MOD_HEIR) then
    let adv := if 3 <=? rank then (rank - 2) * (rank - 2) * 8 else 0 in
    (PST_HEIR_PAWN.[idx] + adv, PST_HEIR_PAWN.[idx] + adv * 2)
  else if (t == PAWN) && truce_now b then (PST_TRUCE_PAWN.[idx], PST_TRUCE_PAWN.[idx])
  else if (t == KNIGHT) && truce_now b then (PST_TRUCE_KNIGHT.[idx], PST_TRUCE_KNIGHT.[idx])
  else if (t == BISHOP) && truce_now b then (PST_TRUCE_BISHOP.[idx], PST_TRUCE_BISHOP.[idx])
  else if (t == PAWN) && kb1 then
    let adv := if 3 <=? rank then (rank - 2) * (rank - 2) * 10 else 0 in
    (PST_KB_PAWN_P1.[idx] + adv, PST_KB_PAWN_P1.[idx] + adv * 2)
  else if (t == KING) && kb1 then (PST_KB_KING_P1.[idx], PST_KB_KING_P1.[idx])
  else if t == KING then (PST_KING_MG.[idx], PST_KING_EG.[idx])
  else ((PST_TABLE t).[idx], (PST_TABLE t).[idx]).

(** Own pieces that block: friendly fire does not count capturable ones. *)
Definition own_blockers (b : Board) (c : Color) : Bitboard :=
  let own_occ := occ b c in
  if b_mod b == MOD_FRIENDLY_FIRE then
    let ff_cap := Z.land (Z.land own_occ (b_ff_moved b)) (bb_not (pcs b c KING)) in
    Z.land own_occ (bb_not ff_cap)
  else own_occ.

Definition piece_mobility (b : Board) (atk : list Bitboard) (c : Color) (t : PieceType)
    (sq : Square) : Z * Z :=
  let own_occ := own_blockers b c in
  let enemy_atk := atk@(color_opposite c) in
  let safe_sq := Z.land (bb_not own_occ) (bb_not enemy_atk) in
  let is_merc := b_mod b == MOD_MERCENARY in
  let extra := if truce_now b then 2 else 0 in
  let extra_q := if truce_now b then 1 else 0 in
  if (t == PAWN) && is_merc then
    let mob := bb_popcount (Z.land (king_attacks sq) safe_sq) in (mob * 5, mob * 5)
  else if t == KNIGHT then
    let mob := bb_popcount (Z.land (knight_attacks sq) safe_sq) in
    (mob * (4 + extra), mob * (4 + extra))
  else if t == BISHOP then
    let mob := bb_popcount (Z.land (bishop_attacks_calc sq (b_all b)) safe_sq) in
    (mob * (5 + extra), mob * (5 + extra))
  else if t == ROOK then
    let targets := Z.land (rook_attacks_calc sq (b_all b)) (bb_not own_occ) in
    let targets := if is_merc then Z.land targets (bb_not enemy_atk) else targets in
    let mob := bb_popcount targets in
    (mob * (2 + extra), mob * (3 + extra))
  else if t == QUEEN then
    let q_atk := Z.lor (bishop_attacks_calc sq (b_all b)) (rook_attacks_calc sq (b_all b)) in
    let targets := Z.land q_atk (bb_not own_occ) in
    let targets := if is_merc then Z.land targets (bb_not enemy_atk) else targets in
    let mob := bb_popcount targets in
    (mob * (1 + extra_q), mob * (2 + extra_q))
  else (0, 0).

(** The accumulators of one side. *)
Record SideAcc := mkAcc {
  a_mg : Z; a_eg : Z; a_material : Z; a_non_pawn : Z;
  a_pawns : Z; a_bishops : Z; a_king_sq : Z; a_queen_sq : Z
}.

Definition acc_zero : SideAcc := mkAcc 0 0 0 0 0 0 (-1) (-1).

(** One piece of the material loop. *)
Definition acc_piece (b : Board) (atk : list Bitboard) (c : Color) (t : PieceType)
    (a : SideAcc) (sq : Square) : SideAcc :=
  let mat := piece_mat b c t sq in
  let pst := piece_pst b c t sq in
  let mob := piece_mobility b atk c t sq in
  mkAcc (a_mg a + mat + pst.1 + mob.1) (a_eg a + mat + pst.2 + mob.2)
    (a_material a + mat)
    (if (t != PAWN) && (t != KING) then a_non_pawn a + mat else a_non_pawn a)
    (if t == PAWN then a_pawns a + 1 else a_pawns a)
    (if t == BISHOP then a_bishops a + 1 else a_bishops a)
    (if t == KING then sq else a_king_sq a)
    (if t == QUEEN then sq else a_queen_sq a).

Definition acc_side (b : Board) (atk : list Bitboard) (c : Color) : SideAcc :=
  fold_left (fun a t => fold_left (acc_piece b atk c t) (bb_squares (pcs b c t)) a)
    piece_types acc_zero.

(** Game phase, interpolated score and bishop pair, from the accumulators of
    the two sides. *)
Definition init_context (atk : list Bitboard) (w k : SideAcc) : EvalContext :=
  let total_mat := a_material w + a_material k in
  let phase := (total_mat * 256) ÷ 8000 in
  let phase := if 256 <? phase then 256 else phase in
  let mg_weight := phase in
  let eg_weight := 256 - phase in
  let mg := a_mg w - a_mg k in
  let eg := a_eg w - a_eg k in
  let score := (mg * mg_weight + eg * eg_weight) ÷ 256 in
  let score := if 2 <=? a_bishops w then score + 30 else score in
  let score := if 2 <=? a_bishops k then score - 30 else score in
  mkCtx score [a_material w; a_material k] [a_non_pawn w; a_non_pawn k]
    [a_pawns w; a_pawns k] [a_bishops w; a_bishops k] [a_king_sq w; a_king_sq k]
    [a_queen_sq w; a_queen_sq k] atk phase mg_weight eg_weight.

Definition eval_common_init (b : Board) : EvalContext :=
  let atk := by_color (pawn_atk_of b) in
  init_context atk (acc_side b atk WHITE) (acc_side b atk BLACK).

(** ** [eval_common_finish] *)

(** The files next to [col]. *)
Definition adjacent_files (col : Z) : Bitboard :=
  let adj := BB_EMPTY in
  let adj := if 0 <? col then Z.lor adj (file_mask (col - 1)) else adj in
  if col <? 7 then Z.lor adj (file_mask (col + 1)) else adj.

(** 3. Doubled and isolated pawns on one file. *)
Definition file_penalty (b : Board) (c : Color) (col : Z) : Z :=
  let doubled_pen := if truce_now b then 22 else 15 in
  let isolated_pen := if truce_now b then 18 else 12 in
  let n := bb_popcount (Z.land (pcs b c PAWN) (file_mask col)) in
  let adj := adjacent_files col in
  (if 1 <? n then (n - 1) * doubled_pen else 0) +
  (if (0 <? n) && negb (bb_nonzero (Z.land (pcs b c PAWN) adj)) then isolated_pen else 0).

Definition pawn_structure (b : Board) : Z :=
  fold_left (fun score col => score - file_penalty b WHITE col + file_penalty b BLACK col)
    (seqZ 0 8) 0.

(** 4. Passed pawns. *)
Definition PASSED_BONUS : list Z := [0; 5; 10; 20; 40; 60; 100; 0].

Definition passed (b : Board) (c : Color) (sq : Square) : bool :=
  let opp := color_opposite c in
  let row := SQ_ROW sq in
  let col := SQ_COL sq in
  let r_start := if c == WHITE then row + 1 else 0 in
  let r_end := if c == WHITE then 8 else row in
  forallb (fun r => forallb (fun dc =>
    let nc := col + dc in
    ((nc <? 0) || (7 <? nc)) || negb (BB_HAS (pcs b opp PAWN) (SQ r nc))) [-1; 0; 1])
    (seqZ r_start (r_end - r_start)).

Definition passed_bonus (b : Board) (mg_weight eg_weight : Z) (c : Color) (sq : Square) : Z :=
  if passed b c sq then
    let mg_b := PASSED_BONUS.[rel_row c sq] in
    let eg_b := mg_b * 3 ÷ 2 in
    (mg_b * mg_weight + eg_b * eg_weight) ÷ 256
  else 0.

(** 5. Rooks on open and semi-open files. *)
Definition rook_file_bonus (b : Board) (c : Color) (sq : Square) : Z :=
  let file := file_mask (SQ_COL sq) in
  let own_p := bb_nonzero (Z.land (pcs b c PAWN) file) in
  let opp_p := bb_nonzero (Z.land (pcs b (color_opposite c) PAWN) file) in
  if negb own_p && negb opp_p then 25 else if negb own_p then 15 else 0.

(** Pawns on the three squares in front of the king. *)
Definition pawn_shield (b : Board) (c : Color) (ksq : Square) : Z :=
  let fwd := if c == WHITE then 1 else -1 in
  let nr := SQ_ROW ksq + fwd in
  fold_left (fun shield dc =>
    let nc := SQ_COL ksq + dc in
    if (nc <? 0) || (7 <? nc) || (nr <? 0) || (7 <? nr) then shield
    else if BB_HAS (pcs b c PAWN) (SQ nr nc) then shield + 1 else shield) [-1; 0; 1] 0.

(** 6b. Weight of the attackers of the king zone. *)
Definition attack_weight (b : Board) (opp : Color) (zone : Bitboard) : Z :=
  let hit (w : Z) (att : Square -> Bitboard) (s : Square) :=
    if bb_nonzero (Z.land (att s) zone) then w else 0 in
  bb_sum (hit 5 (fun s => Z.lor (bishop_attacks_calc s (b_all b)) (rook_attacks_calc s (b_all b))))
    (pcs b opp QUEEN) +
  bb_sum (hit 3 (fun s => rook_attacks_calc s (b_all b))) (pcs b opp ROOK) +
  bb_sum (hit 2 (fun s => bishop_attacks_calc s (b_all b))) (pcs b opp BISHOP) +
  bb_sum (hit 2 knight_attacks) (pcs b opp KNIGHT) +
  (if b_mod b == MOD_MERCENARY then bb_sum (hit 5 king_attacks) (pcs b opp PAWN) else 0).

(** 6. King safety of one side. *)
Definition king_safety (b : Board) (mg_weight : Z) (c : Color) : Z :=
  let kbb := pcs b c KING in
  if kbb =? BB_EMPTY then 0
  else if (b_mod b == MOD_HEIR) && negb (heir_check_applies b c) then 0
  else
    let is_merc := b_mod b == MOD_MERCENARY in
    let ksq := bb_lsb kbb in
    let shield := if is_merc then bb_popcount (Z.land (pcs b c PAWN) (king_attacks ksq))
                  else pawn_shield b c ksq in
    let shield_weight := if is_merc then 26 else 10 in
    let kw := if is_merc then if 140 <? mg_weight then mg_weight else 140 else mg_weight in
    let s_bonus := (shield * shield_weight * kw) ÷ 256 in
    let zone := Z.lor (king_attacks ksq) (BB_SQ ksq) in
    let aw := attack_weight b (color_opposite c) zone in
    let danger := Z.shiftr (aw * aw * kw) 8 in
    s_bonus - danger.

(** 7. Threats. *)
Definition MERC_EXPOSED_BY_PAWN : list Z := [0; 35; 35; 60; 110; 0].
Definition THREAT_BY_PAWN : list Z := [0; 30; 30; 50; 70; 0].
Definition THREAT_BY_MERC_PAWN : list Z := [0; 45; 45; 75; 130; 0].

(** [if (pt < 6) x += table[pt]] for the piece on [s]. *)
Definition victim_value (b : Board) (table : list Z) (s : Square) : Z :=
  let pt := PieceType_to_Z (PIECE_TYPE (mb b s)) in
  if pt <? 6 then table.[pt] else 0.

Definition merc_exposed (b : Board) (atk : list Bitboard) (c : Color) : Z :=
  let exposed := Z.land (Z.land atk@(color_opposite c) (occ b c))
                   (bb_not (Z.lor (pcs b c PAWN) (pcs b c KING))) in
  bb_sum (victim_value b MERC_EXPOSED_BY_PAWN) exposed.

Definition pawn_threats (b : Board) (atk : list Bitboard) (c : Color) : Z :=
  let opp := color_opposite c in
  let threatened := Z.land (Z.land atk@c (occ b opp)) (bb_not (pcs b opp PAWN)) in
  let table := if b_mod b == MOD_MERCENARY then THREAT_BY_MERC_PAWN else THREAT_BY_PAWN in
  bb_sum (victim_value b table) threatened.

(** [score += (b->side == WHITE) ? n : -n] *)
Definition tempo (b : Board) (n : Z) : Z := if b_side b == WHITE then n else - n.

Definition eval_common_finish (b : Board) (ctx : EvalContext) : Z :=
  let is_merc := b_mod b == MOD_MERCENARY in
  let mgw := ctx_mg_weight ctx in
  let egw := ctx_eg_weight ctx in
  let atk := ctx_pawn_atk ctx in
  let score := 0 in
  let score := if negb is_merc then score + pawn_structure b else score in
  let score := if negb is_merc
    then score + both_sides (fun c => bb_sum (passed_bonus b mgw egw c) (pcs b c PAWN))
    else score in
  let score := if negb is_merc
    then score + both_sides (fun c => bb_sum (rook_file_bonus b c) (pcs b c ROOK)) else score in
  let score := if (64 <? mgw) || is_merc then score + both_sides (king_safety b mgw) else score in
  let score := if is_merc then score - both_sides (merc_exposed b atk) else score in
  let score := score + both_sides (pawn_threats b atk) in
  let score := if is_merc then score + tempo b 15 else score in
  if b_mod b == MOD_HEIR then score + tempo b 10 else score.
