(* ===== verification/Flip.v ===== *)
(** * Colour flip

    Turning the board upside down and swapping the colours.  [flipped b b']
    says that [b'] is [b] seen from the other side; the lemmas push the flip
    through bitboards, tables, sliding attacks and the attack query, for the
    evaluation's symmetry proofs. *)

From stdpp Require Import base numbers list option.
From Stdlib Require Import ZArith Lia Bool Permutation.
From S2P Require Import Prelude Types Board Attacks Movegen EvalTables EvalCommon.

(** ** Squares *)

Lemma mirror_involutive (sq : Z) : mirror (mirror sq) = sq.
Proof. unfold mirror. by rewrite Z.lxor_assoc, Z.lxor_nilpotent, Z.lxor_0_r. Qed.

Lemma mirror_grid (sq : Square) :
  on_board sq ->
  on_board (mirror sq) /\ SQ_ROW (mirror sq) = 7 - SQ_ROW sq /\ SQ_COL (mirror sq) = SQ_COL sq.
Proof.
  intros Hs.
  pose proof (forall_range (fun s => (0 <=? mirror s) && (mirror s <? 64) &&
    (SQ_ROW (mirror s) =? 7 - SQ_ROW s) && (SQ_COL (mirror s) =? SQ_COL s)) 64
    ltac:(by vm_compute) sq Hs) as H.
  cbv beta in H. rewrite !andb_true_iff, Z.leb_le, Z.ltb_lt, !Z.eqb_eq in H.
  unfold on_board. naive_solver.
Qed.

Lemma mirror_on_board (sq : Square) : on_board sq -> on_board (mirror sq).
Proof. intros H. by apply mirror_grid in H as (? & _). Qed.

Lemma mirror_row (sq : Square) : on_board sq -> SQ_ROW (mirror sq) = 7 - SQ_ROW sq.
Proof. intros H. by apply mirror_grid in H as (_ & ? & _). Qed.

Lemma mirror_col (sq : Square) : on_board sq -> SQ_COL (mirror sq) = SQ_COL sq.
Proof. intros H. by apply mirror_grid in H as (_ & _ & ?). Qed.

Lemma mirror_SQ (r c : Z) : 0 <= r < 8 -> 0 <= c < 8 -> mirror (SQ r c) = SQ (7 - r) c.
Proof.
  intros Hr Hc. pose proof (SQ_on_board r c Hr Hc) as Hs.
  rewrite (SQ_ROW_COL (mirror (SQ r c))), mirror_row, mirror_col by done.
  rewrite SQ_ROW_SQ, SQ_COL_SQ, SQ_small by lia. lia.
Qed.

#[export] Hint Resolve mirror_on_board : board.

Lemma rel_row_flip (c : Color) (sq : Square) :
  real_color c -> on_board sq -> rel_row (color_opposite c) (mirror sq) = rel_row c sq.
Proof.
  intros Hc Hs. unfold rel_row. rewrite mirror_row by done.
  destruct c; simpl; [lia|done|done].
Qed.

(** ** Bitboards *)

Definition flip_bb (bb : Bitboard) : Bitboard :=
  bb_where (fun i => Z.testbit bb (mirror i)) (seqZ 0 64).

Lemma seqZ_at (n : Z) : 0 <= n < 64 -> (seqZ 0 64).[n] = n.
Proof.
  intros Hn. unfold znth. destruct (Z.ltb_spec n 0); [lia|].
  apply list_lookup_total_correct. rewrite lookup_seqZ_lt by lia. f_equal. lia.
Qed.

Lemma flip_testbit (bb : Bitboard) (n : Square) :
  on_board n -> Z.testbit (flip_bb bb) n = Z.testbit bb (mirror n).
Proof.
  intros Hn. unfold flip_bb, on_board in *. rewrite bb_where_testbit by lia.
  rewrite length_seqZ, Z2Nat.id by lia. replace (n <? 64) with true by lia.
  by rewrite seqZ_at.
Qed.

Lemma flip_bound (bb : Bitboard) : 0 <= flip_bb bb < 2 ^ 64.
Proof. apply bb_where_bound. rewrite length_seqZ. lia. Qed.

#[export] Hint Resolve flip_bound : board.
#[global] Opaque flip_bb.

(** Two words agree when they agree on the board. *)
Lemma bb_ext (x y : Bitboard) :
  0 <= x < 2 ^ 64 -> 0 <= y < 2 ^ 64 ->
  (forall n, on_board n -> Z.testbit x n = Z.testbit y n) -> x = y.
Proof.
  intros Hx Hy H. apply bits_ext. intros n Hn. destruct (Z.ltb_spec n 64).
  - apply H. unfold on_board. lia.
  - by rewrite !testbit_above_64 by lia.
Qed.

Lemma bb_not_bound (x : Bitboard) : 0 <= x < 2 ^ 64 -> 0 <= bb_not x < 2 ^ 64.
Proof.
  intros Hx. apply bits_bounded; [lia|]. intros n Hn. by apply bb_not_testbit_high.
Qed.

#[export] Hint Resolve bb_not_bound : board.


Ltac bb_flip :=
  apply bb_ext; [auto with board..|]; intros n Hn;
  rewrite ?flip_testbit, ?Z.land_spec, ?Z.lor_spec, ?bb_not_testbit, ?flip_testbit
    by auto with board.

Lemma flip_land (x y : Bitboard) :
  0 <= x < 2 ^ 64 -> flip_bb (Z.land x y) = Z.land (flip_bb x) (flip_bb y).
Proof. intros. by bb_flip. Qed.

Lemma flip_lor (x y : Bitboard) :
  0 <= x < 2 ^ 64 -> 0 <= y < 2 ^ 64 -> flip_bb (Z.lor x y) = Z.lor (flip_bb x) (flip_bb y).
Proof. intros. by bb_flip. Qed.

Lemma flip_not (x : Bitboard) : flip_bb (bb_not x) = bb_not (flip_bb x).
Proof.
  apply bb_ext; [auto with board..|]. intros n Hn. pose proof (mirror_on_board n Hn) as Hm.
  by rewrite flip_testbit, !bb_not_testbit, flip_testbit.
Qed.

Lemma flip_sq (sq : Square) : on_board sq -> flip_bb (BB_SQ sq) = BB_SQ (mirror sq).
Proof.
  intros Hs. bb_flip. pose proof (mirror_on_board n Hn). pose proof (mirror_on_board sq Hs).
  rewrite !BB_SQ_testbit by sq_lia.
  apply eq_iff_eq_true. rewrite !Z.eqb_eq. split; intros E.
  - by rewrite <- E, mirror_involutive.
  - by rewrite E, mirror_involutive.
Qed.

Lemma flip_flip (x : Bitboard) : 0 <= x < 2 ^ 64 -> flip_bb (flip_bb x) = x.
Proof. intros. bb_flip. by rewrite mirror_involutive. Qed.

Lemma BB_EMPTY_bound : 0 <= BB_EMPTY < 2 ^ 64.
Proof. unfold BB_EMPTY. lia. Qed.

#[export] Hint Resolve BB_EMPTY_bound : board.

Lemma flip_empty : flip_bb BB_EMPTY = BB_EMPTY.
Proof. bb_flip. unfold BB_EMPTY. by rewrite !Z.testbit_0_l. Qed.

Lemma flip_nonzero (x : Bitboard) : 0 <= x < 2 ^ 64 -> bb_nonzero (flip_bb x) = bb_nonzero x.
Proof.
  intros Hx. unfold bb_nonzero. f_equal. apply eq_iff_eq_true. rewrite !Z.eqb_eq. split; intros E.
  - by rewrite <- (flip_flip x), E.
  - by rewrite E.
Qed.

Lemma flip_is_empty (x : Bitboard) :
  0 <= x < 2 ^ 64 -> (flip_bb x =? BB_EMPTY) = (x =? BB_EMPTY).
Proof.
  intros Hx. pose proof (flip_nonzero x Hx) as H. unfold bb_nonzero in H.
  by apply (f_equal negb) in H; rewrite !negb_involutive in H.
Qed.

(** The squares of a flipped bitboard are the mirrored squares, in another
    order. *)
Lemma flip_squares (x : Bitboard) :
  0 <= x < 2 ^ 64 -> Permutation (bb_squares (flip_bb x)) (map mirror (bb_squares x)).
Proof.
  intros Hx. apply Permutation.NoDup_Permutation.
  - apply NoDup_bb_squares. auto with board.
  - apply Finite.Injective_map_NoDup; [|by apply NoDup_bb_squares].
    intros i j E. by rewrite <- (mirror_involutive i), E, mirror_involutive.
  - intros sq. rewrite elem_of_bb_squares, in_map_iff by auto with board. split.
    + intros [Hs Hb]. rewrite flip_testbit in Hb by done. exists (mirror sq).
      split; [apply mirror_involutive|]. apply elem_of_bb_squares; auto with board.
    + intros (s & <- & [Hs Hb]%elem_of_bb_squares); [|done]. split; [auto with board|].
      rewrite flip_testbit by auto with board. by rewrite mirror_involutive.
Qed.

Lemma fold_add (f : Square -> Z) (l : list Square) (acc : Z) :
  fold_left (fun acc sq => acc + f sq) l acc = acc + fold_left (fun acc sq => acc + f sq) l 0.
Proof.
  revert acc. induction l as [|s l IH]; intros acc; cbn [fold_left]; [lia|].
  rewrite (IH (acc + f s)), (IH (0 + f s)). lia.
Qed.

Lemma fold_add_perm (f : Square -> Z) (l l' : list Square) (acc : Z) :
  Permutation l l' ->
  fold_left (fun acc sq => acc + f sq) l acc = fold_left (fun acc sq => acc + f sq) l' acc.
Proof.
  intros H. revert acc. induction H; intros acc; cbn [fold_left]; auto.
  - by replace (acc + f y + f x) with (acc + f x + f y) by lia.
  - by rewrite IHPermutation1.
Qed.

Lemma fold_add_map (f : Square -> Z) (g : Square -> Square) (l : list Square) (acc : Z) :
  fold_left (fun acc sq => acc + f sq) (map g l) acc =
  fold_left (fun acc sq => acc + f (g sq)) l acc.
Proof. revert acc. induction l as [|s l IH]; intros acc; [done|]. cbn [map fold_left]. apply IH. Qed.

Lemma fold_add_ext (f g : Square -> Z) (l : list Square) (acc : Z) :
  (forall sq, In sq l -> f sq = g sq) ->
  fold_left (fun acc sq => acc + f sq) l acc = fold_left (fun acc sq => acc + g sq) l acc.
Proof.
  revert acc. induction l as [|s l IH]; intros acc H; [done|]. cbn [fold_left].
  rewrite (H s) by (by left). apply IH. intros; apply H; by right.
Qed.

Lemma BB_HAS_flip (x : Bitboard) (sq : Square) :
  on_board sq -> BB_HAS (flip_bb x) (mirror sq) = BB_HAS x sq.
Proof.
  intros Hs. pose proof (mirror_on_board sq Hs). rewrite !BB_HAS_testbit by sq_lia.
  rewrite flip_testbit by done. by rewrite mirror_involutive.
Qed.

(** A fold whose steps commute does not depend on the order. *)
Lemma fold_left_perm {A B} (op : A -> B -> A) (l l' : list B) :
  (forall a x y, op (op a x) y = op (op a y) x) -> Permutation l l' ->
  forall a, fold_left op l a = fold_left op l' a.
Proof.
  intros Hop Hp. induction Hp as [|x l l' _ IH|x y l|l1 l2 l3 _ IH1 _ IH2]; intros a; cbn [fold_left].
  - done.
  - apply IH.
  - by rewrite Hop.
  - by rewrite IH1.
Qed.

(** Folds over flipped bitboards. *)
Lemma bb_fold_flip {A} (op op' : A -> Square -> A) (x : Bitboard) (a : A) :
  0 <= x < 2 ^ 64 -> (forall a s t, op' (op' a s) t = op' (op' a t) s) ->
  (forall a sq, on_board sq -> Z.testbit x sq = true -> op' a (mirror sq) = op a sq) ->
  fold_left op' (bb_squares (flip_bb x)) a = fold_left op (bb_squares x) a.
Proof.
  intros Hx Hc H. rewrite (fold_left_perm op' _ _ Hc (flip_squares x Hx)).
  assert (forall l a, (forall sq, In sq l -> on_board sq /\ Z.testbit x sq = true) ->
            fold_left op' (map mirror l) a = fold_left op l a) as Hl.
  { intros l. induction l as [|s l IH]; intros a' Hin; [done|]. cbn [map fold_left].
    destruct (Hin s (or_introl eq_refl)) as [Hs Hb]. rewrite H by done. apply IH.
    intros sq Hsq. apply Hin. by right. }
  apply Hl. intros sq Hin. by apply elem_of_bb_squares in Hin.
Qed.

(** Searches over flipped bitboards. *)
Lemma existsb_flip (f g : Square -> bool) (x : Bitboard) :
  0 <= x < 2 ^ 64 ->
  (forall sq, on_board sq -> Z.testbit x sq = true -> f (mirror sq) = g sq) ->
  existsb f (bb_squares (flip_bb x)) = existsb g (bb_squares x).
Proof.
  intros Hx H. apply eq_iff_eq_true. rewrite !existsb_exists. split.
  - intros (s & Hin & Hf). apply elem_of_bb_squares in Hin as [Hs Hb]; [|auto with board].
    rewrite flip_testbit in Hb by done. exists (mirror s). split.
    + apply elem_of_bb_squares; auto with board.
    + rewrite <- H by auto with board. by rewrite mirror_involutive.
  - intros (s & Hin & Hg). apply elem_of_bb_squares in Hin as [Hs Hb]; [|done].
    exists (mirror s). split; [|by rewrite H].
    apply elem_of_bb_squares; [auto with board|]. split; [auto with board|].
    rewrite flip_testbit by auto with board. by rewrite mirror_involutive.
Qed.

Lemma forallb_existsb {A} (f : A -> bool) (l : list A) :
  forallb f l = negb (existsb (fun x => negb (f x)) l).
Proof.
  induction l as [|a l IH]; [done|]. cbn [forallb existsb]. rewrite IH. by destruct (f a).
Qed.

Lemma forallb_flip (f g : Square -> bool) (x : Bitboard) :
  0 <= x < 2 ^ 64 ->
  (forall sq, on_board sq -> Z.testbit x sq = true -> f (mirror sq) = g sq) ->
  forallb f (bb_squares (flip_bb x)) = forallb g (bb_squares x).
Proof.
  intros Hx H. rewrite !forallb_existsb. f_equal. apply existsb_flip; [done|].
  intros sq Hs Hb. by rewrite H.
Qed.

(** Sums over flipped bitboards. *)
Lemma bb_sum_flip (f g : Square -> Z) (x : Bitboard) :
  0 <= x < 2 ^ 64 ->
  (forall sq, on_board sq -> Z.testbit x sq = true -> f (mirror sq) = g sq) ->
  bb_sum f (flip_bb x) = bb_sum g x.
Proof.
  intros Hx H. unfold bb_sum.
  rewrite (fold_add_perm f _ _ 0 (flip_squares x Hx)), fold_add_map.
  apply fold_add_ext. intros sq [Hs Hb]%elem_of_bb_squares; auto.
Qed.

Lemma bb_sum_add (f g : Square -> Z) (x : Bitboard) :
  bb_sum (fun sq => f sq + g sq) x = bb_sum f x + bb_sum g x.
Proof.
  unfold bb_sum. generalize (bb_squares x). intros l.
  assert (forall u v, fold_left (fun acc s => acc + (f s + g s)) l (u + v) =
    fold_left (fun acc s => acc + f s) l u + fold_left (fun acc s => acc + g s) l v) as Hl.
  { induction l as [|s l IH]; intros u v; [done|]. cbn [fold_left]. rewrite <- IH. f_equal. lia. }
  exact (Hl 0 0).
Qed.

Lemma popcount_flip (x : Bitboard) : 0 <= x < 2 ^ 64 -> bb_popcount (flip_bb x) = bb_popcount x.
Proof.
  intros Hx. rewrite !bb_popcount_squares by auto with board.
  by rewrite (Permutation_length (flip_squares x Hx)), length_map.
Qed.

(** Unions over flipped bitboards. *)
Lemma bb_union_testbit (f : Square -> Bitboard) (acc x : Bitboard) (n : Square) :
  Z.testbit (bb_union f acc x) n =
  Z.testbit acc n || existsb (fun sq => Z.testbit (f sq) n) (bb_squares x).
Proof.
  unfold bb_union. generalize (bb_squares x) as l. intros l. revert acc.
  induction l as [|s l IH]; intros acc; cbn [fold_left existsb]; [by rewrite orb_false_r|].
  by rewrite IH, Z.lor_spec, orb_assoc.
Qed.

Lemma bb_union_bound (f : Square -> Bitboard) (acc x : Bitboard) :
  0 <= acc < 2 ^ 64 -> 0 <= x < 2 ^ 64 -> (forall sq, on_board sq -> 0 <= f sq < 2 ^ 64) ->
  0 <= bb_union f acc x < 2 ^ 64.
Proof.
  intros Ha Hx Hf. apply bits_bounded; [lia|]. intros n Hn. rewrite bb_union_testbit.
  rewrite testbit_above_64 by lia. apply not_true_iff_false. intros (s & Hin & Hb)%existsb_exists.
  apply elem_of_bb_squares in Hin as [Hs _]; [|done].
  rewrite testbit_above_64 in Hb; [done|auto|lia].
Qed.

Lemma bb_union_flip (f g : Square -> Bitboard) (acc x : Bitboard) :
  0 <= acc < 2 ^ 64 -> 0 <= x < 2 ^ 64 ->
  (forall sq, on_board sq -> 0 <= f sq < 2 ^ 64) -> (forall sq, on_board sq -> 0 <= g sq < 2 ^ 64) ->
  (forall sq, on_board sq -> f (mirror sq) = flip_bb (g sq)) ->
  bb_union f (flip_bb acc) (flip_bb x) = flip_bb (bb_union g acc x).
Proof.
  intros Ha Hx Hf Hg H.
  apply bb_ext; [apply bb_union_bound; auto with board|auto with board|].
  intros n Hn. rewrite flip_testbit, !bb_union_testbit, flip_testbit by done. f_equal.
  apply eq_iff_eq_true. rewrite !existsb_exists. split.
  - intros (s & Hin & Hb). apply elem_of_bb_squares in Hin as [Hs Hx']; [|auto with board].
    rewrite flip_testbit in Hx' by done. exists (mirror s). split.
    + apply elem_of_bb_squares; auto with board.
    + rewrite <- (mirror_involutive s), H, flip_testbit in Hb by auto with board. done.
  - intros (s & Hin & Hb). apply elem_of_bb_squares in Hin as [Hs Hx']; [|done].
    exists (mirror s). split.
    + apply elem_of_bb_squares; [auto with board|]. split; [auto with board|].
      rewrite flip_testbit by auto with board. by rewrite mirror_involutive.
    + by rewrite H, flip_testbit.
Qed.

(** ** Attack tables and sliding *)

Lemma table_flip (tbl tbl' : Z -> Z) :
  (forall sq, on_board sq -> 0 <= tbl sq < 2 ^ 64) ->
  (forall sq, on_board sq -> 0 <= tbl' sq < 2 ^ 64) ->
  forallb (fun i => forallb (fun j => eqb (Z.testbit (tbl' (mirror i)) j)
    (Z.testbit (tbl i) (mirror j))) (seqZ 0 64)) (seqZ 0 64) = true ->
  forall sq, on_board sq -> tbl' (mirror sq) = flip_bb (tbl sq).
Proof.
  intros Hb Hb' H sq Hs. apply bb_ext; [auto with board..|]. intros n Hn.
  rewrite flip_testbit by done. apply eqb_prop.
  by apply (forall_range2 (fun i j => eqb (Z.testbit (tbl' (mirror i)) j)
    (Z.testbit (tbl i) (mirror j))) 64 64).
Qed.

Lemma king_attacks_flip (sq : Square) :
  on_board sq -> king_attacks (mirror sq) = flip_bb (king_attacks sq).
Proof. apply table_flip; [auto with board..|]. by vm_compute. Qed.

Lemma knight_attacks_flip (sq : Square) :
  on_board sq -> knight_attacks (mirror sq) = flip_bb (knight_attacks sq).
Proof. apply table_flip; [auto with board..|]. by vm_compute. Qed.

Lemma pawn_attacks_flip (c : Color) (sq : Square) :
  real_color c -> on_board sq ->
  pawn_attacks (color_opposite c) (mirror sq) = flip_bb (pawn_attacks c sq).
Proof.
  intros Hc Hs. destruct c; [| |done].
  - apply (table_flip (pawn_attacks WHITE) (pawn_attacks BLACK)); auto with board; by vm_compute.
  - apply (table_flip (pawn_attacks BLACK) (pawn_attacks WHITE)); auto with board; by vm_compute.
Qed.

(** Directions closed under turning the board over. *)
Definition flip_dirs (dirs : list (Z * Z)) : Prop :=
  forall dr dc, In (dr, dc) dirs -> In (- dr, dc) dirs.

Lemma slides_flip (dirs : list (Z * Z)) (occ : Bitboard) (sq n : Square) :
  good_dirs dirs -> flip_dirs dirs -> 0 <= occ < 2 ^ 64 -> on_board sq ->
  slides dirs occ sq n -> slides dirs (flip_bb occ) (mirror sq) (mirror n).
Proof.
  intros Hd Hf Ho Hs (dr & dc & k & Hin & Hk & Hg & -> & Hfree).
  pose proof (proj1 (in_grid_spec _ _) Hg) as [Hr Hc].
  exists (- dr), dc, k. rewrite mirror_row, mirror_col by done.
  replace (7 - SQ_ROW sq + k * - dr) with (7 - (SQ_ROW sq + k * dr)) by lia.
  split_and!; [auto|done|apply in_grid_spec; lia|by rewrite mirror_SQ by lia|].
  intros j Hj. replace (7 - SQ_ROW sq + j * - dr) with (7 - (SQ_ROW sq + j * dr)) by lia.
  assert (in_grid (SQ_ROW sq + j * dr) (SQ_COL sq + j * dc) = true) as [Hr' Hc']%in_grid_spec.
  { destruct (Hd dr dc Hin) as (_ & ? & ? & _).
    apply (ray_convex (SQ_ROW sq) (SQ_COL sq) dr dc j k); auto; try lia.
    - by apply SQ_ROW_bound.
    - apply SQ_COL_bound. }
  rewrite <- mirror_SQ, flip_testbit by (try apply mirror_on_board, SQ_on_board; lia).
  rewrite mirror_involutive. auto.
Qed.

Lemma slide_dirs_flip (dirs : list (Z * Z)) (sq occ : Z) :
  good_dirs dirs -> flip_dirs dirs -> 0 <= occ < 2 ^ 64 -> on_board sq ->
  slide_dirs dirs (mirror sq) (flip_bb occ) = flip_bb (slide_dirs dirs sq occ).
Proof.
  intros Hd Hf Ho Hs. pose proof (mirror_on_board sq Hs) as Hm.
  apply bb_ext; [by apply slide_dirs_bound|auto with board|]. intros n Hn.
  pose proof (mirror_on_board n Hn) as Hmn.
  rewrite flip_testbit by done. apply eq_iff_eq_true.
  rewrite !slide_dirs_spec by (done || sq_lia). split; intros H.
  - apply slides_flip in H; auto with board. by rewrite mirror_involutive, flip_flip in H.
  - apply slides_flip in H; auto. by rewrite mirror_involutive in H.
Qed.

Lemma bishop_dirs_flip : flip_dirs bishop_dirs.
Proof. intros dr dc H. simpl in H. repeat destruct H as [H|H]; simplify_eq; simpl; auto. Qed.

Lemma rook_dirs_flip : flip_dirs rook_dirs.
Proof. intros dr dc H. simpl in H. repeat destruct H as [H|H]; simplify_eq; simpl; auto. Qed.

Lemma bishop_attacks_flip (sq occ : Z) :
  0 <= occ < 2 ^ 64 -> on_board sq ->
  bishop_attacks_calc (mirror sq) (flip_bb occ) = flip_bb (bishop_attacks_calc sq occ).
Proof. intros. apply slide_dirs_flip; auto using bishop_dirs_good, bishop_dirs_flip. Qed.

Lemma rook_attacks_flip (sq occ : Z) :
  0 <= occ < 2 ^ 64 -> on_board sq ->
  rook_attacks_calc (mirror sq) (flip_bb occ) = flip_bb (rook_attacks_calc sq occ).
Proof. intros. apply slide_dirs_flip; auto using rook_dirs_good, rook_dirs_flip. Qed.

(** ** Boards *)

Definition flip_piece (p : Piece) : Piece :=
  if p =? PIECE_EMPTY then PIECE_EMPTY else PIECE_MAKE (color_opposite (PIECE_COLOR p)) (PIECE_TYPE p).

(** [b'] is [b] from the other side, as far as evaluation can see. *)
Record flipped (b b' : Board) : Prop := {
  fl_inv : board_inv b;
  fl_inv' : board_inv b';
  fl_mb : forall sq, on_board sq -> mb b' (mirror sq) = flip_piece (mb b sq);
  fl_side : b_side b' = color_opposite (b_side b);
  fl_side_real : real_color (b_side b);
  fl_mod : b_mod b' = b_mod b;
  fl_heir : forall c, real_color c -> heir b' (color_opposite c) = heir b c;
  fl_truce : b_truce_active b' = b_truce_active b;
  fl_ff : forall sq, on_board sq ->
    Z.testbit (b_ff_moved b') (mirror sq) = Z.testbit (b_ff_moved b) sq;
  fl_kb : b_kb_unlocked b' = b_kb_unlocked b;
  fl_fullmove : b_fullmove b' = b_fullmove b
}.

Lemma flip_piece_eq (p : Piece) (c : Color) (t : PieceType) :
  valid_piece p -> real_color c -> real_type t ->
  (flip_piece p =? PIECE_MAKE (color_opposite c) t) = (p =? PIECE_MAKE c t).
Proof.
  intros [->|(c' & t' & Hc' & Ht' & ->)] Hc Ht.
  - destruct c, t; try real; by vm_compute.
  - destruct c', t', c, t; try real; by vm_compute.
Qed.

Lemma flip_piece_color (p : Piece) (c : Color) :
  valid_piece p -> real_color c ->
  (PIECE_COLOR (flip_piece p) == color_opposite c) = (PIECE_COLOR p == c).
Proof.
  intros [->|(c' & t' & Hc' & Ht' & ->)] Hc.
  - destruct c; try real; by vm_compute.
  - destruct c', t', c; try real; by vm_compute.
Qed.

Lemma flip_piece_type (p : Piece) : valid_piece p -> PIECE_TYPE (flip_piece p) = PIECE_TYPE p.
Proof.
  intros [->|(c' & t' & Hc' & Ht' & ->)]; [done|]. destruct c', t'; try real; by vm_compute.
Qed.

Lemma flip_piece_empty (p : Piece) :
  valid_piece p -> (flip_piece p =? PIECE_EMPTY) = (p =? PIECE_EMPTY).
Proof.
  intros [->|(c' & t' & Hc' & Ht' & ->)]; [done|]. destruct c', t'; try real; by vm_compute.
Qed.

Lemma opposite_real (c : Color) : real_color c -> real_color (color_opposite c).
Proof. destruct c; real. Qed.
#[export] Hint Resolve opposite_real : board.

Section Flipped.
Context (b b' : Board) (H : flipped b b').

Local Definition Hi : board_inv b := fl_inv b b' H.
Local Definition Hi' : board_inv b' := fl_inv' b b' H.
Local Hint Resolve Hi Hi' : board.

Lemma flipped_mb (sq : Square) : on_board sq -> mb b' sq = flip_piece (mb b (mirror sq)).
Proof.
  intros Hs. rewrite <- (fl_mb b b' H) by auto with board. by rewrite mirror_involutive.
Qed.

Lemma pcs_flip (c : Color) (t : PieceType) :
  real_color c -> real_type t -> pcs b' (color_opposite c) t = flip_bb (pcs b c t).
Proof.
  intros Hc Ht. apply bb_ext; [auto with board..|]. intros n Hn.
  rewrite flip_testbit, !pcs_testbit, flipped_mb by auto with board.
  apply flip_piece_eq; auto using mb_valid, Hi with board.
Qed.

Lemma occ_flip (c : Color) : real_color c -> occ b' (color_opposite c) = flip_bb (occ b c).
Proof.
  intros Hc. apply bb_ext; [auto with board..|]. intros n Hn.
  rewrite flip_testbit, !occ_testbit, flipped_mb by auto with board.
  apply flip_piece_color; auto using mb_valid, Hi with board.
Qed.

Lemma all_flip : b_all b' = flip_bb (b_all b).
Proof.
  apply bb_ext; [auto with board..|]. intros n Hn.
  rewrite flip_testbit, !all_testbit, flipped_mb by auto with board.
  f_equal. apply flip_piece_empty; auto using mb_valid, Hi with board.
Qed.

Lemma heir_check_flip (c : Color) :
  real_color c -> heir_check_applies b' (color_opposite c) = heir_check_applies b c.
Proof.
  intros Hc. unfold heir_check_applies. rewrite (fl_heir b b' H), pcs_flip by done.
  by rewrite flip_is_empty by auto with board.
Qed.

Lemma truce_now_flip : truce_now b' = truce_now b.
Proof. unfold truce_now. by rewrite (fl_mod b b' H), (fl_truce b b' H). Qed.

(** *** Attacks *)

Lemma own_half_flip (sq : Square) (c : Color) :
  real_color c -> on_board sq ->
  stq_is_own_half (mirror sq) (color_opposite c) = stq_is_own_half sq c.
Proof.
  intros Hc Hs. unfold stq_is_own_half. rewrite mirror_row by done.
  destruct c; cbn [color_opposite bool_decide]; [| |done].
  - destruct (Z.leb_spec (SQ_ROW sq) 3); simpl; lia.
  - destruct (Z.leb_spec 4 (SQ_ROW sq)); simpl; lia.
Qed.

Lemma effective_queens_flip (c : Color) :
  real_color c -> stq_effective_queens b' (color_opposite c) = flip_bb (stq_effective_queens b c).
Proof.
  intros Hc. apply bb_ext;
    [apply stq_effective_queens_bound; auto with board|auto with board|].
  intros n Hn. rewrite flip_testbit, !stq_effective_queens_testbit by auto with board.
  rewrite flipped_mb, flip_piece_eq by auto using mb_valid, Hi with board.
  unfold stq_prisoner. rewrite (fl_mod b b' H). rewrite <- (mirror_involutive n) at 2.
  by rewrite own_half_flip by auto with board.
Qed.

Lemma hits_flip (x x' y y' : Bitboard) :
  x' = flip_bb x -> y' = flip_bb y -> 0 <= x < 2 ^ 64 ->
  bb_nonzero (Z.land x' y') = bb_nonzero (Z.land x y).
Proof.
  intros -> -> Hx. rewrite <- flip_land by done. apply flip_nonzero. auto with board.
Qed.

(** One square of a piece set. *)
Lemma has_flip (c : Color) (t : PieceType) (sq : Square) :
  real_color c -> real_type t -> on_board sq ->
  BB_HAS (pcs b' (color_opposite c) t) (mirror sq) = BB_HAS (pcs b c t) sq.
Proof.
  intros Hc Ht Hs. pose proof (mirror_on_board sq Hs). rewrite !BB_HAS_testbit by sq_lia.
  rewrite pcs_flip, flip_testbit by done. by rewrite mirror_involutive.
Qed.

Lemma has_flip_at (c : Color) (t : PieceType) (r col : Z) :
  real_color c -> real_type t -> 0 <= r < 8 -> 0 <= col < 8 ->
  BB_HAS (pcs b' (color_opposite c) t) (SQ (7 - r) col) = BB_HAS (pcs b c t) (SQ r col).
Proof.
  intros Hc Ht Hr Hcol. rewrite <- mirror_SQ by done. apply has_flip; auto using SQ_on_board.
Qed.

Lemma has_king_flip (c : Color) :
  real_color c -> has_king b' (color_opposite c) = has_king b c.
Proof.
  intros Hc. unfold has_king. by rewrite pcs_flip, flip_is_empty by auto with board.
Qed.

Lemma square_attacked_flip (sq : Square) (c : Color) :
  real_color c -> on_board sq ->
  board_square_attacked b' (mirror sq) (color_opposite c) = board_square_attacked b sq c.
Proof.
  intros Hc Hs. unfold board_square_attacked. rewrite (fl_mod b b' H), (fl_kb b b' H).
  assert (forall x x' t, real_type t -> x' = flip_bb x -> 0 <= x < 2 ^ 64 ->
    bb_nonzero (Z.land x' (pcs b' (color_opposite c) t)) = bb_nonzero (Z.land x (pcs b c t))) as Hp.
  { intros x x' t Ht Hx Hb. apply hits_flip; auto. by apply pcs_flip. }
  assert (forall x x' t, real_type t -> x' = flip_bb x -> 0 <= x < 2 ^ 64 ->
    bb_nonzero (Z.land x' (Z.lor (pcs b' (color_opposite c) t)
      (stq_effective_queens b' (color_opposite c)))) =
    bb_nonzero (Z.land x (Z.lor (pcs b c t) (stq_effective_queens b c)))) as Hq.
  { intros x x' t Ht Hx Hb. apply hits_flip; auto.
    rewrite pcs_flip, effective_queens_flip by done. symmetry. apply flip_lor; auto with board.
    apply stq_effective_queens_bound; auto with board. }
  rewrite (Hp (knight_attacks sq)), (Hp (king_attacks sq) _ KING), (Hp (king_attacks sq) _ PAWN),
    (Hp (pawn_attacks (color_opposite c) sq)), (Hq (bishop_attacks_calc sq (b_all b))),
    (Hq (rook_attacks_calc sq (b_all b)));
    auto using knight_attacks_flip, king_attacks_flip with board.
  - rewrite all_flip. apply rook_attacks_flip; auto with board.
  - rewrite all_flip. apply bishop_attacks_flip; auto with board.
  - apply pawn_attacks_flip; auto with board.
Qed.
End Flipped.

(** ** Pawn attacks by shifting ([eval_common.c])

    The two shifts with the edge files masked off give the union of the
    pawns' attack sets. *)

Lemma FILE_A_testbit (n : Square) : on_board n -> Z.testbit FILE_A n = (SQ_COL n =? 0).
Proof.
  intros Hn. apply eqb_prop.
  by apply (forall_range (fun n => eqb (Z.testbit FILE_A n) (SQ_COL n =? 0)) 64).
Qed.

Lemma FILE_H_testbit (n : Square) : on_board n -> Z.testbit FILE_H n = (SQ_COL n =? 7).
Proof.
  intros Hn. apply eqb_prop.
  by apply (forall_range (fun n => eqb (Z.testbit FILE_H n) (SQ_COL n =? 7)) 64).
Qed.

(** One pawn's attacks, as offsets that stay on the board. *)
Lemma pawn_step_offset (c : Color) (s n : Square) :
  real_color c -> on_board s -> on_board n ->
  pawn_step c s n =
  if c == WHITE then (n =? s + 7) && negb (SQ_COL s =? 0) || (n =? s + 9) && negb (SQ_COL s =? 7)
  else (n =? s - 7) && negb (SQ_COL s =? 7) || (n =? s - 9) && negb (SQ_COL s =? 0).
Proof.
  intros Hc Hs Hn. apply eqb_prop. destruct c; [| |done].
  - by apply (forall_range2 (fun s n => eqb (pawn_step WHITE s n)
      ((n =? s + 7) && negb (SQ_COL s =? 0) || (n =? s + 9) && negb (SQ_COL s =? 7))) 64 64).
  - by apply (forall_range2 (fun s n => eqb (pawn_step BLACK s n)
      ((n =? s - 7) && negb (SQ_COL s =? 7) || (n =? s - 9) && negb (SQ_COL s =? 0))) 64 64).
Qed.

(** The squares whose pawn would attack [n]. *)
Lemma pawn_union_testbit (c : Color) (p : Bitboard) (n : Square) :
  real_color c -> 0 <= p < 2 ^ 64 -> on_board n ->
  Z.testbit (bb_union (pawn_attacks c) BB_EMPTY p) n = true <->
  exists s, on_board s /\ Z.testbit p s = true /\ pawn_step c s n = true.
Proof.
  intros Hc Hp Hn. rewrite bb_union_testbit. unfold BB_EMPTY. rewrite Z.testbit_0_l. cbn [orb].
  rewrite existsb_exists. split.
  - intros (s & [Hs Hb]%elem_of_bb_squares & Ha); [|done]. exists s.
    rewrite pawn_attacks_spec in Ha by done. done.
  - intros (s & Hs & Hb & Ha). exists s. split; [by apply elem_of_bb_squares|].
    by rewrite pawn_attacks_spec by done.
Qed.

Lemma masked_testbit (p m s : Z) :
  0 <= p < 2 ^ 64 ->
  Z.testbit (Z.land p (bb_not m)) s = true <->
  on_board s /\ Z.testbit p s = true /\ Z.testbit m s = false.
Proof.
  intros Hp. rewrite Z.land_spec, andb_true_iff. unfold on_board.
  destruct (Z.ltb_spec s 0); [rewrite Z.testbit_neg_r by done; naive_solver lia|].
  destruct (Z.ltb_spec s 64); [|rewrite testbit_above_64 by lia; naive_solver lia].
  rewrite bb_not_testbit, negb_true_iff by lia. naive_solver lia.
Qed.

Lemma shifted_left (p m k n : Z) :
  0 <= p < 2 ^ 64 -> 0 <= k -> on_board n ->
  Z.testbit (u64 (Z.shiftl (Z.land p (bb_not m)) k)) n = true <->
  on_board (n - k) /\ Z.testbit p (n - k) = true /\ Z.testbit m (n - k) = false.
Proof.
  intros Hp Hk Hn. rewrite testbit_u64, Z.shiftl_spec by sq_lia. unfold on_board in Hn.
  replace (0 <=? n) with true by lia. replace (n <? 64) with true by lia. cbn [andb].
  by apply masked_testbit.
Qed.

Lemma shifted_right (p m k n : Z) :
  0 <= p < 2 ^ 64 -> 0 <= k -> on_board n ->
  Z.testbit (Z.shiftr (Z.land p (bb_not m)) k) n = true <->
  on_board (n + k) /\ Z.testbit p (n + k) = true /\ Z.testbit m (n + k) = false.
Proof. intros Hp Hk Hn. rewrite Z.shiftr_spec by sq_lia. by apply masked_testbit. Qed.

Lemma u64_bound (x : Z) : 0 <= u64 x < 2 ^ 64.
Proof. apply Z.mod_pos_bound. lia. Qed.

Lemma shiftr_bound (x k : Z) : 0 <= k -> 0 <= x < 2 ^ 64 -> 0 <= Z.shiftr x k < 2 ^ 64.
Proof.
  intros Hk Hx. apply bits_bounded; [lia|]. intros n Hn.
  rewrite Z.shiftr_spec by lia. apply testbit_above_64; [done|lia].
Qed.

#[export] Hint Resolve u64_bound : board.
#[export] Hint Extern 2 (0 <= Z.shiftr _ _ < _) => apply shiftr_bound; [lia|] : board.

Lemma pawn_atk_union (b : Board) (c : Color) :
  board_inv b -> real_color c -> b_mod b <> MOD_MERCENARY ->
  pawn_atk_of b c = bb_union (pawn_attacks c) BB_EMPTY (pcs b c PAWN).
Proof.
  intros Hi Hc Hm. assert (0 <= pcs b c PAWN < 2 ^ 64) as Hp by auto with board.
  assert (0 <= bb_union (pawn_attacks c) BB_EMPTY (pcs b c PAWN) < 2 ^ 64) as Hu
    by (apply bb_union_bound; auto with board).
  unfold pawn_atk_of. rewrite bool_decide_eq_false_2 by done. set (p := pcs b c PAWN) in *.
  apply bb_ext; [destruct (c == WHITE); auto with board|done|].
  intros n Hn. apply eq_iff_eq_true. rewrite pawn_union_testbit by done.
  transitivity (exists s, on_board s /\ Z.testbit p s = true /\
    (if c == WHITE then (n =? s + 7) && negb (SQ_COL s =? 0) || (n =? s + 9) && negb (SQ_COL s =? 7)
     else (n =? s - 7) && negb (SQ_COL s =? 7) || (n =? s - 9) && negb (SQ_COL s =? 0)) = true).
  2:{ split; intros (s & Hs & Hb & Ha); exists s; (split_and!; [done|done|]);
        [rewrite pawn_step_offset|rewrite pawn_step_offset in Ha]; done. }
  destruct (c == WHITE); rewrite Z.lor_spec, orb_true_iff;
    [rewrite !shifted_left by (done || lia)|rewrite !shifted_right by (done || lia)]; split.
  - intros [(Hs & Hb & Hf)|(Hs & Hb & Hf)]; eexists; (split_and!; [exact Hs|exact Hb|]);
      rewrite ?FILE_A_testbit, ?FILE_H_testbit in Hf by done; rewrite Hf; zb.
  - intros (s & Hs & Hb & Ha). apply orb_true_iff in Ha.
    rewrite !andb_true_iff, !Z.eqb_eq, !negb_true_iff in Ha. destruct Ha as [[-> Hf]|[-> Hf]].
    + left. rewrite Z.add_simpl_r, FILE_A_testbit by done. done.
    + right. rewrite Z.add_simpl_r, FILE_H_testbit by done. done.
  - intros [(Hs & Hb & Hf)|(Hs & Hb & Hf)]; eexists; (split_and!; [exact Hs|exact Hb|]);
      rewrite ?FILE_A_testbit, ?FILE_H_testbit in Hf by done; rewrite Hf; zb.
  - intros (s & Hs & Hb & Ha). apply orb_true_iff in Ha.
    rewrite !andb_true_iff, !Z.eqb_eq, !negb_true_iff in Ha. destruct Ha as [[-> Hf]|[-> Hf]].
    + left. rewrite Z.sub_simpl_r, FILE_H_testbit by done. done.
    + right. rewrite Z.sub_simpl_r, FILE_A_testbit by done. done.
Qed.
