(* ===== verification/EvalSym.v ===== *)
(** * The common evaluation is colour-blind

    Seen from the other side, every term of [eval_common_init] and
    [eval_common_finish] changes sign and nothing else. *)

From stdpp Require Import base numbers list option.
From Stdlib Require Import ZArith Lia Bool Permutation.
From S2P Require Import Prelude Types Board Attacks Movegen EvalTables EvalCommon Flip.

(** ** Arrays indexed by colour *)

Lemma at_by_color (f : Color -> Z) (c : Color) : real_color c -> (by_color f)@c = f c.
Proof. destruct c; real. Qed.

Lemma both_sides_diff (f : Color -> Z) : both_sides f = f WHITE - f BLACK.
Proof. unfold both_sides, signed. simpl. lia. Qed.

(** A term per side that is the same from the other side. *)
Definition same_for (f f' : Color -> Z) : Prop :=
  forall c, real_color c -> f' (color_opposite c) = f c.

Lemma both_sides_flip (f f' : Color -> Z) : same_for f f' -> both_sides f' = - both_sides f.
Proof.
  intros H. rewrite !both_sides_diff.
  rewrite <- (H WHITE), <- (H BLACK) by done. simpl. lia.
Qed.

(** ** The accumulators as sums *)

Definition sum_types (f : PieceType -> Z) : Z := fold_left (fun acc t => acc + f t) piece_types 0.

Section Acc.
Context (b : Board) (atk : list Bitboard) (c : Color).

(** A numeric field to which every piece adds [w t sq]. *)
Context (field : SideAcc -> Z) (w : PieceType -> Square -> Z).
Context (Hstep : forall t a sq, field (acc_piece b atk c t a sq) = field a + w t sq).

Lemma acc_squares (t : PieceType) (l : list Square) (a : SideAcc) :
  field (fold_left (acc_piece b atk c t) l a) =
  field a + fold_left (fun acc sq => acc + w t sq) l 0.
Proof.
  revert a. induction l as [|s l IH]; intros a; cbn [fold_left]; [lia|].
  rewrite IH, Hstep, (fold_add (w t) l (0 + w t s)). lia.
Qed.

Lemma acc_types (ts : list PieceType) (a : SideAcc) :
  field (fold_left (fun a t => fold_left (acc_piece b atk c t) (bb_squares (pcs b c t)) a) ts a) =
  field a + fold_left (fun acc t => acc + bb_sum (w t) (pcs b c t)) ts 0.
Proof.
  revert a. induction ts as [|t ts IH]; intros a; cbn [fold_left]; [lia|].
  rewrite IH, acc_squares. fold (bb_sum (w t) (pcs b c t)).
  assert (forall (g : PieceType -> Z) l x, fold_left (fun acc t => acc + g t) l x =
            x + fold_left (fun acc t => acc + g t) l 0) as Hadd.
  { intros g l. induction l as [|y l IHl]; intros x; cbn [fold_left]; [lia|].
    rewrite (IHl (x + g y)), (IHl (0 + g y)). lia. }
  rewrite (Hadd _ ts (0 + _)). lia.
Qed.

Lemma acc_sum :
  field acc_zero = 0 ->
  field (acc_side b atk c) = sum_types (fun t => bb_sum (w t) (pcs b c t)).
Proof. intros H0. unfold acc_side. rewrite acc_types, H0. done. Qed.
End Acc.

Definition mg_term (b : Board) (atk : list Bitboard) (c : Color) (t : PieceType) (sq : Square) : Z :=
  piece_mat b c t sq + (piece_pst b c t sq).1 + (piece_mobility b atk c t sq).1.
Definition eg_term (b : Board) (atk : list Bitboard) (c : Color) (t : PieceType) (sq : Square) : Z :=
  piece_mat b c t sq + (piece_pst b c t sq).2 + (piece_mobility b atk c t sq).2.

Lemma acc_mg_sum (b : Board) (atk : list Bitboard) (c : Color) :
  a_mg (acc_side b atk c) = sum_types (fun t => bb_sum (mg_term b atk c t) (pcs b c t)).
Proof. apply acc_sum; [|done]. intros. unfold mg_term, acc_piece. cbn [a_mg]. lia. Qed.

Lemma acc_eg_sum (b : Board) (atk : list Bitboard) (c : Color) :
  a_eg (acc_side b atk c) = sum_types (fun t => bb_sum (eg_term b atk c t) (pcs b c t)).
Proof. apply acc_sum; [|done]. intros. unfold eg_term, acc_piece. cbn [a_eg]. lia. Qed.

Lemma acc_material_sum (b : Board) (atk : list Bitboard) (c : Color) :
  a_material (acc_side b atk c) = sum_types (fun t => bb_sum (piece_mat b c t) (pcs b c t)).
Proof. apply acc_sum; done. Qed.

Lemma acc_non_pawn_sum (b : Board) (atk : list Bitboard) (c : Color) :
  a_non_pawn (acc_side b atk c) =
  sum_types (fun t => bb_sum (fun sq => if (t != PAWN) && (t != KING) then piece_mat b c t sq else 0)
    (pcs b c t)).
Proof.
  apply (acc_sum b atk c a_non_pawn
    (fun t sq => if (t != PAWN) && (t != KING) then piece_mat b c t sq else 0)); [|done].
  intros. unfold acc_piece. cbn [a_non_pawn]. destruct (_ && _); lia.
Qed.

Lemma acc_pawns_sum (b : Board) (atk : list Bitboard) (c : Color) :
  a_pawns (acc_side b atk c) =
  sum_types (fun t => bb_sum (fun _ => if t == PAWN then 1 else 0) (pcs b c t)).
Proof.
  apply (acc_sum b atk c a_pawns (fun t _ => if t == PAWN then 1 else 0)); [|done].
  intros. unfold acc_piece. cbn [a_pawns]. destruct (t == PAWN); lia.
Qed.

Lemma acc_bishops_sum (b : Board) (atk : list Bitboard) (c : Color) :
  a_bishops (acc_side b atk c) =
  sum_types (fun t => bb_sum (fun _ => if t == BISHOP then 1 else 0) (pcs b c t)).
Proof.
  apply (acc_sum b atk c a_bishops (fun t _ => if t == BISHOP then 1 else 0)); [|done].
  intros. unfold acc_piece. cbn [a_bishops]. destruct (t == BISHOP); lia.
Qed.

(** ** One piece from the other side *)

Section Pieces.
Context (b b' : Board) (H : flipped b b').
Local Definition Hi : board_inv b := fl_inv b b' H.
Local Definition Hi' : board_inv b' := fl_inv' b b' H.
Local Hint Resolve Hi Hi' : board.

Lemma pawn_atk_bound (c : Color) : real_color c -> 0 <= pawn_atk_of b c < 2 ^ 64.
Proof.
  intros Hc. destruct (decide (b_mod b = MOD_MERCENARY)) as [E|E].
  - unfold pawn_atk_of. rewrite bool_decide_eq_true_2 by done.
    apply bb_union_bound; auto with board.
  - rewrite pawn_atk_union by auto with board. apply bb_union_bound; auto with board.
Qed.

Lemma pawn_atk_flip (c : Color) :
  real_color c -> pawn_atk_of b' (color_opposite c) = flip_bb (pawn_atk_of b c).
Proof.
  intros Hc. destruct (decide (b_mod b = MOD_MERCENARY)) as [E|E].
  - unfold pawn_atk_of. rewrite (fl_mod b b' H), bool_decide_eq_true_2 by done.
    rewrite (pcs_flip b b' H) by done. rewrite <- flip_empty at 1.
    apply bb_union_flip; auto using king_attacks_flip with board.
  - rewrite !pawn_atk_union; rewrite ?(fl_mod b b' H); auto with board.
    rewrite (pcs_flip b b' H) by done. rewrite <- flip_empty at 1.
    apply bb_union_flip; auto using pawn_attacks_flip with board.
Qed.

Lemma piece_mat_flip (c : Color) (t : PieceType) (sq : Square) :
  real_color c -> on_board sq ->
  piece_mat b' (color_opposite c) t (mirror sq) = piece_mat b c t sq.
Proof.
  intros Hc Hs. unfold piece_mat. rewrite (fl_mod b b' H).
  by rewrite (heir_check_flip b b' H), own_half_flip by done.
Qed.

Lemma piece_pst_flip (c : Color) (t : PieceType) (sq : Square) :
  real_color c -> on_board sq ->
  piece_pst b' (color_opposite c) t (mirror sq) = piece_pst b c t sq.
Proof.
  intros Hc Hs. unfold piece_pst.
  rewrite (fl_mod b b' H), (fl_kb b b' H), (truce_now_flip b b' H), rel_row_flip by done.
  assert ((if color_opposite c == WHITE then mirror sq else mirror (mirror sq)) =
          (if c == WHITE then sq else mirror sq)) as ->; [|done].
  rewrite mirror_involutive. destruct c; done || real.
Qed.

Lemma own_blockers_bound (c : Color) : real_color c -> 0 <= own_blockers b c < 2 ^ 64.
Proof. intros. unfold own_blockers. case_match; auto with board. Qed.

Lemma own_blockers_flip (c : Color) :
  real_color c -> own_blockers b' (color_opposite c) = flip_bb (own_blockers b c).
Proof.
  intros Hc. unfold own_blockers. rewrite (fl_mod b b' H), (occ_flip b b' H) by done.
  destruct (b_mod b == MOD_FRIENDLY_FIRE); [|done].
  rewrite (pcs_flip b b' H) by done.
  apply bb_ext; [auto with board..|]. intros n Hn. pose proof (mirror_on_board n Hn) as Hm.
  rewrite flip_testbit by done.
  rewrite !Z.land_spec, !bb_not_testbit, !Z.land_spec, !bb_not_testbit, !flip_testbit by done.
  rewrite <- (fl_ff b b' H (mirror n)) by done. by rewrite mirror_involutive.
Qed.

Section Mobility.
Context (atk atk' : list Bitboard) (c : Color) (Hc : real_color c).
Context (Hatk : atk'@c = flip_bb (atk@(color_opposite c))).

Lemma mobility_flip (t : PieceType) (sq : Square) :
  on_board sq ->
  piece_mobility b' atk' (color_opposite c) t (mirror sq) = piece_mobility b atk c t sq.
Proof.
  intros Hs. unfold piece_mobility.
  rewrite (fl_mod b b' H), (truce_now_flip b b' H), (own_blockers_flip c Hc),
    (all_flip b b' H), color_opposite_involutive, Hatk.
  pose proof (own_blockers_bound c Hc) as Hown.
  rewrite king_attacks_flip, knight_attacks_flip, bishop_attacks_flip, rook_attacks_flip
    by auto with board.
  set (own := own_blockers b c) in *. set (en := atk@(color_opposite c)) in *.
  rewrite <- !flip_not, <- flip_lor, <- !flip_land by auto with board.
  assert (forall (z : bool) x y, (if z then flip_bb x else flip_bb y) =
            flip_bb (if z then x else y)) as Hif by by intros [].
  rewrite !Hif, !popcount_flip; [done|auto with board..|].
  all: repeat case_match; auto with board.
Qed.
End Mobility.
End Pieces.

(** ** [eval_common_init] from the other side *)

(** A square or -1, mirrored. *)
Definition mirror_opt (sq : Z) : Z := if sq <? 0 then sq else mirror sq.

(** The numbers and attack sets of a context from the other side. *)
Record ctx_flipped (ctx ctx' : EvalContext) : Prop := {
  cf_score : ctx_score ctx' = - ctx_score ctx;
  cf_material : forall c, real_color c ->
    (ctx_material ctx')@(color_opposite c) = (ctx_material ctx)@c;
  cf_non_pawn : forall c, real_color c ->
    (ctx_non_pawn_material ctx')@(color_opposite c) = (ctx_non_pawn_material ctx)@c;
  cf_pawns : forall c, real_color c ->
    (ctx_pawn_count ctx')@(color_opposite c) = (ctx_pawn_count ctx)@c;
  cf_bishops : forall c, real_color c ->
    (ctx_bishop_count ctx')@(color_opposite c) = (ctx_bishop_count ctx)@c;
  cf_atk : forall c, real_color c ->
    (ctx_pawn_atk ctx')@(color_opposite c) = flip_bb ((ctx_pawn_atk ctx)@c);
  cf_atk_bound : forall c, real_color c -> 0 <= (ctx_pawn_atk ctx)@c < 2 ^ 64;
  cf_phase : ctx_phase ctx' = ctx_phase ctx;
  cf_mg : ctx_mg_weight ctx' = ctx_mg_weight ctx;
  cf_eg : ctx_eg_weight ctx' = ctx_eg_weight ctx
}.

(** The sides' sums, equal. *)
Definition acc_same (a a' : SideAcc) : Prop :=
  a_mg a' = a_mg a /\ a_eg a' = a_eg a /\ a_material a' = a_material a /\
  a_non_pawn a' = a_non_pawn a /\ a_pawns a' = a_pawns a /\ a_bishops a' = a_bishops a.

Lemma init_context_flip (atk atk' : list Bitboard) (w k w' k' : SideAcc) :
  acc_same w k' -> acc_same k w' ->
  (forall c, real_color c -> atk'@(color_opposite c) = flip_bb (atk@c)) ->
  (forall c, real_color c -> 0 <= atk@c < 2 ^ 64) ->
  ctx_flipped (init_context atk w k) (init_context atk' w' k').
Proof.
  intros (M1 & E1 & T1 & N1 & P1 & B1) (M2 & E2 & T2 & N2 & P2 & B2) Hatk Hb.
  unfold init_context. rewrite M1, E1, T1, N1, P1, B1, M2, E2, T2, N2, P2, B2.
  rewrite (Z.add_comm (a_material k) (a_material w)).
  set (ph := ((a_material w + a_material k) * 256) ÷ 8000).
  set (phase := if 256 <? ph then 256 else ph). clearbody phase.
  constructor; cbn [ctx_score ctx_material ctx_non_pawn_material ctx_pawn_count ctx_bishop_count
    ctx_pawn_atk ctx_phase ctx_mg_weight ctx_eg_weight]; try done.
  1:{ replace ((a_mg k - a_mg w) * phase + (a_eg k - a_eg w) * (256 - phase)) with
        (- ((a_mg w - a_mg k) * phase + (a_eg w - a_eg k) * (256 - phase))) by lia.
      rewrite Z.quot_opp_l by lia. destruct (2 <=? a_bishops w), (2 <=? a_bishops k); lia. }
  all: intros c Hc; destruct c; done || real.
Qed.

Section Init.
Context (b b' : Board) (H : flipped b b').
Local Abbreviation atk := (by_color (pawn_atk_of b)).
Local Abbreviation atk' := (by_color (pawn_atk_of b')).

Lemma sum_types_flip (c : Color) (w w' : PieceType -> Square -> Z) :
  real_color c ->
  (forall t sq, real_type t -> on_board sq -> w' t (mirror sq) = w t sq) ->
  sum_types (fun t => bb_sum (w' t) (pcs b' (color_opposite c) t)) =
  sum_types (fun t => bb_sum (w t) (pcs b c t)).
Proof.
  intros Hc Hw. pose proof (fl_inv b b' H) as Hi. unfold sum_types. cbn [fold_left piece_types].
  assert (forall t, real_type t ->
    bb_sum (w' t) (pcs b' (color_opposite c) t) = bb_sum (w t) (pcs b c t)) as Ht.
  { intros t Ht. rewrite (pcs_flip b b' H) by done. apply bb_sum_flip; auto with board. }
  by rewrite !Ht by done.
Qed.

Lemma terms_flip (c : Color) (t : PieceType) (sq : Square) :
  real_color c -> on_board sq ->
  mg_term b' atk' (color_opposite c) t (mirror sq) = mg_term b atk c t sq /\
  eg_term b' atk' (color_opposite c) t (mirror sq) = eg_term b atk c t sq.
Proof.
  intros Hc Hs. unfold mg_term, eg_term.
  rewrite (piece_mat_flip b b' H), (piece_pst_flip b b' H) by done.
  rewrite (mobility_flip b b' H atk atk' c Hc); [done| |done].
  rewrite !at_by_color by auto with board.
  rewrite <- (pawn_atk_flip b b' H) by auto with board. by rewrite color_opposite_involutive.
Qed.

Lemma acc_flip (c : Color) :
  real_color c ->
  acc_same (acc_side b atk c) (acc_side b' atk' (color_opposite c)).
Proof.
  intros Hc. unfold acc_same.
  rewrite !acc_mg_sum, !acc_eg_sum, !acc_material_sum, !acc_non_pawn_sum, !acc_pawns_sum,
    !acc_bishops_sum.
  split_and!; apply (sum_types_flip c); auto; intros t sq Ht Hs.
  - by apply terms_flip.
  - by apply terms_flip.
  - by apply (piece_mat_flip b b' H).
  - cbv beta. by rewrite (piece_mat_flip b b' H).
Qed.

Lemma init_flip : ctx_flipped (eval_common_init b) (eval_common_init b').
Proof.
  unfold eval_common_init. cbv zeta. apply init_context_flip.
  - exact (acc_flip WHITE ltac:(done)).
  - exact (acc_flip BLACK ltac:(done)).
  - intros c Hc. rewrite !at_by_color by auto with board. by apply (pawn_atk_flip b b' H).
  - intros c Hc. rewrite at_by_color by done. by apply (pawn_atk_bound b b' H).
Qed.
End Init.

(** ** [eval_common_finish] from the other side *)

Lemma file_mask_flip (col : Z) : 0 <= col < 8 -> flip_bb (file_mask col) = file_mask col.
Proof.
  intros Hc. apply bb_ext; [auto with board|unfold file_mask; auto with board|].
  intros n Hn. rewrite flip_testbit by done. apply eqb_prop.
  by apply (forall_range2 (fun col n => eqb (Z.testbit (file_mask col) (mirror n))
    (Z.testbit (file_mask col) n)) 8 64).
Qed.

Lemma file_mask_bound (col : Z) : 0 <= file_mask col < 2 ^ 64.
Proof. unfold file_mask. auto with board. Qed.
#[export] Hint Resolve file_mask_bound : board.

(** Masks that do not change. *)
Lemma popcount_mask (p m : Bitboard) :
  0 <= p < 2 ^ 64 -> flip_bb m = m -> bb_popcount (Z.land (flip_bb p) m) = bb_popcount (Z.land p m).
Proof.
  intros Hp E. rewrite <- (popcount_flip (Z.land p m)), flip_land, E by auto with board. done.
Qed.

Lemma nonzero_mask (p m : Bitboard) :
  0 <= p < 2 ^ 64 -> flip_bb m = m -> bb_nonzero (Z.land (flip_bb p) m) = bb_nonzero (Z.land p m).
Proof.
  intros Hp E. rewrite <- (flip_nonzero (Z.land p m)), flip_land, E by auto with board. done.
Qed.

Lemma adjacent_files_flip (col : Z) :
  0 <= col < 8 -> flip_bb (adjacent_files col) = adjacent_files col.
Proof.
  intros Hc. unfold adjacent_files. destruct (Z.ltb_spec 0 col), (Z.ltb_spec col 7);
    rewrite ?flip_lor, ?file_mask_flip, ?flip_empty by (auto with board || lia); done.
Qed.

(** A pawn is passed when no enemy pawn stands ahead of it on its own or an
    adjacent file. *)
Lemma passed_spec (b : Board) (c : Color) (sq : Square) :
  board_inv b -> real_color c -> on_board sq ->
  passed b c sq = true <->
  forall n, on_board n -> mb b n = PIECE_MAKE (color_opposite c) PAWN ->
    Z.abs (SQ_COL n - SQ_COL sq) <= 1 -> rel_row c n <= rel_row c sq.
Proof.
  intros Hi Hc Hs. pose proof (SQ_ROW_bound sq Hs) as Hr. pose proof (SQ_COL_bound sq) as Hcol.
  unfold passed. rewrite forallb_forall.
  assert (forall r, In r (seqZ (if c == WHITE then SQ_ROW sq + 1 else 0)
            ((if c == WHITE then 8 else SQ_ROW sq) - (if c == WHITE then SQ_ROW sq + 1 else 0))) <->
            0 <= r < 8 /\ (if c == WHITE then SQ_ROW sq < r else r < SQ_ROW sq)) as Hrows.
  { intros r. rewrite <- list_elem_of_In, elem_of_seqZ. destruct (c == WHITE); lia. }
  split.
  - intros H n Hn En Hd. pose proof (SQ_ROW_bound n Hn) as Hrn. pose proof (SQ_COL_bound n).
    destruct (Z.le_gt_cases (rel_row c n) (rel_row c sq)) as [|Hlt]; [done|exfalso].
    specialize (H (SQ_ROW n)). rewrite Hrows, forallb_forall in H.
    assert (if c == WHITE then SQ_ROW sq < SQ_ROW n else SQ_ROW n < SQ_ROW sq) as Ha.
    { unfold rel_row in Hlt. destruct (c == WHITE); lia. }
    specialize (H (conj Hrn Ha) (SQ_COL n - SQ_COL sq)).
    replace (SQ_COL sq + (SQ_COL n - SQ_COL sq)) with (SQ_COL n) in H by lia.
    replace ((SQ_COL n <? 0) || (7 <? SQ_COL n)) with false in H by lia.
    assert (SQ (SQ_ROW n) (SQ_COL n) = n) as E.
    { rewrite SQ_small by lia. symmetry. apply SQ_ROW_COL. }
    rewrite E, BB_HAS_testbit, pcs_testbit, En, Z.eqb_refl in H by (auto with board || sq_lia).
    assert (negb true = true); [|done]. apply H. simpl. lia.
  - intros H r Hin%Hrows. rewrite forallb_forall. intros dc Hdc.
    set (nc := SQ_COL sq + dc). destruct ((nc <? 0) || (7 <? nc)) eqn:En; [done|]. cbn [orb].
    apply orb_false_iff in En as [En1%Z.ltb_ge En2%Z.ltb_ge]. destruct Hin as [Hr8 Ha].
    assert (on_board (SQ r nc)) as Hon by (apply SQ_on_board; lia).
    rewrite BB_HAS_testbit, pcs_testbit by (auto with board || sq_lia). apply negb_true_iff, Z.eqb_neq. intros E.
    specialize (H (SQ r nc) Hon E). unfold rel_row in H.
    rewrite SQ_COL_SQ, SQ_ROW_SQ in H by lia. unfold nc in H. simpl in Hdc.
    assert (Z.abs (SQ_COL sq + dc - SQ_COL sq) <= 1) as Hd by lia. specialize (H Hd).
    destruct (c == WHITE); lia.
Qed.

(** At most one square. *)
Definition single (x : Bitboard) : Prop :=
  forall i j, on_board i -> on_board j -> Z.testbit x i = true -> Z.testbit x j = true -> i = j.

Lemma lsb_flip (x : Bitboard) :
  0 <= x < 2 ^ 64 -> single x -> x <> BB_EMPTY ->
  bb_lsb (flip_bb x) = mirror (bb_lsb x) /\ on_board (bb_lsb x).
Proof.
  intros Hx Hs Hne. unfold BB_EMPTY in Hne.
  destruct (bb_lsb_spec x) as (H1 & H2 & _); [lia|].
  assert (flip_bb x <> 0) as Hne'.
  { intros E. apply Hne. pose proof (flip_is_empty x Hx) as Hf. rewrite E in Hf.
    symmetry in Hf. by apply Z.eqb_eq in Hf. }
  pose proof (flip_bound x) as Hb.
  destruct (bb_lsb_spec (flip_bb x)) as (H3 & H4 & _); [lia|]. split; [|done].
  rewrite flip_testbit in H4 by done. rewrite (Hs (bb_lsb x) (mirror (bb_lsb (flip_bb x))));
    auto with board. by rewrite mirror_involutive.
Qed.

Section Finish.
Context (b b' : Board) (H : flipped b b') (ctx ctx' : EvalContext) (Hctx : ctx_flipped ctx ctx').
Local Definition Hj : board_inv b := fl_inv b b' H.
Local Definition Hj' : board_inv b' := fl_inv' b b' H.
Local Hint Resolve Hj Hj' : board.

Lemma file_penalty_flip (c : Color) (col : Z) :
  real_color c -> 0 <= col < 8 ->
  file_penalty b' (color_opposite c) col = file_penalty b c col.
Proof.
  intros Hc Hcol. unfold file_penalty. rewrite (truce_now_flip b b' H), (pcs_flip b b' H) by done.
  by rewrite popcount_mask, nonzero_mask by auto using file_mask_flip, adjacent_files_flip with board.
Qed.

Lemma pawn_structure_flip : pawn_structure b' = - pawn_structure b.
Proof.
  unfold pawn_structure.
  assert (forall l x, Forall (fun col => 0 <= col < 8) l ->
    fold_left (fun score col => score - file_penalty b' WHITE col + file_penalty b' BLACK col) l (- x) =
    - fold_left (fun score col => score - file_penalty b WHITE col + file_penalty b BLACK col) l x)
    as Hl.
  { intros l x Hl. revert x. induction Hl as [|col l Hcol _ IH]; intros x; cbn [fold_left]; [lia|].
    rewrite <- IH. f_equal.
    pose proof (file_penalty_flip WHITE col ltac:(done) Hcol) as E1.
    pose proof (file_penalty_flip BLACK col ltac:(done) Hcol) as E2.
    cbn [color_opposite] in *. lia. }
  apply (Hl (seqZ 0 8) 0). apply List.Forall_forall. intros col Hin.
  rewrite <- list_elem_of_In, elem_of_seqZ in Hin. lia.
Qed.

Lemma pawn_flip (c : Color) (n : Square) :
  real_color c -> on_board n ->
  mb b' (mirror n) = PIECE_MAKE (color_opposite c) PAWN <-> mb b n = PIECE_MAKE c PAWN.
Proof.
  intros Hc Hn. rewrite (fl_mb b b' H) by done.
  rewrite <- !Z.eqb_eq, flip_piece_eq by auto using mb_valid, Hj with board. done.
Qed.

Lemma passed_flip (c : Color) (sq : Square) :
  real_color c -> on_board sq -> passed b' (color_opposite c) (mirror sq) = passed b c sq.
Proof.
  intros Hc Hs. apply eq_iff_eq_true.
  rewrite !passed_spec by auto with board. split; intros Hp n Hn E Hd.
  - rewrite <- (rel_row_flip c n), <- (rel_row_flip c sq) by done. apply Hp; auto with board.
    + apply pawn_flip; auto with board.
    + by rewrite !mirror_col.
  - rewrite <- (mirror_involutive n), !rel_row_flip by auto with board. apply Hp; auto with board.
    + apply pawn_flip; auto with board. by rewrite mirror_involutive.
    + rewrite mirror_col in Hd by done. by rewrite mirror_col.
Qed.

Lemma passed_bonus_flip (mg eg : Z) :
  same_for (fun c => bb_sum (passed_bonus b mg eg c) (pcs b c PAWN))
           (fun c => bb_sum (passed_bonus b' mg eg c) (pcs b' c PAWN)).
Proof.
  intros c Hc. rewrite (pcs_flip b b' H) by done. apply bb_sum_flip; [auto with board|].
  intros sq Hs _. unfold passed_bonus. by rewrite passed_flip, rel_row_flip.
Qed.

Lemma rook_files_flip :
  same_for (fun c => bb_sum (rook_file_bonus b c) (pcs b c ROOK))
           (fun c => bb_sum (rook_file_bonus b' c) (pcs b' c ROOK)).
Proof.
  intros c Hc. rewrite (pcs_flip b b' H) by done. apply bb_sum_flip; [auto with board|].
  intros sq Hs _. unfold rook_file_bonus. rewrite mirror_col by done.
  rewrite (pcs_flip b b' H c), (pcs_flip b b' H (color_opposite c)) by auto with board.
  pose proof (SQ_COL_bound sq).
  by rewrite !nonzero_mask by auto using file_mask_flip with board.
Qed.

Lemma pawn_shield_flip (c : Color) (ksq : Square) :
  real_color c -> on_board ksq ->
  pawn_shield b' (color_opposite c) (mirror ksq) = pawn_shield b c ksq.
Proof.
  intros Hc Hs. pose proof (SQ_ROW_bound ksq Hs). pose proof (SQ_COL_bound ksq).
  unfold pawn_shield. rewrite mirror_row, mirror_col by done.
  set (fwd := if c == WHITE then 1 else -1).
  assert ((if color_opposite c == WHITE then 1 else -1) = - fwd /\ -1 <= fwd <= 1) as [-> Hf].
  { unfold fwd. destruct c; simpl; lia || real. }
  replace (7 - SQ_ROW ksq + - fwd) with (7 - (SQ_ROW ksq + fwd)) by lia.
  set (nr := SQ_ROW ksq + fwd) in *.
  assert (forall dc,
    (if (SQ_COL ksq + dc <? 0) || (7 <? SQ_COL ksq + dc) || (7 - nr <? 0) || (7 <? 7 - nr) then false
     else BB_HAS (pcs b' (color_opposite c) PAWN) (SQ (7 - nr) (SQ_COL ksq + dc))) =
    (if (SQ_COL ksq + dc <? 0) || (7 <? SQ_COL ksq + dc) || (nr <? 0) || (7 <? nr) then false
     else BB_HAS (pcs b c PAWN) (SQ nr (SQ_COL ksq + dc)))) as Hone.
  { intros dc. set (nc := SQ_COL ksq + dc).
    replace ((nc <? 0) || (7 <? nc) || (7 - nr <? 0) || (7 <? 7 - nr))
      with ((nc <? 0) || (7 <? nc) || (nr <? 0) || (7 <? nr)) by lia.
    destruct ((nc <? 0) || (7 <? nc) || (nr <? 0) || (7 <? nr)) eqn:E; [done|].
    assert (0 <= nc < 8 /\ 0 <= nr < 8) as [Hnc Hnr] by lia.
    pose proof (SQ_on_board nr nc Hnr Hnc) as Hon.
    rewrite <- mirror_SQ by done. pose proof (mirror_on_board _ Hon). rewrite !BB_HAS_testbit by sq_lia.
    rewrite (pcs_flip b b' H), flip_testbit by auto with board. by rewrite mirror_involutive. }
  assert (forall (g h : Z -> bool) l x, (forall dc, g dc = h dc) ->
    fold_left (fun s dc => if g dc then s + 1 else s) l x =
    fold_left (fun s dc => if h dc then s + 1 else s) l x) as Hfold.
  { intros g h l. induction l as [|y l IH]; intros x Hgh; [done|]. cbn [fold_left].
    rewrite Hgh. by apply IH. }
  assert (forall (g h : Z -> bool) (l : list Z) (x : Z),
    fold_left (fun s dc => if g dc then s else if h dc then s + 1 else s) l x =
    fold_left (fun s dc => if (if g dc then false else h dc) then s + 1 else s) l x) as Hif.
  { intros g h l. induction l as [|y l IH]; intros x; [done|]. cbn [fold_left].
    rewrite IH. by destruct (g y). }
  etransitivity; [apply Hif|]. etransitivity; [|symmetry; apply Hif]. apply Hfold, Hone.
Qed.

Lemma attack_weight_flip (opp : Color) (zone : Bitboard) :
  real_color opp -> 0 <= zone < 2 ^ 64 ->
  attack_weight b' (color_opposite opp) (flip_bb zone) = attack_weight b opp zone.
Proof.
  intros Hc Hz. unfold attack_weight. rewrite (fl_mod b b' H), (all_flip b b' H).
  rewrite !(pcs_flip b b' H) by done.
  assert (forall w (f g : Square -> Bitboard) t, real_type t ->
    (forall s, on_board s -> f (mirror s) = flip_bb (g s) /\ 0 <= g s < 2 ^ 64) ->
    bb_sum (fun s => if bb_nonzero (Z.land (f s) (flip_bb zone)) then w else 0)
      (flip_bb (pcs b opp t)) =
    bb_sum (fun s => if bb_nonzero (Z.land (g s) zone) then w else 0) (pcs b opp t)) as Hsum.
  { intros w f g t Ht Hfg. apply bb_sum_flip; [auto with board|]. intros s Hs _.
    destruct (Hfg s Hs) as [-> Hb]. by rewrite (hits_flip (g s) (flip_bb (g s)) zone (flip_bb zone)). }
  assert (forall s, on_board s ->
    bishop_attacks_calc (mirror s) (flip_bb (b_all b)) = flip_bb (bishop_attacks_calc s (b_all b)) /\
    0 <= bishop_attacks_calc s (b_all b) < 2 ^ 64) as Hb.
  { intros s Hs. split; [apply bishop_attacks_flip|]; auto with board. }
  assert (forall s, on_board s ->
    rook_attacks_calc (mirror s) (flip_bb (b_all b)) = flip_bb (rook_attacks_calc s (b_all b)) /\
    0 <= rook_attacks_calc s (b_all b) < 2 ^ 64) as Hr.
  { intros s Hs. split; [apply rook_attacks_flip|]; auto with board. }
  rewrite (Hsum 5 _ (fun s => Z.lor (bishop_attacks_calc s (b_all b))
    (rook_attacks_calc s (b_all b))) QUEEN), (Hsum 3 _ _ ROOK ltac:(done) Hr),
    (Hsum 2 _ _ BISHOP ltac:(done) Hb),
    (Hsum 2 knight_attacks knight_attacks KNIGHT), (Hsum 5 king_attacks king_attacks PAWN);
    auto using knight_attacks_flip, king_attacks_flip with board.
  intros s Hs. destruct (Hb s Hs) as [-> ?], (Hr s Hs) as [-> ?].
  rewrite <- flip_lor by done. auto with board.
Qed.

Context (Hsingle : forall c, real_color c -> single (pcs b c KING)).

Lemma king_safety_flip (mgw : Z) : same_for (king_safety b mgw) (king_safety b' mgw).
Proof.
  intros c Hc. unfold king_safety.
  rewrite (fl_mod b b' H), (heir_check_flip b b' H), (pcs_flip b b' H c KING) by done.
  rewrite flip_is_empty by auto with board.
  destruct (Z.eqb_spec (pcs b c KING) BB_EMPTY) as [E|E]; [done|].
  destruct (_ && negb (heir_check_applies b c)); [done|].
  destruct (lsb_flip (pcs b c KING)) as [-> Hk]; [auto with board|auto|done|].
  set (ksq := bb_lsb (pcs b c KING)) in *.
  rewrite pawn_shield_flip, king_attacks_flip, <- flip_sq, (pcs_flip b b' H c PAWN) by done.
  rewrite <- flip_lor, <- flip_land, popcount_flip by auto with board.
  by rewrite attack_weight_flip by auto with board.
Qed.

Lemma victim_flip (table : list Z) (s : Square) :
  on_board s -> victim_value b' table (mirror s) = victim_value b table s.
Proof.
  intros Hs. unfold victim_value. rewrite (fl_mb b b' H) by done.
  by rewrite flip_piece_type by auto using mb_valid, Hj with board.
Qed.

Lemma exposed_flip :
  same_for (merc_exposed b (ctx_pawn_atk ctx)) (merc_exposed b' (ctx_pawn_atk ctx')).
Proof.
  intros c Hc. unfold merc_exposed.
  pose proof (cf_atk_bound _ _ Hctx (color_opposite c) ltac:(auto with board)).
  rewrite (cf_atk _ _ Hctx (color_opposite c)), (occ_flip b b' H), !(pcs_flip b b' H)
    by auto with board.
  rewrite <- flip_lor, <- flip_not, <- !flip_land by auto with board.
  apply bb_sum_flip; [auto with board|]. intros s Hs _. by apply victim_flip.
Qed.

Lemma threats_flip :
  same_for (pawn_threats b (ctx_pawn_atk ctx)) (pawn_threats b' (ctx_pawn_atk ctx')).
Proof.
  intros c Hc. unfold pawn_threats. pose proof (cf_atk_bound _ _ Hctx c Hc).
  rewrite (cf_atk _ _ Hctx c), (fl_mod b b' H), (occ_flip b b' H), (pcs_flip b b' H)
    by auto with board.
  rewrite <- flip_not, <- !flip_land by auto with board.
  apply bb_sum_flip; [auto with board|]. intros s Hs _. by apply victim_flip.
Qed.

Lemma tempo_flip (n : Z) : tempo b' n = - tempo b n.
Proof.
  unfold tempo. rewrite (fl_side b b' H). pose proof (fl_side_real b b' H).
  destruct (b_side b); simpl; lia || real.
Qed.

Lemma finish_flip : eval_common_finish b' ctx' = - eval_common_finish b ctx.
Proof.
  unfold eval_common_finish.
  rewrite (fl_mod b b' H), (cf_mg _ _ Hctx), (cf_eg _ _ Hctx), pawn_structure_flip, !tempo_flip.
  rewrite (both_sides_flip _ _ (passed_bonus_flip (ctx_mg_weight ctx) (ctx_eg_weight ctx))),
    (both_sides_flip _ _ rook_files_flip), (both_sides_flip _ _ (king_safety_flip (ctx_mg_weight ctx))),
    (both_sides_flip _ _ exposed_flip), (both_sides_flip _ _ threats_flip).
  repeat case_match; lia.
Qed.
End Finish.

(** ** The squares of a context

    With at most one king and one queen a side, the last square the material
    loop saw is the only one. *)

Lemma squares_single (x : Bitboard) :
  0 <= x < 2 ^ 64 -> single x -> bb_squares x = if x =? BB_EMPTY then [] else [bb_lsb x].
Proof.
  intros Hx Hs. pose proof (NoDup_bb_squares x Hx) as Hnd.
  assert (forall i j, In i (bb_squares x) -> In j (bb_squares x) -> i = j) as Hone.
  { intros i j [? ?]%elem_of_bb_squares [? ?]%elem_of_bb_squares; [|done|done]. by apply Hs. }
  destruct (Z.eqb_spec x BB_EMPTY) as [->|E]; [by vm_compute|].
  destruct (bb_lsb_spec x) as (H1 & H2 & _); [unfold BB_EMPTY in E; lia|].
  assert (In (bb_lsb x) (bb_squares x)) as Hin by (by apply elem_of_bb_squares).
  destruct (bb_squares x) as [|i [|j l]]; [done| |].
  - by rewrite (Hone i (bb_lsb x)); [|left|].
  - exfalso. apply List.NoDup_cons_iff in Hnd as [Hnd _]. apply Hnd. left. symmetry.
    apply Hone; simpl; auto.
Qed.

(** A square field that only pieces of type [t0] set. *)
Section Squares.
Context (b : Board) (atk : list Bitboard) (c : Color) (field : SideAcc -> Z) (t0 : PieceType).
Context (Hstep : forall t a sq, field (acc_piece b atk c t a sq) = if t == t0 then sq else field a).

Lemma field_others (t : PieceType) (l : list Square) (a : SideAcc) :
  t <> t0 -> field (fold_left (acc_piece b atk c t) l a) = field a.
Proof.
  intros Hne. revert a. induction l as [|s l IH]; intros a; [done|]. cbn [fold_left].
  by rewrite IH, Hstep, bool_decide_eq_false_2.
Qed.

Lemma field_types (ts : list PieceType) (a : SideAcc) :
  ~ In t0 ts ->
  field (fold_left (fun a t => fold_left (acc_piece b atk c t) (bb_squares (pcs b c t)) a) ts a) =
  field a.
Proof.
  revert a. induction ts as [|t ts IH]; intros a Hn; [done|]. cbn [fold_left].
  rewrite IH by (simpl in Hn; tauto). apply field_others. intros ->. apply Hn. by left.
Qed.

Lemma field_square (pre post : list PieceType) :
  piece_types = pre ++ t0 :: post -> ~ In t0 pre -> ~ In t0 post -> field acc_zero = -1 ->
  0 <= pcs b c t0 < 2 ^ 64 -> single (pcs b c t0) ->
  field (acc_side b atk c) = if pcs b c t0 =? BB_EMPTY then -1 else bb_lsb (pcs b c t0).
Proof.
  intros E Hpre Hpost H0 Hb Hs. unfold acc_side. rewrite E, fold_left_app. cbn [fold_left].
  rewrite field_types by done. rewrite squares_single by done.
  destruct (pcs b c t0 =? BB_EMPTY); cbn [fold_left].
  - by rewrite field_types.
  - by rewrite Hstep, bool_decide_eq_true_2.
Qed.
End Squares.

Lemma acc_king_sq (b : Board) (atk : list Bitboard) (c : Color) :
  board_inv b -> real_color c -> single (pcs b c KING) ->
  a_king_sq (acc_side b atk c) = if pcs b c KING =? BB_EMPTY then -1 else bb_lsb (pcs b c KING).
Proof.
  intros Hi Hc Hs. apply (field_square b atk c a_king_sq KING) with
    (pre := [PAWN; KNIGHT; BISHOP; ROOK; QUEEN]) (post := []); auto with board; simpl; naive_solver.
Qed.

Lemma acc_queen_sq (b : Board) (atk : list Bitboard) (c : Color) :
  board_inv b -> real_color c -> single (pcs b c QUEEN) ->
  a_queen_sq (acc_side b atk c) = if pcs b c QUEEN =? BB_EMPTY then -1 else bb_lsb (pcs b c QUEEN).
Proof.
  intros Hi Hc Hs. apply (field_square b atk c a_queen_sq QUEEN) with
    (pre := [PAWN; KNIGHT; BISHOP; ROOK]) (post := [KING]); auto with board; simpl; naive_solver.
Qed.

Lemma single_flip (x : Bitboard) : single x -> single (flip_bb x).
Proof.
  intros Hs i j Hi Hj Hbi Hbj. rewrite flip_testbit in Hbi, Hbj by done.
  rewrite <- (mirror_involutive i), <- (mirror_involutive j). f_equal. apply Hs; auto with board.
Qed.

(** The square of a lone piece, or -1. *)
Definition lone_sq (x : Bitboard) : Z := if x =? BB_EMPTY then -1 else bb_lsb x.

Lemma lone_sq_flip (x : Bitboard) :
  0 <= x < 2 ^ 64 -> single x ->
  lone_sq (flip_bb x) = mirror_opt (lone_sq x) /\ (lone_sq x = -1 \/ on_board (lone_sq x)).
Proof.
  intros Hx Hs. unfold lone_sq. rewrite flip_is_empty by done.
  destruct (Z.eqb_spec x BB_EMPTY) as [E|E]; [split; [done|by left]|].
  destruct (lsb_flip x Hx Hs E) as [-> Hon]. split; [|by right].
  unfold mirror_opt. unfold on_board in Hon. by replace (bb_lsb x <? 0) with false by lia.
Qed.
