(* ===== verification/EvalFriendlyFire.v ===== *)
(** * Friendly Fire evaluation ([eval_friendly_fire.c]) *)

From stdpp Require Import base numbers list option.
From Stdlib Require Import ZArith Lia Bool.
From S2P Require Import Prelude Types Board Attacks Movegen EvalTables EvalCommon Flip EvalSym.

(** [for t = KNIGHT .. QUEEN] *)
Definition officers : list PieceType := [KNIGHT; BISHOP; ROOK; QUEEN].

(** Everything the side's pieces defend. *)
Definition ff_own_def (b : Board) (atk : Bitboard) (c : Color) : Bitboard :=
  let own_def := atk in
  let own_def := bb_union knight_attacks own_def (pcs b c KNIGHT) in
  let own_def := bb_union (fun s => bishop_attacks_calc s (b_all b)) own_def
                   (Z.lor (pcs b c BISHOP) (pcs b c QUEEN)) in
  bb_union (fun s => rook_attacks_calc s (b_all b)) own_def
    (Z.lor (pcs b c ROOK) (pcs b c QUEEN)).

Definition FF_VULN_PENALTY : list Z := [0; 48; 46; 64; 96; 0].
Definition FF_VULN_DEFENDED : list Z := [0; 18; 18; 26; 42; 0].

(** The penalty of a piece on an attacked square. *)
Definition ff_vulnerable (b : Board) (own_def opp_pawn_atk : Bitboard) (c : Color) (t : PieceType)
    (sq : Square) : Z :=
  let attacked := board_square_attacked b sq (color_opposite c) in
  let defended := BB_HAS own_def sq in
  let pawn_attacked := BB_HAS opp_pawn_atk sq in
  let ti := PieceType_to_Z t in
  if negb attacked then 0
  else
    let pen := if defended then FF_VULN_DEFENDED.[ti] else FF_VULN_PENALTY.[ti] in
    let pen := if pawn_attacked && (ti <=? 2) then pen + 18 else pen in
    if ti <=? 2 then
      let advance := rel_row c sq in
      let central := (2 <=? SQ_COL sq) && (SQ_COL sq <=? 5) in
      let pen := if negb defended && (3 <=? advance) then pen + (10 + (advance - 3) * 10) else pen in
      if central && (3 <=? advance) then pen + 8 else pen
    else pen.

(** A rook or queen behind an own pawn that may be captured. *)
Definition ff_opener (b : Board) (c : Color) (sq : Square) : Z :=
  let file := file_mask (SQ_COL sq) in
  let blockers := Z.land (Z.land (pcs b c PAWN) file) (b_ff_moved b) in
  if bb_nonzero blockers then 5 else 0.

Definition ff_king (b : Board) (c : Color) : Z :=
  let kbb := pcs b c KING in
  if bb_nonzero kbb then
    let ksq := bb_lsb kbb in
    let kc := SQ_COL ksq in
    let bonus := pawn_shield b c ksq * 8 in
    if (3 <=? kc) && (kc <=? 4) then bonus - 10 else bonus
  else 0.

Definition ff_side (b : Board) (ctx : EvalContext) (c : Color) : Z :=
  let opp := color_opposite c in
  let piece_count := fold_left (fun n t => n + bb_popcount (pcs b c t)) officers 0 in
  let bonus := piece_count * 8 in
  let own_def := ff_own_def b (ctx_pawn_atk ctx)@c c in
  let bonus := fold_left (fun bonus t =>
    bonus + bb_sum (fun sq => if BB_HAS own_def sq then 6 else 0) (pcs b c t)) officers bonus in
  let bonus := fold_left (fun bonus t =>
    bonus - bb_sum (ff_vulnerable b own_def (ctx_pawn_atk ctx)@opp c t) (pcs b c t)) officers bonus in
  let bonus := bonus + bb_sum (ff_opener b c) (Z.lor (pcs b c ROOK) (pcs b c QUEEN)) in
  bonus + ff_king b c.

Definition eval_friendly_fire (b : Board) (ctx : EvalContext) : Z :=
  both_sides (ff_side b ctx) + tempo b 10.

(** ** Symmetry *)

Section Sym.
Context (b b' : Board) (H : flipped b b') (ctx ctx' : EvalContext) (Hctx : ctx_flipped ctx ctx').
Context (Hsingle : forall c, real_color c -> single (pcs b c KING)).
Local Definition Hi : board_inv b := fl_inv b b' H.
Local Definition Hi' : board_inv b' := fl_inv' b b' H.
Local Hint Resolve Hi Hi' : board.

Lemma ff_own_def_bound (c : Color) :
  real_color c -> 0 <= ff_own_def b (ctx_pawn_atk ctx)@c c < 2 ^ 64.
Proof.
  intros Hc. pose proof (cf_atk_bound _ _ Hctx c Hc). unfold ff_own_def.
  repeat apply bb_union_bound; auto with board.
Qed.

Lemma ff_own_def_flip (c : Color) :
  real_color c ->
  ff_own_def b' (ctx_pawn_atk ctx')@(color_opposite c) (color_opposite c) =
  flip_bb (ff_own_def b (ctx_pawn_atk ctx)@c c).
Proof.
  intros Hc. pose proof (cf_atk_bound _ _ Hctx c Hc). unfold ff_own_def.
  rewrite (cf_atk _ _ Hctx), !(pcs_flip b b' H), (all_flip b b' H) by done.
  rewrite <- !flip_lor by auto with board.
  rewrite (bb_union_flip knight_attacks knight_attacks), 
    (bb_union_flip (fun s => bishop_attacks_calc s (flip_bb (b_all b)))
      (fun s => bishop_attacks_calc s (b_all b))),
    (bb_union_flip (fun s => rook_attacks_calc s (flip_bb (b_all b)))
      (fun s => rook_attacks_calc s (b_all b)));
    auto using knight_attacks_flip, bishop_attacks_flip, rook_attacks_flip, all_bound with board;
    repeat apply bb_union_bound; auto with board.
Qed.

Lemma ff_vulnerable_flip (x y : Bitboard) (c : Color) (t : PieceType) (sq : Square) :
  real_color c -> on_board sq ->
  ff_vulnerable b' (flip_bb x) (flip_bb y) (color_opposite c) t (mirror sq) =
  ff_vulnerable b x y c t sq.
Proof.
  intros Hc Hs. unfold ff_vulnerable.
  rewrite (square_attacked_flip b b' H), !BB_HAS_flip, rel_row_flip, mirror_col by auto with board.
  done.
Qed.

Lemma ff_opener_flip (c : Color) (sq : Square) :
  real_color c -> on_board sq -> ff_opener b' (color_opposite c) (mirror sq) = ff_opener b c sq.
Proof.
  intros Hc Hs. unfold ff_opener. rewrite mirror_col, (pcs_flip b b' H) by done.
  pose proof (SQ_COL_bound sq) as Hcol. set (m := file_mask (SQ_COL sq)).
  assert (Z.land (Z.land (flip_bb (pcs b c PAWN)) m) (b_ff_moved b') =
          flip_bb (Z.land (Z.land (pcs b c PAWN) m) (b_ff_moved b))) as ->.
  { apply bb_ext; [auto with board..|]. intros n Hn. pose proof (mirror_on_board n Hn) as Hm.
    rewrite flip_testbit, !Z.land_spec, flip_testbit by done.
    rewrite <- (fl_ff b b' H (mirror n)), mirror_involutive by done. f_equal. f_equal.
    unfold m. rewrite <- (file_mask_flip (SQ_COL sq)) at 1 by done. by rewrite flip_testbit. }
  by rewrite flip_nonzero by auto with board.
Qed.

Lemma ff_king_flip (c : Color) : real_color c -> ff_king b' (color_opposite c) = ff_king b c.
Proof.
  intros Hc. unfold ff_king. rewrite (pcs_flip b b' H), flip_nonzero by auto with board.
  destruct (bb_nonzero (pcs b c KING)) eqn:E; [|done].
  destruct (lsb_flip (pcs b c KING)) as [-> Hk]; [auto with board|auto| |].
  { unfold bb_nonzero in E. by apply negb_true_iff, Z.eqb_neq in E. }
  by rewrite (pawn_shield_flip b b' H), mirror_col.
Qed.

Lemma ff_side_flip : same_for (ff_side b ctx) (ff_side b' ctx').
Proof.
  intros c Hc. unfold ff_side. rewrite ff_own_def_flip, (ff_king_flip c) by done.
  rewrite (cf_atk _ _ Hctx (color_opposite c)) by auto with board.
  cbn [fold_left officers]. rewrite !(pcs_flip b b' H), <- flip_lor by auto with board.
  rewrite !popcount_flip by auto with board.
  set (d := ff_own_def b (ctx_pawn_atk ctx)@c c). set (a := (ctx_pawn_atk ctx)@(color_opposite c)).
  assert (forall t, real_type t ->
    bb_sum (fun sq => if BB_HAS (flip_bb d) sq then 6 else 0) (flip_bb (pcs b c t)) =
    bb_sum (fun sq => if BB_HAS d sq then 6 else 0) (pcs b c t)) as Hd.
  { intros t Ht. apply bb_sum_flip; [auto with board|]. intros sq Hs _. by rewrite BB_HAS_flip. }
  assert (forall t, real_type t ->
    bb_sum (ff_vulnerable b' (flip_bb d) (flip_bb a) (color_opposite c) t) (flip_bb (pcs b c t)) =
    bb_sum (ff_vulnerable b d a c t) (pcs b c t)) as Hv.
  { intros t Ht. apply bb_sum_flip; [auto with board|]. intros sq Hs _.
    by apply ff_vulnerable_flip. }
  rewrite !Hd, !Hv by done. do 2 f_equal. apply bb_sum_flip; [auto with board|].
  intros sq Hs _. by apply ff_opener_flip.
Qed.

Lemma friendly_fire_flip : eval_friendly_fire b' ctx' = - eval_friendly_fire b ctx.
Proof.
  unfold eval_friendly_fire. rewrite (both_sides_flip _ _ ff_side_flip), (tempo_flip b b' H). lia.
Qed.
End Sym.
