(* ===== verification/EvalSaveQueen.v ===== *)
(** * Save the Queen evaluation ([eval_save_queen.c]) *)

From stdpp Require Import base numbers list option.
From Stdlib Require Import ZArith Lia Bool.
From S2P Require Import Prelude Types Board Attacks Movegen EvalTables EvalCommon Flip EvalSym.

Definition ESCAPE_BONUS : list Z := [0; 450; 250; 120; 30].
Definition WIN_BONUS : list Z := [1500; 800; 350; 150; 70; 30; 10; 0].

(** [x > y ? x - y : y - x] *)
Definition gap (x y : Z) : Z := if y <? x then x - y else y - x.

(** The three squares towards the boundary. *)
Definition stq_forward (c : Color) : list Z := if c == WHITE then [-8; -7; -9] else [8; 7; 9].

Definition stq_clear (b : Board) (qsq d : Z) : Z :=
  let tsq := qsq + d in
  if (0 <=? tsq) && (tsq <? 64) && (Z.abs (SQ_COL tsq - SQ_COL qsq) <=? 1)
     && (mb b tsq =? PIECE_EMPTY) then 1 else 0.

(** A prisoner: distance to the boundary, central files, mobility, clear path. *)
Definition stq_prisoner_bonus (b : Board) (c : Color) (qsq : Square) : Z :=
  let qrow := SQ_ROW qsq in
  let qcol := SQ_COL qsq in
  let dist := if c == WHITE then qrow - 3 else 4 - qrow in
  let bonus := if (1 <=? dist) && (dist <=? 4) then ESCAPE_BONUS.[dist] else 0 in
  let bonus := bonus + (3 - gap qcol 3) * 8 in
  let quiet := Z.land (king_attacks qsq) (bb_not (b_all b)) in
  let bonus := bonus + bb_popcount quiet * 12 in
  let clear := fold_left (fun n d => n + stq_clear b qsq d) (stq_forward c) 0 in
  bonus + clear * 25.

(** An escaped queen: distance to the opponent's prison, safety, the opposing
    king, support. *)
Definition stq_escaped_bonus (b : Board) (c : Color) (qsq : Square) : Z :=
  let opp := color_opposite c in
  let qrow := SQ_ROW qsq in
  let qcol := SQ_COL qsq in
  let bonus := 500 in
  let prison_row := if c == WHITE then 0 else 7 in
  let dr := gap qrow prison_row in
  let dc := gap qcol 3 in
  let dist := if dc <? dr then dr else dc in
  let bonus := if dist <? 8 then bonus + WIN_BONUS.[dist] else bonus in
  let bonus := bonus + (3 - dc) * 10 in
  let bonus := if board_square_attacked b qsq opp then bonus - 150 else bonus in
  let opp_king := pcs b opp KING in
  let bonus :=
    if bb_nonzero opp_king then
      let ksq := bb_lsb opp_king in
      let kdr := gap qrow (SQ_ROW ksq) in
      let kdc := gap qcol (SQ_COL ksq) in
      let kdist := if kdc <? kdr then kdr else kdc in
      if kdist <=? 3 then bonus + (4 - kdist) * 50 else bonus
    else bonus in
  let support := Z.land (king_attacks qsq) (occ b c) in
  bonus + bb_popcount support * 15.

(** Keeping the opponent's prisoner in. *)
Definition stq_blockade_bonus (b : Board) (c : Color) (opp_qsq : Square) : Z :=
  let opp := color_opposite c in
  let boundary := if opp == WHITE then 3 else 4 in
  let row_mask := u64 (Z.shiftl 0xFF (boundary * 8)) in
  let blockers := bb_popcount (Z.land (occ b c) row_mask) in
  let bonus := blockers * 30 in
  let around := Z.land (king_attacks opp_qsq) (occ b c) in
  let bonus := bonus + bb_popcount around * 22 in
  let opp_dist := if opp == WHITE then SQ_ROW opp_qsq - 3 else 4 - SQ_ROW opp_qsq in
  let bonus :=
    if opp_dist =? 1 then bonus + blockers * 35 + bb_popcount around * 25
    else if opp_dist =? 2 then bonus + blockers * 15 + bb_popcount around * 10
    else bonus in
  let pawn_blockers := bb_popcount (Z.land (pcs b c PAWN) row_mask) in
  bonus + pawn_blockers * 15.

Definition stq_side (b : Board) (c : Color) : Z :=
  let opp := color_opposite c in
  let qbb := pcs b c QUEEN in
  let bonus :=
    if negb (qbb =? BB_EMPTY) then
      let qsq := bb_lsb qbb in
      if negb (stq_is_own_half qsq c) then stq_prisoner_bonus b c qsq
      else stq_escaped_bonus b c qsq
    else -400 in
  let opp_q := pcs b opp QUEEN in
  if negb (opp_q =? BB_EMPTY) then
    let opp_qsq := bb_lsb opp_q in
    if negb (stq_is_own_half opp_qsq opp) then bonus + stq_blockade_bonus b c opp_qsq else bonus
  else bonus.

Definition eval_save_queen (b : Board) (ctx : EvalContext) : Z :=
  both_sides (stq_side b) + tempo b 15.

(** ** Symmetry *)

(** The steps towards the boundary, mirrored: -8, -7, -9 become 8, 9, 7. *)
Definition step_mirror (d : Z) : Z :=
  if d =? -7 then 9 else if d =? -9 then 7 else if d =? 7 then -9 else if d =? 9 then -7 else - d.

Definition step_fits (q d : Z) : bool :=
  (0 <=? q + d) && (q + d <? 64) && (Z.abs (SQ_COL (q + d) - SQ_COL q) <=? 1).

Lemma step_mirror_spec (q d : Z) :
  on_board q -> In d [-8; -7; -9; 8; 7; 9] ->
  step_fits (mirror q) (step_mirror d) = step_fits q d /\
  (step_fits q d = true -> mirror q + step_mirror d = mirror (q + d)).
Proof.
  intros Hq Hd.
  pose proof (forall_range (fun q => forallb (fun d =>
    eqb (step_fits (mirror q) (step_mirror d)) (step_fits q d) &&
    (negb (step_fits q d) || (mirror q + step_mirror d =? mirror (q + d))))
    [-8; -7; -9; 8; 7; 9]) 64 ltac:(by vm_compute) q Hq) as Hall.
  cbv beta in Hall. rewrite forallb_forall in Hall. specialize (Hall d Hd).
  apply andb_true_iff in Hall as [H1%eqb_prop H2]. split; [done|]. intros E. rewrite E in H2.
  cbn [negb orb] in H2. by apply Z.eqb_eq.
Qed.

Lemma row_mask_flip (k k' : Z) :
  0 <= k < 8 -> k' = 7 - k -> flip_bb (u64 (Z.shiftl 0xFF (k * 8))) = u64 (Z.shiftl 0xFF (k' * 8)).
Proof.
  intros Hk ->. apply bb_ext; [auto with board..|]. intros n Hn. rewrite flip_testbit by done.
  apply eqb_prop. by apply (forall_range2 (fun k n => eqb (Z.testbit (u64 (Z.shiftl 0xFF (k * 8)))
    (mirror n)) (Z.testbit (u64 (Z.shiftl 0xFF ((7 - k) * 8))) n)) 8 64).
Qed.

Lemma gap_mirror (x y : Z) : gap (7 - x) (7 - y) = gap x y.
Proof. unfold gap. zb. Qed.

Section Sym.
Context (b b' : Board) (H : flipped b b').
Context (Hking : forall c, real_color c -> single (pcs b c KING))
        (Hqueen : forall c, real_color c -> single (pcs b c QUEEN)).
Local Definition Hi : board_inv b := fl_inv b b' H.
Local Definition Hi' : board_inv b' := fl_inv' b b' H.
Local Hint Resolve Hi Hi' : board.

Lemma clear_flip (q d : Z) :
  on_board q -> In d [-8; -7; -9; 8; 7; 9] ->
  stq_clear b' (mirror q) (step_mirror d) = stq_clear b q d.
Proof.
  intros Hq Hd. destruct (step_mirror_spec q d Hq Hd) as [E1 E2].
  unfold stq_clear. fold (step_fits (mirror q) (step_mirror d)). fold (step_fits q d).
  rewrite E1. destruct (step_fits q d) eqn:E; [|done]. cbn [andb]. rewrite E2 by done.
  unfold step_fits in E. rewrite !andb_true_iff, Z.leb_le, Z.ltb_lt in E.
  assert (on_board (q + d)) as Hon by (unfold on_board; lia).
  rewrite (fl_mb b b' H), flip_piece_empty by auto using mb_valid, Hi with board. done.
Qed.

Lemma prisoner_flip (c : Color) (q : Square) :
  real_color c -> on_board q ->
  stq_prisoner_bonus b' (color_opposite c) (mirror q) = stq_prisoner_bonus b c q.
Proof.
  intros Hc Hq. unfold stq_prisoner_bonus.
  rewrite mirror_row, mirror_col, king_attacks_flip, (all_flip b b' H) by done.
  rewrite <- flip_not, <- flip_land, popcount_flip by auto with board.
  assert (fold_left (fun n d => n + stq_clear b' (mirror q) d) (stq_forward (color_opposite c)) 0 =
          fold_left (fun n d => n + stq_clear b q d) (stq_forward c) 0) as ->.
  { destruct c; [| |done]; [change (stq_forward (color_opposite WHITE)) with [8; 7; 9];
      change (stq_forward WHITE) with [-8; -7; -9]|
      change (stq_forward (color_opposite BLACK)) with [-8; -7; -9];
      change (stq_forward BLACK) with [8; 7; 9]]; cbn [fold_left].
    - rewrite <- (clear_flip q (-8)), <- (clear_flip q (-7)), <- (clear_flip q (-9))
        by (done || simpl; auto).
      change (step_mirror (-8)) with 8. change (step_mirror (-7)) with 9.
      change (step_mirror (-9)) with 7. lia.
    - rewrite <- (clear_flip q 8), <- (clear_flip q 7), <- (clear_flip q 9)
        by (done || simpl; auto 10).
      change (step_mirror 8) with (-8). change (step_mirror 7) with (-9).
      change (step_mirror 9) with (-7). lia. }
  assert ((if color_opposite c == WHITE then 7 - SQ_ROW q - 3 else 4 - (7 - SQ_ROW q)) =
          (if c == WHITE then SQ_ROW q - 3 else 4 - SQ_ROW q)) as ->; [|done].
  destruct c; simpl; lia || real.
Qed.

Lemma escaped_flip (c : Color) (q : Square) :
  real_color c -> on_board q ->
  stq_escaped_bonus b' (color_opposite c) (mirror q) = stq_escaped_bonus b c q.
Proof.
  intros Hc Hq. unfold stq_escaped_bonus.
  rewrite (square_attacked_flip b b' H), mirror_row, mirror_col, king_attacks_flip,
    (occ_flip b b' H) by auto with board.
  rewrite <- flip_land, popcount_flip by auto with board.
  assert (gap (7 - SQ_ROW q) (if color_opposite c == WHITE then 0 else 7) =
          gap (SQ_ROW q) (if c == WHITE then 0 else 7)) as ->.
  { destruct c; [| |done]; unfold gap; simpl; zb. }
  rewrite (pcs_flip b b' H (color_opposite c) KING), flip_nonzero by auto with board.
  destruct (bb_nonzero (pcs b (color_opposite c) KING)) eqn:E; [|done].
  destruct (lsb_flip (pcs b (color_opposite c) KING)) as [-> Hk]; [auto with board|auto with board| |].
  { unfold bb_nonzero in E. by apply negb_true_iff, Z.eqb_neq in E. }
  by rewrite mirror_row, mirror_col, gap_mirror.
Qed.

Lemma blockade_flip (c : Color) (q : Square) :
  real_color c -> on_board q ->
  stq_blockade_bonus b' (color_opposite c) (mirror q) = stq_blockade_bonus b c q.
Proof.
  intros Hc Hq. unfold stq_blockade_bonus.
  rewrite mirror_row, king_attacks_flip, (occ_flip b b' H), (pcs_flip b b' H) by auto with board.
  set (bd := if color_opposite c == WHITE then 3 else 4).
  assert (0 <= bd < 8 /\ (if color_opposite (color_opposite c) == WHITE then 3 else 4) = 7 - bd)
    as [Hbd ->].
  { unfold bd. destruct c; simpl; lia || real. }
  rewrite <- (row_mask_flip bd (7 - bd)), <- !flip_land, !popcount_flip by auto with board.
  assert ((if color_opposite (color_opposite c) == WHITE then 7 - SQ_ROW q - 3
           else 4 - (7 - SQ_ROW q)) =
          (if color_opposite c == WHITE then SQ_ROW q - 3 else 4 - SQ_ROW q)) as ->; [|done].
  destruct c; simpl; lia || real.
Qed.

Lemma stq_side_flip : same_for (stq_side b) (stq_side b').
Proof.
  intros c Hc. unfold stq_side.
  rewrite (pcs_flip b b' H c QUEEN), (pcs_flip b b' H (color_opposite c) QUEEN) by auto with board.
  rewrite !flip_is_empty by auto with board.
  assert ((if negb (pcs b c QUEEN =? BB_EMPTY) then
      if negb (stq_is_own_half (bb_lsb (flip_bb (pcs b c QUEEN))) (color_opposite c))
      then stq_prisoner_bonus b' (color_opposite c) (bb_lsb (flip_bb (pcs b c QUEEN)))
      else stq_escaped_bonus b' (color_opposite c) (bb_lsb (flip_bb (pcs b c QUEEN))) else -400) =
    (if negb (pcs b c QUEEN =? BB_EMPTY) then
      if negb (stq_is_own_half (bb_lsb (pcs b c QUEEN)) c)
      then stq_prisoner_bonus b c (bb_lsb (pcs b c QUEEN))
      else stq_escaped_bonus b c (bb_lsb (pcs b c QUEEN)) else -400)) as ->.
  { destruct (Z.eqb_spec (pcs b c QUEEN) BB_EMPTY) as [E|E]; [done|]. cbn [negb].
    destruct (lsb_flip (pcs b c QUEEN)) as [-> Hq]; [auto with board|auto|done|].
    by rewrite own_half_flip, prisoner_flip, escaped_flip. }
  destruct (Z.eqb_spec (pcs b (color_opposite c) QUEEN) BB_EMPTY) as [E|E]; [done|]. cbn [negb].
  destruct (lsb_flip (pcs b (color_opposite c) QUEEN)) as [-> Hq];
    [auto with board|auto with board|done|].
  by rewrite own_half_flip, blockade_flip by auto with board.
Qed.

Lemma save_queen_flip (ctx ctx' : EvalContext) :
  eval_save_queen b' ctx' = - eval_save_queen b ctx.
Proof.
  unfold eval_save_queen. rewrite (both_sides_flip _ _ stq_side_flip), (tempo_flip b b' H). lia.
Qed.
End Sym.
