(* ===== verification/EvalMercenary.v ===== *)
(** * Mercenary evaluation ([eval_mercenary.c]) *)

From stdpp Require Import base numbers list option.
From Stdlib Require Import ZArith Lia Bool.
From S2P Require Import Prelude Types Board Attacks Movegen EvalTables EvalCommon Flip EvalSym.

(** ** Helpers *)

Definition merc_lane_pressure_sq (a b : Z) : Z :=
  let file_gap := Z.abs (SQ_COL a - SQ_COL b) in
  let rank_gap := Z.abs (SQ_ROW a - SQ_ROW b) in
  let pressure := 0 in
  let pressure := if file_gap =? 0 then pressure + 4 else pressure in
  let pressure := if rank_gap =? 0 then pressure + 4 else pressure in
  let pressure := if file_gap =? rank_gap then pressure + 3 else pressure in
  let pressure := if file_gap <=? 2 then pressure + (2 - file_gap) else pressure in
  if rank_gap <=? 2 then pressure + (2 - rank_gap) else pressure.

Definition merc_adjacent_pawn_shield (b : Board) (side : Color) (king : Square) : Z :=
  bb_popcount (Z.land (pcs b side PAWN) (king_attacks king)).

(** [lead > 0 ? lead : 0], capped at 700. *)
Definition merc_pressure (lead : Z) : Z :=
  let pressure := if 0 <? lead then lead else 0 in
  if 700 <? pressure then 700 else pressure.

Definition merc_king_route_bonus (king enemy_king eg_weight lead : Z) : Z :=
  let file_gap := Z.abs (SQ_COL king - SQ_COL enemy_king) in
  let file_alignment := 4 - file_gap in
  let file_alignment := if file_alignment <? 0 then 0 else file_alignment in
  let lane_pressure := merc_lane_pressure_sq king enemy_king in
  let king_center := 6 - distance_from_center_sq king in
  let king_center := if king_center <? 0 then 0 else king_center in
  let pressure := merc_pressure lead in
  let bonus := file_alignment * (10 + eg_weight ÷ 6) in
  let bonus := bonus + king_center * (4 + eg_weight ÷ 24) in
  let bonus := bonus + lane_pressure * (5 + eg_weight ÷ 24) in
  bonus + (file_alignment * pressure) ÷ 80.

(** The squares of the king's ring a queen attacks. *)
Definition merc_ring_hits (b : Board) (queen king : Square) : Z :=
  let attack_ring := Z.lor (king_attacks king) (BB_SQ king) in
  let q_attacks := Z.lor (bishop_attacks_calc queen (b_all b)) (rook_attacks_calc queen (b_all b)) in
  bb_popcount (Z.land q_attacks attack_ring).

Definition merc_queen_infiltration_bonus (b : Board) (queen enemy_king eg_weight lead : Z) : Z :=
  let queen_dist := chebyshev_distance_sq queen enemy_king in
  let queen_approach := 7 - queen_dist in
  let queen_approach := if queen_approach <? 0 then 0 else queen_approach in
  let lane_pressure := merc_lane_pressure_sq queen enemy_king in
  let ring_hits := merc_ring_hits b queen enemy_king in
  let pressure := merc_pressure lead in
  let bonus := queen_approach * (8 + eg_weight ÷ 16) in
  let bonus := bonus + lane_pressure * (10 + eg_weight ÷ 24) in
  let bonus := bonus + ring_hits * (16 + eg_weight ÷ 32) in
  bonus + (queen_approach * pressure) ÷ 60.

Definition merc_king_queen_coordination_bonus (king queen enemy_king eg_weight lead : Z) : Z :=
  let king_to_queen := chebyshev_distance_sq king queen in
  let king_to_enemy := chebyshev_distance_sq king enemy_king in
  let queen_to_enemy := chebyshev_distance_sq queen enemy_king in
  let escort := 0 in
  let pressure := merc_pressure lead in
  let escort := if king_to_queen <=? 4
    then escort + (5 - king_to_queen) * (6 + eg_weight ÷ 32) else escort in
  let escort := if (king_to_enemy <=? 4) && (queen_to_enemy <=? 4)
    then escort + (9 - king_to_enemy - queen_to_enemy) * (6 + eg_weight ÷ 28) else escort in
  let escort := if (king_to_queen <=? 4) || (king_to_enemy <=? 4)
    then escort + merc_lane_pressure_sq queen enemy_king * (4 + eg_weight ÷ 32) else escort in
  if (0 <? pressure) && (0 <? escort) then escort + (escort * pressure) ÷ 320 else escort.

Definition merc_enemy_queen_infiltration_penalty (b : Board)
    (king enemy_queen eg_weight shield : Z) : Z :=
  let queen_dist := chebyshev_distance_sq enemy_queen king in
  let queen_approach := 7 - queen_dist in
  let queen_approach := if queen_approach <? 0 then 0 else queen_approach in
  let lane_pressure := merc_lane_pressure_sq enemy_queen king in
  let ring_hits := merc_ring_hits b enemy_queen king in
  let shelter_crack := 3 - shield in
  let shelter_crack := if shelter_crack <? 0 then 0 else shelter_crack in
  let penalty := queen_approach * (8 + eg_weight ÷ 20) in
  let penalty := penalty + lane_pressure * (10 + eg_weight ÷ 24) in
  let penalty := penalty + ring_hits * (18 + eg_weight ÷ 24) in
  penalty + shelter_crack * (12 + eg_weight ÷ 20).

(** ** [eval_mercenary] *)

Definition PROX_MG : list Z := [0; 10; 5; 2].
Definition PROX_EG : list Z := [0; 16; 8; 3].

(** Pawns near the enemy king. *)
Definition merc_proximity (b : Board) (eg_weight : Z) (c : Color) : Z :=
  let kbb := pcs b (color_opposite c) KING in
  if negb (bb_nonzero kbb) then 0
  else
    let ksq := bb_lsb kbb in
    let kr := SQ_ROW ksq in
    let kc := SQ_COL ksq in
    bb_sum (fun sq =>
      let dr := Z.abs (SQ_ROW sq - kr) in
      let dc := Z.abs (SQ_COL sq - kc) in
      let dist := if dc <? dr then dr else dc in
      if dist <=? 3 then PROX_MG.[dist] + (PROX_EG.[dist] * eg_weight) ÷ 128 else 0)
      (pcs b c PAWN).

(** Pawn clusters. *)
Definition merc_connectivity (b : Board) (c : Color) : Z :=
  let pawns := pcs b c PAWN in
  let neighbors (sq : Square) := Z.land (king_attacks sq) pawns in
  let connected := bb_sum (fun sq => if bb_nonzero (neighbors sq) then bb_popcount (neighbors sq)
                                     else 0) pawns in
  let isolated := bb_sum (fun sq => if bb_nonzero (neighbors sq) then 0 else 1) pawns in
  connected * 6 - isolated * 12.

(** Pawns in the opponent's half. *)
Definition merc_space (b : Board) (c : Color) : Z :=
  bb_sum (fun sq => if (if c == WHITE then 4 <=? SQ_ROW sq else SQ_ROW sq <=? 3) then 1 else 0)
    (pcs b c PAWN).

(** Minor pieces off the back rank. *)
Definition merc_developed (b : Board) (c : Color) : Z :=
  let back_rank := if c == WHITE then 0 else 7 in
  bb_sum (fun sq => if negb (SQ_ROW sq =? back_rank) then 1 else 0)
    (Z.lor (pcs b c KNIGHT) (pcs b c BISHOP)).

(** The shield of the king in the middlegame. *)
Definition merc_safety (b : Board) (ctx : EvalContext) (c : Color) : Z :=
  let k := (ctx_king_sq ctx)@c in
  if k <? 0 then 0
  else
    let shield := bb_popcount (Z.land (king_attacks k) (pcs b c PAWN)) in
    shield * (6 + ctx_mg_weight ctx ÷ 24).

(** Converting a lead. *)
Definition merc_conversion (ctx : EvalContext) (c : Color) (lead : Z) : Z :=
  let opp := color_opposite c in
  let eg_weight := ctx_eg_weight ctx in
  if 0 <? lead then
    let lead := if 700 <? lead then 700 else lead in
    let npm := (ctx_non_pawn_material ctx)@opp in
    let simplify_budget := 2400 - npm in
    let simplify_budget := if simplify_budget <? 0 then 0 else simplify_budget in
    let cleanup_window := 1600 - npm in
    let cleanup_window := if cleanup_window <? 0 then 0 else cleanup_window in
    let king_dist := chebyshev_distance_sq (ctx_king_sq ctx)@c (ctx_king_sq ctx)@opp in
    let edge_dist := distance_from_center_sq (ctx_king_sq ctx)@opp in
    let simplify := (simplify_budget * lead * eg_weight) ÷ 1310720 in
    let cleanup := (cleanup_window * lead * eg_weight) ÷ 983040 in
    let king_approach := ((8 - king_dist) * lead * eg_weight) ÷ 30720 in
    let king_drive := (edge_dist * lead * eg_weight) ÷ 51200 in
    simplify + cleanup + king_approach + king_drive
  else 0.

(** The endgame of one side. *)
Definition merc_endgame (b : Board) (ctx : EvalContext) (c : Color) : Z :=
  let opp := color_opposite c in
  let eg_weight := ctx_eg_weight ctx in
  let k := (ctx_king_sq ctx)@c in
  let ok := (ctx_king_sq ctx)@opp in
  let q := (ctx_queen_sq ctx)@c in
  let oq := (ctx_queen_sq ctx)@opp in
  if (k <? 0) || (ok <? 0) then 0
  else
    let lead := (ctx_material ctx)@c - (ctx_material ctx)@opp in
    let bonus := merc_king_route_bonus k ok eg_weight lead in
    let bonus :=
      if 0 <=? q then
        bonus + merc_queen_infiltration_bonus b q ok eg_weight lead
              + merc_king_queen_coordination_bonus k q ok eg_weight lead
      else bonus in
    let bonus :=
      if 0 <=? oq then
        let shield := merc_adjacent_pawn_shield b c k in
        bonus - merc_enemy_queen_infiltration_penalty b k oq eg_weight shield
      else bonus in
    bonus + merc_conversion ctx c lead.

Definition eval_mercenary (b : Board) (ctx : EvalContext) : Z :=
  let score := 0 in
  let score := score + ((ctx_pawn_count ctx)@WHITE - (ctx_pawn_count ctx)@BLACK) * 25 in
  let score := score + both_sides (merc_proximity b (ctx_eg_weight ctx)) in
  let score := score + both_sides (merc_connectivity b) in
  let score := score + (merc_space b WHITE - merc_space b BLACK) * 10 in
  let score := score + both_sides (fun c => merc_developed b c * 8) in
  let score := if 0 <? ctx_mg_weight ctx then score + both_sides (merc_safety b ctx) else score in
  let score := if 48 <=? ctx_eg_weight ctx then score + both_sides (merc_endgame b ctx) else score in
  score + tempo b 15.

(** ** Symmetry *)

Lemma abs_mirror (x y : Z) : Z.abs (7 - x - (7 - y)) = Z.abs (x - y).
Proof. lia. Qed.

Lemma chebyshev_flip (x y : Square) :
  on_board x -> on_board y ->
  chebyshev_distance_sq (mirror x) (mirror y) = chebyshev_distance_sq x y.
Proof.
  intros. unfold chebyshev_distance_sq. by rewrite !mirror_row, !mirror_col, abs_mirror.
Qed.

Lemma lane_pressure_flip (x y : Square) :
  on_board x -> on_board y ->
  merc_lane_pressure_sq (mirror x) (mirror y) = merc_lane_pressure_sq x y.
Proof.
  intros. unfold merc_lane_pressure_sq. by rewrite !mirror_row, !mirror_col, abs_mirror.
Qed.

Lemma center_flip (x : Square) :
  on_board x -> distance_from_center_sq (mirror x) = distance_from_center_sq x.
Proof.
  intros Hx. unfold distance_from_center_sq. rewrite mirror_row, mirror_col by done.
  f_equal. zb.
Qed.

(** King and queen squares of a context from the other side. *)
Record ctx_squares (ctx ctx' : EvalContext) : Prop := {
  cs_king : forall c, real_color c ->
    (ctx_king_sq ctx')@(color_opposite c) = mirror_opt ((ctx_king_sq ctx)@c);
  cs_king_sq : forall c, real_color c -> (ctx_king_sq ctx)@c = -1 \/ on_board ((ctx_king_sq ctx)@c);
  cs_queen : forall c, real_color c ->
    (ctx_queen_sq ctx')@(color_opposite c) = mirror_opt ((ctx_queen_sq ctx)@c);
  cs_queen_sq : forall c, real_color c ->
    (ctx_queen_sq ctx)@c = -1 \/ on_board ((ctx_queen_sq ctx)@c)
}.

Section Sym.
Context (b b' : Board) (H : flipped b b') (ctx ctx' : EvalContext).
Context (Hctx : ctx_flipped ctx ctx') (Hsq : ctx_squares ctx ctx').
Context (Hking : forall c, real_color c -> single (pcs b c KING)).
Local Definition Hi : board_inv b := fl_inv b b' H.
Local Definition Hi' : board_inv b' := fl_inv' b b' H.
Local Hint Resolve Hi Hi' : board.

Lemma ring_hits_flip (q k : Square) :
  on_board q -> on_board k -> merc_ring_hits b' (mirror q) (mirror k) = merc_ring_hits b q k.
Proof.
  intros Hq Hk. unfold merc_ring_hits. rewrite (all_flip b b' H), king_attacks_flip,
    <- flip_sq, bishop_attacks_flip, rook_attacks_flip by auto with board.
  by rewrite <- !flip_lor, <- flip_land, popcount_flip by auto with board.
Qed.

Lemma proximity_flip : same_for (merc_proximity b (ctx_eg_weight ctx))
                                (merc_proximity b' (ctx_eg_weight ctx')).
Proof.
  intros c Hc. unfold merc_proximity. rewrite (cf_eg _ _ Hctx).
  rewrite (pcs_flip b b' H (color_opposite c)), (pcs_flip b b' H c), flip_nonzero
    by auto with board.
  destruct (bb_nonzero (pcs b (color_opposite c) KING)) eqn:E; [|done]. cbn [negb].
  destruct (lsb_flip (pcs b (color_opposite c) KING)) as [-> Hk];
    [auto with board|auto with board| |].
  { unfold bb_nonzero in E. by apply negb_true_iff, Z.eqb_neq in E. }
  apply bb_sum_flip; [auto with board|]. intros sq Hs _.
  by rewrite !mirror_row, !mirror_col, abs_mirror.
Qed.

Lemma connectivity_flip : same_for (merc_connectivity b) (merc_connectivity b').
Proof.
  intros c Hc. unfold merc_connectivity. rewrite (pcs_flip b b' H c) by done.
  f_equal; f_equal; apply bb_sum_flip; auto with board; intros sq Hs _;
    rewrite king_attacks_flip, <- flip_land, flip_nonzero, ?popcount_flip by auto with board; done.
Qed.

Lemma space_flip : same_for (merc_space b) (merc_space b').
Proof.
  intros c Hc. unfold merc_space. rewrite (pcs_flip b b' H c) by done.
  apply bb_sum_flip; [auto with board|]. intros sq Hs _. rewrite mirror_row by done.
  assert ((if color_opposite c == WHITE then 4 <=? 7 - SQ_ROW sq else 7 - SQ_ROW sq <=? 3) =
          (if c == WHITE then 4 <=? SQ_ROW sq else SQ_ROW sq <=? 3)) as ->; [|done].
  destruct c; simpl; lia || real.
Qed.

Lemma developed_flip : same_for (fun c => merc_developed b c * 8) (fun c => merc_developed b' c * 8).
Proof.
  intros c Hc. f_equal. unfold merc_developed. rewrite !(pcs_flip b b' H c) by done.
  rewrite <- flip_lor by auto with board. apply bb_sum_flip; [auto with board|].
  intros sq Hs _. rewrite mirror_row by done.
  assert ((7 - SQ_ROW sq =? (if color_opposite c == WHITE then 0 else 7)) =
          (SQ_ROW sq =? (if c == WHITE then 0 else 7))) as ->; [|done].
  destruct c; simpl; lia || real.
Qed.

Lemma mirror_opt_neg (x : Z) : x = -1 \/ on_board x -> (mirror_opt x <? 0) = (x <? 0).
Proof.
  intros [->|Hx]; [done|]. unfold mirror_opt. pose proof (mirror_on_board x Hx).
  unfold on_board in *. replace (x <? 0) with false by lia. lia.
Qed.

Lemma mirror_opt_nonneg (x : Z) :
  x = -1 \/ on_board x -> (x <? 0) = false -> mirror_opt x = mirror x /\ on_board x.
Proof. intros [->|Hx] E; [done|]. unfold mirror_opt. by rewrite E. Qed.

Lemma safety_flip : same_for (merc_safety b ctx) (merc_safety b' ctx').
Proof.
  intros c Hc. unfold merc_safety. pose proof (cs_king_sq _ _ Hsq c Hc) as Hk.
  rewrite (cs_king _ _ Hsq), (cf_mg _ _ Hctx), mirror_opt_neg by done.
  destruct ((ctx_king_sq ctx)@c <? 0) eqn:E; [done|].
  destruct (mirror_opt_nonneg _ Hk E) as [-> Hon].
  rewrite king_attacks_flip, (pcs_flip b b' H), <- flip_land, popcount_flip by auto with board.
  done.
Qed.

Lemma endgame_flip : same_for (merc_endgame b ctx) (merc_endgame b' ctx').
Proof.
  intros c Hc. assert (real_color (color_opposite c)) as Ho by auto with board.
  pose proof (cs_king_sq _ _ Hsq c Hc) as Hk. pose proof (cs_king_sq _ _ Hsq _ Ho) as Hok.
  pose proof (cs_queen_sq _ _ Hsq c Hc) as Hq. pose proof (cs_queen_sq _ _ Hsq _ Ho) as Hoq.
  unfold merc_endgame, merc_conversion.
  rewrite (cs_king _ _ Hsq c), (cs_king _ _ Hsq (color_opposite c)), (cs_queen _ _ Hsq c),
    (cs_queen _ _ Hsq (color_opposite c)), (cf_eg _ _ Hctx), (cf_material _ _ Hctx c),
    (cf_material _ _ Hctx (color_opposite c)), (cf_non_pawn _ _ Hctx (color_opposite c)),
    !mirror_opt_neg by done.
  set (k := (ctx_king_sq ctx)@c) in *. set (ok := (ctx_king_sq ctx)@(color_opposite c)) in *.
  set (q := (ctx_queen_sq ctx)@c) in *. set (oq := (ctx_queen_sq ctx)@(color_opposite c)) in *.
  destruct (k <? 0) eqn:Ek; [done|]. destruct (ok <? 0) eqn:Eok; [done|]. cbn [orb].
  destruct (mirror_opt_nonneg k Hk Ek) as [-> Hkon].
  destruct (mirror_opt_nonneg ok Hok Eok) as [-> Hokon].
  set (lead := (ctx_material ctx)@c - (ctx_material ctx)@(color_opposite c)). clearbody lead.
  assert (merc_king_route_bonus (mirror k) (mirror ok) (ctx_eg_weight ctx) lead =
          merc_king_route_bonus k ok (ctx_eg_weight ctx) lead) as ->.
  { unfold merc_king_route_bonus. by rewrite lane_pressure_flip, center_flip, !mirror_col. }
  rewrite chebyshev_flip, center_flip by done.
  assert ((0 <=? mirror_opt q) = (0 <=? q)) as ->.
  { pose proof (mirror_opt_neg q Hq). lia. }
  assert ((0 <=? mirror_opt oq) = (0 <=? oq)) as ->.
  { pose proof (mirror_opt_neg oq Hoq). lia. }
  f_equal. destruct (Z.leb_spec 0 q) as [Eq|Eq], (Z.leb_spec 0 oq) as [Eoq|Eoq]; [| | |done].
  all: try (destruct (mirror_opt_nonneg q Hq ltac:(lia)) as [-> Hqon]).
  all: try (destruct (mirror_opt_nonneg oq Hoq ltac:(lia)) as [-> Hoqon]).
  all: unfold merc_queen_infiltration_bonus, merc_king_queen_coordination_bonus,
    merc_enemy_queen_infiltration_penalty, merc_adjacent_pawn_shield;
    rewrite ?chebyshev_flip, ?lane_pressure_flip, ?ring_hits_flip by done;
    rewrite ?(pcs_flip b b' H), ?king_attacks_flip, <- ?flip_land, ?popcount_flip
      by auto with board; done.
Qed.

Lemma mercenary_flip : eval_mercenary b' ctx' = - eval_mercenary b ctx.
Proof.
  unfold eval_mercenary.
  rewrite (both_sides_flip _ _ proximity_flip), (both_sides_flip _ _ connectivity_flip),
    (both_sides_flip _ _ developed_flip), (both_sides_flip _ _ safety_flip),
    (both_sides_flip _ _ endgame_flip), (tempo_flip b b' H), (cf_mg _ _ Hctx), (cf_eg _ _ Hctx).
  rewrite <- (cf_pawns _ _ Hctx WHITE), <- (cf_pawns _ _ Hctx BLACK) by done.
  rewrite <- (space_flip WHITE), <- (space_flip BLACK) by done. cbn [color_opposite].
  repeat case_match; lia.
Qed.
End Sym.

(** The common initialisation provides the squares. *)
Lemma init_squares (b b' : Board) :
  flipped b b' ->
  (forall c, real_color c -> single (pcs b c KING)) ->
  (forall c, real_color c -> single (pcs b c QUEEN)) ->
  ctx_squares (eval_common_init b) (eval_common_init b').
Proof.
  intros H Hk Hq. pose proof (fl_inv b b' H) as Hi. pose proof (fl_inv' b b' H) as Hi'.
  set (atk := by_color (pawn_atk_of b)). set (atk' := by_color (pawn_atk_of b')).
  assert (forall c, real_color c -> (ctx_king_sq (eval_common_init b))@c = lone_sq (pcs b c KING) /\
            (ctx_king_sq (eval_common_init b'))@(color_opposite c) =
              lone_sq (flip_bb (pcs b c KING))) as HK.
  { intros c Hc.
    pose proof (acc_king_sq b atk c Hi Hc (Hk c Hc)) as E.
    pose proof (acc_king_sq b' atk' (color_opposite c) Hi' (opposite_real c Hc)) as E'.
    rewrite (pcs_flip b b' H) in E' by done. specialize (E' (single_flip _ (Hk c Hc))).
    unfold lone_sq. rewrite <- E, <- E'. destruct c; [by split|by split|done]. }
  assert (forall c, real_color c -> (ctx_queen_sq (eval_common_init b))@c = lone_sq (pcs b c QUEEN) /\
            (ctx_queen_sq (eval_common_init b'))@(color_opposite c) =
              lone_sq (flip_bb (pcs b c QUEEN))) as HQ.
  { intros c Hc.
    pose proof (acc_queen_sq b atk c Hi Hc (Hq c Hc)) as E.
    pose proof (acc_queen_sq b' atk' (color_opposite c) Hi' (opposite_real c Hc)) as E'.
    rewrite (pcs_flip b b' H) in E' by done. specialize (E' (single_flip _ (Hq c Hc))).
    unfold lone_sq. rewrite <- E, <- E'. destruct c; [by split|by split|done]. }
  constructor; intros c Hc.
  - destruct (HK c Hc) as [-> ->]. apply lone_sq_flip; auto with board.
  - destruct (HK c Hc) as [-> _]. apply lone_sq_flip; auto with board.
  - destruct (HQ c Hc) as [-> ->]. apply lone_sq_flip; auto with board.
  - destruct (HQ c Hc) as [-> _]. apply lone_sq_flip; auto with board.
Qed.
