(* ===== verification/EvalSuccession.v ===== *)
(** * Succession evaluation ([eval_succession.c])

    The queen-centralisation term measures rows from row 3 for both sides, so
    the score is not colour-blind; [succession_flip] says by how much. *)

From stdpp Require Import base numbers list option.
From Stdlib Require Import ZArith Lia Bool.
From S2P Require Import Prelude Types Board Attacks Movegen EvalTables EvalCommon Flip EvalSym EvalSaveQueen.

Definition ADV_BONUS : list Z := [0; 5; 12; 25; 55; 120; 300].
Definition PASS_BONUS : list Z := [0; 10; 20; 40; 80; 160; 400].

(** Safety and centralisation of a queen. *)
Definition succ_queen (b : Board) (c : Color) (qsq : Square) : Z :=
  let bonus := if board_square_attacked b qsq (color_opposite c) then -120 else 0 in
  let cr := gap (SQ_ROW qsq) 3 in
  let cc := gap (SQ_COL qsq) 3 in
  bonus + (6 - cr - cc) * 4.

(** Rows a pawn of [c] has advanced. *)
Definition succ_advance (c : Color) (sq : Square) : Z :=
  let start_row := if c == WHITE then 1 else 6 in
  let dir_mul := if c == WHITE then 1 else -1 in
  (SQ_ROW sq - start_row) * dir_mul.

(** No enemy pawn ahead on the same or an adjacent file. *)
Definition succ_passed (b : Board) (c : Color) (psq : Square) : bool :=
  let pr := SQ_ROW psq in
  let pc := SQ_COL psq in
  forallb (fun fc =>
    ((fc <? 0) || (7 <? fc)) ||
    forallb (fun ops => negb (if c == WHITE then pr <? SQ_ROW ops else SQ_ROW ops <? pr))
      (bb_squares (Z.land (pcs b (color_opposite c) PAWN) (file_mask fc))))
    [pc - 1; pc; pc + 1].

Definition succ_pawn (b : Board) (c : Color) (psq : Square) : Z :=
  let advance := succ_advance c psq in
  let in_table := (0 <=? advance) && (advance <=? 6) in
  (if in_table then ADV_BONUS.[advance] else 0) +
  (if succ_passed b c psq then if in_table then PASS_BONUS.[advance] else 0 else 0).

(** The promoted king. *)
Definition succ_king (b : Board) (c : Color) : Z :=
  if heir b c then
    let bonus := 900 in
    let kbb := pcs b c KING in
    if bb_nonzero kbb then
      let ksq := bb_lsb kbb in
      let bonus := if board_square_attacked b ksq (color_opposite c) then bonus - 300 else bonus in
      let support := Z.land (king_attacks ksq) (occ b c) in
      bonus + bb_popcount support * 20
    else bonus
  else 0.

(** The opponent's most advanced pawn. *)
Definition succ_opp_threat (b : Board) (c : Color) : Z :=
  let opp := color_opposite c in
  let opp_best := fold_left (fun best ops =>
    let adv := succ_advance opp ops in if best <? adv then adv else best)
    (bb_squares (pcs b opp PAWN)) 0 in
  if 5 <=? opp_best then -100 else if 4 <=? opp_best then -40 else 0.

Definition succ_side (b : Board) (c : Color) : Z :=
  let qcount := bb_popcount (pcs b c QUEEN) in
  let bonus := qcount * 250 in
  let bonus := bonus + bb_sum (succ_queen b c) (pcs b c QUEEN) in
  let pawn_count := bb_popcount (pcs b c PAWN) in
  let bonus := bonus + bb_sum (succ_pawn b c) (pcs b c PAWN) in
  let bonus := bonus + pawn_count * 15 in
  let bonus := if pawn_count =? 1 then bonus - 80 else bonus in
  let bonus := bonus + succ_king b c in
  let bonus := bonus + succ_opp_threat b c in
  let bonus := bonus + bb_sum (fun ns => if 3 <=? succ_advance c ns then 10 else 0)
                 (pcs b c KNIGHT) in
  if 2 <=? bb_popcount (pcs b c BISHOP) then bonus + 25 else bonus.

Definition eval_succession (b : Board) (ctx : EvalContext) : Z :=
  both_sides (succ_side b) + tempo b 12.

(** ** From the other side *)

(** What the centralisation term of the queens of [c] gains when the board is
    turned round: four points for a queen on the upper half, minus four for one
    on the lower half. *)
Definition queen_skew (b : Board) (c : Color) : Z :=
  bb_sum (fun sq => if SQ_ROW sq <=? 3 then -4 else 4) (pcs b c QUEEN).

Section Sym.
Context (b b' : Board) (H : flipped b b').
Context (Hking : forall c, real_color c -> single (pcs b c KING)).
Local Definition Hi : board_inv b := fl_inv b b' H.
Local Definition Hi' : board_inv b' := fl_inv' b b' H.
Local Hint Resolve Hi Hi' : board.

Lemma succ_queen_flip (c : Color) (sq : Square) :
  real_color c -> on_board sq ->
  succ_queen b' (color_opposite c) (mirror sq) =
  succ_queen b c sq + (if SQ_ROW sq <=? 3 then -4 else 4).
Proof.
  intros Hc Hs. unfold succ_queen.
  rewrite (square_attacked_flip b b' H), mirror_row, mirror_col by auto with board.
  pose proof (SQ_ROW_bound sq Hs). unfold gap. destruct (board_square_attacked _ _ _); zb.
Qed.

Lemma succ_queens_flip (c : Color) :
  real_color c ->
  bb_sum (succ_queen b' (color_opposite c)) (pcs b' (color_opposite c) QUEEN) =
  bb_sum (succ_queen b c) (pcs b c QUEEN) + queen_skew b c.
Proof.
  intros Hc. unfold queen_skew. rewrite <- bb_sum_add, (pcs_flip b b' H) by done.
  apply bb_sum_flip; [auto with board|]. intros sq Hs _. by apply succ_queen_flip.
Qed.

Lemma succ_advance_flip (c : Color) (sq : Square) :
  real_color c -> on_board sq -> succ_advance (color_opposite c) (mirror sq) = succ_advance c sq.
Proof.
  intros Hc Hs. unfold succ_advance. rewrite mirror_row by done. destruct c; simpl; lia || real.
Qed.

Lemma succ_passed_flip (c : Color) (sq : Square) :
  real_color c -> on_board sq ->
  succ_passed b' (color_opposite c) (mirror sq) = succ_passed b c sq.
Proof.
  intros Hc Hs. unfold succ_passed. rewrite mirror_row, mirror_col by done.
  pose proof (SQ_ROW_bound sq Hs) as Hr.
  assert (forall fc,
    ((fc <? 0) || (7 <? fc)) ||
    forallb (fun ops => negb (if color_opposite c == WHITE then 7 - SQ_ROW sq <? SQ_ROW ops
                              else SQ_ROW ops <? 7 - SQ_ROW sq))
      (bb_squares (Z.land (pcs b' (color_opposite (color_opposite c)) PAWN) (file_mask fc))) =
    ((fc <? 0) || (7 <? fc)) ||
    forallb (fun ops => negb (if c == WHITE then SQ_ROW sq <? SQ_ROW ops else SQ_ROW ops <? SQ_ROW sq))
      (bb_squares (Z.land (pcs b (color_opposite c) PAWN) (file_mask fc)))) as Hfile.
  { intros fc. destruct ((fc <? 0) || (7 <? fc)) eqn:E; [done|]. cbn [orb].
    rewrite (pcs_flip b b' H), <- (file_mask_flip fc), <- flip_land, file_mask_flip
      by (auto using file_mask_bound with board || lia).
    apply forallb_flip; [auto using file_mask_bound with board|]. intros n Hn _.
    rewrite mirror_row by done. destruct c; simpl; f_equal; lia || real. }
  cbn [forallb]. by rewrite !Hfile.
Qed.

Lemma succ_pawn_flip (c : Color) (sq : Square) :
  real_color c -> on_board sq -> succ_pawn b' (color_opposite c) (mirror sq) = succ_pawn b c sq.
Proof.
  intros Hc Hs. unfold succ_pawn. by rewrite succ_advance_flip, succ_passed_flip.
Qed.

Lemma succ_king_flip : same_for (succ_king b) (succ_king b').
Proof.
  intros c Hc. unfold succ_king. rewrite (fl_heir b b' H), (pcs_flip b b' H) by done.
  rewrite flip_nonzero by auto with board. destruct (heir b c); [|reflexivity].
  destruct (bb_nonzero (pcs b c KING)) eqn:E; [|reflexivity].
  destruct (lsb_flip (pcs b c KING)) as [-> Hk]; [auto with board|auto| |].
  { intros E0. by rewrite E0 in E. }
  rewrite (square_attacked_flip b b' H), king_attacks_flip, (occ_flip b b' H) by auto with board.
  by rewrite <- flip_land, popcount_flip by auto with board.
Qed.

Lemma succ_threat_flip : same_for (succ_opp_threat b) (succ_opp_threat b').
Proof.
  intros c Hc. unfold succ_opp_threat. rewrite (pcs_flip b b' H) by auto with board.
  rewrite (bb_fold_flip (fun best ops => if best <? succ_advance (color_opposite c) ops
    then succ_advance (color_opposite c) ops else best)); [reflexivity|auto with board| |].
  - intros a s t. zb.
  - intros a sq Hs _. by rewrite succ_advance_flip by auto with board.
Qed.

Lemma succ_side_flip (c : Color) :
  real_color c -> succ_side b' (color_opposite c) = succ_side b c + queen_skew b c.
Proof.
  intros Hc. unfold succ_side. rewrite succ_queens_flip, succ_king_flip, succ_threat_flip by done.
  rewrite !(pcs_flip b b' H), !popcount_flip by auto with board.
  rewrite (bb_sum_flip (succ_pawn b' (color_opposite c)) (succ_pawn b c));
    [|auto with board|intros sq Hs _; by apply succ_pawn_flip].
  rewrite (bb_sum_flip (fun ns => if 3 <=? succ_advance (color_opposite c) ns then 10 else 0)
    (fun ns => if 3 <=? succ_advance c ns then 10 else 0));
    [|auto with board|intros sq Hs _; by rewrite succ_advance_flip].
  destruct (bb_popcount (pcs b c PAWN) =? 1), (2 <=? bb_popcount (pcs b c BISHOP)); lia.
Qed.

Lemma succession_flip (ctx ctx' : EvalContext) :
  eval_succession b' ctx' =
  - (eval_succession b ctx + (queen_skew b WHITE - queen_skew b BLACK)).
Proof.
  unfold eval_succession. rewrite !both_sides_diff, (tempo_flip b b' H).
  pose proof (succ_side_flip WHITE ltac:(done)) as Ew. pose proof (succ_side_flip BLACK ltac:(done)) as Eb.
  cbn [color_opposite] in *. lia.
Qed.
End Sym.
