(* ===== verification/EvalHeir.v ===== *)
(** * Heir evaluation ([eval_heir.c]) *)

From stdpp Require Import base numbers list option.
From Stdlib Require Import ZArith Lia Bool.
From S2P Require Import Prelude Types Board Attacks Movegen MovegenSound EvalTables EvalCommon Flip EvalSym EvalFriendlyFire EvalMercenary.

(** ** Helpers *)

Definition heir_pawn_advance_sq (side : Color) (sq : Square) : Z :=
  let advance := if side == WHITE then SQ_ROW sq - 1 else 6 - SQ_ROW sq in
  if advance <? 0 then 0 else if 5 <? advance then 5 else advance.

Definition heir_pawn_steps_to_promo (side : Color) (sq : Square) : Z :=
  let steps := if side == WHITE then 7 - SQ_ROW sq else SQ_ROW sq in
  if steps <? 0 then 0 else if 6 <? steps then 6 else steps.

Definition heir_is_passed_pawn (b : Board) (side : Color) (sq : Square) : bool :=
  let row := SQ_ROW sq in
  let col := SQ_COL sq in
  forallb (fun opsq =>
    (1 <? Z.abs (SQ_COL opsq - col)) ||
    negb (if side == WHITE then row <? SQ_ROW opsq else SQ_ROW opsq <? row))
    (bb_squares (pcs b (color_opposite side) PAWN)).

Definition heir_promotion_square_safe (b : Board) (side : Color) (sq : Square) : bool :=
  let promo_sq := SQ (if side == WHITE then 7 else 0) (SQ_COL sq) in
  negb (board_square_attacked b promo_sq (color_opposite side)).

Definition heir_king_hot_squares (b : Board) (by_ : Color) (king : Square) : Z :=
  let ring := Z.lor (king_attacks king) (BB_SQ king) in
  bb_sum (fun sq => if board_square_attacked b sq by_ then 1 else 0) ring.

Definition heir_file_centrality (sq : Square) : Z :=
  let col := SQ_COL sq in
  let left := Z.abs (col - 3) in
  let right := Z.abs (col - 4) in
  let dist := if left <? right then left else right in
  let bonus := 3 - dist in
  if 0 <? bonus then bonus else 0.

Definition heir_f_pawn_block_penalty (b : Board) (side : Color) : Z :=
  let block_sq := if side == WHITE then SQ 2 5 else SQ 5 5 in
  let home_f := if side == WHITE then SQ 1 5 else SQ 6 5 in
  let spear_sq := if side == WHITE then SQ 4 4 else SQ 3 4 in
  let anchor_sq := if side == WHITE then SQ 3 3 else SQ 4 3 in
  let opp := color_opposite side in
  if negb (BB_HAS (pcs b side KNIGHT) block_sq) then 0
  else if negb (BB_HAS (pcs b side PAWN) home_f) then 0
  else if negb (BB_HAS (pcs b side PAWN) spear_sq) then 0
  else
    let penalty := 14 in
    let penalty := if BB_HAS (pcs b side PAWN) anchor_sq then penalty + 18 else penalty in
    let penalty := if b_fullmove b <=? 10 then penalty + 6 else penalty in
    if board_square_attacked b spear_sq opp && negb (board_square_attacked b spear_sq side)
    then penalty + 10 else penalty.

(** ** [eval_heir] *)

Definition HEIR_ADV_BONUS : list Z := [0; 8; 20; 40; 80; 160].
Definition HEIR_PASS_BONUS : list Z := [0; 14; 32; 62; 125; 230].
Definition HEIR_RECOVERY_BONUS : list Z := [6; 10; 22; 58; 140; 300].
Definition HEIR_RACE_THREAT : list Z := [0; 0; 18; 48; 105; 235].

(** The strategic bonus of one pawn. *)
Definition heir_pawn (b : Board) (scale : Z) (side : Color) (sq : Square) : Z :=
  let opp := color_opposite side in
  let advance := heir_pawn_advance_sq side sq in
  let steps := heir_pawn_steps_to_promo side sq in
  let passed := heir_is_passed_pawn b side sq in
  let promo_safe := heir_promotion_square_safe b side sq in
  let attacked := board_square_attacked b sq opp in
  let escorts := bb_popcount (Z.land (pcs b side PAWN) (king_attacks sq)) in
  let bonus := (HEIR_ADV_BONUS.[advance] * scale) ÷ 256 in
  let bonus := bonus +
    (heir_file_centrality sq * (if 2 <=? advance then 5 else 2) * scale) ÷ 256 in
  let bonus := bonus + (escorts * 8 * scale) ÷ 256 in
  let bonus :=
    if passed then
      let bonus := bonus + (HEIR_PASS_BONUS.[advance] * scale) ÷ 256 in
      if negb attacked then bonus + ((10 + advance * 4) * scale) ÷ 256 else bonus
    else bonus in
  let bonus :=
    if 4 <=? advance then
      if promo_safe then bonus + ((30 + (5 - steps) * 12) * scale) ÷ 256 else bonus - 12
    else bonus in
  if attacked && (4 <=? advance) then bonus - 12 else bonus.

(** What a pawn adds to the chance of recovering a king. *)
Definition heir_recovery (b : Board) (side : Color) (sq : Square) : Z :=
  if heir_promotion_square_safe b side sq
  then 10 + heir_pawn_advance_sq side sq * 18 + (if heir_is_passed_pawn b side sq then 24 else 0)
  else 0.

(** [best_advance] and [best_passed]: maxima over the pawns, from 0 and -1. *)
Definition bb_max (f : Square -> Z) (init : Z) (bb : Bitboard) : Z :=
  fold_left (fun best sq => if best <? f sq then f sq else best) (bb_squares bb) init.

Definition heir_best_advance (b : Board) (side : Color) : Z :=
  bb_max (heir_pawn_advance_sq side) 0 (pcs b side PAWN).

Definition heir_best_passed (b : Board) (side : Color) : Z :=
  bb_max (fun sq => if heir_is_passed_pawn b side sq then heir_pawn_advance_sq side sq else -1) (-1)
    (pcs b side PAWN).

Definition heir_scale (b : Board) (ctx : EvalContext) (side : Color) : Z :=
  let opp := color_opposite side in
  let s := if negb (has_king b side) || heir b side || ((ctx_pawn_count ctx)@side <=? 3)
              || ((ctx_pawn_count ctx)@opp <=? 3)
           then 256 else 112 + ctx_eg_weight ctx in
  if 256 <? s then 256 else s.

Definition heir_soft_scale (b : Board) (ctx : EvalContext) (side : Color) : Z :=
  let s := if negb (heir_check_applies b side) && negb (heir b side)
              && (4 <=? (ctx_pawn_count ctx)@side)
           then 144 + ctx_eg_weight ctx ÷ 2 else 256 in
  if 256 <? s then 256 else s.

(** A side without a king, or the safety of its king. *)
Definition heir_king (b : Board) (ctx : EvalContext) (side : Color) : Z :=
  let opp := color_opposite side in
  let pawns := (ctx_pawn_count ctx)@side in
  let best_advance := heir_best_advance b side in
  let best_passed := heir_best_passed b side in
  if negb (has_king b side) then
    if heir b side then -1400
    else
      let bonus := -180 in
      let bonus := bonus + bb_sum (heir_recovery b side) (pcs b side PAWN) in
      let bonus := bonus + HEIR_RECOVERY_BONUS.[best_advance] in
      let bonus := if 0 <=? best_passed then bonus + HEIR_RECOVERY_BONUS.[best_passed] ÷ 2
                   else bonus in
      let bonus := if pawns =? 0 then bonus - 1200 else bonus in
      if best_advance <=? 1 then bonus - 80 else bonus
  else
    let ksq := (ctx_king_sq ctx)@side in
    let support := bb_popcount (Z.land (king_attacks ksq) (occ b side)) in
    let shield := bb_popcount (Z.land (king_attacks ksq) (pcs b side PAWN)) in
    let hot := heir_king_hot_squares b opp ksq in
    let scarcity := if pawns <=? 2 then 3 - pawns else 0 in
    let soft := heir_soft_scale b ctx side in
    let bonus := if heir b side then 720 else 0 in
    if heir_check_applies b side then
      let bonus := bonus + support * 18 in
      let bonus := bonus + shield * 14 in
      let bonus := if board_square_attacked b ksq opp then bonus - 240 else bonus in
      bonus - hot * (18 + scarcity * 6)
    else
      let bonus := bonus + support * 10 in
      let bonus := bonus + shield * 8 in
      let bonus := if board_square_attacked b ksq opp
                   then bonus - ((100 + scarcity * 45) * soft) ÷ 256 else bonus in
      bonus - (hot * (8 + scarcity * 4) * soft) ÷ 256.

(** Pressure on the opposing king, or on the pawns that could replace it. *)
Definition heir_target (b : Board) (ctx : EvalContext) (side : Color) : Z :=
  let opp := color_opposite side in
  let ok := (ctx_king_sq ctx)@opp in
  if 0 <=? ok then
    let opp_hot := heir_king_hot_squares b side ok in
    let bonus := opp_hot * (if heir_check_applies b side then 10 else 8) in
    if board_square_attacked b ok side then bonus + 35 else bonus
  else
    let bonus := 140 in
    let bonus := if (ctx_pawn_count ctx)@opp <=? 2 then bonus + 70 else bonus in
    bonus + bb_sum (fun sq => if negb (heir_promotion_square_safe b opp sq) then 18 else 0)
              (pcs b opp PAWN).

(** The opponent's promotion race, to be subtracted. *)
Definition heir_race (b : Board) (scale : Z) (side : Color) : Z :=
  let opp := color_opposite side in
  let best_advance := heir_best_advance b opp in
  let best_passed := heir_best_passed b opp in
  let pen := (HEIR_RACE_THREAT.[best_advance] * scale) ÷ 256 in
  let pen := if 3 <=? best_passed then pen + (HEIR_RACE_THREAT.[best_passed] * scale) ÷ 512
             else pen in
  if negb (has_king b side) then
    let pen := pen + HEIR_RACE_THREAT.[best_advance] ÷ 2 in
    if 4 <=? best_passed then pen + 80 else pen
  else pen.

Definition back_rank (side : Color) : Z := if side == WHITE then 0 else 7.

(** [0x00003C3C3C3C0000]: files c to f on rows 2 to 5. *)
Definition CENTER : Bitboard := 0x00003C3C3C3C0000.

(** One officer: loose pieces, outposts, rooks, bishops, pressure. *)
Definition heir_officer (b : Board) (ctx : EvalContext) (side : Color) (t : PieceType)
    (sq : Square) : Z :=
  let opp := color_opposite side in
  let ok := (ctx_king_sq ctx)@opp in
  let attacks := piece_targets b t sq in
  let att_opp := board_square_attacked b sq opp in
  let att_own := board_square_attacked b sq side in
  let minor := (t == KNIGHT) || (t == BISHOP) in
  let rel_rank := rel_row side sq in
  let bonus := 0 in
  let bonus :=
    if att_opp && negb att_own then
      let pen := if minor then 30 else if t == ROOK then 45 else 70 in
      let pen := if (SQ_COL sq =? 0) || (SQ_COL sq =? 7) then pen + 10 else pen in
      bonus - pen
    else bonus in
  let bonus :=
    if t == KNIGHT then
      let central := (2 <=? SQ_COL sq) && (SQ_COL sq <=? 5) && (2 <=? rel_rank) && (rel_rank <=? 4) in
      if central then
        let kb := 14 in
        let kb := if att_own then kb + 10 else kb in
        let kb := if negb att_opp then kb + 8 else kb in
        let kb := if 4 <=? rel_rank then kb + 6 else kb in
        bonus + kb
      else bonus
    else bonus in
  let bonus :=
    if t == ROOK then
      let bonus :=
        if rel_rank =? 6 then
          let bonus := bonus + 25 in
          if 0 <=? ok then if rel_row side ok =? 7 then bonus + 15 else bonus else bonus
        else bonus in
      if bb_nonzero (Z.land (rook_attacks_calc sq (b_all b)) (pcs b side ROOK))
      then bonus + 12 else bonus
    else bonus in
  let bonus :=
    if t == BISHOP then
      if (1 <=? SQ_COL sq) && (SQ_COL sq <=? 6) && (1 <=? rel_rank) && (rel_rank <=? 5) then
        bonus + bb_popcount (Z.land (bishop_attacks_calc sq (b_all b)) CENTER) * 4
      else bonus
    else bonus in
  if 0 <=? ok then
    let ring := Z.lor (king_attacks ok) (BB_SQ ok) in
    if bb_nonzero (Z.land attacks ring) then bonus + (if t == QUEEN then 18 else 10) else bonus
  else if bb_nonzero (Z.land attacks (pcs b opp PAWN)) then bonus + 8 else bonus.

(** Officers of a type off the back rank. *)
Definition heir_off_back (b : Board) (side : Color) (t : PieceType) : Z :=
  bb_sum (fun sq => if negb (SQ_ROW sq =? back_rank side) then 1 else 0) (pcs b side t).

(** An early queen sortie, to be subtracted. *)
Definition heir_sortie (b : Board) (ctx : EvalContext) (side : Color) (minor_developed : Z) : Z :=
  let opp := color_opposite side in
  let k := (ctx_king_sq ctx)@side in
  let q := (ctx_queen_sq ctx)@side in
  if (0 <=? q) && (0 <=? k) && negb (heir b side) && (b_fullmove b <=? 12)
     && (4 <=? (ctx_pawn_count ctx)@side) && (4 <=? (ctx_pawn_count ctx)@opp) then
    if negb (SQ_ROW q =? back_rank side) then
      let minor_total := bb_popcount (Z.lor (pcs b side KNIGHT) (pcs b side BISHOP)) in
      let undeveloped := minor_total - minor_developed in
      if 0 <? undeveloped then
        let advance := rel_row side q in
        let king_gap := chebyshev_distance_sq q k in
        let pen := 10 + undeveloped * 14 in
        let pen := if minor_developed =? 0 then pen + 16
                   else if minor_developed =? 1 then pen + 8 else pen in
        let pen := if 1 <=? advance then pen + (4 + advance * 4) else pen in
        let pen := if 1 <? king_gap then pen + (king_gap - 1) * 6 else pen in
        let pen := if negb (board_square_attacked b q side) then pen + 16 else pen in
        if board_square_attacked b q opp then pen + 14 else pen
      else 0
    else 0
  else 0.

Definition heir_side (b : Board) (ctx : EvalContext) (side : Color) : Z :=
  let opp := color_opposite side in
  let scale := heir_scale b ctx side in
  let pawns := (ctx_pawn_count ctx)@side in
  let bonus := bb_sum (heir_pawn b scale side) (pcs b side PAWN) in
  let bonus := bonus + pawns * 18 in
  let bonus := if pawns <=? 2 then bonus - (3 - pawns) * 35 else bonus in
  let bonus := if pawns =? 1 then bonus - 40 else bonus in
  let bonus := if 4 <=? heir_best_advance b side then bonus + (20 * scale) ÷ 256 else bonus in
  let bonus := if 4 <=? heir_best_passed b side then bonus + (40 * scale) ÷ 256 else bonus in
  let bonus := bonus + heir_king b ctx side in
  let bonus := bonus + heir_target b ctx side in
  let bonus := bonus - heir_race b scale side in
  let bonus := fold_left (fun bonus t =>
    bonus + bb_sum (heir_officer b ctx side t) (pcs b side t)) officers bonus in
  let developed := fold_left (fun n t => n + heir_off_back b side t) officers 0 in
  let minor_developed := fold_left (fun n t => n + heir_off_back b side t) [KNIGHT; BISHOP] 0 in
  let developed := if 6 <? developed then 6 else developed in
  let bonus := bonus + developed * 8 in
  let bonus := if (3 <=? developed) && (b_fullmove b <=? 14) then bonus + 10 else bonus in
  let bonus := if negb (heir b side) && (b_fullmove b <=? 12) && (4 <=? pawns)
                  && (4 <=? (ctx_pawn_count ctx)@opp)
               then bonus - heir_f_pawn_block_penalty b side else bonus in
  bonus - heir_sortie b ctx side minor_developed.

Definition eval_heir (b : Board) (ctx : EvalContext) : Z :=
  both_sides (heir_side b ctx) + tempo b 6.

(** ** Symmetry *)

Section Sym.
Context (b b' : Board) (H : flipped b b') (ctx ctx' : EvalContext).
Context (Hctx : ctx_flipped ctx ctx') (Hsq : ctx_squares ctx ctx').
Context (Hking : forall c, real_color c -> single (pcs b c KING)).
Local Definition Hi : board_inv b := fl_inv b b' H.
Local Definition Hi' : board_inv b' := fl_inv' b b' H.
Local Hint Resolve Hi Hi' : board.

Lemma advance_flip (c : Color) (sq : Square) :
  real_color c -> on_board sq ->
  heir_pawn_advance_sq (color_opposite c) (mirror sq) = heir_pawn_advance_sq c sq.
Proof.
  intros Hc Hs. unfold heir_pawn_advance_sq. rewrite mirror_row by done.
  assert ((if color_opposite c == WHITE then 7 - SQ_ROW sq - 1 else 6 - (7 - SQ_ROW sq)) =
          (if c == WHITE then SQ_ROW sq - 1 else 6 - SQ_ROW sq)) as ->; [|done].
  destruct c; simpl; lia || real.
Qed.

Lemma steps_flip (c : Color) (sq : Square) :
  real_color c -> on_board sq ->
  heir_pawn_steps_to_promo (color_opposite c) (mirror sq) = heir_pawn_steps_to_promo c sq.
Proof.
  intros Hc Hs. unfold heir_pawn_steps_to_promo. rewrite mirror_row by done.
  assert ((if color_opposite c == WHITE then 7 - (7 - SQ_ROW sq) else 7 - SQ_ROW sq) =
          (if c == WHITE then 7 - SQ_ROW sq else SQ_ROW sq)) as ->; [|done].
  destruct c; simpl; lia || real.
Qed.

Lemma heir_passed_flip (c : Color) (sq : Square) :
  real_color c -> on_board sq ->
  heir_is_passed_pawn b' (color_opposite c) (mirror sq) = heir_is_passed_pawn b c sq.
Proof.
  intros Hc Hs. unfold heir_is_passed_pawn.
  rewrite (pcs_flip b b' H) by auto with board. apply forallb_flip; [auto with board|].
  intros n Hn _. rewrite !mirror_col, !mirror_row by done. f_equal. f_equal.
  destruct c; simpl; lia || real.
Qed.

Lemma promo_safe_flip (c : Color) (sq : Square) :
  real_color c -> on_board sq ->
  heir_promotion_square_safe b' (color_opposite c) (mirror sq) = heir_promotion_square_safe b c sq.
Proof.
  intros Hc Hs. unfold heir_promotion_square_safe. rewrite mirror_col by done.
  pose proof (SQ_COL_bound sq) as Hcol. set (r := if c == WHITE then 7 else 0).
  assert ((if color_opposite c == WHITE then 7 else 0) = 7 - r /\ 0 <= r < 8) as [-> Hr].
  { unfold r. destruct c; simpl; lia || real. }
  rewrite <- mirror_SQ by lia. f_equal.
  apply (square_attacked_flip b b' H); auto using SQ_on_board with board.
Qed.

Lemma hot_flip (c : Color) (k : Square) :
  real_color c -> on_board k ->
  heir_king_hot_squares b' (color_opposite c) (mirror k) = heir_king_hot_squares b c k.
Proof.
  intros Hc Hk. unfold heir_king_hot_squares.
  rewrite king_attacks_flip, <- flip_sq, <- flip_lor by auto with board.
  apply bb_sum_flip; [auto with board|]. intros sq Hs _. by rewrite (square_attacked_flip b b' H).
Qed.

Lemma centrality_flip (sq : Square) :
  on_board sq -> heir_file_centrality (mirror sq) = heir_file_centrality sq.
Proof. intros Hs. unfold heir_file_centrality. by rewrite mirror_col. Qed.

Lemma block_flip : same_for (heir_f_pawn_block_penalty b) (heir_f_pawn_block_penalty b').
Proof.
  intros c Hc. unfold heir_f_pawn_block_penalty. rewrite (fl_fullmove b b' H).
  assert (forall r col, 0 <= r < 8 -> 0 <= col < 8 ->
    (if color_opposite c == WHITE then SQ r col else SQ (7 - r) col) =
    mirror (if c == WHITE then SQ r col else SQ (7 - r) col) /\
    on_board (if c == WHITE then SQ r col else SQ (7 - r) col)) as Hm.
  { intros r col Hr Hcol. destruct (c == WHITE) eqn:E.
    - apply bool_decide_eq_true in E as ->. simpl. rewrite mirror_SQ by lia.
      split; [done|]. by apply SQ_on_board.
    - destruct c; [done| |real]. simpl. rewrite mirror_SQ by lia.
      split; [f_equal; lia|]. apply SQ_on_board; lia. }
  pose proof (Hm 2 5 ltac:(lia) ltac:(lia)) as [E1 O1].
  pose proof (Hm 1 5 ltac:(lia) ltac:(lia)) as [E2 O2].
  pose proof (Hm 4 4 ltac:(lia) ltac:(lia)) as [E3 O3].
  pose proof (Hm 3 3 ltac:(lia) ltac:(lia)) as [E4 O4].
  change (7 - 2) with 5 in *. change (7 - 1) with 6 in *. change (7 - 4) with 3 in *.
  change (7 - 3) with 4 in *. rewrite E1, E2, E3, E4.
  rewrite !(has_flip b b' H), !(square_attacked_flip b b' H) by auto with board. done.
Qed.

Lemma bb_max_flip (f g : Square -> Z) (init : Z) (x : Bitboard) :
  0 <= x < 2 ^ 64 ->
  (forall sq, on_board sq -> f (mirror sq) = g sq) -> bb_max f init (flip_bb x) = bb_max g init x.
Proof.
  intros Hx Hf. unfold bb_max. apply bb_fold_flip; [done| |].
  - intros a s t. zb.
  - intros a sq Hs _. by rewrite Hf.
Qed.

Lemma best_advance_flip : same_for (heir_best_advance b) (heir_best_advance b').
Proof.
  intros c Hc. unfold heir_best_advance. rewrite (pcs_flip b b' H) by done.
  apply bb_max_flip; [auto with board|]. intros sq Hs. by apply advance_flip.
Qed.

Lemma best_passed_flip : same_for (heir_best_passed b) (heir_best_passed b').
Proof.
  intros c Hc. unfold heir_best_passed. rewrite (pcs_flip b b' H) by done.
  apply bb_max_flip; [auto with board|]. intros sq Hs.
  by rewrite heir_passed_flip, advance_flip.
Qed.

Lemma heir_pawn_flip (scale : Z) (c : Color) (sq : Square) :
  real_color c -> on_board sq ->
  heir_pawn b' scale (color_opposite c) (mirror sq) = heir_pawn b scale c sq.
Proof.
  intros Hc Hs. unfold heir_pawn.
  rewrite advance_flip, steps_flip, heir_passed_flip, promo_safe_flip, centrality_flip,
    (square_attacked_flip b b' H), (pcs_flip b b' H), king_attacks_flip by auto with board.
  by rewrite <- flip_land, popcount_flip by auto with board.
Qed.

Lemma recovery_flip (c : Color) (sq : Square) :
  real_color c -> on_board sq ->
  heir_recovery b' (color_opposite c) (mirror sq) = heir_recovery b c sq.
Proof.
  intros Hc Hs. unfold heir_recovery. by rewrite promo_safe_flip, advance_flip, heir_passed_flip.
Qed.

Lemma scale_flip : same_for (heir_scale b ctx) (heir_scale b' ctx').
Proof.
  intros c Hc. unfold heir_scale. rewrite (has_king_flip b b' H), (fl_heir b b' H),
    (cf_pawns _ _ Hctx c), (cf_pawns _ _ Hctx (color_opposite c)), (cf_eg _ _ Hctx)
    by auto with board. done.
Qed.

Lemma soft_scale_flip : same_for (heir_soft_scale b ctx) (heir_soft_scale b' ctx').
Proof.
  intros c Hc. unfold heir_soft_scale. rewrite (heir_check_flip b b' H), (fl_heir b b' H),
    (cf_pawns _ _ Hctx c), (cf_eg _ _ Hctx) by done. done.
Qed.

Context (Hpres : forall c, real_color c -> has_king b c = true -> on_board ((ctx_king_sq ctx)@c)).

Lemma heir_king_flip : same_for (heir_king b ctx) (heir_king b' ctx').
Proof.
  intros c Hc. unfold heir_king.
  rewrite best_advance_flip, best_passed_flip, soft_scale_flip, (has_king_flip b b' H),
    (fl_heir b b' H), (heir_check_flip b b' H), (cf_pawns _ _ Hctx c) by done.
  assert (bb_sum (heir_recovery b' (color_opposite c)) (pcs b' (color_opposite c) PAWN) =
          bb_sum (heir_recovery b c) (pcs b c PAWN)) as ->.
  { rewrite (pcs_flip b b' H) by done. apply bb_sum_flip; [auto with board|].
    intros sq Hs _. by apply recovery_flip. }
  destruct (has_king b c) eqn:Ek; [|done]. cbn [negb]. specialize (Hpres c Hc Ek).
  rewrite (cs_king _ _ Hsq) by done. unfold mirror_opt.
  replace ((ctx_king_sq ctx)@c <? 0) with false by (unfold on_board in Hpres; lia).
  set (k := (ctx_king_sq ctx)@c) in *.
  rewrite king_attacks_flip, (occ_flip b b' H), (pcs_flip b b' H c PAWN) by done.
  rewrite <- !flip_land, !popcount_flip by auto with board.
  by rewrite hot_flip, (square_attacked_flip b b' H) by auto with board.
Qed.

Lemma target_flip : same_for (heir_target b ctx) (heir_target b' ctx').
Proof.
  intros c Hc. assert (real_color (color_opposite c)) as Ho by auto with board.
  unfold heir_target. pose proof (cs_king_sq _ _ Hsq _ Ho) as Hk.
  rewrite (cs_king _ _ Hsq _ Ho), (heir_check_flip b b' H), (cf_pawns _ _ Hctx _ Ho) by done.
  set (ok := (ctx_king_sq ctx)@(color_opposite c)) in *.
  assert ((0 <=? mirror_opt ok) = (0 <=? ok)) as ->.
  { pose proof (mirror_opt_neg ok Hk). lia. }
  destruct (Z.leb_spec 0 ok) as [Eo|Eo].
  - destruct (mirror_opt_nonneg ok Hk ltac:(lia)) as [-> Hon].
    by rewrite hot_flip, (square_attacked_flip b b' H) by auto with board.
  - f_equal. rewrite (pcs_flip b b' H) by done. apply bb_sum_flip; [auto with board|].
    intros sq Hs _. by rewrite promo_safe_flip.
Qed.

Lemma race_flip (scale : Z) : same_for (heir_race b scale) (heir_race b' scale).
Proof.
  intros c Hc. unfold heir_race.
  rewrite best_advance_flip, best_passed_flip, (has_king_flip b b' H) by auto with board. done.
Qed.

Lemma targets_flip (t : PieceType) (sq : Square) :
  on_board sq -> piece_targets b' t (mirror sq) = flip_bb (piece_targets b t sq).
Proof.
  intros Hs. unfold piece_targets. rewrite (all_flip b b' H).
  destruct t; rewrite ?knight_attacks_flip, ?bishop_attacks_flip, ?rook_attacks_flip,
    ?king_attacks_flip by auto with board; rewrite ?flip_lor by auto with board; done ||
    (by rewrite flip_empty).
Qed.

Lemma CENTER_flip : flip_bb CENTER = CENTER.
Proof.
  apply bb_ext; [auto with board|by vm_compute|]. intros n Hn. rewrite flip_testbit by done.
  apply eqb_prop.
  by apply (forall_range (fun n => eqb (Z.testbit CENTER (mirror n)) (Z.testbit CENTER n)) 64).
Qed.

Lemma officer_flip (c : Color) (t : PieceType) (sq : Square) :
  real_color c -> on_board sq ->
  heir_officer b' ctx' (color_opposite c) t (mirror sq) = heir_officer b ctx c t sq.
Proof.
  intros Hc Hs. assert (real_color (color_opposite c)) as Ho by auto with board.
  pose proof (cs_king_sq _ _ Hsq _ Ho) as Hk. pose proof (targets_flip t sq Hs) as Et.
  unfold heir_officer. rewrite (cs_king _ _ Hsq _ Ho).
  set (ok := (ctx_king_sq ctx)@(color_opposite c)) in *.
  rewrite !(square_attacked_flip b b' H), Et, rel_row_flip, mirror_col by auto with board.
  rewrite (all_flip b b' H), rook_attacks_flip, bishop_attacks_flip by auto with board.
  rewrite (pcs_flip b b' H c ROOK), (pcs_flip b b' H _ PAWN) by auto with board.
  rewrite popcount_mask, <- !flip_land, !flip_nonzero by auto using CENTER_flip with board.
  assert ((0 <=? mirror_opt ok) = (0 <=? ok)) as ->.
  { pose proof (mirror_opt_neg ok Hk). lia. }
  destruct (Z.leb_spec 0 ok) as [Eo|Eo]; [|done].
  destruct (mirror_opt_nonneg ok Hk ltac:(lia)) as [-> Hon].
  rewrite rel_row_flip, king_attacks_flip, <- flip_sq, <- flip_lor by auto with board.
  by rewrite <- flip_land, flip_nonzero by auto with board.
Qed.

Lemma off_back_flip (t : PieceType) :
  real_type t -> same_for (fun c => heir_off_back b c t) (fun c => heir_off_back b' c t).
Proof.
  intros Ht c Hc. unfold heir_off_back, back_rank. rewrite (pcs_flip b b' H) by done.
  apply bb_sum_flip; [auto with board|]. intros sq Hs _. rewrite mirror_row by done.
  assert ((7 - SQ_ROW sq =? (if color_opposite c == WHITE then 0 else 7)) =
          (SQ_ROW sq =? (if c == WHITE then 0 else 7))) as ->; [|done].
  destruct c; simpl; lia || real.
Qed.

Lemma sortie_flip (n : Z) : same_for (fun c => heir_sortie b ctx c n) (fun c => heir_sortie b' ctx' c n).
Proof.
  intros c Hc. pose proof (cs_king_sq _ _ Hsq c Hc) as Hk. pose proof (cs_queen_sq _ _ Hsq c Hc) as Hq.
  unfold heir_sortie. rewrite (cs_king _ _ Hsq), (cs_queen _ _ Hsq), (fl_heir b b' H),
    (fl_fullmove b b' H), (cf_pawns _ _ Hctx c), (cf_pawns _ _ Hctx (color_opposite c))
    by auto with board.
  set (k := (ctx_king_sq ctx)@c) in *. set (q := (ctx_queen_sq ctx)@c) in *.
  assert ((0 <=? mirror_opt q) = (0 <=? q) /\ (0 <=? mirror_opt k) = (0 <=? k)) as [-> ->].
  { pose proof (mirror_opt_neg q Hq). pose proof (mirror_opt_neg k Hk). lia. }
  destruct (Z.leb_spec 0 q) as [Eq|Eq]; [|done]. destruct (Z.leb_spec 0 k) as [Ek|Ek]; [|done].
  destruct (mirror_opt_nonneg k Hk ltac:(lia)) as [-> Hkon].
  destruct (mirror_opt_nonneg q Hq ltac:(lia)) as [-> Hqon].
  rewrite rel_row_flip, chebyshev_flip, !(square_attacked_flip b b' H), mirror_row by auto with board.
  rewrite !(pcs_flip b b' H), <- flip_lor, popcount_flip by auto with board.
  assert ((7 - SQ_ROW q =? back_rank (color_opposite c)) = (SQ_ROW q =? back_rank c)) as ->; [|done].
  unfold back_rank. destruct c; simpl; lia || real.
Qed.

Lemma heir_side_flip : same_for (heir_side b ctx) (heir_side b' ctx').
Proof.
  intros c Hc. unfold heir_side.
  rewrite scale_flip, (cf_pawns _ _ Hctx c), (cf_pawns _ _ Hctx (color_opposite c)),
    best_advance_flip, best_passed_flip, heir_king_flip, target_flip, race_flip,
    (fl_heir b b' H), (fl_fullmove b b' H), block_flip by auto with board.
  assert (bb_sum (heir_pawn b' (heir_scale b ctx c) (color_opposite c)) (pcs b' (color_opposite c) PAWN) =
          bb_sum (heir_pawn b (heir_scale b ctx c) c) (pcs b c PAWN)) as ->.
  { rewrite (pcs_flip b b' H) by done. apply bb_sum_flip; [auto with board|].
    intros sq Hs _. by apply heir_pawn_flip. }
  assert (forall t, real_type t ->
    bb_sum (heir_officer b' ctx' (color_opposite c) t) (pcs b' (color_opposite c) t) =
    bb_sum (heir_officer b ctx c t) (pcs b c t)) as Hofficer.
  { intros t Ht. rewrite (pcs_flip b b' H) by done. apply bb_sum_flip; [auto with board|].
    intros sq Hs _. by apply officer_flip. }
  cbn [fold_left officers]. rewrite !Hofficer by done.
  rewrite (off_back_flip KNIGHT ltac:(done) c Hc), (off_back_flip BISHOP ltac:(done) c Hc),
    (off_back_flip ROOK ltac:(done) c Hc), (off_back_flip QUEEN ltac:(done) c Hc).
  by rewrite (sortie_flip _ c Hc).
Qed.

Lemma heir_flip : eval_heir b' ctx' = - eval_heir b ctx.
Proof.
  unfold eval_heir. rewrite (both_sides_flip _ _ heir_side_flip), (tempo_flip b b' H). lia.
Qed.
End Sym.
