(* ===== verification/EvalTruce.v ===== *)
(** * Truce evaluation ([eval_truce.c]) *)

From stdpp Require Import base numbers list option.
From Stdlib Require Import ZArith Lia Bool.
From S2P Require Import Prelude Types Board Attacks Movegen EvalTables EvalCommon Flip EvalSym EvalFriendlyFire.

(** ** Helpers *)

Definition truce_start_pawn_harassers (b : Board) (bishop_side : Color) (sq : Square) : Z :=
  let opp := color_opposite bishop_side in
  let target_rank := if opp == WHITE then 3 else 4 in
  let start_rank := if opp == WHITE then 1 else 6 in
  let file := SQ_COL sq in
  if negb (SQ_ROW sq =? target_rank) then 0
  else
    let count := 0 in
    let count := if (0 <? file) && BB_HAS (pcs b opp PAWN) (SQ start_rank (file - 1))
                 then count + 1 else count in
    if (file <? 7) && BB_HAS (pcs b opp PAWN) (SQ start_rank (file + 1)) then count + 1 else count.

(** A bitboard from a list of squares, as the masks are written. *)
Definition mask (l : list Square) : Bitboard :=
  fold_left (fun bb sq => Z.lor bb (u64 (Z.shiftl 1 sq))) l 0.

Definition center4 : Bitboard := mask [SQ 3 3; SQ 3 4; SQ 4 3; SQ 4 4].
Definition ext_center : Bitboard :=
  mask [SQ 2 2; SQ 2 3; SQ 2 4; SQ 2 5; SQ 3 2; SQ 3 5; SQ 4 2; SQ 4 5; SQ 5 2; SQ 5 3; SQ 5 4; SQ 5 5].
Definition long_diag_1 : Bitboard :=
  mask [SQ 0 0; SQ 1 1; SQ 2 2; SQ 3 3; SQ 4 4; SQ 5 5; SQ 6 6; SQ 7 7].
Definition long_diag_2 : Bitboard :=
  mask [SQ 0 7; SQ 1 6; SQ 2 5; SQ 3 4; SQ 4 3; SQ 5 2; SQ 6 1; SQ 7 0].

(** ** [eval_truce], one definition per block *)

Definition truce_back_rank (c : Color) : Z := if c == WHITE then 0 else 7.

(** Development, differentiated by piece type. *)
Definition truce_development (b : Board) (c : Color) (t : PieceType) (sq : Square) : Z :=
  let early_truce := b_fullmove b <=? 6 in
  let minor := (t == KNIGHT) || (t == BISHOP) in
  if negb (SQ_ROW sq =? truce_back_rank c) then
    if minor then 15 else if t == ROOK then 8 else if early_truce then -10 else 5
  else if minor then -10 else 0.

Definition truce_developed (b : Board) (c : Color) (t : PieceType) : Z :=
  bb_sum (fun sq => if negb (SQ_ROW sq =? truce_back_rank c) then 1 else 0) (pcs b c t).

(** The rows ahead of [sq], as a bitboard. *)
Definition ahead_mask (c : Color) (sq : Square) : Bitboard :=
  let rows := if c == WHITE then seqZ (SQ_ROW sq + 1) (8 - (SQ_ROW sq + 1)) else seqZ 0 (SQ_ROW sq) in
  fold_left (fun bb r => fold_left (fun bb fc => Z.lor bb (u64 (Z.shiftl 1 (SQ r fc)))) (seqZ 0 8) bb)
    rows BB_EMPTY.

(** Knight outposts. *)
Definition truce_outpost (b : Board) (c : Color) (sq : Square) : Z :=
  let opp := color_opposite c in
  let rank := rel_row c sq in
  let col := SQ_COL sq in
  if (3 <=? rank) && (rank <=? 5) then
    let pawn_row := if c == WHITE then SQ_ROW sq - 1 else SQ_ROW sq + 1 in
    let supported :=
      (0 <=? pawn_row) && (pawn_row <? 8)
      && (((0 <? col) && BB_HAS (pcs b c PAWN) (SQ pawn_row (col - 1)))
          || ((col <? 7) && BB_HAS (pcs b c PAWN) (SQ pawn_row (col + 1)))) in
    let no_enemy_pawn_attack :=
      negb (bb_nonzero (Z.land (Z.land (pcs b opp PAWN) (adjacent_files col)) (ahead_mask c sq))) in
    let outpost_bonus := 15 in
    let outpost_bonus := if supported then outpost_bonus + 12 else outpost_bonus in
    let outpost_bonus := if no_enemy_pawn_attack then outpost_bonus + 10 else outpost_bonus in
    if (2 <=? col) && (col <=? 5) then outpost_bonus + 8 else outpost_bonus
  else 0.

(** One bishop: diagonals, harassing pawns, and the early ...Bh3. *)
Definition truce_bishop (b : Board) (c : Color) (sq : Square) : Z :=
  let diag_atk := bishop_attacks_calc sq (b_all b) in
  let diag_center := bb_popcount (Z.land diag_atk (Z.lor center4 ext_center)) in
  let bonus := diag_center * 4 in
  let bonus := if BB_HAS long_diag_1 sq || BB_HAS long_diag_2 sq then bonus + 8 else bonus in
  let harassers := truce_start_pawn_harassers b c sq in
  let bonus :=
    if 0 <? harassers then
      let bonus := bonus - harassers * 10 in
      if 2 <=? harassers then bonus - 4 else bonus
    else bonus in
  if (c == BLACK) && (b_fullmove b <=? 8) && (sq =? SQ 2 7) && BB_HAS (pcs b BLACK PAWN) (SQ 6 7)
     && BB_HAS (pcs b WHITE PAWN) (SQ 2 6) && BB_HAS (pcs b WHITE PAWN) (SQ 1 7)
  then bonus - 90 else bonus.

(** One rook: open files and the seventh rank. *)
Definition truce_rook (b : Board) (c : Color) (sq : Square) : Z :=
  let file := file_mask (SQ_COL sq) in
  let own_p := bb_nonzero (Z.land (pcs b c PAWN) file) in
  let opp_p := bb_nonzero (Z.land (pcs b (color_opposite c) PAWN) file) in
  let bonus := if negb own_p && negb opp_p then 20 else if negb own_p then 12 else 0 in
  let sev_rank := if c == WHITE then 6 else 1 in
  if SQ_ROW sq =? sev_rank then bonus + 15 else bonus.

(** The first two rooks on one line. *)
Definition truce_rook_pair (b : Board) (c : Color) : Z :=
  let rooks := pcs b c ROOK in
  if 2 <=? bb_popcount rooks then
    let '(r1, rtmp) := bb_pop_lsb rooks in
    let '(r2, _) := bb_pop_lsb rtmp in
    if (SQ_COL r1 =? SQ_COL r2) || (SQ_ROW r1 =? SQ_ROW r2) then 15 else 0
  else 0.

(** Space: officers in the opponent's half. *)
Definition truce_space (opp_pawn_atk : Bitboard) (c : Color) (sq : Square) : Z :=
  let rank := rel_row c sq in
  if 4 <=? rank then
    if BB_HAS opp_pawn_atk sq then -5 else if 5 <=? rank then 12 + 8 else 12
  else 0.

Definition truce_pawn_chain (b : Board) (c : Color) : Z :=
  let pawns := pcs b c PAWN in
  let linked (sq : Square) := bb_nonzero (Z.land pawns (adjacent_files (SQ_COL sq))) in
  let connected := bb_sum (fun sq => if linked sq then 1 else 0) pawns in
  let isolated_cnt := bb_sum (fun sq => if linked sq then 0 else 1) pawns in
  connected * 5 - isolated_cnt * 10.

(** Fourth-rank pawns. *)
Definition truce_pawn_space (opp_pawn_atk : Bitboard) (c : Color) (sq : Square) : Z :=
  let rank := rel_row c sq in
  if 3 <=? rank then
    let pawn_space := 8 in
    let pawn_space := if negb (BB_HAS opp_pawn_atk sq) then pawn_space + 4 else pawn_space in
    if 4 <=? rank then pawn_space + 4 else pawn_space
  else 0.

(** [advanced_file[file]] after the pawn loop, for the files c to f. *)
Definition advanced_file (b : Board) (c : Color) (file : Z) : bool :=
  existsb (fun sq => (3 <=? rel_row c sq) && (SQ_COL sq =? file)) (bb_squares (pcs b c PAWN)).

Definition truce_front (b : Board) (c : Color) : Z :=
  let af := advanced_file b c in
  (if af 3 && af 4 then 22 else 0) + (if af 2 && af 3 then 10 else 0) +
  (if af 4 && af 5 then 10 else 0) + (if af 3 && af 4 && (af 2 || af 5) then 10 else 0).

(** King on the wing behind its pawns. *)
Definition truce_king (b : Board) (c : Color) : Z :=
  let kbb := pcs b c KING in
  if bb_nonzero kbb then
    let ksq := bb_lsb kbb in
    let kc := SQ_COL ksq in
    let bonus := if (kc <=? 2) || (6 <=? kc) then 18 else 0 in
    let bonus := if (3 <=? kc) && (kc <=? 4) then bonus - 12 else bonus in
    bonus + pawn_shield b c ksq * 10
  else 0.

(** Piece harmony: how many types have left the back rank. *)
Definition truce_variety (b : Board) (c : Color) : Z :=
  let piece_types_developed := fold_left (fun m t =>
    if existsb (fun sq => negb (SQ_ROW sq =? truce_back_rank c)) (bb_squares (pcs b c t))
    then Z.lor m (Z.shiftl 1 (PieceType_to_Z t)) else m) officers 0 in
  bb_popcount piece_types_developed * 8.

(** Everything a side attacks but by its king. *)
Definition truce_attack_map (b : Board) (atk : Bitboard) (c : Color) : Bitboard :=
  let knight_atk := bb_union knight_attacks BB_EMPTY (pcs b c KNIGHT) in
  let bishop_atk := bb_union (fun s => bishop_attacks_calc s (b_all b)) BB_EMPTY
                      (Z.lor (pcs b c BISHOP) (pcs b c QUEEN)) in
  let rook_atk := bb_union (fun s => rook_attacks_calc s (b_all b)) BB_EMPTY
                    (Z.lor (pcs b c ROOK) (pcs b c QUEEN)) in
  Z.lor (Z.lor (Z.lor atk knight_atk) bishop_atk) rook_atk.

Definition VULN_PENALTY : list Z := [15; 55; 55; 85; 150; 0].
Definition VULN_DEFENDED : list Z := [5; 20; 20; 30; 50; 0].

(** A piece that will be taken when the truce breaks. *)
Definition truce_vulnerable (opp_all_atk own_all_def opp_pawn_atk : Bitboard) (t : PieceType)
    (sq : Square) : Z :=
  if negb (BB_HAS opp_all_atk sq) then 0
  else
    let ti := PieceType_to_Z t in
    let defended := BB_HAS own_all_def sq in
    let pawn_attacked := BB_HAS opp_pawn_atk sq in
    let pen := if defended then VULN_DEFENDED.[ti] else VULN_PENALTY.[ti] in
    if pawn_attacked && (1 <=? ti) then pen + 20 else pen.

Definition truce_side (b : Board) (ctx : EvalContext) (c : Color) : Z :=
  let opp := color_opposite c in
  let opp_pawn_atk := (ctx_pawn_atk ctx)@opp in
  let bonus := fold_left (fun bonus t => bonus + bb_sum (truce_development b c t) (pcs b c t))
    officers 0 in
  let developed_count := fold_left (fun n t => n + truce_developed b c t) officers 0 in
  let bonus := if 3 <=? developed_count then bonus + 12 else bonus in
  let bonus := if 5 <=? developed_count then bonus + 8 else bonus in
  let bonus := bonus + bb_popcount (Z.land (occ b c) center4) * 20 in
  let bonus := bonus + bb_popcount (Z.land (occ b c) ext_center) * 8 in
  let bonus := bonus + bb_sum (truce_outpost b c) (pcs b c KNIGHT) in
  let bonus := if 2 <=? (ctx_bishop_count ctx)@c then bonus + 25 else bonus in
  let bonus := bonus + bb_sum (truce_bishop b c) (pcs b c BISHOP) in
  let bonus := bonus + bb_sum (truce_rook b c) (pcs b c ROOK) in
  let bonus := bonus + truce_rook_pair b c in
  let bonus := fold_left (fun bonus t => bonus + bb_sum (truce_space opp_pawn_atk c) (pcs b c t))
    officers bonus in
  let bonus := bonus + truce_pawn_chain b c in
  let bonus := bonus + bb_sum (truce_pawn_space opp_pawn_atk c) (pcs b c PAWN) in
  let bonus := bonus + truce_front b c in
  let bonus := bonus + truce_king b c in
  let bonus := bonus + truce_variety b c in
  let opp_all_atk := truce_attack_map b opp_pawn_atk opp in
  let own_all_def := truce_attack_map b (ctx_pawn_atk ctx)@c c in
  fold_left (fun bonus t =>
    bonus - bb_sum (truce_vulnerable opp_all_atk own_all_def opp_pawn_atk t) (pcs b c t))
    (PAWN :: officers) bonus.

Definition eval_truce (b : Board) (ctx : EvalContext) : Z :=
  both_sides (truce_side b ctx) + tempo b 15.

(** ** From the other side *)

(** The early raid of a bishop on the third square of the h-file, the board
    turned so that [c] plays Black: before move nine, with its own h-pawn at home
    and enemy pawns on g3 and h2. *)
Definition bishop_raid (b : Board) (c : Color) : bool :=
  let at_row r := SQ (if c == BLACK then r else 7 - r) in
  (b_fullmove b <=? 8) && BB_HAS (pcs b c BISHOP) (at_row 2 7) && BB_HAS (pcs b c PAWN) (at_row 6 7) &&
  BB_HAS (pcs b (color_opposite c) PAWN) (at_row 2 6) &&
  BB_HAS (pcs b (color_opposite c) PAWN) (at_row 1 7).

(** Two masks that are mirror images of each other. *)
Definition mirrored (m m' : Bitboard) : bool :=
  (0 <=? m') && (m' <? 2 ^ 64) &&
  forallb (fun n => eqb (Z.testbit m (mirror n)) (Z.testbit m' n)) (seqZ 0 64).

Lemma mirrored_flip (m m' : Bitboard) : mirrored m m' = true -> flip_bb m = m' /\ 0 <= m' < 2 ^ 64.
Proof.
  unfold mirrored. rewrite !andb_true_iff, Z.leb_le, Z.ltb_lt. intros [Hb Hall]. split; [|done].
  apply bb_ext; [auto with board|done|]. intros n Hn. rewrite flip_testbit by done.
  apply eqb_prop. rewrite forallb_forall in Hall. apply Hall, list_elem_of_In, elem_of_seqZ.
  unfold on_board in Hn. lia.
Qed.

Lemma center4_flip : flip_bb center4 = center4.
Proof. apply mirrored_flip. by vm_compute. Qed.
Lemma ext_center_flip : flip_bb ext_center = ext_center.
Proof. apply mirrored_flip. by vm_compute. Qed.
Lemma centers_flip : flip_bb (Z.lor center4 ext_center) = Z.lor center4 ext_center.
Proof. apply mirrored_flip. by vm_compute. Qed.

Lemma long_diags_flip (sq : Square) :
  on_board sq ->
  BB_HAS long_diag_1 (mirror sq) || BB_HAS long_diag_2 (mirror sq) =
  BB_HAS long_diag_1 sq || BB_HAS long_diag_2 sq.
Proof.
  intros Hs. assert (flip_bb long_diag_1 = long_diag_2) as E by (apply mirrored_flip; by vm_compute).
  assert (flip_bb long_diag_2 = long_diag_1) as E' by (apply mirrored_flip; by vm_compute).
  assert (BB_HAS long_diag_1 (mirror sq) = BB_HAS long_diag_2 sq) as -> by (rewrite <- E'; by apply BB_HAS_flip).
  assert (BB_HAS long_diag_2 (mirror sq) = BB_HAS long_diag_1 sq) as -> by (rewrite <- E; by apply BB_HAS_flip).
  apply orb_comm.
Qed.

(** The rows ahead of row [r]. *)
Definition rows_ahead (c : Color) (r : Z) : Bitboard :=
  let rows := if c == WHITE then seqZ (r + 1) (8 - (r + 1)) else seqZ 0 r in
  fold_left (fun bb r => fold_left (fun bb fc => Z.lor bb (u64 (Z.shiftl 1 (SQ r fc)))) (seqZ 0 8) bb)
    rows BB_EMPTY.

Lemma ahead_mask_flip (c : Color) (sq : Square) :
  real_color c -> on_board sq -> ahead_mask (color_opposite c) (mirror sq) = flip_bb (ahead_mask c sq).
Proof.
  intros Hc Hs. change (ahead_mask c sq) with (rows_ahead c (SQ_ROW sq)).
  change (ahead_mask (color_opposite c) (mirror sq)) with (rows_ahead (color_opposite c) (SQ_ROW (mirror sq))).
  rewrite mirror_row by done. symmetry. apply mirrored_flip.
  pose proof (forall_range (fun r => forallb (fun c =>
    mirrored (rows_ahead c r) (rows_ahead (color_opposite c) (7 - r))) colors) 8
    ltac:(by vm_compute) (SQ_ROW sq) (SQ_ROW_bound sq Hs)) as Hall.
  cbn [forallb colors] in Hall. rewrite !andb_true_iff in Hall. destruct c; tauto || real.
Qed.

Section Sym.
Context (b b' : Board) (H : flipped b b') (ctx ctx' : EvalContext) (Hctx : ctx_flipped ctx ctx').
Context (Hking : forall c, real_color c -> single (pcs b c KING)).
Context (Hrooks : forall c, real_color c -> bb_popcount (pcs b c ROOK) <= 2).
Local Definition Hi : board_inv b := fl_inv b b' H.
Local Definition Hi' : board_inv b' := fl_inv' b b' H.
Local Hint Resolve Hi Hi' : board.

Lemma back_rank_flip (c : Color) (sq : Square) :
  real_color c -> on_board sq ->
  (SQ_ROW (mirror sq) =? truce_back_rank (color_opposite c)) = (SQ_ROW sq =? truce_back_rank c).
Proof.
  intros Hc Hs. rewrite mirror_row by done. unfold truce_back_rank. destruct c; simpl; [lia|lia|real].
Qed.

Lemma development_flip (c : Color) (t : PieceType) :
  real_color c -> real_type t ->
  bb_sum (truce_development b' (color_opposite c) t) (pcs b' (color_opposite c) t) =
  bb_sum (truce_development b c t) (pcs b c t) /\
  truce_developed b' (color_opposite c) t = truce_developed b c t.
Proof.
  intros Hc Ht. unfold truce_developed. rewrite (pcs_flip b b' H) by done.
  split; (apply bb_sum_flip; [auto with board|]; intros sq Hs _).
  - unfold truce_development. by rewrite back_rank_flip, (fl_fullmove b b' H).
  - by rewrite back_rank_flip.
Qed.

Lemma harassers_flip (c : Color) (sq : Square) :
  real_color c -> on_board sq ->
  truce_start_pawn_harassers b' (color_opposite c) (mirror sq) = truce_start_pawn_harassers b c sq.
Proof.
  intros Hc Hs. unfold truce_start_pawn_harassers. rewrite mirror_row, mirror_col by done.
  pose proof (SQ_COL_bound sq) as Hcol.
  assert (forall (ok : bool) col r, (ok = true -> 0 <= col < 8) -> 0 <= r < 8 ->
    ok && BB_HAS (pcs b' (color_opposite (color_opposite c)) PAWN) (SQ (7 - r) col) =
    ok && BB_HAS (pcs b (color_opposite c) PAWN) (SQ r col)) as Hhas.
  { intros [] col r Hok Hr; [|done]. cbn [andb]. apply (has_flip_at b b' H); auto with board. }
  destruct c; [| |real]; cbn [color_opposite] in *; cbv zeta.
  - change (BLACK == WHITE) with false. change (WHITE == WHITE) with true. cbv iota.
    replace (7 - SQ_ROW sq =? 3) with (SQ_ROW sq =? 4) by lia.
    by rewrite <- (Hhas (0 <? SQ_COL sq) _ 6), <- (Hhas (SQ_COL sq <? 7) _ 6) by lia.
  - change (BLACK == WHITE) with false. change (WHITE == WHITE) with true. cbv iota.
    replace (7 - SQ_ROW sq =? 4) with (SQ_ROW sq =? 3) by lia.
    by rewrite <- (Hhas (0 <? SQ_COL sq) _ 1), <- (Hhas (SQ_COL sq <? 7) _ 1) by lia.
Qed.

Lemma outpost_flip (c : Color) (sq : Square) :
  real_color c -> on_board sq -> truce_outpost b' (color_opposite c) (mirror sq) = truce_outpost b c sq.
Proof.
  intros Hc Hs. unfold truce_outpost. rewrite rel_row_flip, mirror_row, mirror_col by done.
  pose proof (SQ_COL_bound sq) as Hcol. pose proof (SQ_ROW_bound sq Hs) as Hrow.
  set (pr := if c == WHITE then SQ_ROW sq - 1 else SQ_ROW sq + 1).
  assert ((if color_opposite c == WHITE then 7 - SQ_ROW sq - 1 else 7 - SQ_ROW sq + 1) = 7 - pr) as ->
    by (unfold pr; destruct c; simpl; [lia|lia|real]).
  assert (forall col, (0 <= pr < 8 -> 0 <= col < 8 ->
    BB_HAS (pcs b' (color_opposite c) PAWN) (SQ (7 - pr) col) = BB_HAS (pcs b c PAWN) (SQ pr col))) as Hhas
    by (intros; by apply (has_flip_at b b' H)).
  assert ((0 <=? 7 - pr) && (7 - pr <? 8) &&
      ((0 <? SQ_COL sq) && BB_HAS (pcs b' (color_opposite c) PAWN) (SQ (7 - pr) (SQ_COL sq - 1)) ||
       (SQ_COL sq <? 7) && BB_HAS (pcs b' (color_opposite c) PAWN) (SQ (7 - pr) (SQ_COL sq + 1))) =
    (0 <=? pr) && (pr <? 8) &&
      ((0 <? SQ_COL sq) && BB_HAS (pcs b c PAWN) (SQ pr (SQ_COL sq - 1)) ||
       (SQ_COL sq <? 7) && BB_HAS (pcs b c PAWN) (SQ pr (SQ_COL sq + 1)))) as ->.
  { destruct (Z.leb_spec 0 pr), (Z.ltb_spec pr 8), (Z.leb_spec 0 (7 - pr)), (Z.ltb_spec (7 - pr) 8);
      try lia; try done. cbn [andb].
    destruct (Z.ltb_spec 0 (SQ_COL sq)), (Z.ltb_spec (SQ_COL sq) 7); cbn [andb];
      rewrite ?Hhas by lia; done. }
  assert (bb_nonzero (Z.land (Z.land (pcs b' (color_opposite (color_opposite c)) PAWN)
            (adjacent_files (SQ_COL sq))) (ahead_mask (color_opposite c) (mirror sq))) =
          bb_nonzero (Z.land (Z.land (pcs b (color_opposite c) PAWN) (adjacent_files (SQ_COL sq)))
            (ahead_mask c sq))) as ->; [|reflexivity].
  apply hits_flip; [|by apply ahead_mask_flip|auto with board].
  by rewrite (pcs_flip b b' H), flip_land, adjacent_files_flip by auto with board.
Qed.

(** The pawns of a raid, and the bishop's score without it. *)
Definition raid_pawns (x : Board) : bool :=
  (b_fullmove x <=? 8) && BB_HAS (pcs x BLACK PAWN) (SQ 6 7) && BB_HAS (pcs x WHITE PAWN) (SQ 2 6) &&
  BB_HAS (pcs x WHITE PAWN) (SQ 1 7).

Definition plain_bishop (x : Board) (c : Color) (sq : Square) : Z :=
  truce_bishop x c sq + (if (c == BLACK) && raid_pawns x && (sq =? SQ 2 7) then 90 else 0).

Lemma plain_bishop_flip (c : Color) (sq : Square) :
  real_color c -> on_board sq -> plain_bishop b' (color_opposite c) (mirror sq) = plain_bishop b c sq.
Proof.
  intros Hc Hs.
  assert (forall x c sq, plain_bishop x c sq =
    let bonus := bb_popcount (Z.land (bishop_attacks_calc sq (b_all x)) (Z.lor center4 ext_center)) * 4 in
    let bonus := if BB_HAS long_diag_1 sq || BB_HAS long_diag_2 sq then bonus + 8 else bonus in
    let h := truce_start_pawn_harassers x c sq in
    if 0 <? h then if 2 <=? h then bonus - h * 10 - 4 else bonus - h * 10 else bonus) as E.
  { clear. intros x c sq. unfold plain_bishop, truce_bishop, raid_pawns. cbv zeta.
    destruct (c == BLACK), (b_fullmove x <=? 8), (sq =? SQ 2 7), (BB_HAS (pcs x BLACK PAWN) (SQ 6 7)),
      (BB_HAS (pcs x WHITE PAWN) (SQ 2 6)), (BB_HAS (pcs x WHITE PAWN) (SQ 1 7)); cbn [andb]; lia. }
  rewrite !E, harassers_flip, long_diags_flip, (all_flip b b' H), bishop_attacks_flip by auto with board.
  by rewrite popcount_mask by auto using centers_flip with board.
Qed.

Lemma sum_at (s k : Z) (l : list Square) :
  List.NoDup l -> fold_left (fun acc sq => acc + (if sq =? s then k else 0)) l 0 =
  if existsb (fun sq => sq =? s) l then k else 0.
Proof.
  intros Hd. assert (forall acc, fold_left (fun acc sq => acc + (if sq =? s then k else 0)) l acc =
    acc + (if existsb (fun sq => sq =? s) l then k else 0)) as Hl; [|by rewrite Hl].
  induction Hd as [|x l Hx Hd IH]; intros acc; cbn [fold_left existsb]; [lia|]. rewrite IH.
  destruct (Z.eqb_spec x s) as [->|]; cbn [orb]; [|lia].
  assert (existsb (fun sq => sq =? s) l = false) as ->; [|lia].
  apply not_true_iff_false. intros (y & Hy & E%Z.eqb_eq)%existsb_exists. by subst.
Qed.

Lemma bb_sum_at (s k : Z) (p : bool) (x : Bitboard) :
  0 <= x < 2 ^ 64 -> on_board s ->
  bb_sum (fun sq => if p && (sq =? s) then k else 0) x = if p && BB_HAS x s then k else 0.
Proof.
  intros Hx Hs. destruct p; cbn [andb].
  - unfold bb_sum. rewrite sum_at by by apply NoDup_bb_squares.
    assert (existsb (fun sq => sq =? s) (bb_squares x) = BB_HAS x s) as ->; [|done].
    rewrite BB_HAS_testbit by sq_lia. apply eq_iff_eq_true. rewrite existsb_exists. split.
    + intros (y & Hy & ->%Z.eqb_eq). by apply elem_of_bb_squares in Hy as [_ ?].
    + intros Hb. exists s. split; [by apply elem_of_bb_squares|apply Z.eqb_refl].
  - unfold bb_sum. induction (bb_squares x) as [|y l IH]; [done|]. exact IH.
Qed.

(** The bishops of [c] in [b] and of its opponent in [b']. *)
Lemma bishops_flip (c : Color) :
  real_color c ->
  bb_sum (truce_bishop b' (color_opposite c)) (pcs b' (color_opposite c) BISHOP) =
  bb_sum (truce_bishop b c) (pcs b c BISHOP) +
  (if bishop_raid b c then if c == BLACK then 90 else -90 else 0).
Proof.
  intros Hc.
  assert (forall x c, real_color c -> board_inv x ->
    bb_sum (plain_bishop x c) (pcs x c BISHOP) = bb_sum (truce_bishop x c) (pcs x c BISHOP) +
      (if (c == BLACK) && raid_pawns x && BB_HAS (pcs x c BISHOP) (SQ 2 7) then 90 else 0)) as Esum.
  { clear. intros x c Hc Hx. unfold plain_bishop. rewrite bb_sum_add. f_equal.
    apply bb_sum_at; [auto with board|by vm_compute]. }
  assert (bb_sum (plain_bishop b' (color_opposite c)) (pcs b' (color_opposite c) BISHOP) =
          bb_sum (plain_bishop b c) (pcs b c BISHOP)) as E.
  { rewrite (pcs_flip b b' H) by done. apply bb_sum_flip; [auto with board|]. intros sq Hs _.
    by apply plain_bishop_flip. }
  rewrite !Esum in E by auto with board. unfold bishop_raid, raid_pawns in *.
  rewrite (fl_fullmove b b' H) in E.
  pose proof (has_flip_at b b' H WHITE BISHOP 5 7) as B1. pose proof (has_flip_at b b' H WHITE PAWN 1 7) as B2.
  pose proof (has_flip_at b b' H BLACK PAWN 5 6) as B3. pose proof (has_flip_at b b' H BLACK PAWN 6 7) as B4.
  destruct c; [| |real]; cbn [color_opposite] in *.
  - change (BLACK == BLACK) with true in *. change (WHITE == BLACK) with false in *. cbv iota in *.
    cbn [andb] in E. change (7 - 5) with 2 in *. change (7 - 1) with 6 in *. change (7 - 6) with 1 in *.
    change (7 - 2) with 5 in *. rewrite B1, B2, B3, B4 in E by (done || lia).
    revert E. destruct (_ <=? 8), (BB_HAS (pcs b WHITE PAWN) (SQ 1 7)), (BB_HAS (pcs b BLACK PAWN) (SQ 5 6)),
      (BB_HAS (pcs b BLACK PAWN) (SQ 6 7)), (BB_HAS (pcs b WHITE BISHOP) (SQ 5 7)); cbn [andb]; lia.
  - change (BLACK == BLACK) with true in *. change (WHITE == BLACK) with false in *. cbv iota in *.
    cbn [andb] in E. revert E.
    destruct (_ <=? 8), (BB_HAS (pcs b BLACK PAWN) (SQ 6 7)), (BB_HAS (pcs b WHITE PAWN) (SQ 2 6)),
      (BB_HAS (pcs b WHITE PAWN) (SQ 1 7)), (BB_HAS (pcs b BLACK BISHOP) (SQ 2 7)); cbn [andb]; lia.
Qed.

Lemma rook_flip (c : Color) (sq : Square) :
  real_color c -> on_board sq -> truce_rook b' (color_opposite c) (mirror sq) = truce_rook b c sq.
Proof.
  intros Hc Hs. unfold truce_rook. rewrite mirror_row, mirror_col by done.
  rewrite (pcs_flip b b' H c), (pcs_flip b b' H (color_opposite c)) by auto with board.
  pose proof (SQ_COL_bound sq). rewrite !nonzero_mask by auto using file_mask_flip with board.
  assert ((7 - SQ_ROW sq =? (if color_opposite c == WHITE then 6 else 1)) =
          (SQ_ROW sq =? (if c == WHITE then 6 else 1))) as ->; [|done].
  destruct c; simpl; [lia|lia|real].
Qed.

(** Two pops give the first two squares. *)
Lemma pop_two (fuel : nat) (x : Bitboard) (s1 s2 : Square) (l : list Square) :
  bb_squares_loop (S (S fuel)) x = s1 :: s2 :: l ->
  (bb_pop_lsb x).1 = s1 /\ (bb_pop_lsb (bb_pop_lsb x).2).1 = s2.
Proof.
  cbn [bb_squares_loop]. destruct (x =? 0); [done|].
  destruct (bb_pop_lsb x) as [t1 r1]. cbn [fst snd]. destruct (r1 =? 0); [done|].
  destruct (bb_pop_lsb r1) as [t2 r2]. intros E. by injection E.
Qed.

Lemma rook_pair_squares (x : Board) (c : Color) :
  board_inv x -> real_color c -> bb_popcount (pcs x c ROOK) <= 2 ->
  truce_rook_pair x c = match bb_squares (pcs x c ROOK) with
    | [r1; r2] => if (SQ_COL r1 =? SQ_COL r2) || (SQ_ROW r1 =? SQ_ROW r2) then 15 else 0
    | _ => 0
    end.
Proof.
  intros Hx Hc Hn. unfold truce_rook_pair. rewrite bb_popcount_squares in * by auto with board.
  destruct (bb_squares (pcs x c ROOK)) as [|r1 [|r2 [|r3 l]]] eqn:E; try done; [|cbn in Hn; lia].
  destruct (pop_two 62 _ _ _ _ E) as [E1 E2]. cbn [length]. change (2 <=? Z.of_nat 2) with true. cbv iota.
  destruct (bb_pop_lsb (pcs x c ROOK)) as [t1 w1]. cbn [fst snd] in *. subst t1.
  destruct (bb_pop_lsb w1) as [t2 w2]. cbn [fst] in E2. by subst t2.
Qed.

Lemma rook_pair_flip (c : Color) :
  real_color c -> truce_rook_pair b' (color_opposite c) = truce_rook_pair b c.
Proof.
  intros Hc. rewrite !rook_pair_squares; auto with board.
  2:{ rewrite (pcs_flip b b' H), popcount_flip by auto with board. auto. }
  rewrite (pcs_flip b b' H) by done.
  pose proof (flip_squares (pcs b c ROOK) ltac:(auto with board)) as Hp.
  assert (forall s, In s (bb_squares (pcs b c ROOK)) -> on_board s) as Hon.
  { intros s Hin. apply elem_of_bb_squares in Hin as [? _]; auto with board. }
  pose proof (Permutation_length Hp) as Hlen. rewrite length_map in Hlen.
  destruct (bb_squares (pcs b c ROOK)) as [|r1 [|r2 [|r3 l]]],
    (bb_squares (flip_bb (pcs b c ROOK))) as [|q1 [|q2 [|q3 l']]]; try done.
  cbn [map] in Hp. pose proof (Hon r1 ltac:(by left)) as H1.
  pose proof (Hon r2 ltac:(by right; left)) as H2.
  apply Permutation_sym, Permutation_length_2_inv in Hp.
  destruct Hp as [Hp|Hp]; injection Hp as E1 E2; subst q1 q2; rewrite !mirror_row, !mirror_col by done.
  - replace (7 - SQ_ROW r1 =? 7 - SQ_ROW r2) with (SQ_ROW r1 =? SQ_ROW r2) by lia. done.
  - replace (7 - SQ_ROW r2 =? 7 - SQ_ROW r1) with (SQ_ROW r1 =? SQ_ROW r2) by lia.
    by rewrite (Z.eqb_sym (SQ_COL r2)).
Qed.

Lemma truce_space_flip (atk : Bitboard) (c : Color) (sq : Square) :
  real_color c -> on_board sq ->
  truce_space (flip_bb atk) (color_opposite c) (mirror sq) = truce_space atk c sq /\
  truce_pawn_space (flip_bb atk) (color_opposite c) (mirror sq) = truce_pawn_space atk c sq.
Proof.
  intros Hc Hs. unfold truce_space, truce_pawn_space. by rewrite rel_row_flip, BB_HAS_flip by done.
Qed.

Lemma pawn_chain_flip (c : Color) :
  real_color c -> truce_pawn_chain b' (color_opposite c) = truce_pawn_chain b c.
Proof.
  intros Hc. unfold truce_pawn_chain. rewrite (pcs_flip b b' H) by done. cbv zeta.
  assert (forall u v : Z, bb_sum (fun sq => if bb_nonzero (Z.land (flip_bb (pcs b c PAWN))
      (adjacent_files (SQ_COL sq))) then u else v) (flip_bb (pcs b c PAWN)) =
    bb_sum (fun sq => if bb_nonzero (Z.land (pcs b c PAWN) (adjacent_files (SQ_COL sq))) then u else v)
      (pcs b c PAWN)) as Hs; [|by rewrite !Hs].
  intros u v. apply bb_sum_flip; [auto with board|]. intros sq Hs _. pose proof (SQ_COL_bound sq).
  by rewrite mirror_col, nonzero_mask by auto using adjacent_files_flip with board.
Qed.

Lemma advanced_flip (c : Color) (file : Z) :
  real_color c -> advanced_file b' (color_opposite c) file = advanced_file b c file.
Proof.
  intros Hc. unfold advanced_file. rewrite (pcs_flip b b' H) by done.
  apply existsb_flip; [auto with board|]. intros sq Hs _. by rewrite rel_row_flip, mirror_col.
Qed.

Lemma front_flip (c : Color) : real_color c -> truce_front b' (color_opposite c) = truce_front b c.
Proof. intros Hc. unfold truce_front. by rewrite !advanced_flip. Qed.

Lemma truce_king_flip (c : Color) : real_color c -> truce_king b' (color_opposite c) = truce_king b c.
Proof.
  intros Hc. unfold truce_king. rewrite (pcs_flip b b' H), flip_nonzero by auto with board.
  destruct (bb_nonzero (pcs b c KING)) eqn:E; [|done].
  destruct (lsb_flip (pcs b c KING)) as [-> Hk]; [auto with board|auto| |].
  { unfold bb_nonzero in E. by apply negb_true_iff, Z.eqb_neq in E. }
  by rewrite (pawn_shield_flip b b' H), mirror_col.
Qed.

Lemma variety_flip (c : Color) : real_color c -> truce_variety b' (color_opposite c) = truce_variety b c.
Proof.
  intros Hc. unfold truce_variety.
  assert (forall t, real_type t ->
    existsb (fun sq => negb (SQ_ROW sq =? truce_back_rank (color_opposite c)))
      (bb_squares (pcs b' (color_opposite c) t)) =
    existsb (fun sq => negb (SQ_ROW sq =? truce_back_rank c)) (bb_squares (pcs b c t))) as Ht.
  { intros t Ht. rewrite (pcs_flip b b' H) by done. apply existsb_flip; [auto with board|].
    intros sq Hs _. by rewrite back_rank_flip. }
  unfold officers. cbn [fold_left]. by rewrite !Ht by done.
Qed.

Lemma attack_map_bound (c : Color) (atk : Bitboard) :
  real_color c -> 0 <= atk < 2 ^ 64 -> 0 <= truce_attack_map b atk c < 2 ^ 64.
Proof.
  intros Hc Ha. unfold truce_attack_map. cbv zeta.
  repeat apply lor_bound; try done; apply bb_union_bound; auto with board.
Qed.

Lemma attack_map_flip (c : Color) (atk : Bitboard) :
  real_color c -> 0 <= atk < 2 ^ 64 ->
  truce_attack_map b' (flip_bb atk) (color_opposite c) = flip_bb (truce_attack_map b atk c).
Proof.
  intros Hc Ha. unfold truce_attack_map. cbv zeta.
  rewrite !(pcs_flip b b' H), (all_flip b b' H) by done.
  assert (forall x, 0 <= x < 2 ^ 64 ->
    bb_union knight_attacks BB_EMPTY (flip_bb x) = flip_bb (bb_union knight_attacks BB_EMPTY x) /\
    bb_union (fun s => bishop_attacks_calc s (flip_bb (b_all b))) BB_EMPTY (flip_bb x) =
      flip_bb (bb_union (fun s => bishop_attacks_calc s (b_all b)) BB_EMPTY x) /\
    bb_union (fun s => rook_attacks_calc s (flip_bb (b_all b))) BB_EMPTY (flip_bb x) =
      flip_bb (bb_union (fun s => rook_attacks_calc s (b_all b)) BB_EMPTY x)) as Hu.
  { intros x Hx. rewrite <- flip_empty at 1 3 5. split_and!; apply bb_union_flip; auto with board;
      intros sq Hs; [by apply knight_attacks_flip|apply bishop_attacks_flip|apply rook_attacks_flip];
      auto with board. }
  rewrite <- !flip_lor by auto with board.
  rewrite (proj1 (Hu (pcs b c KNIGHT) ltac:(auto with board))).
  rewrite (proj1 (proj2 (Hu (Z.lor (pcs b c BISHOP) (pcs b c QUEEN)) ltac:(auto with board)))).
  rewrite (proj2 (proj2 (Hu (Z.lor (pcs b c ROOK) (pcs b c QUEEN)) ltac:(auto with board)))).
  rewrite <- !flip_lor; try done; repeat apply lor_bound; try done; apply bb_union_bound; auto with board.
Qed.

Lemma vulnerable_flip (x y z : Bitboard) (t : PieceType) (sq : Square) :
  on_board sq ->
  truce_vulnerable (flip_bb x) (flip_bb y) (flip_bb z) t (mirror sq) = truce_vulnerable x y z t sq.
Proof. intros Hs. unfold truce_vulnerable. by rewrite !BB_HAS_flip. Qed.

(** What the score of a side changes by. *)
Definition raid_skew (x : Board) (c : Color) : Z :=
  if bishop_raid x c then if c == BLACK then 90 else -90 else 0.

Lemma truce_side_flip (c : Color) :
  real_color c -> truce_side b' ctx' (color_opposite c) = truce_side b ctx c + raid_skew b c.
Proof.
  intros Hc. assert (real_color (color_opposite c)) as Ho by by apply opposite_real.
  pose proof (cf_atk_bound _ _ Hctx c Hc) as Ba. pose proof (cf_atk_bound _ _ Hctx _ Ho) as Bo.
  unfold truce_side. cbv zeta.
  rewrite (cf_bishops _ _ Hctx c Hc), (cf_atk _ _ Hctx c Hc), (cf_atk _ _ Hctx _ Ho).
  rewrite (attack_map_flip c), (attack_map_flip (color_opposite c)) by done.
  rewrite rook_pair_flip, pawn_chain_flip, front_flip, truce_king_flip, variety_flip, bishops_flip by done.
  fold (raid_skew b c).
  set (A := (ctx_pawn_atk ctx)@(color_opposite c)) in *. set (X := truce_attack_map b A _).
  set (Y := truce_attack_map b _ c).
  assert (forall t, real_type t ->
    bb_sum (truce_space (flip_bb A) (color_opposite c)) (pcs b' (color_opposite c) t) =
    bb_sum (truce_space A c) (pcs b c t) /\
    bb_sum (truce_vulnerable (flip_bb X) (flip_bb Y) (flip_bb A) t) (pcs b' (color_opposite c) t) =
    bb_sum (truce_vulnerable X Y A t) (pcs b c t)) as Ht.
  { intros t Ht. rewrite (pcs_flip b b' H) by done.
    split; (apply bb_sum_flip; [auto with board|]; intros sq Hs _);
      [by apply truce_space_flip|by apply vulnerable_flip]. }
  assert (bb_sum (truce_outpost b' (color_opposite c)) (pcs b' (color_opposite c) KNIGHT) =
          bb_sum (truce_outpost b c) (pcs b c KNIGHT)) as ->.
  { rewrite (pcs_flip b b' H) by done. apply bb_sum_flip; [auto with board|]. intros. by apply outpost_flip. }
  assert (bb_sum (truce_rook b' (color_opposite c)) (pcs b' (color_opposite c) ROOK) =
          bb_sum (truce_rook b c) (pcs b c ROOK)) as ->.
  { rewrite (pcs_flip b b' H) by done. apply bb_sum_flip; [auto with board|]. intros. by apply rook_flip. }
  assert (bb_sum (truce_pawn_space (flip_bb A) (color_opposite c)) (pcs b' (color_opposite c) PAWN) =
          bb_sum (truce_pawn_space A c) (pcs b c PAWN)) as ->.
  { rewrite (pcs_flip b b' H) by done. apply bb_sum_flip; [auto with board|]. intros. by apply truce_space_flip. }
  rewrite (occ_flip b b' H), !popcount_mask by auto using center4_flip, ext_center_flip with board.
  unfold officers. cbn [fold_left].
  rewrite !(fun t Hr => proj1 (development_flip c t Hc Hr)), !(fun t Hr => proj2 (development_flip c t Hc Hr))
    by done.
  rewrite !(fun t Hr => proj1 (Ht t Hr)), !(fun t Hr => proj2 (Ht t Hr)) by done.
  destruct (3 <=? _), (5 <=? _), (2 <=? _); lia.
Qed.

Lemma truce_flip :
  eval_truce b' ctx' = - (eval_truce b ctx + (raid_skew b WHITE - raid_skew b BLACK)).
Proof.
  unfold eval_truce. rewrite !both_sides_diff, (tempo_flip b b' H).
  pose proof (truce_side_flip WHITE ltac:(done)) as Ew. pose proof (truce_side_flip BLACK ltac:(done)) as Eb.
  cbn [color_opposite] in *. lia.
Qed.
End Sym.
