(* ===== verification/EvalKingsBattle.v ===== *)
(** * King's Battle evaluation ([eval_kings_battle.c]) *)

From stdpp Require Import base numbers list option.
From Stdlib Require Import ZArith Lia Bool.
From S2P Require Import Prelude Types Board Attacks Movegen EvalTables EvalCommon Flip EvalSym EvalFriendlyFire EvalMercenary.

(** ** Helpers *)

Definition kb_phase1_forward_rank (side : Color) (sq : Square) : Z :=
  if side == WHITE then SQ_ROW sq else 7 - SQ_ROW sq.

Definition kb_phase1_promotion_distance (side : Color) (sq : Square) : Z :=
  7 - kb_phase1_forward_rank side sq.

Definition kb_phase1_passed_pawn (b : Board) (side : Color) (sq : Square) : bool :=
  let opp := color_opposite side in
  let row := SQ_ROW sq in
  let col := SQ_COL sq in
  let start := if side == WHITE then row + 1 else 0 in
  let end_ := if side == WHITE then 8 else row in
  forallb (fun r => forallb (fun dc =>
    let nc := col + dc in
    ((nc <? 0) || (7 <? nc)) || negb (BB_HAS (pcs b opp PAWN) (SQ r nc))) [-1; 0; 1])
    (seqZ start (end_ - start)).

(** Count the free squares of a list up to the first occupied one. *)
Fixpoint clear_run (b : Board) (l : list Square) : Z :=
  match l with
  | [] => 0
  | s :: l => if negb (mb b s =? PIECE_EMPTY) then 0 else 1 + clear_run b l
  end.

Definition kb_phase1_clear_promotion_lane (b : Board) (side : Color) (sq : Square) : Z :=
  let row := SQ_ROW sq in
  let col := SQ_COL sq in
  if side == WHITE then clear_run b (map (fun r => SQ r col) (seqZ (row + 1) (8 - (row + 1))))
  else clear_run b (map (fun i => SQ (row - 1 - i) col) (seqZ 0 row)).

Definition kb_phase1_square_attacked_by_pawn_side (b : Board) (side : Color) (sq : Square) : bool :=
  let row := SQ_ROW sq in
  let col := SQ_COL sq in
  let attacker_row := if side == WHITE then row - 1 else row + 1 in
  if (attacker_row <? 0) || (7 <? attacker_row) then false
  else if (0 <? col) && BB_HAS (pcs b side PAWN) (SQ attacker_row (col - 1)) then true
  else (col <? 7) && BB_HAS (pcs b side PAWN) (SQ attacker_row (col + 1)).

Definition kb_phase1_king_target_safe (b : Board) (side : Color) (sq : Square) : bool :=
  let opp := color_opposite side in
  if BB_HAS (occ b side) sq then false
  else if kb_phase1_square_attacked_by_pawn_side b opp sq then false
  else if negb (pcs b opp KING =? BB_EMPTY) then
    let opp_king_sq := bb_lsb (pcs b opp KING) in
    negb (chebyshev_distance_sq opp_king_sq sq <=? 1)
  else true.

Definition kb_phase1_king_can_capture_pawn (b : Board) (side : Color) (king_sq pawn_sq : Square)
    : bool :=
  let opp := color_opposite side in
  if negb (chebyshev_distance_sq king_sq pawn_sq =? 1) then false
  else if negb (BB_HAS (pcs b opp PAWN) pawn_sq) then false
  else kb_phase1_king_target_safe b side pawn_sq.

(** The piece on a square is an enemy pawn. *)
Definition enemy_pawn_at (b : Board) (side : Color) (s : Square) : bool :=
  let target := mb b s in
  negb (target =? PIECE_EMPTY) && negb (PIECE_COLOR target == side) && (PIECE_TYPE target == PAWN).

Definition kb_phase1_any_pawn_capture_available (b : Board) (side : Color) : bool :=
  let step := if side == WHITE then 1 else -1 in
  existsb (fun sq =>
    let row := SQ_ROW sq + step in
    let col := SQ_COL sq in
    if (row <? 0) || (7 <? row) then false
    else ((0 <? col) && enemy_pawn_at b side (SQ row (col - 1)))
         || ((col <? 7) && enemy_pawn_at b side (SQ row (col + 1))))
    (bb_squares (pcs b side PAWN)).

(** Own pieces on the row [nr], on the three files around [col]. *)
Definition corridor_row (b : Board) (side : Color) (nr col : Z) : Z :=
  fold_left (fun blockers dc =>
    let nc := col + dc in
    if (nc <? 0) || (7 <? nc) then blockers
    else if BB_HAS (occ b side) (SQ nr nc) then blockers + 1 else blockers) [-1; 0; 1] 0.

Definition kb_phase1_forward_corridor_blockers (b : Board) (side : Color) (sq : Square)
    (max_steps : Z) : Z :=
  let row := SQ_ROW sq in
  let col := SQ_COL sq in
  let step := if side == WHITE then 1 else -1 in
  fold_left (fun blockers dr =>
    let nr := row + step * dr in
    if (nr <? 0) || (7 <? nr) then blockers else blockers + corridor_row b side nr col)
    (seqZ 1 max_steps) 0.

Definition kb_phase1_forward_lane_open (b : Board) (side : Color) (sq : Square) : bool :=
  let forward_row := SQ_ROW sq + (if side == WHITE then 1 else -1) in
  let col := SQ_COL sq in
  if (forward_row <? 0) || (7 <? forward_row) then false
  else negb (BB_HAS (occ b side) (SQ forward_row col)).

Definition kb_phase1_retreat_arc_seal_count (b : Board) (side : Color) : Z :=
  let opp := color_opposite side in
  let opp_king := pcs b opp KING in
  if opp_king =? BB_EMPTY then 0
  else
    let king_sq := bb_lsb opp_king in
    let opp_rank := kb_phase1_forward_rank opp king_sq in
    let retreat_row := SQ_ROW king_sq + (if opp == WHITE then -1 else 1) in
    if opp_rank <? 3 then 0
    else if (retreat_row <? 0) || (7 <? retreat_row) then 0
    else fold_left (fun sealed dc =>
      let nc := SQ_COL king_sq + dc in
      if (nc <? 0) || (7 <? nc) then sealed
      else
        let rsq := SQ retreat_row nc in
        if negb (mb b rsq =? PIECE_EMPTY) || kb_phase1_square_attacked_by_pawn_side b side rsq
        then sealed + 1 else sealed) [-1; 0; 1] 0.

(** The king of [c] exists and stands within two squares of [sq]. *)
Definition king_near (b : Board) (c : Color) (sq : Square) : bool :=
  negb (pcs b c KING =? BB_EMPTY) && (chebyshev_distance_sq (bb_lsb (pcs b c KING)) sq <=? 2).

Definition kb_phase1_wing_drift_penalty (b : Board) (side : Color) (sq : Square) : Z :=
  let file := SQ_COL sq in
  let rank := kb_phase1_forward_rank side sq in
  if negb (file =? 0) && negb (file =? 1) && negb (file =? 6) && negb (file =? 7) then 0
  else if (rank <? 2) || (3 <? rank) then 0
  else if kb_phase1_passed_pawn b side sq then 0
  else if king_near b side sq then 0
  else if king_near b (color_opposite side) sq then 0
  else
    let penalty := if rank =? 2 then 90 else 160 in
    if kb_phase1_any_pawn_capture_available b side then penalty + 30 else penalty.

Definition kb_phase1_connected_wall_bonus (b : Board) (side : Color) : Z :=
  let opp := color_opposite side in
  let opp_king := pcs b opp KING in
  let pawns := pcs b side PAWN in
  if opp_king =? BB_EMPTY then 0
  else
    let king_sq := bb_lsb opp_king in
    let opp_rank := kb_phase1_forward_rank opp king_sq in
    if opp_rank <? 4 then 0
    else bb_sum (fun sq =>
      let row := SQ_ROW sq in
      let col := SQ_COL sq in
      let rank := kb_phase1_forward_rank side sq in
      if (rank <? 3) || (7 <=? col) then 0
      else if negb (BB_HAS (pcs b side PAWN) (SQ row (col + 1))) then 0
      else
        let pair_dist := chebyshev_distance_sq sq king_sq in
        let right_dist := chebyshev_distance_sq (SQ row (col + 1)) king_sq in
        let pair_dist := if right_dist <? pair_dist then right_dist else pair_dist in
        if pair_dist <=? 2 then 1000 else if pair_dist =? 3 then 320 else 0) pawns.

Definition kb_phase1_forward_file_clearance (b : Board) (side : Color) (sq : Square)
    (max_steps : Z) : Z :=
  let row := SQ_ROW sq in
  let col := SQ_COL sq in
  let step := if side == WHITE then 1 else -1 in
  clear_run b (map (fun i => SQ (row + step * i) col)
    (List.filter (fun i => (0 <=? row + step * i) && (row + step * i <=? 7)) (seqZ 1 max_steps))).

(** ** [eval_kings_battle], Phase 1 *)

(** The d-, e- and f-pawns that have left their squares. *)
Definition kb_corridor_open (b : Board) (c : Color) : Z :=
  fold_left (fun n col =>
    if negb (BB_HAS (pcs b c PAWN) (if c == WHITE then SQ 1 col else SQ 6 col)) then n + 1 else n)
    [3; 4; 5] 0.

(** -1 when there is no enemy king. *)
Definition kb_enemy_king_rank (b : Board) (opp : Color) : Z :=
  if negb (pcs b opp KING =? BB_EMPTY)
  then kb_phase1_forward_rank opp (bb_lsb (pcs b opp KING)) else -1.

Definition bb_min (f : Square -> Z) (init : Z) (bb : Bitboard) : Z :=
  fold_left (fun best sq => if f sq <? best then f sq else best) (bb_squares bb) init.

(** Rank, corridor and distance to the enemy pawns. *)
Definition kb_king_hunt (b : Board) (c : Color) (ksq : Square) : Z :=
  let opp := color_opposite c in
  let kcol := SQ_COL ksq in
  let king_rank := kb_phase1_forward_rank c ksq in
  let enemy_king_rank := kb_enemy_king_rank b opp in
  let corridor_open := kb_corridor_open b c in
  let bonus :=
    if king_rank =? 0 then
      (- (if b_fullmove b <=? 4 then 80 else 120)) - corridor_open * 30
    else
      let bonus := king_rank * 24 + corridor_open * 10 in
      if (2 <=? kcol) && (kcol <=? 5) then bonus + 18 else bonus in
  let dist (ps : Square) := chebyshev_distance_sq ps ksq in
  let ep := pcs b opp PAWN in
  let min_dist := bb_min dist 15 ep in
  let total_prox := bb_sum (fun ps => if dist ps <=? 7 then 7 - dist ps else 0) ep in
  let capturable := bb_sum (fun ps =>
    if (dist ps =? 1) && kb_phase1_king_can_capture_pawn b c ksq ps then 1 else 0) ep in
  let bonus := if min_dist <? 15 then bonus + (7 - min_dist) * 25 else bonus in
  let bonus := bonus + total_prox * 5 in
  let bonus := if (4 <=? min_dist) && (king_rank <=? 1) then bonus - 40 else bonus in
  let bonus :=
    if 0 <=? enemy_king_rank then
      if king_rank + 1 <? enemy_king_rank then bonus - (enemy_king_rank - king_rank - 1) * 24
      else if enemy_king_rank <? king_rank then bonus + (king_rank - enemy_king_rank) * 10
      else bonus
    else bonus in
  let bonus := bonus + capturable * 350 in
  bonus + bb_sum (fun ps => if dist ps =? 2 then 50 else if dist ps =? 3 then 15 else 0) ep.

(** The squares the king of [side] may safely step to. *)
Definition kb_safe_moves (b : Board) (side : Color) (ksq : Square) : Z :=
  bb_sum (fun to => if kb_phase1_king_target_safe b side to then 1 else 0) (king_attacks ksq).

(** Mobility and the lane in front of the king. *)
Definition kb_king_lane (b : Board) (c : Color) (ksq : Square) : Z :=
  let bonus := kb_safe_moves b c ksq * 6 in
  let bonus := if kb_phase1_forward_lane_open b c ksq then bonus + 18 else bonus - 10 in
  let bonus := bonus + kb_phase1_forward_file_clearance b c ksq 2 * 12 in
  bonus - kb_phase1_forward_corridor_blockers b c ksq 2 * 10.

(** Walling the enemy king in. *)
Definition kb_king_seal (b : Board) (c : Color) : Z :=
  let opp := color_opposite c in
  let retreat_seal := kb_phase1_retreat_arc_seal_count b c in
  let bonus := kb_phase1_connected_wall_bonus b c in
  let bonus := if retreat_seal =? 3 then bonus + 220
               else if retreat_seal =? 2 then bonus + 60 else bonus in
  if (retreat_seal =? 3) && (4 <=? kb_enemy_king_rank b opp) && negb (pcs b opp KING =? BB_EMPTY) then
    let enemy_king_sq := bb_lsb (pcs b opp KING) in
    let enemy_safe_moves := kb_safe_moves b opp enemy_king_sq in
    let enemy_capturable := bb_sum (fun ps =>
      if kb_phase1_king_can_capture_pawn b opp enemy_king_sq ps then 1 else 0) (pcs b c PAWN) in
    if enemy_capturable =? 0 then
      let bonus := bonus + 240 in
      if enemy_safe_moves <=? 2 then bonus + (180 - enemy_safe_moves * 40) else bonus
    else bonus
  else bonus.

Definition kb_king (b : Board) (c : Color) : Z :=
  let kbb := pcs b c KING in
  if negb (kbb =? BB_EMPTY) then
    let ksq := bb_lsb kbb in
    kb_king_hunt b c ksq + kb_king_lane b c ksq + kb_king_seal b c
  else 0.

(** The square of the king of [c], or 64. *)
Definition kb_king_square (b : Board) (c : Color) : Z :=
  if negb (pcs b c KING =? BB_EMPTY) then bb_lsb (pcs b c KING) else 64.

(** One enemy pawn as a target. *)
Definition kb_target (b : Board) (c : Color) (ps : Square) : Z :=
  let opp := color_opposite c in
  let oksq := kb_king_square b opp in
  let own_ksq := kb_king_square b c in
  let pcol := SQ_COL ps in
  let enemy_rank := kb_phase1_forward_rank opp ps in
  let def_row := if opp == WHITE then SQ_ROW ps - 1 else SQ_ROW ps + 1 in
  let pawn_defended :=
    (0 <=? def_row) && (def_row <? 8)
    && (((0 <? pcol) && BB_HAS (pcs b opp PAWN) (SQ def_row (pcol - 1)))
        || ((pcol <? 7) && BB_HAS (pcs b opp PAWN) (SQ def_row (pcol + 1)))) in
  let king_defended := (oksq <? 64) && (chebyshev_distance_sq ps oksq <=? 1) in
  if negb pawn_defended && negb king_defended then
    let bonus := 40 in
    if own_ksq <? 64 then
      let d := chebyshev_distance_sq ps own_ksq in
      let bonus := bonus + (7 - d) * 12 in
      if (4 <=? enemy_rank) && (d <=? 2) then bonus + (40 + (enemy_rank - 4) * 20) else bonus
    else bonus
  else if negb pawn_defended then if 5 <=? enemy_rank then 15 + 12 else 15
  else 0.

Definition KB_PASSED : list Z := [0; 10; 22; 40; 70; 110; 165; 0].

(** One own pawn: promotion race, escort, threats and drift. *)
Definition kb_pawn (b : Board) (c : Color) (sq : Square) : Z :=
  let opp := color_opposite c in
  let rank := rel_row c sq in
  let promo_dist := kb_phase1_promotion_distance c sq in
  let clear_lane := kb_phase1_clear_promotion_lane b c sq in
  let enemy_king_dist := if negb (pcs b opp KING =? BB_EMPTY)
                         then chebyshev_distance_sq sq (bb_lsb (pcs b opp KING)) else 8 in
  let bonus :=
    if kb_phase1_passed_pawn b c sq then
      let bonus := KB_PASSED.[rank] + clear_lane * 14 in
      let bonus := if promo_dist <=? clear_lane then bonus + 50 else bonus in
      let bonus := if promo_dist + 1 <? enemy_king_dist
                   then bonus + (40 + (enemy_king_dist - promo_dist) * 12) else bonus in
      if negb (pcs b c KING =? BB_EMPTY) then
        let d := chebyshev_distance_sq (bb_lsb (pcs b c KING)) sq in
        if d <=? 2 then bonus + 30 else if d <=? 3 then bonus + 12 else bonus
      else bonus
    else 0 in
  let bonus :=
    if negb (pcs b opp KING =? BB_EMPTY) then
      let d := chebyshev_distance_sq (bb_lsb (pcs b opp KING)) sq in
      if d <=? 1 then bonus - 40 else if d =? 2 then bonus - 15 else bonus
    else bonus in
  bonus - kb_phase1_wing_drift_penalty b c sq.

Definition kb_phase1_side (b : Board) (ctx : EvalContext) (c : Color) : Z :=
  let bonus := kb_king b c in
  let bonus := bonus + bb_sum (kb_target b c) (pcs b (color_opposite c) PAWN) in
  let bonus := bonus + (ctx_pawn_count ctx)@c * 15 in
  bonus + bb_sum (kb_pawn b c) (pcs b c PAWN).

(** ** Phase 2 *)

Definition kb_phase2_king (b : Board) (c : Color) : Z :=
  let opp := color_opposite c in
  if negb (pcs b c KING =? BB_EMPTY) then
    let ksq := bb_lsb (pcs b c KING) in
    let shield := bb_popcount (Z.land (pcs b c PAWN) (king_attacks ksq)) in
    let bonus := shield * 18 in
    if negb (pcs b opp QUEEN =? BB_EMPTY) then
      let qsq := bb_lsb (pcs b opp QUEEN) in
      let queen_dist := chebyshev_distance_sq ksq qsq in
      let bonus := if queen_dist <=? 4 then bonus - (5 - queen_dist) * 36 else bonus in
      let bonus := if shield =? 0 then bonus - 42 else if shield =? 1 then bonus - 16 else bonus in
      if Z.abs (SQ_COL ksq - SQ_COL qsq) <=? 2 then bonus - 18 else bonus
    else bonus
  else 0.

Definition kb_phase2_side (b : Board) (c : Color) : Z :=
  let bonus := fold_left (fun bonus t => bonus + bb_popcount (pcs b c t) * 18) officers 0 in
  let back := if c == WHITE then 0 else 7 in
  let bonus := fold_left (fun bonus t =>
    bonus + bb_sum (fun sq => if SQ_ROW sq =? back then -2 else 8) (pcs b c t)) officers bonus in
  bonus + kb_phase2_king b c.

Definition eval_kings_battle (b : Board) (ctx : EvalContext) : Z :=
  let kb_phase1 := negb (b_kb_unlocked b) in
  both_sides (fun c => if kb_phase1 then kb_phase1_side b ctx c else kb_phase2_side b c)
  + tempo b 12.

(** ** Symmetry *)

Lemma fold_left_ext {A B} (f g : A -> B -> A) (l : list B) :
  (forall a x, f a x = g a x) -> forall a, fold_left f l a = fold_left g l a.
Proof.
  intros Hfg. induction l as [|x l IH]; intros a; [done|]. cbn [fold_left]. rewrite Hfg. apply IH.
Qed.

Section Sym.
Context (b b' : Board) (H : flipped b b') (ctx ctx' : EvalContext) (Hctx : ctx_flipped ctx ctx').
Context (Hking : forall c, real_color c -> single (pcs b c KING)).
Context (Hqueen : forall c, real_color c -> single (pcs b c QUEEN)).
Local Definition Hi : board_inv b := fl_inv b b' H.
Local Definition Hi' : board_inv b' := fl_inv' b b' H.
Local Hint Resolve Hi Hi' : board.

Lemma empty_flip (sq : Square) :
  on_board sq -> (mb b' (mirror sq) =? PIECE_EMPTY) = (mb b sq =? PIECE_EMPTY).
Proof.
  intros Hs. rewrite (fl_mb b b' H) by done. apply flip_piece_empty. auto using mb_valid, Hi.
Qed.

Lemma occ_has_flip (c : Color) (sq : Square) :
  real_color c -> on_board sq ->
  BB_HAS (occ b' (color_opposite c)) (mirror sq) = BB_HAS (occ b c) sq.
Proof. intros Hc Hs. rewrite (occ_flip b b' H) by done. by apply BB_HAS_flip. Qed.

(** The king of a side, when it has one. *)
Lemma king_square_flip (c : Color) :
  real_color c -> pcs b c KING <> BB_EMPTY ->
  bb_lsb (pcs b' (color_opposite c) KING) = mirror (bb_lsb (pcs b c KING)) /\
  on_board (bb_lsb (pcs b c KING)).
Proof.
  intros Hc Hne. rewrite (pcs_flip b b' H) by done. apply lsb_flip; auto with board.
Qed.

Lemma no_king_flip (c : Color) :
  real_color c -> (pcs b' (color_opposite c) KING =? BB_EMPTY) = (pcs b c KING =? BB_EMPTY).
Proof. intros Hc. by rewrite (pcs_flip b b' H), flip_is_empty by auto with board. Qed.

(** Step direction and the row ahead. *)
Lemma step_flip (c : Color) :
  real_color c ->
  (if color_opposite c == WHITE then 1 else -1) = - (if c == WHITE then 1 else -1) /\
  -1 <= (if c == WHITE then 1 else -1) <= 1.
Proof. intros Hc. destruct c; simpl; lia || real. Qed.

Lemma attacked_by_pawn_flip (c : Color) (sq : Square) :
  real_color c -> on_board sq ->
  kb_phase1_square_attacked_by_pawn_side b' (color_opposite c) (mirror sq) =
  kb_phase1_square_attacked_by_pawn_side b c sq.
Proof.
  intros Hc Hs. unfold kb_phase1_square_attacked_by_pawn_side.
  rewrite mirror_row, mirror_col by done. pose proof (SQ_COL_bound sq) as Hcol.
  set (r := if c == WHITE then SQ_ROW sq - 1 else SQ_ROW sq + 1).
  assert ((if color_opposite c == WHITE then 7 - SQ_ROW sq - 1 else 7 - SQ_ROW sq + 1) = 7 - r) as ->.
  { unfold r. destruct c; simpl; lia || real. }
  replace ((7 - r <? 0) || (7 <? 7 - r)) with ((r <? 0) || (7 <? r)) by lia.
  destruct ((r <? 0) || (7 <? r)) eqn:Er; [done|]. assert (0 <= r < 8) by lia.
  assert (forall (g : bool) col, (g = true -> 0 <= col < 8) ->
    g && BB_HAS (pcs b' (color_opposite c) PAWN) (SQ (7 - r) col) =
    g && BB_HAS (pcs b c PAWN) (SQ r col)) as Hone.
  { intros g col Hg. destruct g; [|done]. cbn [andb]. by apply (has_flip_at b b' H); auto. }
  rewrite !Hone by lia. done.
Qed.

Lemma target_safe_flip (c : Color) (sq : Square) :
  real_color c -> on_board sq ->
  kb_phase1_king_target_safe b' (color_opposite c) (mirror sq) = kb_phase1_king_target_safe b c sq.
Proof.
  intros Hc Hs. unfold kb_phase1_king_target_safe.
  rewrite occ_has_flip, attacked_by_pawn_flip, no_king_flip by auto with board.
  destruct (BB_HAS _ _); [done|]. destruct (kb_phase1_square_attacked_by_pawn_side _ _ _); [done|].
  destruct (Z.eqb_spec (pcs b (color_opposite c) KING) BB_EMPTY) as [E|E]; [done|]. cbn [negb].
  destruct (king_square_flip (color_opposite c)) as [-> Hk]; [auto with board|done|].
  by rewrite chebyshev_flip.
Qed.

Lemma can_capture_flip (c : Color) (k p : Square) :
  real_color c -> on_board k -> on_board p ->
  kb_phase1_king_can_capture_pawn b' (color_opposite c) (mirror k) (mirror p) =
  kb_phase1_king_can_capture_pawn b c k p.
Proof.
  intros Hc Hk Hp. unfold kb_phase1_king_can_capture_pawn.
  by rewrite chebyshev_flip, (has_flip b b' H), target_safe_flip by auto with board.
Qed.

Lemma enemy_pawn_flip (c : Color) (sq : Square) :
  real_color c -> on_board sq ->
  enemy_pawn_at b' (color_opposite c) (mirror sq) = enemy_pawn_at b c sq.
Proof.
  intros Hc Hs. unfold enemy_pawn_at. rewrite empty_flip, (fl_mb b b' H) by done.
  by rewrite flip_piece_color, flip_piece_type by auto using mb_valid, Hi.
Qed.

Lemma any_capture_flip :
  forall c, real_color c ->
  kb_phase1_any_pawn_capture_available b' (color_opposite c) =
  kb_phase1_any_pawn_capture_available b c.
Proof.
  intros c Hc. unfold kb_phase1_any_pawn_capture_available. destruct (step_flip c Hc) as [-> Hd].
  set (d := if c == WHITE then 1 else -1) in *. rewrite (pcs_flip b b' H) by done.
  apply existsb_flip; [auto with board|]. intros sq Hs _. rewrite mirror_row, mirror_col by done.
  pose proof (SQ_COL_bound sq) as Hcol. set (r := SQ_ROW sq + d).
  replace (7 - SQ_ROW sq + - d) with (7 - r) by lia.
  replace ((7 - r <? 0) || (7 <? 7 - r)) with ((r <? 0) || (7 <? r)) by lia.
  destruct ((r <? 0) || (7 <? r)) eqn:Er; [done|]. assert (0 <= r < 8) by lia.
  assert (forall (g : bool) col, (g = true -> 0 <= col < 8) ->
    g && enemy_pawn_at b' (color_opposite c) (SQ (7 - r) col) = g && enemy_pawn_at b c (SQ r col))
    as Hone.
  { intros g col Hg. destruct g; [|done]. cbn [andb]. rewrite <- mirror_SQ by auto.
    apply enemy_pawn_flip; auto using SQ_on_board. }
  rewrite !Hone by lia. done.
Qed.

Lemma corridor_row_flip (c : Color) (r col : Z) :
  real_color c -> 0 <= r < 8 ->
  corridor_row b' (color_opposite c) (7 - r) col = corridor_row b c r col.
Proof.
  intros Hc Hr. unfold corridor_row. apply fold_left_ext. intros a dc. cbv zeta.
  destruct ((col + dc <? 0) || (7 <? col + dc)) eqn:E; [done|].
  rewrite <- mirror_SQ, occ_has_flip by (auto || lia || apply SQ_on_board; lia). done.
Qed.

Lemma blockers_flip (c : Color) (sq : Square) (n : Z) :
  real_color c -> on_board sq ->
  kb_phase1_forward_corridor_blockers b' (color_opposite c) (mirror sq) n =
  kb_phase1_forward_corridor_blockers b c sq n.
Proof.
  intros Hc Hs. unfold kb_phase1_forward_corridor_blockers. destruct (step_flip c Hc) as [-> Hd].
  set (d := if c == WHITE then 1 else -1) in *. rewrite mirror_row, mirror_col by done.
  apply fold_left_ext. intros a i. cbv zeta. set (r := SQ_ROW sq + d * i).
  replace (7 - SQ_ROW sq + - d * i) with (7 - r) by lia.
  replace ((7 - r <? 0) || (7 <? 7 - r)) with ((r <? 0) || (7 <? r)) by lia.
  destruct ((r <? 0) || (7 <? r)) eqn:Er; [done|]. by rewrite corridor_row_flip by (done || lia).
Qed.

Lemma lane_open_flip (c : Color) (sq : Square) :
  real_color c -> on_board sq ->
  kb_phase1_forward_lane_open b' (color_opposite c) (mirror sq) = kb_phase1_forward_lane_open b c sq.
Proof.
  intros Hc Hs. unfold kb_phase1_forward_lane_open. destruct (step_flip c Hc) as [-> Hd].
  set (d := if c == WHITE then 1 else -1) in *. rewrite mirror_row, mirror_col by done.
  set (r := SQ_ROW sq + d). replace (7 - SQ_ROW sq + - d) with (7 - r) by lia.
  replace ((7 - r <? 0) || (7 <? 7 - r)) with ((r <? 0) || (7 <? r)) by lia.
  destruct ((r <? 0) || (7 <? r)) eqn:Er; [done|]. pose proof (SQ_COL_bound sq).
  rewrite <- mirror_SQ, occ_has_flip by (auto || lia || apply SQ_on_board; lia). done.
Qed.

Lemma clear_run_flip (l : list Square) :
  Forall on_board l -> clear_run b' (map mirror l) = clear_run b l.
Proof.
  induction 1 as [|s l Hs _ IH]; [done|]. cbn [map clear_run]. by rewrite empty_flip, IH.
Qed.

Lemma row_squares_on_board (f : Z -> Z) (col : Z) (l : list Z) :
  0 <= col < 8 -> (forall i, In i l -> 0 <= f i < 8) -> Forall on_board (map (fun i => SQ (f i) col) l).
Proof.
  intros Hcol Hf. apply List.Forall_forall. intros s (i & <- & Hi)%in_map_iff.
  apply SQ_on_board; auto.
Qed.

(** A run along a file, seen from the other side. *)
Lemma file_run_flip (f g : Z -> Z) (col : Z) (l : list Z) :
  0 <= col < 8 -> (forall i, In i l -> 0 <= f i < 8 /\ g i = 7 - f i) ->
  clear_run b' (map (fun i => SQ (g i) col) l) = clear_run b (map (fun i => SQ (f i) col) l).
Proof.
  intros Hcol Hf. rewrite <- clear_run_flip by (apply row_squares_on_board; [done|]; intros i Hi0; by apply Hf).
  rewrite map_map. f_equal. apply map_ext_in. intros i Hin. destruct (Hf i Hin) as [Hr ->].
  by rewrite mirror_SQ.
Qed.

Lemma file_clearance_flip (c : Color) (sq : Square) (n : Z) :
  real_color c -> on_board sq ->
  kb_phase1_forward_file_clearance b' (color_opposite c) (mirror sq) n =
  kb_phase1_forward_file_clearance b c sq n.
Proof.
  intros Hc Hs. unfold kb_phase1_forward_file_clearance. destruct (step_flip c Hc) as [-> Hd].
  set (d := if c == WHITE then 1 else -1) in *. rewrite mirror_row, mirror_col by done.
  rewrite (filter_ext _ (fun i => (0 <=? SQ_ROW sq + d * i) && (SQ_ROW sq + d * i <=? 7))) by (intros i; lia).
  apply file_run_flip; [apply SQ_COL_bound|]. intros i [_ Hi0]%filter_In. lia.
Qed.

Lemma clear_lane_flip (c : Color) (sq : Square) :
  real_color c -> on_board sq ->
  kb_phase1_clear_promotion_lane b' (color_opposite c) (mirror sq) =
  kb_phase1_clear_promotion_lane b c sq.
Proof.
  intros Hc Hs. unfold kb_phase1_clear_promotion_lane. rewrite mirror_row, mirror_col by done.
  pose proof (SQ_COL_bound sq) as Hcol. pose proof (SQ_ROW_bound sq Hs) as Hrow.
  set (r := SQ_ROW sq) in *. set (k := SQ_COL sq) in *.
  assert (forall x n, map (fun i => SQ i k) (seqZ x n) = map (fun i => SQ (x + i) k) (seqZ 0 n)) as Hshift.
  { intros x n. replace (seqZ x n) with (map (Z.add x) (seqZ 0 n)).
    - by rewrite map_map.
    - replace x with (x + 0) at 2 by lia. apply fmap_add_seqZ. }
  destruct c; [| |real]; simpl; rewrite Hshift.
  - replace (8 - (r + 1)) with (7 - r) by lia. apply file_run_flip; [done|].
    intros i Hin. rewrite <- list_elem_of_In, elem_of_seqZ in Hin. lia.
  - replace (8 - (7 - r + 1)) with r by lia. apply file_run_flip; [done|].
    intros i Hin. rewrite <- list_elem_of_In, elem_of_seqZ in Hin. lia.
Qed.

Lemma forward_rank_flip (c : Color) (sq : Square) :
  real_color c -> on_board sq ->
  kb_phase1_forward_rank (color_opposite c) (mirror sq) = kb_phase1_forward_rank c sq.
Proof.
  intros Hc Hs. unfold kb_phase1_forward_rank. rewrite mirror_row by done.
  destruct c; simpl; lia || real.
Qed.

(** The three squares of a row around a file. *)
Lemma three_flip (F F' : Z -> Z -> bool) (r col : Z) :
  0 <= r < 8 ->
  (forall nc, 0 <= nc < 8 -> F' (7 - r) nc = F r nc) ->
  fold_left (fun n dc => let nc := col + dc in
    if (nc <? 0) || (7 <? nc) then n else if F' (7 - r) nc then n + 1 else n) [-1; 0; 1] 0 =
  fold_left (fun n dc => let nc := col + dc in
    if (nc <? 0) || (7 <? nc) then n else if F r nc then n + 1 else n) [-1; 0; 1] 0.
Proof.
  intros Hr HF. apply fold_left_ext. intros a dc. cbv zeta.
  destruct ((col + dc <? 0) || (7 <? col + dc)) eqn:E; [done|]. by rewrite HF by lia.
Qed.

Lemma retreat_seal_flip :
  same_for (kb_phase1_retreat_arc_seal_count b) (kb_phase1_retreat_arc_seal_count b').
Proof.
  intros c Hc. assert (real_color (color_opposite c)) as Ho by auto with board.
  unfold kb_phase1_retreat_arc_seal_count. rewrite (no_king_flip (color_opposite c)) by done.
  destruct (Z.eqb_spec (pcs b (color_opposite c) KING) BB_EMPTY) as [E|E]; [done|].
  destruct (king_square_flip (color_opposite c)) as [-> Hk]; [done..|].
  set (k := bb_lsb (pcs b (color_opposite c) KING)) in *.
  rewrite forward_rank_flip, mirror_row, mirror_col by done.
  set (r := SQ_ROW k + (if color_opposite c == WHITE then -1 else 1)).
  replace (7 - SQ_ROW k + (if color_opposite (color_opposite c) == WHITE then -1 else 1)) with (7 - r)
    by (unfold r; destruct c; simpl; lia || real).
  replace ((7 - r <? 0) || (7 <? 7 - r)) with ((r <? 0) || (7 <? r)) by lia.
  destruct (kb_phase1_forward_rank (color_opposite c) k <? 3); [done|].
  destruct ((r <? 0) || (7 <? r)) eqn:Er; [done|]. assert (0 <= r < 8) as Hr by lia.
  apply (three_flip
    (fun r nc => negb (mb b (SQ r nc) =? PIECE_EMPTY) || kb_phase1_square_attacked_by_pawn_side b c (SQ r nc))
    (fun r nc => negb (mb b' (SQ r nc) =? PIECE_EMPTY)
                 || kb_phase1_square_attacked_by_pawn_side b' (color_opposite c) (SQ r nc))); [done|].
  intros nc Hnc. rewrite <- mirror_SQ by done. pose proof (SQ_on_board r nc Hr Hnc).
  by rewrite empty_flip, attacked_by_pawn_flip.
Qed.

Lemma king_near_flip (c : Color) (sq : Square) :
  real_color c -> on_board sq -> king_near b' (color_opposite c) (mirror sq) = king_near b c sq.
Proof.
  intros Hc Hs. unfold king_near. rewrite no_king_flip by done.
  destruct (Z.eqb_spec (pcs b c KING) BB_EMPTY) as [E|E]; [done|].
  destruct (king_square_flip c) as [-> Hk]; [done..|]. by rewrite chebyshev_flip.
Qed.

Lemma kb_passed_flip (c : Color) (sq : Square) :
  real_color c -> on_board sq ->
  kb_phase1_passed_pawn b' (color_opposite c) (mirror sq) = kb_phase1_passed_pawn b c sq.
Proof. exact (passed_flip b b' H c sq). Qed.

Lemma wing_drift_flip (c : Color) (sq : Square) :
  real_color c -> on_board sq ->
  kb_phase1_wing_drift_penalty b' (color_opposite c) (mirror sq) = kb_phase1_wing_drift_penalty b c sq.
Proof.
  intros Hc Hs. unfold kb_phase1_wing_drift_penalty.
  by rewrite mirror_col, forward_rank_flip, kb_passed_flip, !king_near_flip, any_capture_flip
    by auto with board.
Qed.

Lemma wall_flip : same_for (kb_phase1_connected_wall_bonus b) (kb_phase1_connected_wall_bonus b').
Proof.
  intros c Hc. assert (real_color (color_opposite c)) as Ho by auto with board.
  unfold kb_phase1_connected_wall_bonus. rewrite (no_king_flip (color_opposite c)) by done.
  destruct (Z.eqb_spec (pcs b (color_opposite c) KING) BB_EMPTY) as [E|E]; [done|].
  destruct (king_square_flip (color_opposite c)) as [-> Hk]; [done..|].
  rewrite forward_rank_flip by done. destruct (_ <? 4); [done|].
  rewrite (pcs_flip b b' H) by done. apply bb_sum_flip; [auto with board|]. intros sq Hs _.
  rewrite <- (pcs_flip b b' H) by done.
  rewrite forward_rank_flip, mirror_row, mirror_col by done.
  destruct ((kb_phase1_forward_rank c sq <? 3) || (7 <=? SQ_COL sq)) eqn:Ec; [done|].
  pose proof (SQ_COL_bound sq). pose proof (SQ_ROW_bound sq Hs) as Hr.
  assert (0 <= SQ_COL sq + 1 < 8) as Hcol by lia.
  rewrite <- mirror_SQ by done. pose proof (SQ_on_board _ _ Hr Hcol).
  by rewrite (has_flip b b' H), !chebyshev_flip.
Qed.

Lemma bb_min_flip (f g : Square -> Z) (init : Z) (x : Bitboard) :
  0 <= x < 2 ^ 64 ->
  (forall sq, on_board sq -> f (mirror sq) = g sq) -> bb_min f init (flip_bb x) = bb_min g init x.
Proof.
  intros Hx Hf. unfold bb_min. apply bb_fold_flip; [done| |].
  - intros a s t. zb.
  - intros a sq Hs _. by rewrite Hf.
Qed.

Lemma corridor_open_flip : same_for (kb_corridor_open b) (kb_corridor_open b').
Proof.
  intros c Hc. unfold kb_corridor_open.
  assert (forall col, 0 <= col < 8 ->
    BB_HAS (pcs b' (color_opposite c) PAWN) (if color_opposite c == WHITE then SQ 1 col else SQ 6 col) =
    BB_HAS (pcs b c PAWN) (if c == WHITE then SQ 1 col else SQ 6 col)) as Hone.
  { intros col Hcol. destruct c; [| |real]; simpl color_opposite; cbn beta.
    - exact (has_flip_at b b' H WHITE PAWN 1 col ltac:(done) ltac:(done) ltac:(lia) Hcol).
    - exact (has_flip_at b b' H BLACK PAWN 6 col ltac:(done) ltac:(done) ltac:(lia) Hcol). }
  cbn [fold_left]. by rewrite !Hone by lia.
Qed.

Lemma enemy_rank_flip : same_for (kb_enemy_king_rank b) (kb_enemy_king_rank b').
Proof.
  intros c Hc. unfold kb_enemy_king_rank. rewrite no_king_flip by done.
  destruct (Z.eqb_spec (pcs b c KING) BB_EMPTY) as [E|E]; [done|].
  destruct (king_square_flip c) as [-> Hk]; [done..|]. cbn [negb]. by apply forward_rank_flip.
Qed.

(** Sums and minima over one side's pawns. *)
Lemma pawns_sum_flip (c : Color) (f g : Square -> Z) :
  real_color c -> (forall sq, on_board sq -> f (mirror sq) = g sq) ->
  bb_sum f (pcs b' (color_opposite c) PAWN) = bb_sum g (pcs b c PAWN).
Proof.
  intros Hc Hf. rewrite (pcs_flip b b' H) by done. apply bb_sum_flip; [auto with board|].
  intros sq Hs _. auto.
Qed.

Lemma pawns_min_flip (c : Color) (f g : Square -> Z) (init : Z) :
  real_color c -> (forall sq, on_board sq -> f (mirror sq) = g sq) ->
  bb_min f init (pcs b' (color_opposite c) PAWN) = bb_min g init (pcs b c PAWN).
Proof. intros Hc Hf. rewrite (pcs_flip b b' H) by done. apply bb_min_flip; auto with board. Qed.

Lemma king_hunt_flip (c : Color) (k : Square) :
  real_color c -> on_board k -> kb_king_hunt b' (color_opposite c) (mirror k) = kb_king_hunt b c k.
Proof.
  intros Hc Hk. assert (real_color (color_opposite c)) as Ho by auto with board.
  unfold kb_king_hunt. cbv zeta.
  rewrite mirror_col, forward_rank_flip, (enemy_rank_flip (color_opposite c)), corridor_open_flip,
    (fl_fullmove b b' H) by done.
  rewrite (pawns_min_flip (color_opposite c) _ (fun ps => chebyshev_distance_sq ps k)) by
    (intros; by rewrite ?chebyshev_flip || done).
  rewrite (pawns_sum_flip (color_opposite c) _ (fun ps =>
    if chebyshev_distance_sq ps k <=? 7 then 7 - chebyshev_distance_sq ps k else 0)) by
    (intros; by rewrite ?chebyshev_flip || done).
  rewrite (pawns_sum_flip (color_opposite c) _ (fun ps =>
    if (chebyshev_distance_sq ps k =? 1) && kb_phase1_king_can_capture_pawn b c k ps then 1 else 0)) by
    (intros; by rewrite ?chebyshev_flip, ?can_capture_flip || done).
  rewrite (pawns_sum_flip (color_opposite c) _ (fun ps =>
    if chebyshev_distance_sq ps k =? 2 then 50 else if chebyshev_distance_sq ps k =? 3 then 15 else 0)) by
    (intros; by rewrite ?chebyshev_flip || done).
  done.
Qed.

Lemma safe_moves_flip (c : Color) (k : Square) :
  real_color c -> on_board k -> kb_safe_moves b' (color_opposite c) (mirror k) = kb_safe_moves b c k.
Proof.
  intros Hc Hk. unfold kb_safe_moves. rewrite king_attacks_flip by done.
  apply bb_sum_flip; [auto with board|]. intros sq Hs _. by rewrite target_safe_flip.
Qed.

Lemma king_lane_flip (c : Color) (k : Square) :
  real_color c -> on_board k -> kb_king_lane b' (color_opposite c) (mirror k) = kb_king_lane b c k.
Proof.
  intros Hc Hk. unfold kb_king_lane.
  by rewrite safe_moves_flip, lane_open_flip, file_clearance_flip, blockers_flip.
Qed.

Lemma king_seal_flip : same_for (kb_king_seal b) (kb_king_seal b').
Proof.
  intros c Hc. assert (real_color (color_opposite c)) as Ho by auto with board.
  unfold kb_king_seal. rewrite retreat_seal_flip, wall_flip, (enemy_rank_flip (color_opposite c)),
    (no_king_flip (color_opposite c)) by done.
  destruct (Z.eqb_spec (pcs b (color_opposite c) KING) BB_EMPTY) as [E|E];
    [by rewrite !andb_false_r|].
  destruct (king_square_flip (color_opposite c)) as [-> Hk]; [done..|].
  rewrite safe_moves_flip by done.
  rewrite (pawns_sum_flip c _ (fun ps => if kb_phase1_king_can_capture_pawn b (color_opposite c)
    (bb_lsb (pcs b (color_opposite c) KING)) ps then 1 else 0)) by
    (intros; by rewrite ?can_capture_flip || done).
  done.
Qed.

Lemma kb_king_flip : same_for (kb_king b) (kb_king b').
Proof.
  intros c Hc. unfold kb_king. rewrite no_king_flip by done.
  destruct (Z.eqb_spec (pcs b c KING) BB_EMPTY) as [E|E]; [done|]. cbn [negb].
  destruct (king_square_flip c) as [-> Hk]; [done..|].
  by rewrite king_hunt_flip, king_lane_flip, king_seal_flip.
Qed.

Lemma kb_king_square_flip (c : Color) :
  real_color c ->
  (kb_king_square b' (color_opposite c) <? 64) = (kb_king_square b c <? 64) /\
  (kb_king_square b c < 64 -> on_board (kb_king_square b c) /\
     kb_king_square b' (color_opposite c) = mirror (kb_king_square b c)).
Proof.
  intros Hc. unfold kb_king_square. rewrite no_king_flip by done.
  destruct (Z.eqb_spec (pcs b c KING) BB_EMPTY) as [E|E]; cbn [negb]; [split; [done|lia]|].
  destruct (king_square_flip c) as [-> Hk]; [done..|].
  pose proof (mirror_on_board _ Hk) as Hm. unfold on_board in *. split; [lia|done].
Qed.

Lemma kb_target_flip (c : Color) (ps : Square) :
  real_color c -> on_board ps -> kb_target b' (color_opposite c) (mirror ps) = kb_target b c ps.
Proof.
  intros Hc Hs. assert (real_color (color_opposite c)) as Ho by auto with board.
  unfold kb_target. cbv zeta. rewrite mirror_row, mirror_col, forward_rank_flip by done.
  pose proof (SQ_COL_bound ps) as Hcol.
  set (r := if color_opposite c == WHITE then SQ_ROW ps - 1 else SQ_ROW ps + 1).
  replace (if color_opposite (color_opposite c) == WHITE then 7 - SQ_ROW ps - 1 else 7 - SQ_ROW ps + 1)
    with (7 - r) by (unfold r; destruct c; simpl; lia || real).
  assert (forall (g : bool) col, 0 <= r < 8 -> (g = true -> 0 <= col < 8) ->
    g && BB_HAS (pcs b' (color_opposite (color_opposite c)) PAWN) (SQ (7 - r) col) =
    g && BB_HAS (pcs b (color_opposite c) PAWN) (SQ r col)) as Hone.
  { intros g col Hr Hg. destruct g; [|done]. cbn [andb]. by apply (has_flip_at b b' H); auto. }
  replace ((0 <=? 7 - r) && (7 - r <? 8)) with ((0 <=? r) && (r <? 8)) by lia.
  assert (forall x y x' y', (0 <= r < 8 -> x' = x /\ y' = y) ->
    (0 <=? r) && (r <? 8) && (x' || y') = (0 <=? r) && (r <? 8) && (x || y)) as Hguard.
  { intros x y x' y' Hxy. destruct ((0 <=? r) && (r <? 8)) eqn:Er; [|done].
    destruct Hxy as [-> ->]; [lia|done]. }
  rewrite (Hguard ((0 <? SQ_COL ps) && BB_HAS (pcs b (color_opposite c) PAWN) (SQ r (SQ_COL ps - 1)))
    ((SQ_COL ps <? 7) && BB_HAS (pcs b (color_opposite c) PAWN) (SQ r (SQ_COL ps + 1)))) by
    (intros Hr; split; apply Hone; lia).
  destruct (kb_king_square_flip c Hc) as [-> Hown].
  destruct (kb_king_square_flip (color_opposite c) Ho) as [-> Hopp].
  assert ((kb_king_square b (color_opposite c) <? 64) &&
          (chebyshev_distance_sq (mirror ps) (kb_king_square b' (color_opposite (color_opposite c))) <=? 1) =
          (kb_king_square b (color_opposite c) <? 64) &&
          (chebyshev_distance_sq ps (kb_king_square b (color_opposite c)) <=? 1)) as ->.
  { destruct (Z.ltb_spec (kb_king_square b (color_opposite c)) 64) as [Ek|Ek]; [|done].
    destruct (Hopp Ek) as [Hk ->]. by rewrite chebyshev_flip. }
  destruct (Z.ltb_spec (kb_king_square b c) 64) as [Ek|Ek]; [|done].
  destruct (Hown Ek) as [Hk ->]. by rewrite chebyshev_flip.
Qed.

Lemma kb_pawn_flip (c : Color) (sq : Square) :
  real_color c -> on_board sq -> kb_pawn b' (color_opposite c) (mirror sq) = kb_pawn b c sq.
Proof.
  intros Hc Hs. assert (real_color (color_opposite c)) as Ho by auto with board.
  unfold kb_pawn, kb_phase1_promotion_distance.
  rewrite rel_row_flip, forward_rank_flip, clear_lane_flip, kb_passed_flip, wing_drift_flip,
    (no_king_flip c), (no_king_flip (color_opposite c)) by done.
  destruct (Z.eqb_spec (pcs b (color_opposite c) KING) BB_EMPTY) as [Eo|Eo]; cbn [negb];
    [|destruct (king_square_flip (color_opposite c)) as [-> Hko]; [done..|]; rewrite !chebyshev_flip by done];
    (destruct (Z.eqb_spec (pcs b c KING) BB_EMPTY) as [E|E]; cbn [negb]; [done|]);
    (destruct (king_square_flip c) as [-> Hk]; [done..|]); by rewrite !chebyshev_flip.
Qed.

Lemma phase1_flip : same_for (kb_phase1_side b ctx) (kb_phase1_side b' ctx').
Proof.
  intros c Hc. assert (real_color (color_opposite c)) as Ho by auto with board.
  unfold kb_phase1_side. rewrite kb_king_flip, (cf_pawns _ _ Hctx c) by done.
  rewrite (pawns_sum_flip (color_opposite c) _ (kb_target b c)) by (intros; by rewrite ?kb_target_flip || done).
  by rewrite (pawns_sum_flip c _ (kb_pawn b c)) by (intros; by rewrite ?kb_pawn_flip || done).
Qed.

Lemma phase2_king_flip : same_for (kb_phase2_king b) (kb_phase2_king b').
Proof.
  intros c Hc. assert (real_color (color_opposite c)) as Ho by auto with board.
  unfold kb_phase2_king. rewrite no_king_flip by done.
  destruct (Z.eqb_spec (pcs b c KING) BB_EMPTY) as [E|E]; [done|]. cbn [negb].
  destruct (king_square_flip c) as [-> Hk]; [done..|].
  rewrite king_attacks_flip, (pcs_flip b b' H c PAWN), <- flip_land, popcount_flip by auto with board.
  rewrite (pcs_flip b b' H (color_opposite c) QUEEN), flip_is_empty by auto with board.
  destruct (Z.eqb_spec (pcs b (color_opposite c) QUEEN) BB_EMPTY) as [Eq|Eq]; cbn [negb]; [reflexivity|].
  destruct (lsb_flip (pcs b (color_opposite c) QUEEN)) as [-> Hq]; [auto with board|auto|done|].
  by rewrite chebyshev_flip, !mirror_col.
Qed.

Lemma phase2_flip : same_for (kb_phase2_side b) (kb_phase2_side b').
Proof.
  intros c Hc. unfold kb_phase2_side. rewrite phase2_king_flip by done.
  assert (forall t, real_type t ->
    bb_sum (fun sq => if SQ_ROW sq =? (if color_opposite c == WHITE then 0 else 7) then -2 else 8)
      (pcs b' (color_opposite c) t) =
    bb_sum (fun sq => if SQ_ROW sq =? (if c == WHITE then 0 else 7) then -2 else 8) (pcs b c t)) as Hback.
  { intros t Ht. rewrite (pcs_flip b b' H) by done. apply bb_sum_flip; [auto with board|].
    intros sq Hs _. rewrite mirror_row by done.
    assert ((7 - SQ_ROW sq =? (if color_opposite c == WHITE then 0 else 7)) =
            (SQ_ROW sq =? (if c == WHITE then 0 else 7))) as ->; [|done].
    destruct c; simpl; lia || real. }
  cbn [fold_left officers]. rewrite !Hback, !(pcs_flip b b' H), !popcount_flip by auto with board. done.
Qed.

Lemma kings_battle_flip : eval_kings_battle b' ctx' = - eval_kings_battle b ctx.
Proof.
  unfold eval_kings_battle. rewrite (fl_kb b b' H), (tempo_flip b b' H).
  rewrite (both_sides_flip (fun c => if negb (b_kb_unlocked b) then kb_phase1_side b ctx c else kb_phase2_side b c)).
  - lia.
  - intros c Hc. destruct (negb _); [by apply phase1_flip|by apply phase2_flip].
Qed.
End Sym.
