(* ===== verification/Evaluate.v ===== *)
(** * The evaluation dispatcher ([evaluate.c])

    [evaluate], the position with the colours exchanged, and the two facts the
    claims are made of: the score of six variants does not depend on which side
    is called White, and the Succession score depends on it only through the
    rows the queens stand on. *)

From stdpp Require Import base numbers list option.
From Stdlib Require Import ZArith Lia Bool.
From S2P Require Import Prelude Types Board Attacks Movegen EvalTables EvalCommon Flip EvalSym EvalFriendlyFire EvalSaveQueen EvalMercenary EvalSuccession EvalHeir EvalTruce EvalKingsBattle.

(** ** [evaluate] *)

Definition eval_mod (b : Board) (ctx : EvalContext) : Z :=
  match b_mod b with
  | MOD_MERCENARY => eval_mercenary b ctx
  | MOD_HEIR => eval_heir b ctx
  | MOD_FRIENDLY_FIRE => eval_friendly_fire b ctx
  | MOD_TRUCE => if b_truce_active b then eval_truce b ctx else 0
  | MOD_KINGS_BATTLE => eval_kings_battle b ctx
  | MOD_SAVE_QUEEN => eval_save_queen b ctx
  | MOD_SUCCESSION => eval_succession b ctx
  | _ => 0
  end.

Definition evaluate (b : Board) : Z :=
  let ctx := eval_common_init b in
  let score := ctx_score ctx in
  let score := score + eval_mod b ctx in
  let score := score + eval_common_finish b ctx in
  if b_side b == WHITE then score else - score.

(** ** The colours exchanged *)

Definition flip_board (b : Board) : Board :=
  with_mailbox (map (fun sq => flip_piece (mb b (mirror sq))) (seqZ 0 64))
    (mkBoard [] [] 0 [] (color_opposite (b_side b))
       (Z.lor (Z.shiftl (Z.land (b_castling b) 3) 2) (Z.shiftr (b_castling b) 2))
       (if b_ep_square b =? SQ_NONE then SQ_NONE else mirror (b_ep_square b))
       (b_halfmove b) (b_fullmove b) (b_mod b)
       [heir b BLACK; heir b WHITE]
       (b_truce_active b) (flip_bb (b_truce_frozen b)) (flip_bb (b_ff_moved b))
       (b_kb_unlocked b) (b_kb_idle_kings b) (b_hash b) (b_history b) (b_ply b)).

Lemma flip_piece_valid (p : Piece) : valid_piece p -> valid_piece (flip_piece p).
Proof.
  intros [->|(c & t & Hc & Ht & ->)]; [by left|]. right.
  exists (color_opposite c), t. split_and!; [by apply opposite_real|done|].
  destruct c, t; done || real.
Qed.

Lemma squares_map_at {A} `{Inhabited A} (f : Square -> A) (sq : Square) :
  on_board sq -> (map f (seqZ 0 64)).[sq] = f sq.
Proof.
  intros Hs. unfold on_board, znth in *. destruct (Z.ltb_spec sq 0); [lia|].
  apply list_lookup_total_correct. apply list_lookup_fmap_Some. exists sq. split; [done|].
  rewrite lookup_seqZ_lt by lia. f_equal. lia.
Qed.

Lemma flip_board_mb (b : Board) (sq : Square) :
  on_board sq -> mb (flip_board b) (mirror sq) = flip_piece (mb b sq).
Proof.
  intros Hs. unfold flip_board. rewrite mb_with_mailbox, squares_map_at by auto with board.
  by rewrite mirror_involutive.
Qed.

Lemma flip_board_inv (b : Board) : board_inv b -> board_inv (flip_board b).
Proof.
  intros Hi. apply with_mailbox_inv. split; [by rewrite length_map|].
  apply List.Forall_forall. intros p (sq & <- & Hin)%in_map_iff. apply flip_piece_valid, mb_valid; [done|].
  rewrite <- list_elem_of_In, elem_of_seqZ in Hin. apply mirror_on_board. unfold on_board. lia.
Qed.

Lemma flip_board_flipped (b : Board) :
  board_inv b -> real_color (b_side b) -> flipped b (flip_board b).
Proof.
  intros Hi Hs. constructor; try reflexivity; auto using flip_board_inv, flip_board_mb.
  - intros c Hc. destruct c; [reflexivity..|real].
  - intros sq Hq. change (b_ff_moved (flip_board b)) with (flip_bb (b_ff_moved b)).
    rewrite flip_testbit by auto with board. by rewrite mirror_involutive.
Qed.

(** At most one king a side, and at most one queen in the variants whose terms
    look at the square of one queen only. *)
Definition lone_kings (b : Board) : Prop := forall c, real_color c -> single (pcs b c KING).

Definition one_queen_term (b : Board) : bool :=
  match b_mod b with
  | MOD_MERCENARY | MOD_HEIR | MOD_KINGS_BATTLE | MOD_SAVE_QUEEN => true
  | _ => false
  end.

Definition lone_queens (b : Board) : Prop :=
  one_queen_term b = true -> forall c, real_color c -> single (pcs b c QUEEN).

(** The variants whose terms treat both sides alike. *)
Definition color_blind (b : Board) : Prop :=
  b_mod b <> MOD_SUCCESSION /\ (b_mod b = MOD_TRUCE -> b_truce_active b = false).

Section Symmetry.
Context (b b' : Board) (H : flipped b b') (Hking : lone_kings b).
Local Definition Hi : board_inv b := fl_inv b b' H.
Local Hint Resolve Hi : board.
Local Abbreviation ctx := (eval_common_init b).
Local Abbreviation ctx' := (eval_common_init b').

Lemma context_king (c : Color) :
  real_color c -> has_king b c = true -> on_board ((ctx_king_sq ctx)@c).
Proof.
  intros Hc Hk. assert (real_color c) by done. unfold has_king in Hk.
  assert ((ctx_king_sq ctx)@c = a_king_sq (acc_side b (by_color (pawn_atk_of b)) c)) as ->.
  { destruct c; [reflexivity..|real]. }
  rewrite acc_king_sq by auto using Hking with board.
  destruct (Z.eqb_spec (pcs b c KING) BB_EMPTY) as [E|E]; [done|].
  apply lsb_flip; auto using Hking with board.
Qed.

Lemma eval_mod_flip : color_blind b -> lone_queens b -> eval_mod b' ctx' = - eval_mod b ctx.
Proof.
  intros [Hs Ht] Hqueen. pose proof (init_flip b b' H) as Hc. unfold lone_queens, one_queen_term in Hqueen.
  pose proof (fun q => init_squares b b' H Hking q) as Hq.
  unfold eval_mod. rewrite (fl_mod b b' H), (fl_truce b b' H). destruct (b_mod b) eqn:Em; try reflexivity.
  - exact (mercenary_flip b b' H ctx ctx' Hc (Hq (Hqueen eq_refl)) Hking).
  - exact (heir_flip b b' H ctx ctx' Hc (Hq (Hqueen eq_refl)) context_king).
  - rewrite Ht by done. reflexivity.
  - exact (friendly_fire_flip b b' H ctx ctx' Hc Hking).
  - exact (kings_battle_flip b b' H ctx ctx' Hc Hking (Hqueen eq_refl)).
  - exact (save_queen_flip b b' H Hking (Hqueen eq_refl) ctx ctx').
  - congruence.
Qed.

(** The score from the side to move, given the variant term from the other side. *)
Lemma evaluate_flip_by (d : Z) :
  eval_mod b' ctx' = - (eval_mod b ctx + d) ->
  evaluate b' = evaluate b + (if b_side b == WHITE then d else - d).
Proof.
  intros E. pose proof (init_flip b b' H) as Hc. unfold evaluate. cbv zeta.
  rewrite E, (cf_score _ _ Hc), (finish_flip b b' H ctx ctx' Hc Hking), (fl_side b b' H).
  pose proof (fl_side_real b b' H) as Hr. destruct (b_side b); simpl; lia || real.
Qed.

Lemma evaluate_flip : color_blind b -> lone_queens b -> evaluate b' = evaluate b.
Proof.
  intros Hb Hq. rewrite (evaluate_flip_by 0).
  - destruct (_ == _); lia.
  - rewrite eval_mod_flip by done. lia.
Qed.

Lemma succession_evaluate_flip :
  b_mod b = MOD_SUCCESSION ->
  evaluate b' = evaluate b +
    (if b_side b == WHITE then queen_skew b WHITE - queen_skew b BLACK
     else - (queen_skew b WHITE - queen_skew b BLACK)).
Proof.
  intros Em. apply evaluate_flip_by. unfold eval_mod. rewrite (fl_mod b b' H), Em.
  exact (succession_flip b b' H Hking ctx ctx').
Qed.

(** A running truce: every early raid of a bishop is scored for Black only. *)
Definition raids (b : Board) : Z :=
  (if bishop_raid b WHITE then 1 else 0) + (if bishop_raid b BLACK then 1 else 0).

Lemma truce_evaluate_flip :
  b_mod b = MOD_TRUCE -> b_truce_active b = true ->
  (forall c, real_color c -> bb_popcount (pcs b c ROOK) <= 2) ->
  evaluate b' = evaluate b + (if b_side b == WHITE then - 90 * raids b else 90 * raids b).
Proof.
  intros Em Ht Hr. rewrite (evaluate_flip_by (- 90 * raids b)); [destruct (b_side b == WHITE); lia|].
  unfold eval_mod. rewrite (fl_mod b b' H), (fl_truce b b' H), Em, Ht.
  rewrite (truce_flip b b' H ctx ctx' (init_flip b b' H) Hking Hr). unfold raid_skew, raids.
  change (WHITE == BLACK) with false. change (BLACK == BLACK) with true. cbv iota.
  destruct (bishop_raid b WHITE), (bishop_raid b BLACK); lia.
Qed.
End Symmetry.
