(* ===== verification/EvalTheorems.v ===== *)
(** * What the evaluation promises

    The claims about [evaluate] and its building blocks, each with an instance
    at a concrete position. *)

From Stdlib Require Import String.
From stdpp Require Import base numbers list option.
From Stdlib Require Import ZArith Lia Bool List.
From S2P Require Import Prelude Types Board Attacks Movegen Game Fen Decide EvalTables EvalCommon Flip EvalSym EvalFriendlyFire EvalSaveQueen EvalMercenary EvalSuccession EvalHeir EvalTruce EvalKingsBattle Evaluate.
Import ListNotations.
Open Scope Z_scope.

(** ** Decision of the hypotheses *)

Definition single_check (x : Bitboard) : bool :=
  match bb_squares x with [] | [_] => true | _ => false end.

Lemma single_check_ok (x : Bitboard) : 0 <= x < 2 ^ 64 -> single_check x = true -> single x.
Proof.
  intros Hx Hc i j Hi Hj Ei Ej. unfold single_check in Hc.
  pose proof (proj2 (elem_of_bb_squares x i Hx) (conj Hi Ei)) as Ini.
  pose proof (proj2 (elem_of_bb_squares x j Hx) (conj Hj Ej)) as Inj.
  destruct (bb_squares x) as [|s [|? ?]]; [done| |done].
  destruct Ini as [<-|[]], Inj as [<-|[]]. done.
Qed.

Definition royals_check (b : Board) (t : PieceType) : bool :=
  forallb (fun c => single_check (pcs b c t)) colors.

Lemma royals_check_ok (b : Board) (t : PieceType) :
  board_inv b -> real_type t -> royals_check b t = true ->
  forall c, real_color c -> single (pcs b c t).
Proof.
  intros Hi Ht Hc c Hr. apply single_check_ok; [auto with board|].
  unfold royals_check in Hc. rewrite forallb_forall in Hc. apply Hc.
  destruct c; [by left|by right; left|real].
Qed.

Definition blind_check (b : Board) : bool :=
  match b_mod b with
  | MOD_SUCCESSION => false
  | MOD_TRUCE => negb (b_truce_active b)
  | _ => true
  end.

Lemma blind_check_ok (b : Board) : blind_check b = true -> color_blind b.
Proof.
  unfold blind_check, color_blind. destruct (b_mod b); intros H; (split; [discriminate|intros E]);
    try discriminate. by apply negb_true_iff.
Qed.

Definition side_check (b : Board) : bool := negb (b_side b == COLOR_NONE).

Lemma side_check_ok (b : Board) : side_check b = true -> real_color (b_side b).
Proof. unfold side_check. by destruct (b_side b). Qed.

(** A position both sides of which the claims can look at. *)
Definition turnable (b : Board) : bool :=
  board_check b && side_check b && royals_check b KING.

Lemma turnable_ok (b : Board) :
  turnable b = true -> board_inv b /\ real_color (b_side b) /\ lone_kings b.
Proof.
  unfold turnable. rewrite !andb_true_iff. intros [[H1 H2] H3].
  apply board_check_inv in H1. split_and!; [done|by apply side_check_ok|].
  intros c Hc. by apply (royals_check_ok b KING).
Qed.

(** ** Claims *)

(** C14: The score of a position does not depend on which side is called White.
    Exchanging the colours, turning the board round and giving the move to the
    other side leaves [evaluate] unchanged, in every variant but Succession and a
    running Truce, provided no side has more than one king nor, in Mercenary,
    Heir, King's Battle and Save the Queen, whose terms look at the lowest queen
    square only, more than one queen. *)
Theorem evaluation_symmetric (b : Board) :
  board_inv b -> real_color (b_side b) -> color_blind b -> lone_kings b -> lone_queens b ->
  evaluate (flip_board b) = evaluate b.
Proof. intros Hi Hs Hb Hk Hq. apply evaluate_flip; auto using flip_board_flipped. Qed.

Definition heir_race_position : Board :=
  position "r2qk2r/ppp2ppp/2n1b3/3pP3/3P2b1/2N2N2/PPP2PPP/R2QKB1R w KQkq - 4 9" MOD_HEIR.

Lemma evaluation_symmetric_witness :
  evaluate (flip_board heir_race_position) = evaluate heir_race_position /\
  (evaluate heir_race_position =? 0) = false.
Proof.
  assert (turnable heir_race_position = true) as Ht by (vm_compute; reflexivity).
  apply turnable_ok in Ht as (Hi & Hs & Hk).
  split; [|vm_compute; reflexivity].
  apply (evaluation_symmetric heir_race_position); [exact Hi|exact Hs| |exact Hk|].
  - apply blind_check_ok. vm_compute. reflexivity.
  - intros _. apply (royals_check_ok _ QUEEN Hi); [discriminate|vm_compute; reflexivity].
Defined.

(** C34: In Succession the score does depend on the colour, by exactly the
    queens' rows: every queen of the mover on the upper four rows makes the
    position four points better from the other side, every one on the lower
    four rows four points worse, and conversely for the opponent's queens. *)
Theorem succession_skew (b : Board) :
  board_inv b -> real_color (b_side b) -> lone_kings b -> b_mod b = MOD_SUCCESSION ->
  evaluate (flip_board b) = evaluate b +
    (if b_side b == WHITE then queen_skew b WHITE - queen_skew b BLACK
     else - (queen_skew b WHITE - queen_skew b BLACK)).
Proof. intros Hi Hs Hk Hm. apply succession_evaluate_flip; auto using flip_board_flipped. Qed.

Definition succession_queens : Board :=
  position "3qk3/pppppppp/8/8/8/8/PPPPPPPP/3QQ3 w - - 0 1" MOD_SUCCESSION.

Lemma succession_skew_witness :
  evaluate (flip_board succession_queens) = evaluate succession_queens +
    (if b_side succession_queens == WHITE
     then queen_skew succession_queens WHITE - queen_skew succession_queens BLACK
     else - (queen_skew succession_queens WHITE - queen_skew succession_queens BLACK)) /\
  evaluate (flip_board succession_queens) - evaluate succession_queens = -12.
Proof.
  assert (turnable succession_queens = true) as Ht by (vm_compute; reflexivity).
  apply turnable_ok in Ht as (Hi & Hs & Hk).
  split; [|vm_compute; reflexivity].
  apply (succession_skew succession_queens); [exact Hi|exact Hs|exact Hk|vm_compute; reflexivity].
Defined.

(** C35: A running Truce is scored differently for the two sides, by exactly the
    early bishop raids: a bishop of Black's on h3 facing pawns on g3 and h2, its
    own h-pawn at home, costs Black 90 points before move nine, and the mirrored
    raid of White's (h6 facing g6 and h7) costs White nothing.  Turning the board
    round therefore changes the score of the side to move by 90 points for each
    raid on the board and by nothing else, when no side has more than one king
    or two rooks. *)
Theorem truce_skew (b : Board) :
  board_inv b -> real_color (b_side b) -> lone_kings b ->
  (forall c, real_color c -> bb_popcount (pcs b c ROOK) <= 2) ->
  b_mod b = MOD_TRUCE -> b_truce_active b = true ->
  evaluate (flip_board b) = evaluate b + (if b_side b == WHITE then - 90 * raids b else 90 * raids b).
Proof. intros Hi Hs Hk Hr Hm Ht. apply truce_evaluate_flip; auto using flip_board_flipped. Qed.

Definition truce_bishop_h3 : Board :=
  set_b_truce_active true
    (position "rn1qkbnr/ppp1pppp/3p4/8/8/3P2Pb/PPP1PP1P/RNBQKBNR w KQkq - 0 4" MOD_TRUCE).

Lemma truce_skew_witness :
  evaluate (flip_board truce_bishop_h3) = evaluate truce_bishop_h3 +
    (if b_side truce_bishop_h3 == WHITE then - 90 * raids truce_bishop_h3 else 90 * raids truce_bishop_h3) /\
  raids truce_bishop_h3 = 1.
Proof.
  assert (turnable truce_bishop_h3 = true) as Ht by (vm_compute; reflexivity).
  apply turnable_ok in Ht as (Hi & Hs & Hk).
  split; [|vm_compute; reflexivity].
  apply (truce_skew truce_bishop_h3); [exact Hi|exact Hs|exact Hk| |vm_compute; reflexivity..].
  intros [| |] Hc; [vm_compute; discriminate..|]. destruct (Hc eq_refl).
Defined.

(** C36: [passed] is the textbook notion: a pawn of [c] on [sq] is passed exactly
    when no enemy pawn stands strictly ahead of it on its file or a
    neighbouring one. *)
Theorem passed_pawn_meaning (b : Board) (c : Color) (sq : Square) :
  board_inv b -> real_color c -> on_board sq ->
  passed b c sq = true <->
  forall n, on_board n -> mb b n = PIECE_MAKE (color_opposite c) PAWN ->
    Z.abs (SQ_COL n - SQ_COL sq) <= 1 -> rel_row c n <= rel_row c sq.
Proof. apply passed_spec. Qed.

Definition pawn_race : Board :=
  position "4k3/1p4p1/8/3P4/8/8/6P1/4K3 w - - 0 30" MOD_CLASSIC.

Lemma passed_pawn_meaning_witness :
  passed pawn_race WHITE (SQ 4 3) = true /\
  (forall n, on_board n -> mb pawn_race n = PIECE_MAKE (color_opposite WHITE) PAWN ->
    Z.abs (SQ_COL n - SQ_COL (SQ 4 3)) <= 1 -> rel_row WHITE n <= rel_row WHITE (SQ 4 3)).
Proof.
  assert (passed pawn_race WHITE (SQ 4 3) = true) as Hp by (vm_compute; reflexivity).
  split; [exact Hp|].
  apply (passed_pawn_meaning pawn_race WHITE (SQ 4 3)); [check|discriminate|by apply SQ_on_board|exact Hp].
Defined.

(** C37: The whole-board pawn attack set that the evaluation computes with two
    masks and two shifts is the union of the attack tables of the pawns, in
    every variant whose pawns take as in chess. *)
Theorem pawn_attack_set (b : Board) (c : Color) :
  board_inv b -> real_color c -> b_mod b <> MOD_MERCENARY ->
  pawn_atk_of b c = bb_union (pawn_attacks c) BB_EMPTY (pcs b c PAWN).
Proof. apply pawn_atk_union. Qed.

Lemma pawn_attack_set_witness :
  pawn_atk_of pawn_race BLACK = bb_union (pawn_attacks BLACK) BB_EMPTY (pcs pawn_race BLACK PAWN).
Proof.
  apply (pawn_attack_set pawn_race BLACK); [check|discriminate|].
  assert (b_mod pawn_race = MOD_CLASSIC) as -> by (vm_compute; reflexivity). discriminate.
Defined.
