(* ===== verification/SameGame.v ===== *)
(** * Boards that differ in stale undo entries only

    [board_unmake_move] leaves the entry it has popped on the stack, so a board
    on which moves were tried and taken back is not literally the board it was.
    [same_game] is equality up to the entries above the ply; everything the
    search asks of a board respects it.  [ready k b] says that [k] more moves
    fit on the stack of a consistent board. *)

From stdpp Require Import base numbers list option.
From Stdlib Require Import ZArith Lia Bool.
From S2P Require Import Prelude Types Board Zobrist Attacks Make Movegen MovegenFacts MovegenSound Game.

(** ** An equivalence *)

#[export] Instance same_game_equivalence : Equivalence same_game.
Proof.
  split.
  - intros b. exists (b_history b). split_and!; [by destruct b|done|done].
  - intros b b' (h & -> & Hlen & Hagree). exists (b_history b). split_and!; [by destruct b|done|].
    intros i Hi. symmetry. by apply Hagree.
  - intros b b1 b2 (h & -> & Hlen & Hagree) (h' & -> & Hlen' & Hagree').
    exists h'. split_and!; [done|by rewrite <- Hlen|].
    intros i Hi. rewrite Hagree' by done. by apply Hagree.
Qed.

Lemma same_game_history (b : Board) (h : list Undo) :
  length h = length (b_history b) -> (forall i, 0 <= i < b_ply b -> h.[i] = (b_history b).[i]) ->
  same_game b (set_b_history h b).
Proof. intros. by exists h. Qed.

(** ** What respects it *)

Lemma board_inv_set (h : list Undo) (b : Board) : board_inv b -> board_inv (set_b_history h b).
Proof. intros [H1 H2]. constructor; [exact H1|]. exact (f_equal (set_b_history h) H2). Qed.

Lemma game_inv_set (h : list Undo) (b : Board) : game_inv b -> game_inv (set_b_history h b).
Proof. intros [H1 H2 H3 H4]. constructor; [by apply board_inv_set|exact H2|exact H3|exact H4]. Qed.

Lemma playable_set (h : list Undo) (b : Board) (m : Move) :
  playable b m -> playable (set_b_history h b) m.
Proof.
  intros [[F1 F2 F3 F4 F5 F6 F7 F8 F9] [G1 G2 G3 G4 G5 G6]]. split; constructor; assumption.
Qed.

(** Every function of a board reads the same from the two boards. *)
Ltac drop_history :=
  repeat match goal with
  | |- context [?f (set_b_history ?h ?b)] =>
      progress change (f (set_b_history h b)) with (f b)
  end.

Section Generators.
Context (h : list Undo) (b : Board).

Lemma attacked_set (sq : Square) (by_side : Color) :
  board_square_attacked (set_b_history h b) sq by_side = board_square_attacked b sq by_side.
Proof. unfold board_square_attacked. drop_history. reflexivity. Qed.

Lemma in_check_set (c : Color) : board_in_check (set_b_history h b) c = board_in_check b c.
Proof. unfold board_in_check. rewrite attacked_set. drop_history. reflexivity. Qed.

Lemma pawn_moves_set (ml : MoveList) (co : bool) :
  gen_pawn_moves (set_b_history h b) ml co = gen_pawn_moves b ml co.
Proof.
  unfold gen_pawn_moves, gen_pawn, merc_pawn, pawn_pushes, pawn_capture, pawn_promos,
    succ_add_promos, stq_protected. drop_history. reflexivity.
Qed.

Lemma piece_moves_set (ml : MoveList) (pt : PieceType) (co : bool) :
  gen_piece_moves (set_b_history h b) ml pt co = gen_piece_moves b ml pt co.
Proof.
  unfold gen_piece_moves, gen_piece, emit_target, filtered_targets, stq_queen, stq_protected,
    piece_targets. drop_history. reflexivity.
Qed.

Lemma castling_set (ml : MoveList) : gen_castling (set_b_history h b) ml = gen_castling b ml.
Proof.
  unfold gen_castling. rewrite in_check_set. unfold castle_one, castle_need_safe.
  drop_history. reflexivity.
Qed.

Lemma pseudo_set : pseudo_moves (set_b_history h b) = pseudo_moves b.
Proof. unfold pseudo_moves. by rewrite pawn_moves_set, !piece_moves_set, castling_set. Qed.

Lemma pseudo_captures_set : pseudo_captures (set_b_history h b) = pseudo_captures b.
Proof. unfold pseudo_captures. by rewrite pawn_moves_set, !piece_moves_set. Qed.

(** The legality test makes a move, which writes one entry of the stack. *)
Lemma after_set (m : Move) (x : Z) :
  board_after (set_b_history h b) m x =
  set_b_history (h.[b_ply b <- final_entry b m]) (board_after b m x).
Proof. unfold board_after. drop_history. reflexivity. Qed.

Lemma zobrist_set (z : Zob) : zobrist_compute z (set_b_history h b) = zobrist_compute z b.
Proof. unfold zobrist_compute, zobrist_pieces. drop_history. reflexivity. Qed.
End Generators.

Lemma make_set (h : list Undo) (b : Board) (m : Move) :
  board_inv b -> history_ok b -> length h = length (b_history b) -> move_fits b m ->
  board_make_move (set_b_history h b) m =
  set_b_history (h.[b_ply b <- final_entry b m]) (board_make_move b m).
Proof.
  intros Hinv Hh Hlen Hfit.
  assert (history_ok (set_b_history h b)) as Hh'.
  { destruct Hh as [Hl Hp]. split; [|exact Hp].
    change (b_history (set_b_history h b)) with h. by rewrite Hlen. }
  assert (move_fits (set_b_history h b) m) as Hfit' by (destruct Hfit; by constructor).
  rewrite (make_normal b m) by done.
  rewrite (make_normal (set_b_history h b) m) by (done || by apply board_inv_set).
  rewrite !after_set, zobrist_set. reflexivity.
Qed.

(** The verdict of [is_legal] on the position after the move. *)
Definition verdict (b : Board) (mover : Color) : bool :=
  let legal := negb (board_in_check b mover) in
  if legal && truce_now b then
    let their_king := pcs b (color_opposite mover) KING in
    if negb (their_king =? BB_EMPTY) then
      if board_square_attacked b (bb_lsb their_king) mover then false else legal
    else legal
  else legal.

Lemma legal_verdict (b : Board) (m : Move) :
  legal b m = verdict (board_make_move b m) (b_side b).
Proof. reflexivity. Qed.

Lemma verdict_set (h : list Undo) (b : Board) (mover : Color) :
  verdict (set_b_history h b) mover = verdict b mover.
Proof. unfold verdict. rewrite in_check_set, attacked_set. drop_history. reflexivity. Qed.

Lemma legal_set (h : list Undo) (b : Board) (m : Move) :
  board_inv b -> history_ok b -> length h = length (b_history b) -> move_fits b m ->
  legal (set_b_history h b) m = legal b m.
Proof. intros. by rewrite !legal_verdict, make_set, verdict_set. Qed.

Section Respects.
Context (b b' : Board) (Hg : game_inv b) (Hh : history_ok b) (Hs : same_game b b').

Lemma same_game_inv : game_inv b'.
Proof. destruct Hs as (h & -> & _). by apply game_inv_set. Qed.

Lemma same_history_ok : history_ok b'.
Proof. destruct Hs as (h & -> & Hlen & _). destruct Hh as [Hl Hp]. split; [by rewrite <- Hlen in Hl|exact Hp]. Qed.

Lemma same_playable (m : Move) : playable b m -> playable b' m.
Proof. destruct Hs as (h & -> & _). apply playable_set. Qed.

Lemma same_generate : generate_moves b' = generate_moves b.
Proof.
  rewrite (generate_filter b) by done.
  rewrite (generate_filter b') by (apply same_game_inv || apply same_history_ok).
  pose proof (pseudo_fits b Hg) as Hf. destruct Hs as (h & -> & Hlen & _). rewrite pseudo_set.
  apply List.filter_ext_in. intros m Hm. rewrite List.Forall_forall in Hf.
  apply legal_set; auto using gi_board.
Qed.
End Respects.

(** ** Room for [k] more moves *)

Record ready (k : Z) (b : Board) : Prop := {
  rd_game : game_inv b;
  rd_mod : b_mod b <> MOD_HEIR;
  rd_length : Z.of_nat (length (b_history b)) = MAX_HISTORY;
  rd_ply : 0 <= b_ply b;
  rd_room : b_ply b + k <= MAX_HISTORY;
  rd_moves : forall i, 0 <= i < b_ply b -> real_type (MOVE_PIECE (u_move (hist b i)))
}.

Lemma ready_history (k : Z) (b : Board) : 1 <= k -> ready k b -> history_ok b.
Proof. intros Hk [_ _ Hl Hp Hr _]. split; [done|lia]. Qed.

Lemma ready_mono (k k' : Z) (b : Board) : k' <= k -> ready k b -> ready k' b.
Proof. intros Hk []. constructor; auto. lia. Qed.

Lemma ready_same (k : Z) (b b' : Board) : same_game b b' -> ready k b -> ready k b'.
Proof.
  intros Hs [Hg Hm Hl Hp Hr Hv]. pose proof (same_game_inv b b' Hg Hs) as Hg'.
  destruct Hs as (h & -> & Hlen & Hagree). constructor; [done|done| |done|done|].
  - change (b_history (set_b_history h b)) with h. by rewrite Hlen.
  - intros i Hi. change (hist (set_b_history h b) i) with (h.[i]). rewrite Hagree by exact Hi.
    by apply Hv.
Qed.

Lemma final_entry_move (b : Board) (m : Move) : u_move (final_entry b m) = m.
Proof. unfold final_entry. by destruct (kb_bonus_after b m). Qed.

Section Turn.
Context (k : Z) (b : Board) (m : Move) (Hk : 1 <= k) (Hr : ready k b) (Hok : playable b m).

Local Definition Hh : history_ok b := ready_history k b Hk Hr.
Local Definition Hg : game_inv b := rd_game k b Hr.

Lemma ready_make : ready (k - 1) (board_make_move b m).
Proof.
  pose proof Hr as [_ Hm Hl Hp Hroom Hv]. pose proof (history_range b Hh) as Hrange.
  constructor.
  - apply make_game_inv; [exact Hg|exact Hh|done|done].
  - by rewrite (make_mod b m Hg Hh Hok).
  - by rewrite (make_history_length b m Hg Hh Hok).
  - rewrite (make_ply b m Hg Hh Hok). lia.
  - rewrite (make_ply b m Hg Hh Hok). lia.
  - intros i Hi. rewrite (make_ply b m Hg Hh Hok) in Hi. destruct (made b m Hg Hh Hok) as [x ->].
    change (hist (board_after b m x) i) with ((b_history b).[b_ply b <- final_entry b m].[i]).
    destruct (Z.eq_dec i (b_ply b)) as [->|Hne].
    + rewrite znth_zset_eq, final_entry_move by done. apply (mf_type b m (proj1 Hok)).
    + rewrite znth_zset_ne by done. apply Hv. lia.
Qed.

(** What was done on the new position does not show after the move is taken
    back. *)
Lemma same_unmake (b2 : Board) :
  same_game (board_make_move b m) b2 -> same_game b (board_unmake_move b2).
Proof.
  intros (h & -> & Hlen & Hagree). pose proof Hr as [_ _ Hl Hp _ _].
  pose proof (make_ply b m Hg Hh Hok) as Eply. rewrite Eply in Hagree.
  rewrite unmake_history by (rewrite Eply; apply Hagree; lia).
  rewrite (unmake_make b m (gi_board b Hg) (proj1 Hok) Hh).
  apply (same_game_history b h).
  - by rewrite Hlen, (make_history_length b m Hg Hh Hok).
  - intros i Hi. rewrite Hagree by lia. destruct (made b m Hg Hh Hok) as [x ->].
    cbn [b_history board_after]. apply znth_zset_ne. lia.
Qed.
End Turn.
