(* ===== verification/HeurCommon.v ===== *)
(** * What the search heuristics share

    Small expressions that the move-ordering heuristics of [search.c] and
    [search/*.c] repeat, bounds on counts over bitboards, and the tactic
    [score_bounds] that bounds a score built from guarded bonuses. *)

From stdpp Require Import base numbers list option.
From Stdlib Require Import ZArith Lia Bool.
From S2P Require Import Prelude Types Board Attacks EvalCommon.

(** [MOVE_IS_CAPTURE(m) || MOVE_IS_EP(m) || MOVE_IS_PROMO(m)] *)
Definition special (m : Move) : bool := MOVE_IS_CAPTURE m || MOVE_IS_EP m || MOVE_IS_PROMO m.

Definition back_rank (side : Color) : Z := if side == WHITE then 0 else 7.

(** The direction a side's pawns move in. *)
Definition fwd (side : Color) : Z := if side == WHITE then 1 else -1.

(** Knights and bishops of a side still on its back rank. *)
Definition back_rank_minors (b : Board) (side : Color) : Z :=
  bb_sum (fun sq => if SQ_ROW sq =? back_rank side then 1 else 0)
    (Z.lor (pcs b side KNIGHT) (pcs b side BISHOP)).

(** [x >= lo && x <= hi] *)
Definition within (lo hi x : Z) : bool := (lo <=? x) && (x <=? hi).

Definition central (sq : Square) : bool := within 2 5 (SQ_ROW sq) && within 2 5 (SQ_COL sq).

(** A minor piece leaves the back rank. *)
Definition leaves_back_rank (m : Move) (side : Color) : bool :=
  (SQ_ROW (MOVE_FROM m) =? back_rank side) && negb (SQ_ROW (MOVE_TO m) =? back_rank side).

(** ** Bounds *)

Lemma bb_squares_loop_length (fuel : nat) (bb : Bitboard) :
  (length (bb_squares_loop fuel bb) <= fuel)%nat.
Proof.
  revert bb. induction fuel as [|f IH]; intros bb; simpl; [lia|].
  destruct (bb =? 0); simpl; [lia|]. specialize (IH (Z.land bb (u64 (bb - 1)))). lia.
Qed.

Lemma fold_sum_bounds (f : Square -> Z) (k : Z) (l : list Square) (acc : Z) :
  (forall s, 0 <= f s <= k) ->
  acc <= fold_left (fun acc sq => acc + f sq) l acc <= acc + k * Z.of_nat (length l).
Proof.
  intros Hf. revert acc. induction l as [|s l IH]; intros acc; simpl; [lia|].
  specialize (IH (acc + f s)). specialize (Hf s). nia.
Qed.

Lemma bb_sum_bounds (f : Square -> Z) (k : Z) (bb : Bitboard) :
  (forall s, 0 <= f s <= k) -> 0 <= bb_sum f bb <= 64 * k.
Proof.
  intros Hf. unfold bb_sum. pose proof (fold_sum_bounds f k (bb_squares bb) 0 Hf).
  pose proof (bb_squares_loop_length 64 bb). specialize (Hf 0). unfold bb_squares in *. nia.
Qed.

Lemma back_rank_minors_bounds (b : Board) (side : Color) : 0 <= back_rank_minors b side <= 64.
Proof. apply (bb_sum_bounds _ 1). intros s. destruct (_ =? _); lia. Qed.

Lemma popcount_loop_bounds (fuel : nat) (bb count : Z) :
  count <= bb_popcount_loop fuel bb count <= count + Z.of_nat fuel.
Proof.
  revert bb count. induction fuel as [|f IH]; intros bb count; cbn [bb_popcount_loop]; [lia|].
  destruct (_ =? 0); [lia|]. specialize (IH (Z.land bb (u64 (bb - 1))) (count + 1)). lia.
Qed.

Lemma popcount_bounds (bb : Bitboard) : 0 <= bb_popcount bb <= 64.
Proof. apply (popcount_loop_bounds 64 bb 0). Qed.

Lemma col_bounds (sq : Square) : 0 <= SQ_COL sq <= 7.
Proof. unfold SQ_COL. change 7 with (Z.ones 3). rewrite Z.land_ones by lia.
  pose proof (Z.mod_pos_bound sq (2 ^ 3)). change (2 ^ 3) with 8 in *. change (Z.ones 3) with 7. lia.
Qed.

Lemma row_bounds (sq : Square) : 0 <= sq <= 64 -> 0 <= SQ_ROW sq <= 8.
Proof.
  intros. unfold SQ_ROW. rewrite Z.shiftr_div_pow2 by lia. change (2 ^ 3) with 8.
  split; [apply Z.div_pos; lia|]. assert (sq / 8 < 9); [|lia]. apply Z.div_lt_upper_bound; lia.
Qed.

Lemma from_bounds (m : Move) : 0 <= MOVE_FROM m < 64.
Proof.
  unfold MOVE_FROM. change 0x3F with (Z.ones 6). rewrite Z.land_ones by lia.
  apply Z.mod_pos_bound. lia.
Qed.

Lemma to_bounds (m : Move) : 0 <= MOVE_TO m < 64.
Proof.
  unfold MOVE_TO. change 0x3F with (Z.ones 6). rewrite Z.land_ones by lia.
  apply Z.mod_pos_bound. lia.
Qed.

Lemma from_row_bounds (m : Move) : 0 <= SQ_ROW (MOVE_FROM m) <= 8.
Proof. apply row_bounds. pose proof (from_bounds m). lia. Qed.

Lemma to_row_bounds (m : Move) : 0 <= SQ_ROW (MOVE_TO m) <= 8.
Proof. apply row_bounds. pose proof (to_bounds m). lia. Qed.

Lemma lsb_bounds (bb : Bitboard) : 0 <= bb_lsb bb <= 64.
Proof.
  unfold bb_lsb.
  assert (forall fuel bb i, i <= bb_lsb_loop fuel bb i <= i + Z.of_nat fuel) as H;
    [|apply (H 64%nat bb 0)].
  induction fuel as [|f IH]; intros x i; cbn [bb_lsb_loop]; [lia|].
  destruct (BB_HAS _ _); [lia|]. specialize (IH x (i + 1)). lia.
Qed.

Lemma lsb_row_bounds (bb : Bitboard) : 0 <= SQ_ROW (bb_lsb bb) <= 8.
Proof. apply row_bounds, lsb_bounds. Qed.

Lemma chebyshev_bounds (x y : Square) :
  0 <= SQ_ROW x <= 8 -> 0 <= SQ_ROW y <= 8 -> 0 <= chebyshev_distance_sq x y <= 8.
Proof.
  intros. unfold chebyshev_distance_sq. pose proof (col_bounds x). pose proof (col_bounds y).
  destruct (_ <? _); lia.
Qed.

(** An invariant interval of a loop over squares. *)
Lemma fold_within {A} (lo hi : Z) (f : Z -> A -> Z) (l : list A) (a : Z) :
  (forall x y, lo <= x <= hi -> lo <= f x y <= hi) -> lo <= a <= hi -> lo <= fold_left f l a <= hi.
Proof. intros Hf. revert a. induction l as [|y l IH]; intros a Ha; simpl; auto. Qed.

(** ** Automation

    [score_bounds] proves [lo <= score <= hi] for a score that is a chain of
    early returns ending in a sum of constants, guarded constants and terms
    whose bounds are in the context.  Early returns are split; a guarded
    constant inside the sum is replaced by a variable between its two values,
    so that the number of cases does not grow. *)

Ltac is_const z := lazymatch isZcst z with true => idtac end.

Ltac abstract_guard :=
  match goal with
  | |- context [if ?c then ?x else ?y] =>
      lazymatch x with context [if _ then _ else _] => fail | _ => idtac end;
      lazymatch y with context [if _ then _ else _] => fail | _ => idtac end;
      lazymatch type of x with Z => idtac end;
      let k := fresh "k" in
      first
        [ is_const x; is_const y;
          assert (Z.min x y <= (if c then x else y) <= Z.max x y)
            by (destruct c; lia);
          set (k := if c then x else y) in *; clearbody k
        | assert ((if c then x else y) = x \/ (if c then x else y) = y)
            by (destruct c; tauto);
          set (k := if c then x else y) in *; clearbody k ]
  end.

Ltac score_bounds :=
  cbv zeta;
  repeat match goal with
  | |- _ <= (if ?c then _ else _) <= _ => destruct c
  end;
  try lia; repeat abstract_guard; try lia.
