(* ===== verification/HeurMercenary.v ===== *)
(** * Mercenary search heuristics ([heuristics_mercenary.c]) *)

From stdpp Require Import base numbers list option.
From Stdlib Require Import ZArith Lia Bool.
From S2P Require Import Prelude Types Board Attacks EvalCommon HeurCommon.

Definition merc_undeveloped_minor_count (b : Board) (side : Color) : Z := back_rank_minors b side.

Definition search_merc_minor_development_score (b : Board) (m : Move) (side : Color) : Z :=
  if (b_mod b != MOD_MERCENARY) || special m then 0
  else
    let piece := MOVE_PIECE m in
    if (piece != KNIGHT) && (piece != BISHOP) then 0
    else
      let to_sq := MOVE_TO m in
      if negb (leaves_back_rank m side) then 0
      else
        let to_rank := rel_row side to_sq in
        let undeveloped := merc_undeveloped_minor_count b side in
        let score := if piece == KNIGHT then 52 else 36 in
        let score := score + (if 2 <=? undeveloped then 16 else 0) in
        let score := score + (if 3 <=? undeveloped then 10 else 0) in
        let score := score + (if within 2 5 (SQ_COL to_sq) then 10 else 0) in
        let score := score + (if within 2 4 to_rank then 6 else 0) in
        let score := score + (if (piece == KNIGHT) && within 2 4 to_rank && within 2 5 (SQ_COL to_sq)
                              then 14 else 0) in
        score + (if (piece == BISHOP) && (2 <=? to_rank) then 12 else 0).

Definition search_merc_early_queen_sortie_penalty (b : Board) (m : Move) (side : Color) : Z :=
  if (b_mod b != MOD_MERCENARY) || (MOVE_PIECE m != QUEEN) || special m then 0
  else if negb (leaves_back_rank m side) then 0
  else if 10 <? b_fullmove b then 0
  else
    let undeveloped := merc_undeveloped_minor_count b side in
    if undeveloped <=? 1 then 0 else 80 + undeveloped * 24.

Definition MERC_APPROACH : list Z := [0; 16; 8; 3].

Definition search_merc_quiet_pawn_score (b : Board) (m : Move) (side : Color) : Z :=
  if (b_mod b != MOD_MERCENARY) || (MOVE_PIECE m != PAWN) || special m then 0
  else
    let to_sq := MOVE_TO m in
    let to_rank := rel_row side to_sq in
    let to_file := SQ_COL to_sq in
    let enemy_king_bb := pcs b (color_opposite side) KING in
    let score :=
      if bb_nonzero enemy_king_bb then
        let dist := chebyshev_distance_sq to_sq (bb_lsb enemy_king_bb) in
        if dist <=? 3 then MERC_APPROACH.[dist] else 0
      else 0 in
    let score := score + (if within 2 5 to_file && within 2 5 to_rank then 6 else 0) in
    let neighbor_count := bb_popcount (Z.land (king_attacks to_sq) (pcs b side PAWN)) in
    let score := score + (if 1 <=? neighbor_count then 4 else 0) in
    let score := score + (if 2 <=? neighbor_count then 4 else 0) in
    score + (if 4 <=? to_rank then 4 else 0).

Definition search_merc_king_safety_score (b : Board) (m : Move) (side : Color) : Z :=
  if b_mod b != MOD_MERCENARY then 0
  else if MOVE_PIECE m != KING then 0
  else if MOVE_IS_CAPTURE m || MOVE_IS_EP m then 0
  else if b_fullmove b <=? 12 then
    let from_sq := MOVE_FROM m in
    let to_sq := MOVE_TO m in
    let from_shield := bb_popcount (Z.land (king_attacks from_sq) (pcs b side PAWN)) in
    let to_shield := bb_popcount (Z.land (king_attacks to_sq) (pcs b side PAWN)) in
    let score := if to_shield <? from_shield then - ((from_shield - to_shield) * 18) else 0 in
    let from_rank := rel_row side from_sq in
    let to_rank := rel_row side to_sq in
    let score := score - (if (from_rank <=? 1) && (2 <=? to_rank) && (b_fullmove b <=? 8)
                          then 30 else 0) in
    score + (if from_shield <? to_shield then (to_shield - from_shield) * 8 else 0)
  else 0.

(** ** Bounds *)

Lemma merc_development_bounds (b : Board) (m : Move) (side : Color) :
  0 <= search_merc_minor_development_score b m side <= 2000.
Proof. unfold search_merc_minor_development_score. score_bounds. Qed.

Lemma merc_queen_bounds (b : Board) (m : Move) (side : Color) :
  0 <= search_merc_early_queen_sortie_penalty b m side <= 2000.
Proof.
  unfold search_merc_early_queen_sortie_penalty. pose proof (back_rank_minors_bounds b side).
  unfold merc_undeveloped_minor_count. score_bounds.
Qed.

Lemma merc_pawn_bounds (b : Board) (m : Move) (side : Color) :
  0 <= search_merc_quiet_pawn_score b m side <= 2000.
Proof.
  unfold search_merc_quiet_pawn_score.
  assert (forall d, 0 <= MERC_APPROACH.[d] <= 16) as HA.
  { intros d. unfold MERC_APPROACH, znth. destruct (d <? 0); [simpl; lia|].
    destruct (Z.to_nat d) as [|[|[|[|n]]]]; simpl; try lia. rewrite lookup_total_nil. simpl. lia. }
  specialize (HA (chebyshev_distance_sq (MOVE_TO m) (bb_lsb (pcs b (color_opposite side) KING)))).
  score_bounds.
Qed.

Lemma merc_king_bounds (b : Board) (m : Move) (side : Color) :
  -2000 <= search_merc_king_safety_score b m side <= 2000.
Proof.
  unfold search_merc_king_safety_score.
  pose proof (popcount_bounds (Z.land (king_attacks (MOVE_FROM m)) (pcs b side PAWN))).
  pose proof (popcount_bounds (Z.land (king_attacks (MOVE_TO m)) (pcs b side PAWN))).
  score_bounds.
Qed.
