(* ===== verification/HeurTruce.v ===== *)
(** * Truce search heuristics ([heuristics_truce.c]) *)

From stdpp Require Import base numbers list option.
From Stdlib Require Import ZArith Lia Bool.
From S2P Require Import Prelude Types Board Attacks Movegen EvalCommon HeurCommon.

Definition search_truce_undeveloped_minor_count (b : Board) (side : Color) : Z :=
  if negb (truce_now b) then 0 else back_rank_minors b side.

(** Black's c-pawn at home and d-pawn on d5 against a bishop on b5. *)
Definition truce_bb5_shell (b : Board) : bool :=
  BB_HAS (pcs b BLACK PAWN) (SQ 6 2) && BB_HAS (pcs b BLACK PAWN) (SQ 4 3) &&
  BB_HAS (pcs b WHITE BISHOP) (SQ 4 1).

Definition truce_bishop_terms (b : Board) (m : Move) (side : Color) (to_rank undeveloped : Z)
    (wing_file : bool) : Z :=
  let from_sq := MOVE_FROM m in
  let to_sq := MOVE_TO m in
  let score := if 2 <=? to_rank then 16 else -20 in
  let score := score - (if (b_fullmove b <=? 8) && wing_file && (2 <=? undeveloped) then 38 else 0) in
  let score := score - (if wing_file && (4 <=? to_rank) then 10 else 0) in
  let score := score -
    (if (side == BLACK) && (b_fullmove b <=? 8) && (from_sq =? SQ 7 2) && (to_sq =? SQ 2 7) &&
        BB_HAS (pcs b WHITE PAWN) (SQ 2 6) && BB_HAS (pcs b WHITE PAWN) (SQ 1 7)
     then 120 else 0) in
  let score := score -
    (if (side == BLACK) && (b_fullmove b <=? 6) && (from_sq =? SQ 7 2) && (to_sq =? SQ 4 5) &&
        truce_bb5_shell b then 90 else 0) in
  score -
    (if (side == BLACK) && (b_fullmove b <=? 6) && (from_sq =? SQ 7 2) && (to_sq =? SQ 5 4) &&
        truce_bb5_shell b then 70 else 0).

Definition search_truce_minor_development_score (b : Board) (m : Move) (side : Color) : Z :=
  if negb (truce_now b) || special m then 0
  else
    let piece := MOVE_PIECE m in
    let from_sq := MOVE_FROM m in
    let to_sq := MOVE_TO m in
    let to_rank := rel_row side to_sq in
    let undeveloped := search_truce_undeveloped_minor_count b side in
    let wing_file := (SQ_COL to_sq <=? 1) || (6 <=? SQ_COL to_sq) in
    if (piece != KNIGHT) && (piece != BISHOP) then 0
    else if negb (leaves_back_rank m side) then 0
    else
      let score := if piece == KNIGHT then 54 else 38 in
      let score := score + (if 2 <=? undeveloped then 14 else 0) in
      let score := score + (if 3 <=? undeveloped then 8 else 0) in
      let score := score + (if within 2 5 (SQ_COL to_sq) then 8 else 0) in
      let score := score + (if 2 <=? to_rank then 4 else 0) in
      let score := score + (if piece == BISHOP
                            then truce_bishop_terms b m side to_rank undeveloped wing_file else 0) in
      score -
        (if (piece == KNIGHT) && (side == BLACK) && (b_fullmove b <=? 6) &&
            (from_sq =? SQ 7 1) && (to_sq =? SQ 5 0) && truce_bb5_shell b then 72 else 0).

Definition search_truce_early_queen_sortie_penalty (b : Board) (m : Move) (side : Color) : Z :=
  if (b_mod b == MOD_TRUCE) && negb (b_truce_active b) && (MOVE_PIECE m == KING) &&
     negb (MOVE_IS_CASTLE m) && negb (special m) &&
     ((side == WHITE) && (b_fullmove b <=? 22) && (MOVE_FROM m =? SQ 0 7) && (MOVE_TO m =? SQ 1 6) &&
      BB_HAS (pcs b BLACK KNIGHT) (SQ 5 5) && BB_HAS (pcs b BLACK QUEEN) (SQ 5 4) &&
      BB_HAS (pcs b WHITE PAWN) (SQ 3 6) && BB_HAS (pcs b WHITE KNIGHT) (SQ 2 5))
  then 220
  else if negb (truce_now b) || (MOVE_PIECE m != QUEEN) || special m then 0
  else
    let undeveloped := search_truce_undeveloped_minor_count b side in
    if 8 <? b_fullmove b then 0
    else if negb (leaves_back_rank m side) then 0
    else if undeveloped <=? 1 then 0
    else 90 + undeveloped * 22.

Definition search_truce_quiet_pawn_score (b : Board) (m : Move) (side : Color) : Z :=
  if negb (truce_now b) || (MOVE_PIECE m != PAWN) || special m then 0
  else
    let from_sq := MOVE_FROM m in
    let to_sq := MOVE_TO m in
    let from_rank := rel_row side from_sq in
    let to_rank := rel_row side to_sq in
    let file := SQ_COL to_sq in
    let attack_row := SQ_ROW to_sq + fwd side in
    let enemy_bishops := pcs b (color_opposite side) BISHOP in
    if negb (from_rank =? 1) then 0
    else
      let score := 28 in
      let score := score + (if 3 <=? to_rank then 18 else 8) in
      let score := score + (if within 2 5 file then 12 else 0) in
      let on := within 0 7 attack_row in
      let score := score + (if on && (0 <? file) && BB_HAS enemy_bishops (SQ attack_row (file - 1))
                            then 36 else 0) in
      let score := score + (if on && (file <? 7) && BB_HAS enemy_bishops (SQ attack_row (file + 1))
                            then 36 else 0) in
      score +
        (if (side == BLACK) && (b_fullmove b <=? 6) && (from_sq =? SQ 6 2) && (to_sq =? SQ 5 2) &&
            BB_HAS (pcs b BLACK PAWN) (SQ 4 3) && BB_HAS (pcs b WHITE BISHOP) (SQ 4 1)
         then 92 else 0).

(** ** Bounds *)

Lemma truce_undeveloped_bounds (b : Board) (side : Color) :
  0 <= search_truce_undeveloped_minor_count b side <= 64.
Proof.
  unfold search_truce_undeveloped_minor_count. pose proof (back_rank_minors_bounds b side).
  score_bounds.
Qed.

Lemma truce_development_bounds (b : Board) (m : Move) (side : Color) :
  -2000 <= search_truce_minor_development_score b m side <= 2000.
Proof. unfold search_truce_minor_development_score, truce_bishop_terms. score_bounds. Qed.

Lemma truce_queen_bounds (b : Board) (m : Move) (side : Color) :
  0 <= search_truce_early_queen_sortie_penalty b m side <= 2000.
Proof.
  unfold search_truce_early_queen_sortie_penalty. pose proof (truce_undeveloped_bounds b side).
  score_bounds.
Qed.

Lemma truce_pawn_bounds (b : Board) (m : Move) (side : Color) :
  0 <= search_truce_quiet_pawn_score b m side <= 2000.
Proof. unfold search_truce_quiet_pawn_score. score_bounds. Qed.
