(* ===== verification/HeurHeir.v ===== *)
(** * Heir search heuristics ([heuristics_heir.c]) *)

From stdpp Require Import base numbers list option.
From Stdlib Require Import ZArith Lia Bool.
From S2P Require Import Prelude Types Board Attacks Movegen EvalCommon HeurCommon.

Definition heir_pawn_advance (side : Color) (sq : Square) : Z :=
  let advance := if side == WHITE then SQ_ROW sq - 1 else 6 - SQ_ROW sq in
  if advance <? 0 then 0 else if 5 <? advance then 5 else advance.

Definition heir_square_attacked_by_enemy_pawn (b : Board) (sq : Square) (side : Color) : bool :=
  let opp := color_opposite side in
  if opp == WHITE then bb_nonzero (Z.land (pawn_attacks BLACK sq) (pcs b WHITE PAWN))
  else bb_nonzero (Z.land (pawn_attacks WHITE sq) (pcs b BLACK PAWN)).

Definition heir_has_quiet_flank_pawn_push (b : Board) (side : Color) : bool :=
  let occ := Z.lor (occ b WHITE) (occ b BLACK) in
  existsb (fun from =>
    let file := SQ_COL from in
    if negb ((file <=? 1) || (6 <=? file)) then false
    else
      let to_rank := SQ_ROW from + fwd side in
      if (to_rank <? 0) || (7 <? to_rank) then false
      else negb (BB_HAS occ (SQ to_rank file)))
    (bb_squares (pcs b side PAWN)).

Definition heir_developed_minor_count (b : Board) (side : Color) : Z :=
  bb_sum (fun sq => if negb (SQ_ROW sq =? back_rank side) then 1 else 0)
    (Z.lor (pcs b side KNIGHT) (pcs b side BISHOP)).

Definition search_heir_f_pawn_block_move_penalty (b : Board) (m : Move) : Z :=
  if (b_mod b != MOD_HEIR) || (MOVE_PIECE m != KNIGHT) then 0
  else
    let side := b_side b in
    let home_from := if side == WHITE then SQ 0 6 else SQ 7 6 in
    let block_sq := if side == WHITE then SQ 2 5 else SQ 5 5 in
    let home_f := if side == WHITE then SQ 1 5 else SQ 6 5 in
    let spear_sq := if side == WHITE then SQ 4 4 else SQ 3 4 in
    let anchor_sq := if side == WHITE then SQ 3 3 else SQ 4 3 in
    if 12 <? b_fullmove b then 0
    else if negb (MOVE_FROM m =? home_from) || negb (MOVE_TO m =? block_sq) then 0
    else if negb (BB_HAS (pcs b side PAWN) home_f) then 0
    else if negb (BB_HAS (pcs b side PAWN) spear_sq) then 0
    else 70 + (if BB_HAS (pcs b side PAWN) anchor_sq then 30 else 0).

Definition search_heir_position_volatile (b : Board) : bool :=
  existsb (fun c =>
    (pcs b c KING =? BB_EMPTY) || (bb_popcount (pcs b c PAWN) <=? 2) ||
    existsb (fun sq => 4 <=? heir_pawn_advance c sq) (bb_squares (pcs b c PAWN))) colors.

Definition search_heir_critical_move (b : Board) (m : Move) : bool :=
  if b_mod b != MOD_HEIR then false
  else if MOVE_IS_PROMO m || (MOVE_CAPTURED m == KING) then true
  else if MOVE_PIECE m == KING then true
  else if (MOVE_PIECE m == PAWN) && (4 <=? heir_pawn_advance (b_side b) (MOVE_TO m)) then true
  else false.

Definition search_heir_king_under_direct_fire (b : Board) : bool :=
  if b_mod b != MOD_HEIR then false
  else if pcs b (b_side b) KING =? BB_EMPTY then false
  else board_square_attacked b (bb_lsb (pcs b (b_side b) KING)) (color_opposite (b_side b)).

(** [captured >= KNIGHT], which [PIECE_NONE] also satisfies. *)
Definition knight_or_more (t : PieceType) : bool := PieceType_to_Z KNIGHT <=? PieceType_to_Z t.

Definition search_heir_tactical_capture (b : Board) (m : Move) (see : Z) : bool :=
  if b_mod b != MOD_HEIR then false
  else if negb (MOVE_IS_CAPTURE m || MOVE_IS_EP m) then false
  else if see <? 0 then false
  else
    let captured := MOVE_CAPTURED m in
    if knight_or_more captured then true
    else if (captured == PAWN) && central (MOVE_TO m) then true
    else false.

Definition search_heir_early_queen_sortie_penalty (b : Board) (m : Move) : Z :=
  if (b_mod b != MOD_HEIR) || (MOVE_PIECE m != QUEEN) then 0
  else
    let side := b_side b in
    let opp := color_opposite side in
    let minor_total := bb_popcount (Z.lor (pcs b side KNIGHT) (pcs b side BISHOP)) in
    let minor_developed := heir_developed_minor_count b side in
    let undeveloped := minor_total - minor_developed in
    if 12 <? b_fullmove b then 0
    else if negb (leaves_back_rank m side) then 0
    else if (bb_popcount (pcs b side PAWN) <? 4) || (bb_popcount (pcs b opp PAWN) <? 4) then 0
    else if undeveloped <=? 0 then 0
    else 120 + undeveloped * 30 +
         (if minor_developed =? 0 then 40 else if minor_developed =? 1 then 20 else 0).

(** The side's king stands at home, or it may still castle. *)
Definition heir_king_home (side : Color) : Square := if side == WHITE then SQ 0 4 else SQ 7 4.
Definition heir_castling_mask (side : Color) : Z :=
  if side == WHITE then Z.lor CASTLE_WK CASTLE_WQ else Z.lor CASTLE_BK CASTLE_BQ.
Definition heir_home_or_castle (b : Board) (side : Color) : bool :=
  BB_HAS (pcs b side KING) (heir_king_home side) ||
  negb (Z.land (b_castling b) (heir_castling_mask side) =? 0).

Definition search_heir_risky_bishop_pawn_grab_penalty (b : Board) (m : Move) : Z :=
  if b_mod b != MOD_HEIR then 0
  else if MOVE_PIECE m != BISHOP then 0
  else if negb (MOVE_IS_CAPTURE m) || (MOVE_CAPTURED m != PAWN) then 0
  else if 22 <? b_fullmove b then 0
  else
    let side := b_side b in
    let opp := color_opposite side in
    if negb (heir_home_or_castle b side) then 0
    else
      let to := MOVE_TO m in
      if negb (central to) then 0
      else if negb (board_square_attacked b to opp) then 0
      else
        let from := MOVE_FROM m in
        240 + (if ((side == WHITE) && ((from =? SQ 1 1) || (from =? SQ 1 6))) ||
                  ((side == BLACK) && ((from =? SQ 6 1) || (from =? SQ 6 6))) then 80 else 0).

Definition search_heir_flank_pawn_drift_penalty (b : Board) (m : Move) : Z :=
  if (b_mod b != MOD_HEIR) || (MOVE_PIECE m != PAWN) then 0
  else if special m then 0
  else if negb (pcs b WHITE KING =? BB_EMPTY) || negb (pcs b BLACK KING =? BB_EMPTY) then 0
  else
    let file := SQ_COL (MOVE_TO m) in
    if negb (file =? 0) && negb (file =? 7) then 0
    else
      let advance := heir_pawn_advance (b_side b) (MOVE_TO m) in
      if 2 <? advance then 0
      else
        let side := b_side b in
        let heavy_minors := Z.lor (Z.lor (pcs b side ROOK) (pcs b side BISHOP)) (pcs b side QUEEN) in
        if heavy_minors =? BB_EMPTY then 0
        else if negb (pcs b side BISHOP =? BB_EMPTY) then 210 else 170.

Definition search_heir_risky_center_pawn_push_penalty (b : Board) (m : Move) : Z :=
  if (b_mod b != MOD_HEIR) || (MOVE_PIECE m != PAWN) then 0
  else if special m then 0
  else
    let side := b_side b in
    let from := MOVE_FROM m in
    let to := MOVE_TO m in
    if negb (BB_HAS (pcs b side KING) (heir_king_home side)) then 0
    else
      let file := SQ_COL to in
      if (file <? 4) || (6 <? file) then 0
      else
        let from_rank := rel_row side from in
        let to_rank := rel_row side to in
        if (to_rank <? 2) || (4 <? to_rank) then 0
        else if to_rank <? from_rank then 0
        else if negb (heir_square_attacked_by_enemy_pawn b to side) then 0
        else 240 + (if file =? 5 then 80 else 0) + (if from_rank <=? 1 then 30 else 0).

Definition search_heir_simplified_center_pawn_push_penalty (b : Board) (m : Move) : Z :=
  if (b_mod b != MOD_HEIR) || (MOVE_PIECE m != PAWN) then 0
  else if special m then 0
  else if b_fullmove b <? 16 then 0
  else
    let to := MOVE_TO m in
    let file := SQ_COL to in
    if (file <? 3) || (4 <? file) then 0
    else if 16 <? bb_popcount (Z.lor (occ b WHITE) (occ b BLACK)) then 0
    else if (pcs b WHITE ROOK =? BB_EMPTY) || (pcs b BLACK ROOK =? BB_EMPTY) then 0
    else
      let side := b_side b in
      if negb (heir_has_quiet_flank_pawn_push b side) then 0
      else
        let opp := color_opposite side in
        if negb (board_square_attacked b to opp) then 0
        else 320 + (if within 3 4 (SQ_COL (MOVE_FROM m)) then 40 else 0).

Definition search_heir_pawn_harass_score (b : Board) (m : Move) : Z :=
  if (b_mod b != MOD_HEIR) || (MOVE_PIECE m != PAWN) then 0
  else if special m then 0
  else
    let side := b_side b in
    let opp := color_opposite side in
    let attacks := pawn_attacks side (MOVE_TO m) in
    let enemy_minors := Z.lor (pcs b opp KNIGHT) (pcs b opp BISHOP) in
    let hits := Z.land attacks enemy_minors in
    if hits =? BB_EMPTY then 0
    else
      let score := 160 in
      let score := score + (if b_fullmove b <=? 20 then 50 else 0) in
      let score := score + (if within 4 6 (SQ_COL (MOVE_FROM m)) then 40 else 0) in
      let score := score + (if heir_home_or_castle b side then 40 else 0) in
      score + (if negb (Z.land hits (pcs b opp BISHOP) =? BB_EMPTY) then 40 else 0).

Definition search_heir_passive_king_edge_retreat_penalty (b : Board) (m : Move) : Z :=
  if (b_mod b != MOD_HEIR) || (MOVE_PIECE m != KING) then 0
  else if special m then 0
  else if b_fullmove b <? 20 then 0
  else
    let side := b_side b in
    let opp := color_opposite side in
    if board_in_check b side then 0
    else
      let from := MOVE_FROM m in
      let to := MOVE_TO m in
      let from_file := SQ_COL from in
      let to_file := SQ_COL to in
      if (from_file =? 0) || (from_file =? 7) then 0
      else if negb (to_file =? 0) && negb (to_file =? 7) then 0
      else if existsb (fun alt =>
             if alt =? to then false
             else if (SQ_COL alt =? 0) || (SQ_COL alt =? 7) then false
             else if BB_HAS (occ b side) alt then false
             else if board_square_attacked b alt opp then false
             else true) (bb_squares (king_attacks from))
      then 180 else 0.

Definition search_heir_is_tactical_capture_candidate (b : Board) (m : Move) : bool :=
  let captured := MOVE_CAPTURED m in
  if b_mod b != MOD_HEIR then false
  else if negb (MOVE_IS_CAPTURE m || MOVE_IS_EP m) then false
  else if MOVE_PIECE m == ROOK then true
  else if MOVE_IS_PROMO m then true
  else if knight_or_more captured then true
  else if (captured == PAWN) && central (MOVE_TO m) then true
  else if (MOVE_PIECE m == PAWN) && (4 <=? heir_pawn_advance (b_side b) (MOVE_TO m)) then true
  else false.

(** ** Bounds *)

Lemma heir_developed_bounds (b : Board) (side : Color) : 0 <= heir_developed_minor_count b side <= 64.
Proof. apply (bb_sum_bounds _ 1). intros s. destruct (negb _); lia. Qed.

Lemma heir_f_pawn_bounds (b : Board) (m : Move) :
  0 <= search_heir_f_pawn_block_move_penalty b m <= 2000.
Proof. unfold search_heir_f_pawn_block_move_penalty. score_bounds. Qed.

Lemma heir_queen_bounds (b : Board) (m : Move) :
  0 <= search_heir_early_queen_sortie_penalty b m <= 3000.
Proof.
  unfold search_heir_early_queen_sortie_penalty.
  pose proof (heir_developed_bounds b (b_side b)).
  pose proof (popcount_bounds (Z.lor (pcs b (b_side b) KNIGHT) (pcs b (b_side b) BISHOP))).
  cbv zeta. destruct (_ || _); [lia|]. destruct (_ <? _); [lia|]. destruct (negb _); [lia|].
  destruct (_ || _); [lia|]. destruct (Z.leb_spec (bb_popcount (Z.lor (pcs b (b_side b) KNIGHT)
    (pcs b (b_side b) BISHOP)) - heir_developed_minor_count b (b_side b)) 0); score_bounds.
Qed.

Lemma heir_bishop_grab_bounds (b : Board) (m : Move) :
  0 <= search_heir_risky_bishop_pawn_grab_penalty b m <= 2000.
Proof. unfold search_heir_risky_bishop_pawn_grab_penalty. score_bounds. Qed.

Lemma heir_flank_bounds (b : Board) (m : Move) :
  0 <= search_heir_flank_pawn_drift_penalty b m <= 2000.
Proof. unfold search_heir_flank_pawn_drift_penalty. score_bounds. Qed.

Lemma heir_center_bounds (b : Board) (m : Move) :
  0 <= search_heir_risky_center_pawn_push_penalty b m <= 2000.
Proof. unfold search_heir_risky_center_pawn_push_penalty. score_bounds. Qed.

Lemma heir_simplified_bounds (b : Board) (m : Move) :
  0 <= search_heir_simplified_center_pawn_push_penalty b m <= 2000.
Proof. unfold search_heir_simplified_center_pawn_push_penalty. score_bounds. Qed.

Lemma heir_harass_bounds (b : Board) (m : Move) :
  0 <= search_heir_pawn_harass_score b m <= 2000.
Proof. unfold search_heir_pawn_harass_score. score_bounds. Qed.
