(* ===== verification/HeurKingsBattle.v ===== *)
(** * King's Battle search heuristics ([heuristics_kings_battle.c])

    The file repeats some static helpers of [eval_kings_battle.c]; those whose
    names would clash carry the prefix [search_] here. *)

From stdpp Require Import base numbers list option.
From Stdlib Require Import ZArith Lia Bool.
From S2P Require Import Prelude Types Board Attacks Movegen EvalCommon EvalKingsBattle HeurCommon.

(** ** Helpers *)

Definition search_kb_phase1_forward_rank (side : Color) (sq : Square) : Z :=
  if side == WHITE then SQ_ROW sq else 7 - SQ_ROW sq.

Definition search_kb_phase1_promotion_distance (side : Color) (sq : Square) : Z :=
  7 - search_kb_phase1_forward_rank side sq.

Definition kb_phase1_min_enemy_pawn_distance (b : Board) (side : Color) (sq : Square) : Z :=
  let opp := color_opposite side in
  let min_dist := fold_left (fun min_dist ps =>
    let dist := chebyshev_distance_sq ps sq in
    if dist <? min_dist then dist else min_dist) (bb_squares (pcs b opp PAWN)) 15 in
  if min_dist =? 15 then 0 else min_dist.

Definition kb_phase1_enemy_king_distance (b : Board) (side : Color) (sq : Square) : Z :=
  let opp_king := pcs b (color_opposite side) KING in
  if opp_king =? BB_EMPTY then 8 else chebyshev_distance_sq sq (bb_lsb opp_king).

Definition kb_phase1_pawn_king_pressure (b : Board) (side : Color) (sq : Square) : Z :=
  let opp_king := pcs b (color_opposite side) KING in
  if opp_king =? BB_EMPTY then 0
  else
    let king_sq := bb_lsb opp_king in
    let attack_row := SQ_ROW sq + fwd side in
    let dist := chebyshev_distance_sq sq king_sq in
    (if (0 <=? attack_row) && (attack_row <? 8) && (SQ_ROW king_sq =? attack_row) &&
        (Z.abs (SQ_COL king_sq - SQ_COL sq) =? 1) then 120 else 0) +
    (if dist <=? 1 then 35 else if dist =? 2 then 18 else 0).

Definition search_kb_phase1_forward_lane_open (b : Board) (side : Color) (sq : Square) : bool :=
  let forward_row := SQ_ROW sq + fwd side in
  let col := SQ_COL sq in
  if (forward_row <? 0) || (7 <? forward_row) then false
  else negb (BB_HAS (occ b side) (SQ forward_row col)).

(** The rows [1 .. max_steps] ahead; a row off the board ends the loop, and
    every later row is off the board too. *)
Definition search_kb_phase1_forward_corridor_blockers (b : Board) (side : Color) (sq : Square)
    (max_steps : Z) : Z :=
  let row := SQ_ROW sq in
  let col := SQ_COL sq in
  let step := fwd side in
  fold_left (fun blockers dr =>
    let nr := row + step * dr in
    if (nr <? 0) || (7 <? nr) then blockers else blockers + corridor_row b side nr col)
    (seqZ 1 max_steps) 0.

Definition kb_phase1_passed_destination (b : Board) (side : Color) (sq : Square) : bool :=
  let opp := color_opposite side in
  let row := SQ_ROW sq in
  let col := SQ_COL sq in
  let start := if side == WHITE then row + 1 else 0 in
  let end_ := if side == WHITE then 8 else row in
  forallb (fun r => forallb (fun dc =>
    let nc := col + dc in
    (nc <? 0) || (7 <? nc) || negb (BB_HAS (pcs b opp PAWN) (SQ r nc))) [-1; 0; 1])
    (seqZ start (end_ - start)).

(** One step of the loop over the king's retreat squares: the pair counts
    sealed and newly attacked squares. *)
Definition retreat_step (b : Board) (sq king_sq : Square) (attack_row retreat_row : Z)
    (acc : Z * Z) (dc : Z) : Z * Z :=
  let '(sealed, newly_attacked) := acc in
  let nc := SQ_COL king_sq + dc in
  if (nc <? 0) || (7 <? nc) then acc
  else
    let rsq := SQ retreat_row nc in
    let attacks := (attack_row =? retreat_row) && (Z.abs (SQ_COL sq - nc) =? 1) in
    let newly_attacked := if attacks then newly_attacked + 1 else newly_attacked in
    let sealed := if attacks || negb (mb b rsq =? PIECE_EMPTY) then sealed + 1 else sealed in
    (sealed, newly_attacked).

Definition kb_phase1_retreat_arc_move_score (b : Board) (side : Color) (sq : Square) : Z :=
  let opp := color_opposite side in
  let opp_king := pcs b opp KING in
  if opp_king =? BB_EMPTY then 0
  else
    let king_sq := bb_lsb opp_king in
    let opp_rank := search_kb_phase1_forward_rank opp king_sq in
    let retreat_row := SQ_ROW king_sq + (if opp == WHITE then -1 else 1) in
    let attack_row := SQ_ROW sq + fwd side in
    if opp_rank <? 3 then 0
    else if (retreat_row <? 0) || (7 <? retreat_row) then 0
    else
      let '(sealed, newly_attacked) :=
        fold_left (retreat_step b sq king_sq attack_row retreat_row) [-1; 0; 1] (0, 0) in
      if newly_attacked =? 0 then 0
      else if sealed =? 3 then 280 + newly_attacked * 24
      else if sealed =? 2 then 120 + newly_attacked * 18
      else newly_attacked * 28.

Definition search_kb_phase1_any_pawn_capture_available (b : Board) (side : Color) : bool :=
  existsb (fun sq =>
    let row := SQ_ROW sq + fwd side in
    let col := SQ_COL sq in
    if (row <? 0) || (7 <? row) then false
    else ((0 <? col) && enemy_pawn_at b side (SQ row (col - 1))) ||
         ((col <? 7) && enemy_pawn_at b side (SQ row (col + 1))))
    (bb_squares (pcs b side PAWN)).

Definition kb_phase1_wing_drift_move_penalty (b : Board) (side : Color) (m : Move) : Z :=
  let from_sq := MOVE_FROM m in
  let to_sq := MOVE_TO m in
  let file := SQ_COL to_sq in
  let from_rank := search_kb_phase1_forward_rank side from_sq in
  let to_rank := search_kb_phase1_forward_rank side to_sq in
  if negb (file =? 0) && negb (file =? 1) && negb (file =? 6) && negb (file =? 7) then 0
  else if negb (from_rank =? 1) || (to_rank <? 2) || (3 <? to_rank) then 0
  else if kb_phase1_passed_destination b side to_sq then 0
  else if 70 <=? kb_phase1_pawn_king_pressure b side to_sq then 0
  else if negb (pcs b side KING =? BB_EMPTY) &&
          (chebyshev_distance_sq (bb_lsb (pcs b side KING)) to_sq <=? 2) then 0
  else if negb (pcs b (color_opposite side) KING =? BB_EMPTY) &&
          (chebyshev_distance_sq (bb_lsb (pcs b (color_opposite side) KING)) to_sq <=? 2) then 0
  else (if to_rank =? 2 then 100 else 170) +
       (if search_kb_phase1_any_pawn_capture_available b side then 30 else 0).

(** The neighbour on the file [c] forms a pair whose distance to the king is
    the smaller of the two; [None] when there is no such neighbour. *)
Definition wall_pair (b : Board) (side : Color) (sq king_sq : Square) (row c : Z) : option Z :=
  if within 0 7 c && BB_HAS (pcs b side PAWN) (SQ row c) then
    let other_dist := chebyshev_distance_sq (SQ row c) king_sq in
    let self_dist := chebyshev_distance_sq sq king_sq in
    Some (if other_dist <? self_dist then other_dist else self_dist)
  else None.

Definition kb_phase1_connected_wall_move_score (b : Board) (side : Color) (sq : Square) : Z :=
  let opp := color_opposite side in
  let opp_king := pcs b opp KING in
  let row := SQ_ROW sq in
  let col := SQ_COL sq in
  let rank := search_kb_phase1_forward_rank side sq in
  if opp_king =? BB_EMPTY then 0
  else if rank <? 3 then 0
  else
    let king_sq := bb_lsb opp_king in
    let opp_rank := search_kb_phase1_forward_rank opp king_sq in
    if opp_rank <? 4 then 0
    else
      let pair_dist :=
        match wall_pair b side sq king_sq row (col - 1), wall_pair b side sq king_sq row (col + 1) with
        | None, None => None
        | Some l, None => Some l
        | None, Some r => Some r
        | Some l, Some r => Some (if r <? l then r else l)
        end in
      match pair_dist with
      | None => 0
      | Some d => if d <=? 2 then 760 else if d =? 3 then 280 else 0
      end.

(** Free squares straight ahead, at most [max_steps]. *)
Definition kb_phase1_forward_file_clearance (b : Board) (side : Color) (sq : Square)
    (max_steps : Z) : Z :=
  let row := SQ_ROW sq in
  let col := SQ_COL sq in
  let step := fwd side in
  clear_run b (map (fun i => SQ (row + step * i) col)
    (List.filter (fun i => within 0 7 (row + step * i)) (seqZ 1 max_steps))).

Definition search_kb_phase1_clear_promotion_lane (b : Board) (side : Color) (sq : Square) : Z :=
  let row := SQ_ROW sq in
  let col := SQ_COL sq in
  if side == WHITE then clear_run b (map (fun r => SQ r col) (seqZ (row + 1) (8 - (row + 1))))
  else clear_run b (map (fun i => SQ (row - 1 - i) col) (seqZ 0 row)).

Definition kb_phase1_has_secondary_pawn_capture (b : Board) (side : Color) (m : Move) : bool :=
  if negb ((MOVE_PIECE m == PAWN) && MOVE_IS_CAPTURE m && (MOVE_CAPTURED m == PAWN)) then false
  else
    let from_sq := MOVE_FROM m in
    let to_sq := MOVE_TO m in
    let target_row := SQ_ROW to_sq - fwd side in
    if (target_row <? 0) || (7 <? target_row) then false
    else
      let alt c := negb (SQ target_row c =? from_sq) && BB_HAS (pcs b side PAWN) (SQ target_row c) in
      ((0 <? SQ_COL to_sq) && alt (SQ_COL to_sq - 1)) ||
      ((SQ_COL to_sq <? 7) && alt (SQ_COL to_sq + 1)).

(** ** Variety at full skill *)

Definition search_kb_full_skill_variety_enabled (b : Board) : bool :=
  (b_mod b == MOD_KINGS_BATTLE) && negb (b_kb_unlocked b) && (b_fullmove b <=? 4) &&
  BB_HAS (pcs b WHITE KING) (SQ 0 4) && BB_HAS (pcs b BLACK KING) (SQ 7 4).

Definition search_kb_full_skill_variety_margin (b : Board) : Z :=
  if search_kb_full_skill_variety_enabled b then 20 else 0.

Definition search_kb_full_skill_tiebreak_band (b : Board) : Z :=
  if search_kb_full_skill_variety_enabled b then 15 else 0.

(** ** After the pieces are unlocked *)

Definition search_kb_unlocked_development_score (b : Board) (m : Move) (side : Color) : Z :=
  if (b_mod b != MOD_KINGS_BATTLE) || negb (b_kb_unlocked b) || special m then 0
  else
    let piece := MOVE_PIECE m in
    let to_sq := MOVE_TO m in
    let to_rank := rel_row side to_sq in
    if (piece != KNIGHT) && (piece != BISHOP) then 0
    else if negb (leaves_back_rank m side) then 0
    else (if piece == KNIGHT then 58 else 52) + (if within 2 5 (SQ_COL to_sq) then 10 else 0) +
         (if 2 <=? to_rank then 8 else 0).

Definition search_kb_unlocked_king_shelter_score (b : Board) (m : Move) (side : Color) : Z :=
  if (b_mod b != MOD_KINGS_BATTLE) || negb (b_kb_unlocked b) || (MOVE_PIECE m != PAWN) || special m
  then 0
  else
    let king_bb := pcs b side KING in
    let queen_bb := pcs b (color_opposite side) QUEEN in
    if (king_bb =? BB_EMPTY) || (queen_bb =? BB_EMPTY) then 0
    else
      let king_sq := bb_lsb king_bb in
      let from_sq := MOVE_FROM m in
      let to_sq := MOVE_TO m in
      let queen_sq := bb_lsb queen_bb in
      let from_dist := chebyshev_distance_sq from_sq king_sq in
      let to_dist := chebyshev_distance_sq to_sq king_sq in
      let queen_dist := chebyshev_distance_sq queen_sq king_sq in
      if (4 <? queen_dist) && (2 <? from_dist) && (1 <? to_dist) then 0
      else
        let score := if to_dist <=? 1 then 120
                     else if (to_dist =? 2) && (2 <? from_dist) then 50 else 0 in
        let score := score + (if from_dist <=? 1 then 35 else 0) in
        let score := score + (if queen_dist <=? 2 then 60 else if queen_dist <=? 4 then 30 else 0) in
        let queen_ray := Z.lor (bishop_attacks_calc queen_sq (b_all b))
                               (rook_attacks_calc queen_sq (b_all b)) in
        let score := score + (if BB_HAS queen_ray king_sq then 70 else 0) in
        let score := score + (if Z.abs (SQ_COL to_sq - SQ_COL king_sq) <=? 1 then 18 else 0) in
        score + (if ((side == WHITE) && (SQ_ROW to_sq <=? SQ_ROW king_sq)) ||
                    ((side == BLACK) && (SQ_ROW king_sq <=? SQ_ROW to_sq)) then 12 else 0).

Definition search_kb_unlocked_queen_pressure_score (b : Board) (m : Move) (side : Color) : Z :=
  if (b_mod b != MOD_KINGS_BATTLE) || negb (b_kb_unlocked b) || (MOVE_PIECE m != QUEEN) ||
     MOVE_IS_EP m || MOVE_IS_PROMO m then 0
  else
    let enemy_king := pcs b (color_opposite side) KING in
    if enemy_king =? BB_EMPTY then 0
    else
      let king_sq := bb_lsb enemy_king in
      let from_dist := chebyshev_distance_sq (MOVE_FROM m) king_sq in
      let to_dist := chebyshev_distance_sq (MOVE_TO m) king_sq in
      let score := if to_dist <=? 2 then 110 else 0 in
      let score := score + (if to_dist <? from_dist then (from_dist - to_dist) * 34 else 0) in
      let score := score + (if to_dist + 1 <? from_dist then 28 else 0) in
      score - (if from_dist + 1 <? to_dist then (to_dist - from_dist) * 40 else 0).

Definition kb_unlocked_local_pawn_shield (b : Board) (side : Color) (sq : Square) : Z :=
  bb_popcount (Z.land (pcs b side PAWN) (king_attacks sq)).

Definition search_kb_unlocked_king_safety_score (b : Board) (m : Move) (side : Color) : Z :=
  if (b_mod b != MOD_KINGS_BATTLE) || negb (b_kb_unlocked b) || (MOVE_PIECE m != KING) ||
     MOVE_IS_EP m || MOVE_IS_PROMO m then 0
  else
    let enemy_queen := pcs b (color_opposite side) QUEEN in
    if enemy_queen =? BB_EMPTY then 0
    else
      let queen_sq := bb_lsb enemy_queen in
      let from_sq := MOVE_FROM m in
      let to_sq := MOVE_TO m in
      let from_dist := chebyshev_distance_sq from_sq queen_sq in
      let to_dist := chebyshev_distance_sq to_sq queen_sq in
      let from_shield := kb_unlocked_local_pawn_shield b side from_sq in
      let to_shield := kb_unlocked_local_pawn_shield b side to_sq in
      let queen_ray := Z.lor (bishop_attacks_calc queen_sq (b_all b))
                             (rook_attacks_calc queen_sq (b_all b)) in
      let score := 40 in
      let score := score +
        (if from_dist <? to_dist then (to_dist - from_dist) * 28
         else if to_dist <? from_dist then - ((from_dist - to_dist) * 34) else 0) in
      let score := score +
        (if from_shield <? to_shield then (to_shield - from_shield) * 26
         else if to_shield <? from_shield then - ((from_shield - to_shield) * 30) else 0) in
      score + (if BB_HAS queen_ray from_sq && negb (BB_HAS queen_ray to_sq) then 52
               else if negb (BB_HAS queen_ray from_sq) && BB_HAS queen_ray to_sq then -58 else 0).

(** ** While the pieces are locked *)

(** Enemy pawns next to the destination, at 80 points each. *)
Definition kb_phase1_capturable (b : Board) (side : Color) (to_sq : Square) : Z :=
  bb_sum (fun ps => if chebyshev_distance_sq ps to_sq =? 1 then 1 else 0)
    (pcs b (color_opposite side) PAWN).

(** The block on open lanes, clearance and corridor blockers. *)
Definition kb_phase1_lane_terms (b : Board) (side : Color) (from_sq to_sq : Square) : Z :=
  let from_rank := search_kb_phase1_forward_rank side from_sq in
  let to_rank := search_kb_phase1_forward_rank side to_sq in
  let from_forward_open := search_kb_phase1_forward_lane_open b side from_sq in
  let to_forward_open := search_kb_phase1_forward_lane_open b side to_sq in
  let from_clear := kb_phase1_forward_file_clearance b side from_sq 2 in
  let to_clear := kb_phase1_forward_file_clearance b side to_sq 2 in
  let from_blockers := search_kb_phase1_forward_corridor_blockers b side from_sq 2 in
  let to_blockers := search_kb_phase1_forward_corridor_blockers b side to_sq 2 in
  let score := if to_forward_open && negb from_forward_open then 45
               else if negb to_forward_open && from_forward_open then -35 else 0 in
  let score := score +
    (if from_clear <? to_clear then (to_clear - from_clear) * 40
     else if to_clear <? from_clear then - ((from_clear - to_clear) * 30) else 0) in
  let score := score + (if (from_rank =? to_rank) && (from_clear =? 0) && (2 <=? to_clear)
                        then 120 else 0) in
  score +
    (if to_blockers <? from_blockers then (from_blockers - to_blockers) * 24
     else if from_blockers <? to_blockers then - ((to_blockers - from_blockers) * 18) else 0).

Definition search_kb_phase1_king_activation_score (b : Board) (m : Move) (side : Color) : Z :=
  if (b_mod b != MOD_KINGS_BATTLE) || b_kb_unlocked b || (MOVE_PIECE m != KING) ||
     MOVE_IS_PROMO m || MOVE_IS_EP m then 0
  else
    let from_sq := MOVE_FROM m in
    let to_sq := MOVE_TO m in
    let from_rank := search_kb_phase1_forward_rank side from_sq in
    let to_rank := search_kb_phase1_forward_rank side to_sq in
    let from_dist := kb_phase1_min_enemy_pawn_distance b side from_sq in
    let to_dist := kb_phase1_min_enemy_pawn_distance b side to_sq in
    let opp := color_opposite side in
    let enemy_king_rank :=
      if negb (pcs b opp KING =? BB_EMPTY)
      then search_kb_phase1_forward_rank opp (bb_lsb (pcs b opp KING)) else -1 in
    let score := if from_rank <? to_rank then (to_rank - from_rank) * 140 else 0 in
    let score := score - (if to_rank <? from_rank then (from_rank - to_rank) * 170 else 0) in
    let score := score + (if (from_rank =? 0) && (0 <? to_rank) then 120 else 0) in
    let score := score + (if within 2 5 (SQ_COL to_sq) then 40 else 0) in
    let score := score +
      (if (0 <? to_dist) && (0 <? from_dist) && (to_dist <? from_dist)
       then (from_dist - to_dist) * 60
       else if (0 <? to_dist) && (0 <? from_dist) && (from_dist <? to_dist)
       then - ((to_dist - from_dist) * 80) else 0) in
    let score := score +
      (if 0 <=? enemy_king_rank then
         if to_rank + 1 <? enemy_king_rank then - ((enemy_king_rank - to_rank - 1) * 44)
         else if enemy_king_rank <? to_rank then (to_rank - enemy_king_rank) * 18 else 0
       else 0) in
    let score := score + kb_phase1_capturable b side to_sq * 80 in
    let score := score + kb_phase1_lane_terms b side from_sq to_sq in
    score + (if MOVE_IS_CAPTURE m && (MOVE_CAPTURED m == PAWN) then 800 else 0).

(** The terms of a capture. *)
Definition kb_phase1_race_capture (b : Board) (m : Move) (side : Color) (from_rank to_rank : Z) : Z :=
  let to_sq := MOVE_TO m in
  let score := 80 + to_rank * 22 in
  let score := score +
    (if MOVE_CAPTURED m == PAWN then
       let enemy_progress := search_kb_phase1_forward_rank (color_opposite side) to_sq in
       110 + (if 3 <=? enemy_progress then 110 + (enemy_progress - 2) * 28 else 0) +
       (if kb_phase1_has_secondary_pawn_capture b side m then 260 else 0)
     else 40) in
  score + (if (3 <=? from_rank) && (from_rank <? to_rank) then 60 else 0).

(** The terms of a passed destination. *)
Definition kb_phase1_race_passed (b : Board) (side : Color) (to_sq : Square) (to_rank : Z) : Z :=
  let clear_lane := search_kb_phase1_clear_promotion_lane b side to_sq in
  let promo_dist := search_kb_phase1_promotion_distance side to_sq in
  let enemy_king_dist := kb_phase1_enemy_king_distance b side to_sq in
  let score := 90 + to_rank * 28 in
  let score := score + clear_lane * 20 in
  let score := score + (if promo_dist <=? clear_lane then 90 else 0) in
  score +
    (if promo_dist + 1 <? enemy_king_dist then 70 + (enemy_king_dist - promo_dist) * 18
     else if enemy_king_dist <=? 1 then -70
     else if enemy_king_dist =? 2 then -30 else 0).

Definition search_kb_phase1_pawn_race_score (b : Board) (m : Move) (side : Color) : Z :=
  if (b_mod b != MOD_KINGS_BATTLE) || b_kb_unlocked b || (MOVE_PIECE m != PAWN) ||
     MOVE_IS_PROMO m || MOVE_IS_EP m then 0
  else
    let from_sq := MOVE_FROM m in
    let to_sq := MOVE_TO m in
    let from_rank := search_kb_phase1_forward_rank side from_sq in
    let to_rank := search_kb_phase1_forward_rank side to_sq in
    let passed := kb_phase1_passed_destination b side to_sq in
    let king_pressure := kb_phase1_pawn_king_pressure b side to_sq in
    let score := (to_rank - from_rank) * 32 in
    let score := score + (if 3 <=? to_rank then (to_rank - 2) * 26 else 0) in
    let score := score + (if within 2 5 (SQ_COL to_sq) then 18 else 0) in
    let score := score + king_pressure in
    let score := score +
      (if negb (MOVE_IS_CAPTURE m) && (from_rank =? 1) && within 2 5 (SQ_COL from_sq)
       then 18 + (if (SQ_COL from_sq =? 3) || (SQ_COL from_sq =? 4) then 34 else 0) else 0) in
    let score := score -
      (if negb (MOVE_IS_CAPTURE m) && (from_rank =? 1) && (to_rank <=? 2) &&
          search_kb_phase1_any_pawn_capture_available b side then 420 else 0) in
    let score := score + kb_phase1_retreat_arc_move_score b side to_sq in
    let score := score + kb_phase1_connected_wall_move_score b side to_sq in
    let score := score +
      (if MOVE_IS_CAPTURE m then kb_phase1_race_capture b m side from_rank to_rank else 0) in
    let score := score + (if passed then kb_phase1_race_passed b side to_sq to_rank else 0) in
    score - kb_phase1_wing_drift_move_penalty b side m.

(** ** Move classes the bridge asks for *)

Definition search_kb_unlocked_is_queen_pressure_move (b : Board) (m : Move) (side : Color) : bool :=
  if (b_mod b != MOD_KINGS_BATTLE) || negb (b_kb_unlocked b) || (MOVE_PIECE m != QUEEN) ||
     MOVE_IS_EP m || MOVE_IS_PROMO m then false
  else if pcs b (color_opposite side) KING =? BB_EMPTY then false
  else
    let enemy_king := bb_lsb (pcs b (color_opposite side) KING) in
    let from_dist := chebyshev_distance_sq (MOVE_FROM m) enemy_king in
    let to_dist := chebyshev_distance_sq (MOVE_TO m) enemy_king in
    (to_dist <=? 2) || (to_dist + 1 <? from_dist).

Definition search_kb_unlocked_is_king_safety_move (b : Board) (m : Move) (side : Color) : bool :=
  (b_mod b == MOD_KINGS_BATTLE) && b_kb_unlocked b && (MOVE_PIECE m == KING) &&
  negb (MOVE_IS_EP m) && negb (MOVE_IS_PROMO m) &&
  negb (pcs b (color_opposite side) QUEEN =? BB_EMPTY).

Definition search_kb_unlocked_is_shelter_move (b : Board) (m : Move) (side : Color) : bool :=
  if (b_mod b != MOD_KINGS_BATTLE) || negb (b_kb_unlocked b) || (MOVE_PIECE m != PAWN) || special m
  then false
  else if (pcs b side KING =? BB_EMPTY) || (pcs b (color_opposite side) QUEEN =? BB_EMPTY) then false
  else chebyshev_distance_sq (MOVE_TO m) (bb_lsb (pcs b side KING)) <=? 1.

Definition search_kb_unlocked_is_development_move (b : Board) (m : Move) (side : Color) : bool :=
  let piece := MOVE_PIECE m in
  if (b_mod b != MOD_KINGS_BATTLE) || negb (b_kb_unlocked b) || special m then false
  else if (piece != KNIGHT) && (piece != BISHOP) then false
  else leaves_back_rank m side.

(** ** Bounds *)

Lemma chebyshev_nonneg (x y : Square) : 0 <= chebyshev_distance_sq x y.
Proof. unfold chebyshev_distance_sq. destruct (_ <? _); lia. Qed.

Lemma forward_rank_bounds (side : Color) (sq : Square) :
  0 <= SQ_ROW sq <= 8 -> -1 <= search_kb_phase1_forward_rank side sq <= 8.
Proof. intros. unfold search_kb_phase1_forward_rank. score_bounds. Qed.

Lemma min_pawn_distance_bounds (b : Board) (side : Color) (sq : Square) :
  0 <= kb_phase1_min_enemy_pawn_distance b side sq <= 15.
Proof.
  unfold kb_phase1_min_enemy_pawn_distance. cbv zeta.
  set (l := bb_squares _). clearbody l.
  assert (forall a, 0 <= a <= 15 -> 0 <= fold_left (fun d ps =>
    if chebyshev_distance_sq ps sq <? d then chebyshev_distance_sq ps sq else d) l a <= 15) as H.
  { induction l as [|x l IH]; intros a Ha; simpl; [done|]. apply IH.
    pose proof (chebyshev_nonneg x sq). destruct (Z.ltb_spec (chebyshev_distance_sq x sq) a); lia. }
  specialize (H 15 ltac:(lia)). destruct (_ =? 15); lia.
Qed.

Lemma clear_run_bounds (b : Board) (l : list Square) : 0 <= clear_run b l <= Z.of_nat (length l).
Proof. induction l as [|s l IH]; simpl; [lia|]. destruct (negb _); lia. Qed.

Lemma filter_length_bound {A} (f : A -> bool) (l : list A) :
  (length (List.filter f l) <= length l)%nat.
Proof. induction l as [|x l IH]; simpl; [lia|]. destruct (f x); simpl; lia. Qed.

Lemma file_clearance_bounds (b : Board) (side : Color) (sq : Square) :
  0 <= kb_phase1_forward_file_clearance b side sq 2 <= 2.
Proof.
  unfold kb_phase1_forward_file_clearance. cbv zeta.
  match goal with |- 0 <= clear_run b (map ?f (List.filter ?p ?l)) <= _ =>
    pose proof (clear_run_bounds b (map f (List.filter p l))) as H;
    pose proof (filter_length_bound p l) as HL end.
  rewrite length_map in H. change (length (seqZ 1 2)) with 2%nat in HL. lia.
Qed.

Lemma promotion_lane_bounds (b : Board) (side : Color) (sq : Square) :
  0 <= SQ_ROW sq <= 8 -> 0 <= search_kb_phase1_clear_promotion_lane b side sq <= 8.
Proof.
  intros Hr. unfold search_kb_phase1_clear_promotion_lane. cbv zeta.
  destruct (side == WHITE).
  - pose proof (clear_run_bounds b (map (fun r => SQ r (SQ_COL sq))
      (seqZ (SQ_ROW sq + 1) (8 - (SQ_ROW sq + 1))))) as H.
    rewrite length_map, length_seqZ in H. lia.
  - pose proof (clear_run_bounds b (map (fun i => SQ (SQ_ROW sq - 1 - i) (SQ_COL sq))
      (seqZ 0 (SQ_ROW sq)))) as H.
    rewrite length_map, length_seqZ in H. lia.
Qed.

Lemma corridor_row_bounds (b : Board) (side : Color) (nr col : Z) :
  0 <= corridor_row b side nr col <= 3.
Proof.
  unfold corridor_row. set (f := fun (blockers dc : Z) => _).
  assert (forall l a, a <= fold_left f l a <= a + Z.of_nat (length l)) as H;
    [|apply (H [-1; 0; 1] 0)].
  induction l as [|dc l IH]; intros a; [simpl; lia|]. cbn [fold_left length].
  specialize (IH (f a dc)).
  assert (a <= f a dc <= a + 1); [|lia].
  unfold f. cbv zeta. destruct (_ || _); [lia|]. destruct (BB_HAS _ _); lia.
Qed.

Lemma corridor_bounds (b : Board) (side : Color) (sq : Square) :
  0 <= search_kb_phase1_forward_corridor_blockers b side sq 2 <= 6.
Proof.
  unfold search_kb_phase1_forward_corridor_blockers. cbv zeta.
  change (seqZ 1 2) with [1; 2]. cbn [fold_left].
  pose proof (corridor_row_bounds b side (SQ_ROW sq + fwd side * 1) (SQ_COL sq)).
  pose proof (corridor_row_bounds b side (SQ_ROW sq + fwd side * 2) (SQ_COL sq)).
  score_bounds.
Qed.

Lemma king_pressure_bounds (b : Board) (side : Color) (sq : Square) :
  0 <= kb_phase1_pawn_king_pressure b side sq <= 155.
Proof. unfold kb_phase1_pawn_king_pressure. score_bounds. Qed.

Lemma retreat_arc_bounds (b : Board) (side : Color) (sq : Square) :
  0 <= kb_phase1_retreat_arc_move_score b side sq <= 400.
Proof.
  unfold kb_phase1_retreat_arc_move_score. cbv zeta.
  destruct (_ =? _); [lia|]. destruct (_ <? _); [lia|]. destruct (_ || _); [lia|].
  set (king_sq := bb_lsb _). set (ar := SQ_ROW sq + _). set (rr := SQ_ROW king_sq + _).
  assert (forall l acc, 0 <= acc.2 -> 0 <= (fold_left (retreat_step b sq king_sq ar rr) l acc).2
    <= acc.2 + Z.of_nat (length l)) as H.
  { induction l as [|dc l IH]; intros [s n] Hn; simpl in Hn; cbn [fold_left]; [simpl; lia|].
    assert (n <= (retreat_step b sq king_sq ar rr (s, n) dc).2 <= n + 1) as Hs.
    { unfold retreat_step. destruct (_ || _); [simpl; lia|]. destruct (_ && _); simpl; lia. }
    specialize (IH (retreat_step b sq king_sq ar rr (s, n) dc) ltac:(lia)).
    cbn [length snd] in *. lia. }
  specialize (H [-1; 0; 1] (0, 0) ltac:(simpl; lia)).
  destruct (fold_left _ _ _) as [sealed newly]. simpl in H. score_bounds.
Qed.

Lemma wall_bounds (b : Board) (side : Color) (sq : Square) :
  0 <= kb_phase1_connected_wall_move_score b side sq <= 760.
Proof.
  unfold kb_phase1_connected_wall_move_score. cbv zeta.
  destruct (_ =? _); [lia|]. destruct (_ <? _); [lia|]. destruct (_ <? _); [lia|].
  set (d := match wall_pair _ _ _ _ _ _ with Some _ => _ | None => _ end).
  destruct d; [score_bounds|lia].
Qed.

Lemma wing_drift_bounds (b : Board) (side : Color) (m : Move) :
  0 <= kb_phase1_wing_drift_move_penalty b side m <= 200.
Proof. unfold kb_phase1_wing_drift_move_penalty. score_bounds. Qed.

Lemma capturable_bounds (b : Board) (side : Color) (sq : Square) :
  0 <= kb_phase1_capturable b side sq <= 64.
Proof. apply (bb_sum_bounds _ 1). intros s. destruct (_ =? _); lia. Qed.

Lemma lane_terms_bounds (b : Board) (side : Color) (from_sq to_sq : Square) :
  -400 <= kb_phase1_lane_terms b side from_sq to_sq <= 500.
Proof.
  unfold kb_phase1_lane_terms.
  pose proof (file_clearance_bounds b side from_sq). pose proof (file_clearance_bounds b side to_sq).
  pose proof (corridor_bounds b side from_sq). pose proof (corridor_bounds b side to_sq).
  score_bounds.
Qed.

Lemma kb_development_bounds (b : Board) (m : Move) (side : Color) :
  0 <= search_kb_unlocked_development_score b m side <= 2000.
Proof. unfold search_kb_unlocked_development_score. score_bounds. Qed.

Lemma kb_shelter_bounds (b : Board) (m : Move) (side : Color) :
  0 <= search_kb_unlocked_king_shelter_score b m side <= 2000.
Proof. unfold search_kb_unlocked_king_shelter_score. score_bounds. Qed.

Lemma kb_queen_pressure_bounds (b : Board) (m : Move) (side : Color) :
  -2000 <= search_kb_unlocked_queen_pressure_score b m side <= 2000.
Proof.
  unfold search_kb_unlocked_queen_pressure_score.
  set (k := bb_lsb (pcs b (color_opposite side) KING)).
  pose proof (chebyshev_bounds (MOVE_FROM m) k (from_row_bounds m) (lsb_row_bounds _)).
  pose proof (chebyshev_bounds (MOVE_TO m) k (to_row_bounds m) (lsb_row_bounds _)).
  score_bounds.
Qed.

Lemma kb_king_safety_bounds (b : Board) (m : Move) (side : Color) :
  -3000 <= search_kb_unlocked_king_safety_score b m side <= 3000.
Proof.
  unfold search_kb_unlocked_king_safety_score, kb_unlocked_local_pawn_shield.
  set (k := bb_lsb (pcs b (color_opposite side) QUEEN)).
  pose proof (chebyshev_bounds (MOVE_FROM m) k (from_row_bounds m) (lsb_row_bounds _)).
  pose proof (chebyshev_bounds (MOVE_TO m) k (to_row_bounds m) (lsb_row_bounds _)).
  pose proof (popcount_bounds (Z.land (pcs b side PAWN) (king_attacks (MOVE_FROM m)))).
  pose proof (popcount_bounds (Z.land (pcs b side PAWN) (king_attacks (MOVE_TO m)))).
  score_bounds.
Qed.

Lemma kb_activation_bounds (b : Board) (m : Move) (side : Color) :
  -6000 <= search_kb_phase1_king_activation_score b m side <= 12000.
Proof.
  unfold search_kb_phase1_king_activation_score.
  pose proof (forward_rank_bounds side (MOVE_FROM m) (from_row_bounds m)).
  pose proof (forward_rank_bounds side (MOVE_TO m) (to_row_bounds m)).
  pose proof (forward_rank_bounds (color_opposite side)
    (bb_lsb (pcs b (color_opposite side) KING)) (lsb_row_bounds _)).
  pose proof (min_pawn_distance_bounds b side (MOVE_FROM m)).
  pose proof (min_pawn_distance_bounds b side (MOVE_TO m)).
  pose proof (capturable_bounds b side (MOVE_TO m)).
  pose proof (lane_terms_bounds b side (MOVE_FROM m) (MOVE_TO m)).
  score_bounds.
Qed.

Lemma kb_race_bounds (b : Board) (m : Move) (side : Color) :
  -3000 <= search_kb_phase1_pawn_race_score b m side <= 5000.
Proof.
  unfold search_kb_phase1_pawn_race_score, kb_phase1_race_capture, kb_phase1_race_passed,
    search_kb_phase1_promotion_distance, kb_phase1_enemy_king_distance.
  pose proof (forward_rank_bounds side (MOVE_FROM m) (from_row_bounds m)).
  pose proof (forward_rank_bounds side (MOVE_TO m) (to_row_bounds m)).
  pose proof (forward_rank_bounds (color_opposite side) (MOVE_TO m) (to_row_bounds m)).
  pose proof (king_pressure_bounds b side (MOVE_TO m)).
  pose proof (retreat_arc_bounds b side (MOVE_TO m)).
  pose proof (wall_bounds b side (MOVE_TO m)).
  pose proof (wing_drift_bounds b side m).
  pose proof (promotion_lane_bounds b side (MOVE_TO m) (to_row_bounds m)).
  pose proof (chebyshev_bounds (MOVE_TO m) (bb_lsb (pcs b (color_opposite side) KING))
    (to_row_bounds m) (lsb_row_bounds _)).
  score_bounds.
Qed.
