(* ===== verification/HeurFriendlyFire.v ===== *)
(** * Friendly Fire search heuristics ([heuristics_friendly_fire.c]) *)

From stdpp Require Import base numbers list option.
From Stdlib Require Import ZArith Lia Bool.
From S2P Require Import Prelude Types Board Attacks Make EvalCommon HeurCommon.

(** ** Helpers *)

Definition ff_undeveloped_minor_count (b : Board) (side : Color) : Z :=
  if b_mod b != MOD_FRIENDLY_FIRE then 0 else back_rank_minors b side.

Definition ff_pawn_shield_count (b : Board) (side : Color) (king_sq : Square) : Z :=
  let row := SQ_ROW king_sq in
  let col := SQ_COL king_sq in
  let next_row := row + fwd side in
  if (next_row <? 0) || (7 <? next_row) then 0
  else fold_left (fun shield dc =>
    let nc := col + dc in
    if (nc <? 0) || (7 <? nc) then shield
    else if BB_HAS (pcs b side PAWN) (SQ next_row nc) then shield + 1 else shield) [-1; 0; 1] 0.

Definition ff_center_file_distance (sq : Square) : Z :=
  let file := SQ_COL sq in
  let d3 := Z.abs (file - 3) in
  let d4 := Z.abs (file - 4) in
  if d3 <? d4 then d3 else d4.

Definition ff_is_flank_file (file : Z) : bool := (file <=? 1) || (6 <=? file).

Definition ff_side_pawn_activity (b : Board) (side : Color) : Z :=
  bb_sum (fun sq =>
    let file := SQ_COL sq in
    let rank := rel_row side sq in
    if ((file <=? 2) || (5 <=? file)) && negb (rank =? 1) then 1 else 0) (pcs b side PAWN).

Definition queen_attacks_calc (sq : Square) (occ : Bitboard) : Bitboard :=
  Z.lor (bishop_attacks_calc sq occ) (rook_attacks_calc sq occ).

Definition ff_guard_piece_attacks (piece : PieceType) (sq : Square) (occ : Bitboard) : Bitboard :=
  if piece == BISHOP then bishop_attacks_calc sq occ
  else if piece == QUEEN then queen_attacks_calc sq occ
  else BB_EMPTY.

Definition ff_pressure_piece_attacks (piece : PieceType) (sq : Square) (occ : Bitboard) : Bitboard :=
  if piece == KNIGHT then knight_attacks sq
  else if piece == BISHOP then bishop_attacks_calc sq occ
  else if piece == QUEEN then queen_attacks_calc sq occ
  else BB_EMPTY.

Definition ff_pressure_pawn_bonus (side : Color) (pawn_sq king_sq : Square) (has_king_sq : bool) : Z :=
  let forward_rank := rel_row side pawn_sq in
  14 + (if forward_rank <=? 1 then 12 else 0) + (if forward_rank <=? 2 then 6 else 0) +
  (if has_king_sq && (Z.abs (SQ_COL pawn_sq - SQ_COL king_sq) <=? 1) then 10 else 0).

Definition ff_piece_challenge_penalty (piece : PieceType) (immediate : bool) : Z :=
  match piece with
  | KNIGHT => if immediate then 140 else 54
  | BISHOP => if immediate then 112 else 42
  | QUEEN => if immediate then 64 else 24
  | _ => 0
  end.

Definition ff_piece_harass_bonus (piece : Piece) : Z :=
  if piece =? PIECE_EMPTY then 0
  else match PIECE_TYPE piece with
       | QUEEN => 60
       | ROOK => 52
       | BISHOP | KNIGHT => 44
       | _ => 0
       end.

Definition ff_self_capture_prep_target_bonus (piece : Piece) : Z :=
  if piece =? PIECE_EMPTY then 0
  else match PIECE_TYPE piece with
       | KING => 108
       | QUEEN => 72
       | ROOK => 58
       | BISHOP | KNIGHT => 44
       | _ => 0
       end.

(** The walk along one ray.  [blocker] holds type and distance of the own
    piece met first.  Each round leaves the last square behind, so eight
    rounds leave the board. *)
Fixpoint ff_ray_loop (fuel : nat) (b : Board) (occ : Bitboard) (from_sq : Square) (side : Color)
    (dr dc row col step : Z) (blocker : option (PieceType * Z)) : Z :=
  match fuel with
  | O => 0
  | S f =>
      let row := row + dr in
      let col := col + dc in
      let step := step + 1 in
      if (row <? 0) || (7 <? row) || (col <? 0) || (7 <? col) then 0
      else
        let sq := SQ row col in
        if negb (BB_HAS occ sq) || (sq =? from_sq)
        then ff_ray_loop f b occ from_sq side dr dc row col step blocker
        else
          let piece := mb b sq in
          if piece =? PIECE_EMPTY then ff_ray_loop f b occ from_sq side dr dc row col step blocker
          else match blocker with
          | None =>
              if (PIECE_COLOR piece == side) && (PIECE_TYPE piece != KING) && BB_HAS (b_ff_moved b) sq
              then ff_ray_loop f b occ from_sq side dr dc row col step (Some (PIECE_TYPE piece, step))
              else 0
          | Some (blocker_type, blocker_step) =>
              if PIECE_COLOR piece == side then 0
              else
                let bonus := ff_self_capture_prep_target_bonus piece in
                if bonus <=? 0 then 0
                else
                  bonus +
                  (if blocker_type == PAWN then 36
                   else if (blocker_type == KNIGHT) || (blocker_type == BISHOP) then 14 else 0) +
                  (if blocker_step <=? 2 then 18 else 0) +
                  (if step - blocker_step <=? 3 then 14 else 0)
          end
  end.

Definition ff_self_capture_prep_ray_score (b : Board) (from_sq to_sq : Square) (side : Color)
    (dr dc : Z) : Z :=
  let occ := Z.lor (Z.land (b_all b) (bb_not (BB_SQ from_sq))) (BB_SQ to_sq) in
  ff_ray_loop 8 b occ from_sq side dr dc (SQ_ROW to_sq) (SQ_COL to_sq) 0 None.

(** ** Own captures *)

Definition search_ff_is_own_capture (b : Board) (m : Move) : bool :=
  if b_mod b != MOD_FRIENDLY_FIRE then false
  else if negb (MOVE_IS_CAPTURE m || MOVE_IS_EP m) then false
  else if MOVE_IS_EP m then false
  else
    let from_piece := mb b (MOVE_FROM m) in
    let to_piece := mb b (MOVE_TO m) in
    if (from_piece =? PIECE_EMPTY) || (to_piece =? PIECE_EMPTY) then false
    else PIECE_COLOR from_piece == PIECE_COLOR to_piece.

(** What the capturing piece attacks from its new square. *)
Definition ff_capturer_attacks (b : Board) (mover : PieceType) (from_sq to_sq : Square) (side : Color)
    : Bitboard :=
  let occ := Z.lxor (b_all b) (BB_SQ from_sq) in
  let attacks := BB_EMPTY in
  let attacks := if (mover == BISHOP) || (mover == QUEEN)
                 then Z.lor attacks (bishop_attacks_calc to_sq occ) else attacks in
  let attacks := if (mover == ROOK) || (mover == QUEEN)
                 then Z.lor attacks (rook_attacks_calc to_sq occ) else attacks in
  let attacks := if mover == KNIGHT then Z.lor attacks (knight_attacks to_sq) else attacks in
  let attacks := if mover == KING then Z.lor attacks (king_attacks to_sq) else attacks in
  if mover == PAWN then
    let attack_row := SQ_ROW to_sq + fwd side in
    let file := SQ_COL to_sq in
    if (0 <=? attack_row) && (attack_row <? 8) then
      let attacks := if 0 <? file then Z.lor attacks (BB_SQ (SQ attack_row (file - 1))) else attacks in
      if file <? 7 then Z.lor attacks (BB_SQ (SQ attack_row (file + 1))) else attacks
    else attacks
  else attacks.

Definition search_ff_self_capture_score (b : Board) (m : Move) (side : Color) : Z :=
  if negb (search_ff_is_own_capture b m) then 0
  else
    let mover := MOVE_PIECE m in
    let captured := MOVE_CAPTURED m in
    let from_sq := MOVE_FROM m in
    let to_sq := MOVE_TO m in
    if negb ((captured == PAWN) || (captured == KNIGHT) || (captured == BISHOP)) then 0
    else
      let score := if captured == PAWN then 90 else 18 in
      let to_rank := rel_row side to_sq in
      let score := score +
        (if mover == QUEEN then 40
         else if (mover == ROOK) || (mover == BISHOP) then 28
         else if mover == KNIGHT then 18
         else if mover == KING then 8
         else if (mover == PAWN) && (captured == PAWN) then
           60 + (if 3 <=? to_rank then 50 else 0) + (if 4 <=? to_rank then 30 else 0) +
           (if (SQ_COL from_sq =? 0) || (SQ_COL from_sq =? 7) then 24 else 0)
         else 0) in
      let score := score + (if central to_sq then 70 else 0) in
      let attacks := ff_capturer_attacks b mover from_sq to_sq side in
      let opp := color_opposite side in
      let score := score +
        (if negb (pcs b opp KING =? BB_EMPTY) then
           let king_sq := bb_lsb (pcs b opp KING) in
           let dist := chebyshev_distance_sq to_sq king_sq in
           (if BB_HAS attacks king_sq then 96 else 0) +
           (if dist <=? 2 then 44 else if dist =? 3 then 18 else 0)
         else 0) in
      score +
        (if negb (pcs b opp QUEEN =? BB_EMPTY) && BB_HAS attacks (bb_lsb (pcs b opp QUEEN))
         then 36 else 0).

(** ** Quiet moves *)

Definition search_ff_minor_development_score (b : Board) (m : Move) (side : Color) : Z :=
  if (b_mod b != MOD_FRIENDLY_FIRE) || special m then 0
  else
    let piece := MOVE_PIECE m in
    if (piece != KNIGHT) && (piece != BISHOP) then 0
    else if negb (leaves_back_rank m side) then 0
    else
      let to_sq := MOVE_TO m in
      let undeveloped := ff_undeveloped_minor_count b side in
      let to_rank := rel_row side to_sq in
      let score := if piece == KNIGHT then 56 else 46 in
      let score := score + (if 2 <=? undeveloped then 14 else 0) in
      let score := score + (if 3 <=? undeveloped then 8 else 0) in
      let score := score + (if within 2 5 (SQ_COL to_sq) then 12 else 0) in
      let score := score + (if 2 <=? to_rank then 8 else 0) in
      score + (if (piece == BISHOP) && (1 <=? to_rank) then 8 else 0).

Definition castle_rights_of (side : Color) : Z :=
  if side == WHITE then Z.lor CASTLE_WK CASTLE_WQ else Z.lor CASTLE_BK CASTLE_BQ.

Definition search_ff_early_queen_sortie_penalty (b : Board) (m : Move) (side : Color) : Z :=
  if (b_mod b != MOD_FRIENDLY_FIRE) || (MOVE_PIECE m != QUEEN) || special m then 0
  else
    let from_sq := MOVE_FROM m in
    let to_sq := MOVE_TO m in
    if 12 <? b_fullmove b then 0
    else if Z.land (b_castling b) (castle_rights_of side) =? 0 then 0
    else if negb (leaves_back_rank m side) then 0
    else
      let undeveloped := ff_undeveloped_minor_count b side in
      if undeveloped <=? 1 then 0
      else
        let king_bb := pcs b side KING in
        let king_sq := bb_lsb king_bb in
        let to_rank := rel_row side to_sq in
        let near := (to_rank <=? 2) && (chebyshev_distance_sq to_sq king_sq <=? 2) in
        let penalty := 84 + undeveloped * 22 in
        let penalty := penalty +
          (if negb (king_bb =? BB_EMPTY) then
             (if (SQ_ROW king_sq =? back_rank side) && within 3 4 (SQ_COL king_sq) then 24 else 0) -
             (if near then 32 else 0) -
             (if near && board_square_attacked b from_sq (color_opposite side) then 24 else 0)
           else 0) in
        if penalty <? 0 then 0 else penalty.

(** The bonus of a pawn's first step. *)
Definition ff_pawn_first_step (b : Board) (side : Color) (file to_rank activity undeveloped : Z) : Z :=
  let score := 22 in
  let score := score + (if 3 <=? to_rank then 18 else 8) in
  let score := score + (if within 2 5 file then 12 else 0) in
  let score := score +
    (if (file =? 3) || (file =? 4) then
       30 + (if 2 <=? undeveloped then 18 else 0) + (if 0 <? activity then 34 + activity * 10 else 0)
     else if ((file =? 2) || (file =? 5)) && (0 <? activity) then 22 + activity * 6 else 0) in
  let king_bb := pcs b side KING in
  let king_sq := bb_lsb king_bb in
  let score := score +
    (if negb (king_bb =? BB_EMPTY) &&
        (((side == WHITE) && (king_sq =? SQ 0 4)) || ((side == BLACK) && (king_sq =? SQ 7 4))) &&
        ((file =? 3) || (file =? 4)) then 16 else 0) in
  let score := score +
    (if (0 <? activity) && (file =? 4) &&
        BB_HAS (pcs b side BISHOP) (if side == WHITE then SQ 0 5 else SQ 7 5) then 18 else 0) in
  score +
    (if (0 <? activity) && (file =? 3) &&
        BB_HAS (pcs b side BISHOP) (if side == WHITE then SQ 0 2 else SQ 7 2) then 16 else 0).

(** The bonus of a deep advance. *)
Definition ff_pawn_deep_push (b : Board) (side : Color) (to_sq : Square) (file to_rank : Z) : Z :=
  let push_row := SQ_ROW to_sq + fwd side in
  let score := 26 + (to_rank - 4) * 18 in
  let score := score + (if 6 <=? to_rank then 44 else 0) in
  let score := score + (if within 2 5 file then 10 else 0) in
  let enemy_king_bb := pcs b (color_opposite side) KING in
  let enemy_king_sq := bb_lsb enemy_king_bb in
  let score := score +
    (if negb (enemy_king_bb =? BB_EMPTY) then
       (if chebyshev_distance_sq to_sq enemy_king_sq <=? 3 then 16 else 0) +
       (if Z.abs (file - SQ_COL enemy_king_sq) <=? 1 then 14 else 0)
     else 0) in
  score + (if (0 <=? push_row) && (push_row <? 8) && negb (BB_HAS (b_all b) (SQ push_row file))
           then 18 else 0).

(** The enemy piece on a square the pawn will attack. *)
Definition ff_pawn_harass (b : Board) (side : Color) (s : Square) : Z :=
  let piece := mb b s in
  if negb (piece =? PIECE_EMPTY) && (PIECE_COLOR piece == color_opposite side)
  then ff_piece_harass_bonus piece else 0.

Definition search_ff_quiet_pawn_score (b : Board) (m : Move) (side : Color) : Z :=
  if (b_mod b != MOD_FRIENDLY_FIRE) || (MOVE_PIECE m != PAWN) || special m then 0
  else if 16 <? b_fullmove b then 0
  else
    let from_sq := MOVE_FROM m in
    let to_sq := MOVE_TO m in
    let from_rank := rel_row side from_sq in
    let to_rank := rel_row side to_sq in
    let file := SQ_COL to_sq in
    let side_pawn_activity := ff_side_pawn_activity b side in
    let undeveloped := ff_undeveloped_minor_count b side in
    let score := if from_rank =? 1
                 then ff_pawn_first_step b side file to_rank side_pawn_activity undeveloped else 0 in
    let score := score +
      (if ((file =? 1) || (file =? 6)) && (3 <=? from_rank) && (to_rank =? from_rank + 1) then
         72 + (if 4 <=? to_rank then 18 else 0) + (if 0 <? side_pawn_activity then 12 else 0)
       else 0) in
    let score := score +
      (if (5 <=? to_rank) && (to_rank =? from_rank + 1)
       then ff_pawn_deep_push b side to_sq file to_rank else 0) in
    let attack_row := SQ_ROW to_sq + fwd side in
    score +
      (if (0 <=? attack_row) && (attack_row <? 8) then
         (if 0 <? file then ff_pawn_harass b side (SQ attack_row (file - 1)) else 0) +
         (if file <? 7 then ff_pawn_harass b side (SQ attack_row (file + 1)) else 0)
       else 0).

Definition search_ff_quiet_pressure_score (b : Board) (m : Move) (side : Color) : Z :=
  if (b_mod b != MOD_FRIENDLY_FIRE) || special m then 0
  else
    let piece := MOVE_PIECE m in
    if (piece != KNIGHT) && (piece != BISHOP) && (piece != QUEEN) then 0
    else if (piece == QUEEN) && (0 <? search_ff_early_queen_sortie_penalty b m side) then 0
    else
      let from_sq := MOVE_FROM m in
      let to_sq := MOVE_TO m in
      let opp := color_opposite side in
      let occ := Z.lor (Z.lxor (b_all b) (BB_SQ from_sq)) (BB_SQ to_sq) in
      let attacks := ff_pressure_piece_attacks piece to_sq occ in
      let enemy_king_bb := pcs b opp KING in
      let has_enemy_king := negb (enemy_king_bb =? BB_EMPTY) in
      let enemy_king_sq := if has_enemy_king then bb_lsb enemy_king_bb else SQ 0 4 in
      let king_zone := Z.lor (king_attacks enemy_king_sq) (BB_SQ enemy_king_sq) in
      let zone_hits := bb_popcount (Z.land attacks king_zone) in
      let score :=
        if has_enemy_king then
          (if 0 <? zone_hits then
             if piece == KNIGHT then zone_hits * 18
             else if piece == BISHOP then zone_hits * 14 else zone_hits * 10
           else 0) +
          (if BB_HAS attacks enemy_king_sq then if piece == QUEEN then 28 else 40 else 0)
        else 0 in
      let queen_hit := bb_nonzero (Z.land attacks (pcs b opp QUEEN)) in
      let score := score + (if queen_hit then 68 else 0) in
      let pawns := Z.land attacks (pcs b opp PAWN) in
      let rook_hits := bb_popcount (Z.land attacks (pcs b opp ROOK)) in
      let minor_hits :=
        bb_popcount (Z.land attacks (Z.lor (pcs b opp BISHOP) (pcs b opp KNIGHT))) in
      let target_hits := (if queen_hit then 1 else 0) + rook_hits + minor_hits in
      let pawn_hits := bb_sum (fun _ => 1) pawns in
      let score := score + rook_hits * 50 in
      let score := score + minor_hits * 36 in
      let score := score +
        bb_sum (fun pawn_sq => ff_pressure_pawn_bonus opp pawn_sq enemy_king_sq has_enemy_king) pawns in
      score +
        (if piece == KNIGHT then
           (if 4 <=? rel_row side to_sq then 16 else 0) +
           (if 2 <=? target_hits + pawn_hits then 18 else 0) +
           (if ff_is_flank_file (SQ_COL to_sq) && (0 <? pawn_hits) then 10 else 0)
         else if piece == BISHOP then (if 2 <=? target_hits + pawn_hits then 12 else 0)
         else if 0 <? target_hits then 12 else 0).

(** The king lands on its home rank off the two central files. *)
Definition ff_tucked (side : Color) (to_sq : Square) : bool :=
  (SQ_ROW to_sq =? back_rank side) && ((SQ_COL to_sq <=? 2) || (5 <=? SQ_COL to_sq)).

(** The enemy queen's lines before and after the move. *)
Definition ff_king_ray_terms (b : Board) (side : Color) (from_sq to_sq : Square) : Z :=
  let enemy_queen := pcs b (color_opposite side) QUEEN in
  if negb (enemy_queen =? BB_EMPTY) then
    let queen_sq := bb_lsb enemy_queen in
    let cur_ray := queen_attacks_calc queen_sq (b_all b) in
    let occ_after := Z.lor (Z.lxor (b_all b) (BB_SQ from_sq)) (BB_SQ to_sq) in
    let next_ray := queen_attacks_calc queen_sq occ_after in
    (if BB_HAS cur_ray from_sq && negb (BB_HAS next_ray to_sq) then 44 else 0) -
    (if negb (BB_HAS cur_ray from_sq) && BB_HAS next_ray to_sq then 32 else 0)
  else 0.

(** The king's square attacked before and after the move. *)
Definition ff_king_heat_terms (b : Board) (m : Move) (side : Color) : Z :=
  let next := board_make_move b m in
  let next_king_sq := bb_lsb (pcs next side KING) in
  let from_hot := board_square_attacked b (MOVE_FROM m) (color_opposite side) in
  let to_hot := board_square_attacked next next_king_sq (color_opposite side) in
  (if from_hot && negb to_hot then 64 else 0) - (if negb from_hot && to_hot then 96 else 0).

Definition search_ff_king_safety_score (b : Board) (m : Move) (side : Color) : Z :=
  if (b_mod b != MOD_FRIENDLY_FIRE) || (MOVE_PIECE m != KING) || special m then 0
  else
    let from_sq := MOVE_FROM m in
    let to_sq := MOVE_TO m in
    let home_rank := back_rank side in
    let undeveloped := ff_undeveloped_minor_count b side in
    let home x := SQ_ROW x =? home_rank in
    let score :=
      if negb (MOVE_IS_CASTLE m) && (b_fullmove b <=? 24) &&
         negb (Z.land (b_castling b) (castle_rights_of side) =? 0)
      then -208 - (if home from_sq && home to_sq && (Z.abs (SQ_COL to_sq - SQ_COL from_sq) =? 1)
                   then 56 else 0)
      else 0 in
    let score := score + (if MOVE_IS_CASTLE m then 220 else 0) in
    let score := score + (if home from_sq && ff_tucked side to_sq then 96 else 0) in
    let score := score +
      (if ((side == WHITE) && (SQ_ROW to_sq <=? 1)) || ((side == BLACK) && (6 <=? SQ_ROW to_sq))
       then ff_pawn_shield_count b side to_sq * 20 else 0) in
    let score := score +
      (if ff_center_file_distance from_sq <? ff_center_file_distance to_sq then 28 else 0) in
    let score := score -
      (if home from_sq && (0 <? undeveloped) && negb (ff_tucked side to_sq) &&
          (negb (home to_sq) || within 3 4 (SQ_COL to_sq)) then 90 else 0) in
    let score := score + ff_king_ray_terms b side from_sq to_sq in
    score + ff_king_heat_terms b m side.

Definition search_ff_king_zone_guard_score (b : Board) (m : Move) (side : Color) : Z :=
  if (b_mod b != MOD_FRIENDLY_FIRE) || special m then 0
  else
    let piece := MOVE_PIECE m in
    if (piece != BISHOP) && (piece != QUEEN) then 0
    else
      let king_bb := pcs b side KING in
      if king_bb =? BB_EMPTY then 0
      else
        let king_sq := bb_lsb king_bb in
        let from_sq := MOVE_FROM m in
        let to_sq := MOVE_TO m in
        let from_dist := chebyshev_distance_sq from_sq king_sq in
        let to_dist := chebyshev_distance_sq to_sq king_sq in
        let shield := ff_pawn_shield_count b side king_sq in
        let from_home := (piece == QUEEN) && (SQ_ROW from_sq =? back_rank side) in
        if from_home && ((2 <? rel_row side to_sq) || (2 <? to_dist)) then 0
        else if (18 <? b_fullmove b) && (2 <=? shield) && (from_dist <=? to_dist) then 0
        else
          let occ_before := Z.lxor (b_all b) (BB_SQ from_sq) in
          let occ_after := Z.lor occ_before (BB_SQ to_sq) in
          let king_zone := Z.lor (king_attacks king_sq) (BB_SQ king_sq) in
          let before_cover :=
            bb_popcount (Z.land (ff_guard_piece_attacks piece from_sq occ_before) king_zone) in
          let after_cover :=
            bb_popcount (Z.land (ff_guard_piece_attacks piece to_sq occ_after) king_zone) in
          let score := if before_cover <? after_cover then (after_cover - before_cover) * 44 else 0 in
          let score := score + (if (to_dist <? from_dist) && (to_dist <=? 3)
                                then (from_dist - to_dist) * 26 else 0) in
          let score := score + (if BB_HAS king_zone to_sq then 24 else 0) in
          let score := score + (if (piece == BISHOP) && (to_dist <=? 1) then 26 else 0) in
          let score := score + (if (piece == QUEEN) && (to_dist <=? 2) then 20 else 0) in
          let score := score + (if (shield <=? 1) && (to_dist <=? 2) then 18 else 0) in
          if from_home then
            score ÷ 2 + (if board_square_attacked b from_sq (color_opposite side) then 16 else 0)
          else score.

(** [if (ray_score > score) score = ray_score] over a list of directions. *)
Definition ff_best_ray (b : Board) (m : Move) (side : Color) (dirs : list (Z * Z)) (score : Z) : Z :=
  fold_left (fun score d =>
    let ray_score := ff_self_capture_prep_ray_score b (MOVE_FROM m) (MOVE_TO m) side d.1 d.2 in
    if score <? ray_score then ray_score else score) dirs score.

Definition search_ff_self_capture_prep_score (b : Board) (m : Move) (side : Color) : Z :=
  if (b_mod b != MOD_FRIENDLY_FIRE) || special m then 0
  else
    let piece := MOVE_PIECE m in
    if (piece != BISHOP) && (piece != QUEEN) then 0
    else if (piece == QUEEN) && (0 <? search_ff_early_queen_sortie_penalty b m side) then 0
    else
      let score := ff_best_ray b m side [(1, 1); (1, -1); (-1, 1); (-1, -1)] 0 in
      if piece == QUEEN then ff_best_ray b m side [(1, 0); (-1, 0); (0, 1); (0, -1)] score else score.

(** A pawn on [(row, file)] attacks [to_sq] from the row [attack_row - step]. *)
Definition ff_pawn_hits (attack_row file : Z) (to_sq : Square) : bool :=
  ((0 <? file) && (SQ attack_row (file - 1) =? to_sq)) ||
  ((file <? 7) && (SQ attack_row (file + 1) =? to_sq)).

Definition search_ff_pawn_challenge_penalty (b : Board) (m : Move) (side : Color) : Z :=
  if (b_mod b != MOD_FRIENDLY_FIRE) || special m then 0
  else
    let piece := MOVE_PIECE m in
    if (piece != KNIGHT) && (piece != BISHOP) && (piece != QUEEN) then 0
    else
      let from_sq := MOVE_FROM m in
      let to_sq := MOVE_TO m in
      let opp := color_opposite side in
      let occ := Z.lor (Z.lxor (b_all b) (BB_SQ from_sq)) (BB_SQ to_sq) in
      fold_left (fun penalty pawn_sq =>
        let file := SQ_COL pawn_sq in
        let row := SQ_ROW pawn_sq in
        let step := fwd opp in
        let attack_row := row + step in
        if (0 <=? attack_row) && (attack_row <? 8) && ff_pawn_hits attack_row file to_sq then
          let current := ff_piece_challenge_penalty piece true in
          if penalty <? current then current else penalty
        else if (row + step <? 0) || (7 <? row + step) then penalty
        else if BB_HAS occ (SQ (row + step) file) then penalty
        else
          let attack_row := row + step + step in
          if (attack_row <? 0) || (7 <? attack_row) then penalty
          else if ff_pawn_hits attack_row file to_sq then
            let projected := ff_piece_challenge_penalty piece false in
            if penalty <? projected then projected else penalty
          else penalty) (bb_squares (pcs b opp PAWN)) 0.

(** [(piece == KNIGHT) ? n : (piece == BISHOP) ? bi : q] *)
Definition by_minor (piece : PieceType) (n bi q : Z) : Z :=
  if piece == KNIGHT then n else if piece == BISHOP then bi else q.

Definition search_ff_flank_pawn_harass_penalty (b : Board) (m : Move) (side : Color) : Z :=
  if (b_mod b != MOD_FRIENDLY_FIRE) || special m then 0
  else
    let piece := MOVE_PIECE m in
    if (piece != KNIGHT) && (piece != BISHOP) && (piece != QUEEN) then 0
    else
      let to_sq := MOVE_TO m in
      let opp := color_opposite side in
      let penalty := fold_left (fun penalty pawn_sq =>
        let file := SQ_COL pawn_sq in
        let rank := rel_row opp pawn_sq in
        if negb (ff_is_flank_file file) || (rank <? 3) then penalty
        else
          let attack_row := SQ_ROW pawn_sq + fwd opp in
          let penalty :=
            if (0 <=? attack_row) && (attack_row <? 8) && ff_pawn_hits attack_row file to_sq then
              let current := by_minor piece 44 30 18 in
              if penalty <? current then current else penalty
            else penalty in
          let push_row := SQ_ROW pawn_sq + fwd opp in
          if (push_row <? 0) || (7 <? push_row) then penalty
          else if BB_HAS (b_all b) (SQ push_row file) then penalty
          else
            let attack_row := push_row + fwd opp in
            if (attack_row <? 0) || (7 <? attack_row) then penalty
            else if ff_pawn_hits attack_row file to_sq then
              let projected := by_minor piece 84 56 36 in
              if penalty <? projected then projected else penalty
            else penalty) (bb_squares (pcs b opp PAWN)) 0 in
      if piece == QUEEN then penalty ÷ 2 else penalty.

(** ** Bounds *)

Lemma ff_undeveloped_bounds (b : Board) (side : Color) : 0 <= ff_undeveloped_minor_count b side <= 64.
Proof.
  unfold ff_undeveloped_minor_count. pose proof (back_rank_minors_bounds b side). score_bounds.
Qed.

Lemma ff_shield_bounds (b : Board) (side : Color) (sq : Square) :
  0 <= ff_pawn_shield_count b side sq <= 3.
Proof.
  unfold ff_pawn_shield_count. cbv zeta. destruct (_ || _); [lia|]. cbn [fold_left].
  repeat match goal with
  | |- context [if (?x <? 0) || ?y then _ else _] => destruct ((x <? 0) || y)
  end; repeat destruct (BB_HAS _ _); lia.
Qed.

Lemma ff_activity_bounds (b : Board) (side : Color) : 0 <= ff_side_pawn_activity b side <= 64.
Proof. apply (bb_sum_bounds _ 1). intros s. cbv zeta. destruct (_ && _); lia. Qed.

Lemma ff_challenge_bounds (piece : PieceType) (immediate : bool) :
  0 <= ff_piece_challenge_penalty piece immediate <= 140.
Proof. destruct piece, immediate; simpl; lia. Qed.

Lemma ff_harass_bonus_bounds (piece : Piece) : 0 <= ff_piece_harass_bonus piece <= 60.
Proof. unfold ff_piece_harass_bonus. destruct (_ =? _); [lia|]. destruct (PIECE_TYPE piece); lia. Qed.

Lemma ff_target_bounds (piece : Piece) : 0 <= ff_self_capture_prep_target_bonus piece <= 108.
Proof.
  unfold ff_self_capture_prep_target_bonus. destruct (_ =? _); [lia|].
  destruct (PIECE_TYPE piece); lia.
Qed.

Lemma ff_ray_bounds fuel (b : Board) occ from_sq side dr dc row col step blocker :
  0 <= ff_ray_loop fuel b occ from_sq side dr dc row col step blocker <= 300.
Proof.
  revert row col step blocker. induction fuel as [|f IH]; intros; cbn [ff_ray_loop]; [lia|].
  cbv zeta. destruct (_ || _); [lia|]. destruct (_ || _); [apply IH|].
  destruct (_ =? _); [apply IH|]. destruct blocker as [[t s]|].
  - pose proof (ff_target_bounds (mb b (SQ (row + dr) (col + dc)))). score_bounds.
  - destruct (_ && _); [apply IH|lia].
Qed.

Lemma ff_self_capture_bounds (b : Board) (m : Move) (side : Color) :
  0 <= search_ff_self_capture_score b m side <= 2000.
Proof. unfold search_ff_self_capture_score. score_bounds. Qed.

Lemma ff_development_bounds (b : Board) (m : Move) (side : Color) :
  0 <= search_ff_minor_development_score b m side <= 2000.
Proof. unfold search_ff_minor_development_score. score_bounds. Qed.

Lemma ff_queen_bounds (b : Board) (m : Move) (side : Color) :
  0 <= search_ff_early_queen_sortie_penalty b m side <= 2000.
Proof.
  unfold search_ff_early_queen_sortie_penalty. pose proof (ff_undeveloped_bounds b side).
  cbv zeta. do 5 (destruct (_ : bool); [lia|]).
  match goal with |- _ <= (if ?p <? 0 then 0 else ?p) <= _ =>
    assert (p <= 2000); [|destruct (Z.ltb_spec p 0); lia] end.
  repeat abstract_guard. lia.
Qed.

Lemma rel_row_to_bounds (m : Move) (side : Color) : -1 <= rel_row side (MOVE_TO m) <= 8.
Proof. pose proof (to_row_bounds m). unfold rel_row. score_bounds. Qed.

Lemma ff_first_step_bounds b side file to_rank activity undeveloped :
  0 <= activity <= 64 ->
  0 <= ff_pawn_first_step b side file to_rank activity undeveloped <= 1000.
Proof. intros. unfold ff_pawn_first_step. score_bounds. Qed.

Lemma ff_deep_push_bounds b side to_sq file to_rank :
  -1 <= to_rank <= 8 -> -100 <= ff_pawn_deep_push b side to_sq file to_rank <= 500.
Proof. intros. unfold ff_pawn_deep_push. score_bounds. Qed.

Lemma ff_pawn_bounds (b : Board) (m : Move) (side : Color) :
  -2000 <= search_ff_quiet_pawn_score b m side <= 2000.
Proof.
  unfold search_ff_quiet_pawn_score, ff_pawn_harass.
  pose proof (ff_activity_bounds b side) as HA. pose proof (rel_row_to_bounds m side) as HR.
  pose proof (ff_first_step_bounds b side (SQ_COL (MOVE_TO m)) (rel_row side (MOVE_TO m))
    (ff_side_pawn_activity b side) (ff_undeveloped_minor_count b side) HA).
  pose proof (ff_deep_push_bounds b side (MOVE_TO m) (SQ_COL (MOVE_TO m)) _ HR).
  set (s1 := SQ (SQ_ROW (MOVE_TO m) + fwd side) (SQ_COL (MOVE_TO m) - 1)).
  set (s2 := SQ (SQ_ROW (MOVE_TO m) + fwd side) (SQ_COL (MOVE_TO m) + 1)).
  pose proof (ff_harass_bonus_bounds (mb b s1)). pose proof (ff_harass_bonus_bounds (mb b s2)).
  score_bounds.
Qed.

Lemma ff_pressure_bounds (b : Board) (m : Move) (side : Color) :
  0 <= search_ff_quiet_pressure_score b m side <= 12000.
Proof.
  unfold search_ff_quiet_pressure_score. cbv zeta.
  do 3 (destruct (_ : bool); [lia|]).
  set (atk := ff_pressure_piece_attacks _ _ _). set (opp := color_opposite side).
  set (ek := if negb _ then _ else SQ 0 4). set (has := negb _).
  pose proof (popcount_bounds (Z.land atk (Z.lor (king_attacks ek) (BB_SQ ek)))).
  pose proof (popcount_bounds (Z.land atk (pcs b opp ROOK))).
  pose proof (popcount_bounds (Z.land atk (Z.lor (pcs b opp BISHOP) (pcs b opp KNIGHT)))).
  pose proof (bb_sum_bounds (fun pawn_sq => ff_pressure_pawn_bonus opp pawn_sq ek has) 42
    (Z.land atk (pcs b opp PAWN))) as HP.
  assert (0 <= bb_sum (fun pawn_sq => ff_pressure_pawn_bonus opp pawn_sq ek has)
    (Z.land atk (pcs b opp PAWN)) <= 64 * 42).
  { apply HP. intros s. unfold ff_pressure_pawn_bonus. score_bounds. }
  clear HP. set (bonus := bb_sum (fun pawn_sq => ff_pressure_pawn_bonus _ _ _ _) _) in *.
  clearbody bonus has ek. score_bounds.
Qed.

Lemma ff_king_bounds (b : Board) (m : Move) (side : Color) :
  -2000 <= search_ff_king_safety_score b m side <= 2000.
Proof.
  unfold search_ff_king_safety_score, ff_king_ray_terms, ff_king_heat_terms.
  pose proof (ff_shield_bounds b side (MOVE_TO m)). score_bounds.
Qed.

Lemma ff_guard_bounds (b : Board) (m : Move) (side : Color) :
  0 <= search_ff_king_zone_guard_score b m side <= 4000.
Proof.
  unfold search_ff_king_zone_guard_score. cbv zeta.
  do 5 (destruct (_ : bool); [lia|]).
  set (king_sq := bb_lsb _).
  match goal with |- context [(bb_popcount ?x - bb_popcount ?y) * 44] =>
    pose proof (popcount_bounds x); pose proof (popcount_bounds y);
    set (after := bb_popcount x) in *; set (before := bb_popcount y) in * end.
  pose proof (chebyshev_bounds (MOVE_FROM m) king_sq (from_row_bounds m) (lsb_row_bounds _)).
  pose proof (chebyshev_bounds (MOVE_TO m) king_sq (to_row_bounds m) (lsb_row_bounds _)).
  clearbody before after.
  match goal with |- _ <= (if _ then ?s ÷ 2 + ?k else ?s) <= _ => assert (0 <= s <= 3900) end.
  { destruct (Z.ltb_spec before after); destruct (Z.ltb_spec
      (chebyshev_distance_sq (MOVE_TO m) king_sq) (chebyshev_distance_sq (MOVE_FROM m) king_sq));
      cbn [andb]; repeat abstract_guard; lia. }
  match goal with |- _ <= (if ?c then _ else _) <= _ => destruct c end; [|lia].
  match goal with |- _ <= ?s ÷ 2 + ?k <= _ =>
    assert (0 <= s ÷ 2 <= s) by (split; [apply Z.quot_pos; lia|apply Z.quot_le_upper_bound; lia]);
    assert (0 <= k <= 16) by (destruct (board_square_attacked _ _ _); lia); lia end.
Qed.

Lemma ff_best_ray_bounds (b : Board) (m : Move) (side : Color) (dirs : list (Z * Z)) (score : Z) :
  0 <= score <= 300 -> 0 <= ff_best_ray b m side dirs score <= 300.
Proof.
  apply fold_within. intros x d Hx.
  pose proof (ff_ray_bounds 8 b (Z.lor (Z.land (b_all b) (bb_not (BB_SQ (MOVE_FROM m))))
    (BB_SQ (MOVE_TO m))) (MOVE_FROM m) side d.1 d.2 (SQ_ROW (MOVE_TO m)) (SQ_COL (MOVE_TO m)) 0 None).
  unfold ff_self_capture_prep_ray_score. score_bounds.
Qed.

Lemma ff_prep_bounds (b : Board) (m : Move) (side : Color) :
  0 <= search_ff_self_capture_prep_score b m side <= 2000.
Proof.
  unfold search_ff_self_capture_prep_score. cbv zeta. do 3 (destruct (_ : bool); [lia|]).
  set (s := ff_best_ray _ _ _ _ 0).
  assert (0 <= s <= 300) by (apply ff_best_ray_bounds; lia).
  pose proof (ff_best_ray_bounds b m side [(1, 0); (-1, 0); (0, 1); (0, -1)] s). score_bounds.
Qed.

Lemma ff_pawn_challenge_bounds (b : Board) (m : Move) (side : Color) :
  0 <= search_ff_pawn_challenge_penalty b m side <= 2000.
Proof.
  unfold search_ff_pawn_challenge_penalty. cbv zeta. do 2 (destruct (_ : bool); [lia|]).
  apply fold_within; [|lia]. intros x sq Hx.
  pose proof (ff_challenge_bounds (MOVE_PIECE m) true).
  pose proof (ff_challenge_bounds (MOVE_PIECE m) false). score_bounds.
Qed.

Lemma ff_flank_bounds (b : Board) (m : Move) (side : Color) :
  0 <= search_ff_flank_pawn_harass_penalty b m side <= 2000.
Proof.
  unfold search_ff_flank_pawn_harass_penalty. cbv zeta. do 2 (destruct (_ : bool); [lia|]).
  match goal with |- _ <= (if _ then ?s ÷ 2 else ?s) <= _ => assert (0 <= s <= 2000) as H end.
  { apply fold_within; [|lia]. intros x sq Hx. unfold by_minor. score_bounds. }
  destruct (_ : bool); [|exact H].
  split; [apply Z.quot_pos; lia|apply Z.quot_le_upper_bound; lia].
Qed.
