(* ===== verification/HeurSaveQueen.v ===== *)
(** * Save the Queen search heuristics (the [stq_...] functions of [search.c]) *)

From stdpp Require Import base numbers list option.
From Stdlib Require Import ZArith Lia Bool.
From S2P Require Import Prelude Types Board Attacks Make EvalCommon HeurCommon.

Definition stq_undeveloped_minor_count (b : Board) (side : Color) : Z :=
  if b_mod b != MOD_SAVE_QUEEN then 0 else back_rank_minors b side.

(** The early queen's-knight sortie: the penalty grows with the pawns that
    still stand in its way. *)
Definition stq_knight_sortie (b : Board) (m : Move) (side : Color) : Z :=
  let to_sq := MOVE_TO m in
  (if (side == WHITE) && (MOVE_FROM m =? SQ 0 1) && ((to_sq =? SQ 2 2) || (to_sq =? SQ 1 3)) then
     48 + (if BB_HAS (pcs b WHITE PAWN) (SQ 1 2) then 20 else 0) +
     (if BB_HAS (pcs b WHITE PAWN) (SQ 1 3) then 10 else 0)
   else 0) +
  (if (side == BLACK) && (MOVE_FROM m =? SQ 7 1) && ((to_sq =? SQ 5 2) || (to_sq =? SQ 6 3)) then
     56 + (if BB_HAS (pcs b BLACK PAWN) (SQ 6 2) then 24 else 0) +
     (if BB_HAS (pcs b BLACK PAWN) (SQ 6 3) then 10 else 0)
   else 0).

Definition stq_minor_development_score (b : Board) (m : Move) (side : Color) : Z :=
  if (b_mod b != MOD_SAVE_QUEEN) || special m then 0
  else
    let piece := MOVE_PIECE m in
    if (piece != KNIGHT) && (piece != BISHOP) then 0
    else if negb (leaves_back_rank m side) then 0
    else
      let to_sq := MOVE_TO m in
      let to_file := SQ_COL to_sq in
      let to_rank := rel_row side to_sq in
      let undeveloped := stq_undeveloped_minor_count b side in
      let score := if piece == KNIGHT then 40 else 30 in
      let score := score + (if within 2 5 to_file then 6 else 0) in
      let score := score + (if 2 <=? to_rank then 4 else 0) in
      let score := score + (if 3 <=? undeveloped then 6 else 0) in
      let score := score +
        (if (piece == KNIGHT) &&
            (((side == WHITE) && (to_sq =? SQ 2 5)) || ((side == BLACK) && (to_sq =? SQ 5 5)))
         then 34 else 0) in
      score - (if (piece == KNIGHT) && (b_fullmove b <=? 10) then stq_knight_sortie b m side else 0).

Definition stq_quiet_pawn_score (b : Board) (m : Move) (side : Color) : Z :=
  if (b_mod b != MOD_SAVE_QUEEN) || (MOVE_PIECE m != PAWN) || special m then 0
  else if negb (rel_row side (MOVE_FROM m) =? 1) then 0
  else
    let to_rank := rel_row side (MOVE_TO m) in
    let to_file := SQ_COL (MOVE_TO m) in
    (if within 2 5 to_file then 26 else 0) + (if within 3 4 to_file then 10 else 0) +
    (if 3 <=? to_rank then 10 else 0).

Definition stq_flank_pawn_penalty (b : Board) (m : Move) (side : Color) : Z :=
  if (b_mod b != MOD_SAVE_QUEEN) || (MOVE_PIECE m != PAWN) || special m then 0
  else if negb (rel_row side (MOVE_FROM m) =? 1) then 0
  else if stq_undeveloped_minor_count b side <? 2 then 0
  else
    let from_file := SQ_COL (MOVE_FROM m) in
    if (from_file =? 0) || (from_file =? 7) then 90
    else if (from_file =? 1) || (from_file =? 6) then 50
    else 0.

(** Extra penalty when the queen is attacked on its new square. *)
Definition queen_danger (attacked defended : bool) (loose held : Z) : Z :=
  if attacked && negb defended then loose else if attacked then held else 0.

Definition stq_early_queen_sortie_penalty (b : Board) (m : Move) (side : Color) : Z :=
  if (b_mod b != MOD_SAVE_QUEEN) || (MOVE_PIECE m != QUEEN) || special m then 0
  else if 12 <? b_fullmove b then 0
  else
    let from_sq := MOVE_FROM m in
    let to_sq := MOVE_TO m in
    let undeveloped := stq_undeveloped_minor_count b side in
    let from_own_half := stq_is_own_half from_sq side in
    let child := board_make_move b m in
    let queen_attacked := board_square_attacked child to_sq (b_side child) in
    let queen_defended := board_square_attacked child to_sq side in
    if negb from_own_half then
      let before_dist := if side == WHITE then SQ_ROW from_sq - 3 else 4 - SQ_ROW from_sq in
      let after_dist := if side == WHITE then SQ_ROW to_sq - 3 else 4 - SQ_ROW to_sq in
      70 + undeveloped * 18 + (if 3 <=? before_dist then 45 else 0) +
      (if before_dist <=? after_dist then 65 else 0) +
      queen_danger queen_attacked queen_defended 260 90
    else if 2 <=? undeveloped then
      70 + undeveloped * 16 + queen_danger queen_attacked queen_defended 240 80
    else 0.

Definition stq_king_drift_penalty (b : Board) (m : Move) (side : Color) : Z :=
  if (b_mod b != MOD_SAVE_QUEEN) || (MOVE_PIECE m != KING) || special m then 0
  else if 12 <? b_fullmove b then 0
  else if board_in_check b side then 0
  else
    let from_sq := MOVE_FROM m in
    let to_sq := MOVE_TO m in
    120 +
    (if ((side == WHITE) && (from_sq =? SQ 0 4)) || ((side == BLACK) && (from_sq =? SQ 7 4))
     then 30 else 0) +
    (if negb (SQ_COL to_sq =? 4) then 20 else 0).

(** ** Bounds *)

Lemma stq_undeveloped_bounds (b : Board) (side : Color) : 0 <= stq_undeveloped_minor_count b side <= 64.
Proof.
  unfold stq_undeveloped_minor_count. pose proof (back_rank_minors_bounds b side). score_bounds.
Qed.

Lemma stq_development_bounds (b : Board) (m : Move) (side : Color) :
  -2000 <= stq_minor_development_score b m side <= 2000.
Proof. unfold stq_minor_development_score, stq_knight_sortie. score_bounds. Qed.

Lemma stq_pawn_bounds (b : Board) (m : Move) (side : Color) :
  0 <= stq_quiet_pawn_score b m side <= 2000.
Proof. unfold stq_quiet_pawn_score. score_bounds. Qed.

Lemma stq_flank_bounds (b : Board) (m : Move) (side : Color) :
  0 <= stq_flank_pawn_penalty b m side <= 2000.
Proof. unfold stq_flank_pawn_penalty. score_bounds. Qed.

Lemma stq_queen_bounds (b : Board) (m : Move) (side : Color) :
  0 <= stq_early_queen_sortie_penalty b m side <= 2000.
Proof.
  unfold stq_early_queen_sortie_penalty, queen_danger. pose proof (stq_undeveloped_bounds b side).
  score_bounds.
Qed.

Lemma stq_king_bounds (b : Board) (m : Move) (side : Color) :
  0 <= stq_king_drift_penalty b m side <= 2000.
Proof. unfold stq_king_drift_penalty. score_bounds. Qed.
