(* ===== verification/See.v ===== *)
(** * Static exchange evaluation ([attackers_to], [see_pv], [see_value] of
      [search.c])

    [see_value] plays out the captures on one square with an array of gains,
    keeps the attackers of the square up to date as pieces leave, and stops
    early.  [exchange] is what it is meant to compute, in terms of the rules of
    the pieces: each side in turn takes with its least valuable piece that can
    reach the square, or stops, whichever is better. *)

From stdpp Require Import base numbers list option.
From Stdlib Require Import ZArith Lia Bool.
From S2P Require Import Prelude Types Board Attacks Make HeurCommon.

(** ** The code *)

Definition maxi (a b : Z) : Z := if b <? a then a else b.
Definition mini (a b : Z) : Z := if a <? b then a else b.

Definition SEE_PIECE_VAL : list Z := [100; 320; 330; 500; 900; 20000; 0].

(** Both sides' pieces of a type. *)
Definition both (b : Board) (t : PieceType) : Bitboard := Z.lor (pcs b WHITE t) (pcs b BLACK t).

Definition diag_sliders (b : Board) : Bitboard := Z.lor (both b BISHOP) (both b QUEEN).
Definition orth_sliders (b : Board) : Bitboard := Z.lor (both b ROOK) (both b QUEEN).

Definition attackers_to (b : Board) (sq : Square) (oc : Bitboard) : Bitboard :=
  let att := BB_EMPTY in
  let att := Z.lor att (Z.land (knight_attacks sq) (both b KNIGHT)) in
  let att := Z.lor att (Z.land (king_attacks sq) (both b KING)) in
  let diag := bishop_attacks_calc sq oc in
  let att := Z.lor att (Z.land diag (diag_sliders b)) in
  let orth := rook_attacks_calc sq oc in
  let att := Z.lor att (Z.land orth (orth_sliders b)) in
  let att :=
    if b_mod b == MOD_MERCENARY then Z.lor att (Z.land (king_attacks sq) (both b PAWN))
    else
      let att := Z.lor att (Z.land (pawn_attacks BLACK sq) (pcs b WHITE PAWN)) in
      Z.lor att (Z.land (pawn_attacks WHITE sq) (pcs b BLACK PAWN)) in
  Z.land att oc.

Definition see_pv (pt : PieceType) (is_merc is_heir is_stq is_succ : bool) : Z :=
  if (pt == PAWN) && is_merc then 180
  else if (pt == PAWN) && is_heir then 140
  else if (pt == KING) && is_heir then 250
  else if (pt == QUEEN) && is_stq then 1200
  else if (pt == QUEEN) && is_succ then 1300
  else if (pt == PAWN) && is_succ then 160
  else if (pt == KING) && is_succ then 700
  else SEE_PIECE_VAL.[PieceType_to_Z pt].

(** [see_pv] with the four flags [see_value] computes. *)
Definition see_pv_of (b : Board) (pt : PieceType) : Z :=
  see_pv pt (b_mod b == MOD_MERCENARY) (b_mod b == MOD_HEIR) (b_mod b == MOD_SAVE_QUEEN)
    (b_mod b == MOD_SUCCESSION).

(** [gain[0]] and the piece left on the target square. *)
Definition see_first_gain (b : Board) (m : Move) : Z * PieceType :=
  let gain0 := see_pv_of b (MOVE_CAPTURED m) in
  let gain0 :=
    if (b_mod b == MOD_FRIENDLY_FIRE) && negb (MOVE_IS_EP m) &&
       (PIECE_COLOR (mb b (MOVE_FROM m)) == PIECE_COLOR (mb b (MOVE_TO m)))
    then - gain0 else gain0 in
  if MOVE_IS_PROMO m
  then (gain0 + (see_pv_of b (MOVE_PROMO_TYPE m) - see_pv_of b PAWN), MOVE_PROMO_TYPE m)
  else (gain0, MOVE_PIECE m).

(** The occupancy once the move is made, the target square apart. *)
Definition see_occ (b : Board) (m : Move) : Bitboard :=
  let oc := Z.lxor (b_all b) (BB_SQ (MOVE_FROM m)) in
  if MOVE_IS_EP m then Z.lxor oc (BB_SQ (SQ (SQ_ROW (MOVE_FROM m)) (SQ_COL (MOVE_TO m)))) else oc.

(** The first piece type with an attacker, and one attacker of it. *)
Definition least_attacker (b : Board) (stm : Color) (stm_atk : Bitboard)
    : option (PieceType * Bitboard) :=
  match List.find (fun p => bb_nonzero (Z.land stm_atk (pcs b stm p))) piece_types with
  | None => None
  | Some p =>
      let overlap := Z.land stm_atk (pcs b stm p) in
      Some (p, Z.land overlap (u64 (bb_not overlap + 1)))
  end.

(** Attackers uncovered by the departure of a piece of type [pt]. *)
Definition see_xray (b : Board) (to : Square) (pt : PieceType) (oc all_atk : Bitboard) : Bitboard :=
  let all_atk :=
    if (pt == PAWN) || (pt == BISHOP) || (pt == QUEEN)
    then Z.lor all_atk (Z.land (bishop_attacks_calc to oc) (diag_sliders b)) else all_atk in
  let all_atk :=
    if (pt == ROOK) || (pt == QUEEN)
    then Z.lor all_atk (Z.land (rook_attacks_calc to oc) (orth_sliders b)) else all_atk in
  Z.land all_atk oc.

(** [all_atk & b->occupied[c] & occ] *)
Definition side_attackers (b : Board) (c : Color) (oc all_atk : Bitboard) : Bitboard :=
  Z.land (Z.land all_atk (occ b c)) oc.

(** The loop [while (d < 31)]; [fuel] is [31 - d]. *)
Fixpoint see_loop (fuel : nat) (b : Board) (to : Square) (d : Z) (gain : list Z)
    (next_victim : PieceType) (oc all_atk : Bitboard) (stm : Color) : Z * list Z :=
  match fuel with
  | O => (d, gain)
  | S f =>
      let d := d + 1 in
      let gain := gain.[d <- see_pv_of b next_victim - gain.[d - 1]] in
      if maxi (- gain.[d - 1]) (gain.[d]) <? 0 then (d, gain)
      else
        match least_attacker b stm (side_attackers b stm oc all_atk) with
        | None => (d, gain)
        | Some (pt, pt_bb) =>
            if (pt == KING) && bb_nonzero (side_attackers b (color_opposite stm) oc all_atk)
            then (d, gain)
            else
              let oc' := Z.lxor oc pt_bb in
              see_loop f b to d gain pt oc' (see_xray b to pt oc' all_atk) (color_opposite stm)
        end
  end.

(** The loop [while (--d > 0)], entered with [d - 1 = k]. *)
Fixpoint see_back (k : nat) (gain : list Z) : list Z :=
  match k with
  | O => gain
  | S j =>
      see_back j (gain.[Z.of_nat j <- - maxi (- gain.[Z.of_nat j]) (gain.[Z.of_nat k])])
  end.

Definition see_value (b : Board) (m : Move) : Z :=
  if negb (MOVE_IS_CAPTURE m) && negb (MOVE_IS_EP m) then 0
  else
    let to := MOVE_TO m in
    let '(gain0, next_victim) := see_first_gain b m in
    let gain := (replicate 32 0).[0 <- gain0] in
    let oc := see_occ b m in
    let all_atk := attackers_to b to oc in
    let stm := color_opposite (PIECE_COLOR (mb b (MOVE_FROM m))) in
    let '(d, gain) := see_loop 31 b to 0 gain next_victim oc all_atk stm in
    (see_back (Z.to_nat (d - 1)) gain).[0].

(** ** What it is meant to compute

    The pieces are those of the board that stand on the squares of [oc]; a piece
    attacks the target by the rule of its kind from its own square, its lines
    running through the squares not in [oc]. *)

Definition can_take (b : Board) (oc : Bitboard) (to : Square) (c : Color) (t : PieceType)
    (n : Square) : bool :=
  Z.testbit oc n && (mb b n =? PIECE_MAKE c t) && Z.testbit (piece_attacks (set_b_all oc b) c t n) to.

(** The pieces of [c] that can take on [to], the least valuable kind first. *)
Definition takers (b : Board) (oc : Bitboard) (to : Square) (c : Color) : list (PieceType * Square) :=
  flat_map (fun t => map (pair t) (List.filter (can_take b oc to c t) (seqZ 0 64))) piece_types.

(** The value for [stm] of the option to retake [victim]; a king does not take
    where the other side can take. *)
Fixpoint exchange (fuel : nat) (b : Board) (to : Square) (oc : Bitboard) (stm : Color)
    (victim : PieceType) : Z :=
  match fuel with
  | O => 0
  | S f =>
      match takers b oc to stm with
      | [] => 0
      | (KING, _) :: _ =>
          match takers b oc to (color_opposite stm) with
          | [] => Z.max 0 (see_pv_of b victim)
          | _ => 0
          end
      | (t, n) :: _ =>
          Z.max 0 (see_pv_of b victim - exchange f b to (Z.clearbit oc n) (color_opposite stm) t)
      end
  end.

(** What the capture wins if both sides then play the exchange well. *)
Definition exchange_value (b : Board) (m : Move) : Z :=
  let '(gain0, next_victim) := see_first_gain b m in
  gain0 - exchange 64 b (MOVE_TO m) (see_occ b m)
            (color_opposite (PIECE_COLOR (mb b (MOVE_FROM m)))) next_victim.

(** The same with the attackers found as bitboards. *)
Fixpoint bb_exchange (fuel : nat) (b : Board) (to : Square) (oc : Bitboard) (stm : Color)
    (victim : PieceType) : Z :=
  match fuel with
  | O => 0
  | S f =>
      let atk := attackers_to b to oc in
      match least_attacker b stm (side_attackers b stm oc atk) with
      | None => 0
      | Some (KING, _) =>
          if bb_nonzero (side_attackers b (color_opposite stm) oc atk) then 0
          else Z.max 0 (see_pv_of b victim)
      | Some (pt, pt_bb) =>
          Z.max 0 (see_pv_of b victim -
                   bb_exchange f b to (Z.lxor oc pt_bb) (color_opposite stm) pt)
      end
  end.

(** ** From the array to a recursion *)

(** The value [gain[d]] ends up with when it starts as [g]. *)
Fixpoint see_rec (n : nat) (b : Board) (to : Square) (g : Z) (victim : PieceType)
    (oc atk : Bitboard) (stm : Color) : Z :=
  match n with
  | O => g
  | S n =>
      let g' := see_pv_of b victim - g in
      if maxi (- g) g' <? 0 then g
      else
        match least_attacker b stm (side_attackers b stm oc atk) with
        | None => g
        | Some (pt, pt_bb) =>
            if (pt == KING) && bb_nonzero (side_attackers b (color_opposite stm) oc atk) then g
            else
              let oc' := Z.lxor oc pt_bb in
              - maxi (- g) (see_rec n b to g' pt oc' (see_xray b to pt oc' atk) (color_opposite stm))
        end
  end.

(** The value the second loop leaves at [i], [s] entries above it. *)
Fixpoint wval (s : nat) (gain : list Z) (i : Z) : Z :=
  match s with
  | O => gain.[i]
  | S s => - maxi (- gain.[i]) (wval s gain (i + 1))
  end.

Lemma wval_top (s : nat) (gain : list Z) (i : Z) :
  0 <= i -> i + Z.of_nat s < Z.of_nat (length gain) ->
  wval s (gain.[i + Z.of_nat s <- - maxi (- gain.[i + Z.of_nat s]) (gain.[i + Z.of_nat s + 1])]) i =
  wval (S s) gain i.
Proof.
  revert i. induction s as [|s IH]; intros i Hi Hl.
  - cbn [wval]. rewrite Z.add_0_r, znth_zset_eq by (unfold in_range; lia). done.
  - change (wval (S (S s)) gain i) with (- maxi (- gain.[i]) (wval (S s) gain (i + 1))).
    rewrite <- (IH (i + 1)) by lia.
    replace (i + 1 + Z.of_nat s) with (i + Z.of_nat (S s)) by lia.
    cbn [wval]. rewrite znth_zset_ne by lia. done.
Qed.

Lemma see_back_wval (k : nat) (gain : list Z) :
  Z.of_nat k < Z.of_nat (length gain) -> (see_back k gain).[0] = wval k gain 0.
Proof.
  revert gain. induction k as [|k IH]; intros gain Hl; [done|]. cbn [see_back].
  rewrite IH by (rewrite length_zset; lia). rewrite <- (wval_top k gain 0) by lia.
  rewrite Z.add_0_l. by replace (Z.of_nat k + 1) with (Z.of_nat (S k)) by lia.
Qed.

(** One write of the first loop, and what is left if it then stops. *)
Lemma see_write (gain : list Z) (d g' : Z) :
  0 <= d -> d + 1 < Z.of_nat (length gain) ->
  (gain.[d + 1 <- g']).[d + 1] = g' /\
  (forall i, i <= d -> (gain.[d + 1 <- g']).[i] = gain.[i]) /\
  (length (gain.[d + 1 <- g']) = length gain /\
   (forall i, i <= d -> (gain.[d + 1 <- g']).[i] = gain.[i]) /\
   wval (Z.to_nat (d + 1 - 1 - d)) (gain.[d + 1 <- g']) d = gain.[d]).
Proof.
  intros Hd Hl.
  assert (forall i, i <= d -> (gain.[d + 1 <- g']).[i] = gain.[i]) as E
    by (intros; apply znth_zset_ne; lia).
  split_and!; [apply znth_zset_eq; unfold in_range; lia|done|apply length_zset|done|].
  replace (Z.to_nat (d + 1 - 1 - d)) with 0%nat by lia. apply E. lia.
Qed.

Lemma see_loop_rec (n : nat) (b : Board) (to : Square) (d : Z) (gain : list Z)
    (victim : PieceType) (oc atk : Bitboard) (stm : Color) :
  0 <= d -> d + Z.of_nat (S n) < Z.of_nat (length gain) ->
  let '(d', gain') := see_loop (S n) b to d gain victim oc atk stm in
  d + 1 <= d' <= d + Z.of_nat (S n) /\ length gain' = length gain /\
  (forall i, i <= d -> gain'.[i] = gain.[i]) /\
  wval (Z.to_nat (d' - 1 - d)) gain' d = see_rec n b to (gain.[d]) victim oc atk stm.
Proof.
  revert d gain victim oc atk stm. induction n as [|n IH]; intros d gain victim oc atk stm Hd Hl;
    destruct (see_write gain d (see_pv_of b victim - gain.[d]) ltac:(lia) ltac:(lia))
      as (E1 & E2 & Hstop).
  - cbn [see_loop see_rec]. replace (d + 1 - 1) with d by lia.
    destruct (_ <? 0); [by split; [lia|]|].
    destruct (least_attacker _ _ _) as [[pt pt_bb]|]; [|by split; [lia|]].
    destruct (_ && _); by (split; [lia|]).
  - change (see_loop (S (S n)) b to d gain victim oc atk stm) with
      (let gain := gain.[d + 1 <- see_pv_of b victim - gain.[d + 1 - 1]] in
       if maxi (- gain.[d + 1 - 1]) (gain.[d + 1]) <? 0 then (d + 1, gain)
       else match least_attacker b stm (side_attackers b stm oc atk) with
            | None => (d + 1, gain)
            | Some (pt, pt_bb) =>
                if (pt == KING) && bb_nonzero (side_attackers b (color_opposite stm) oc atk)
                then (d + 1, gain)
                else see_loop (S n) b to (d + 1) gain pt (Z.lxor oc pt_bb)
                       (see_xray b to pt (Z.lxor oc pt_bb) atk) (color_opposite stm)
            end).
    cbv zeta. cbn [see_rec]. replace (d + 1 - 1) with d by lia.
    set (g' := see_pv_of b victim - gain.[d]) in *. rewrite E1, (E2 d) by lia.
    destruct (_ <? 0); [by split; [lia|]|].
    destruct (least_attacker _ _ _) as [[pt pt_bb]|]; [|by split; [lia|]].
    destruct (_ && _); [by split; [lia|]|].
    specialize (IH (d + 1) (gain.[d + 1 <- g']) pt (Z.lxor oc pt_bb)
      (see_xray b to pt (Z.lxor oc pt_bb) atk) (color_opposite stm) ltac:(lia)).
    rewrite length_zset in IH. specialize (IH ltac:(lia)).
    destruct (see_loop (S n) _ _ _ _ _ _ _ _) as [d' gain']. destruct IH as (H1 & H2 & H3 & H4).
    split_and!; [lia|lia|done| |].
    + intros i Hi. rewrite H3 by lia. by apply E2.
    + replace (Z.to_nat (d' - 1 - d)) with (S (Z.to_nat (d' - 1 - (d + 1)))) by lia.
      cbn [wval]. by rewrite H4, E1, H3, E2 by lia.
Qed.

(** ** Bits of the attacker sets *)

Lemma isolate_lsb (x : Z) :
  0 < x < 2 ^ 64 -> Z.land x (u64 (bb_not x + 1)) = BB_SQ (bb_lsb x).
Proof.
  intros Hx. destruct (bb_lsb_spec x Hx) as (Hs & Hb & _).
  assert (bb_not x = u64 (- x - 1)) as En.
  { apply bits_ext. intros n Hn. rewrite testbit_u64. replace (- x - 1) with (Z.lnot x) by (unfold Z.lnot; lia).
    destruct (Z.ltb_spec n 64).
    - rewrite bb_not_testbit, Z.lnot_spec by lia. replace (0 <=? n) with true by lia. done.
    - rewrite bb_not_testbit_high by lia. by rewrite andb_false_r. }
  assert (u64 (bb_not x + 1) = u64 (Z.lnot (x - 1))) as ->.
  { rewrite En. unfold u64. rewrite Zplus_mod_idemp_l. f_equal. unfold Z.lnot. lia. }
  apply bits_ext. intros n Hn. pose proof (pop_lsb_testbit x n Hx Hn) as Hp.
  rewrite Z.land_spec, testbit_u64 in *. rewrite BB_SQ_testbit, Z.lnot_spec by done. replace (0 <=? n) with true in * by lia.
  destruct (Z.ltb_spec n 64).
  - destruct (Z.eqb_spec n (bb_lsb x)) as [->|]; revert Hp Hb;
      [destruct (Z.testbit x (bb_lsb x)), (Z.testbit (x - 1) (bb_lsb x))
      |destruct (Z.testbit x n), (Z.testbit (x - 1) n)]; simpl; congruence.
  - rewrite (testbit_above_64 x n) by lia. destruct (Z.eqb_spec n (bb_lsb x)); [sq_lia|done].
Qed.

Lemma slide_mono (dirs : list (Z * Z)) (sq oc oc' n : Z) :
  good_dirs dirs -> on_board sq -> 0 <= n ->
  (forall k, 0 <= k -> Z.testbit oc' k = true -> Z.testbit oc k = true) ->
  Z.testbit (slide_dirs dirs sq oc) n = true -> Z.testbit (slide_dirs dirs sq oc') n = true.
Proof.
  intros Hd Hs Hn Hsub. rewrite !slide_dirs_spec by done.
  intros (dr & dc & k & Hin & Hk & Hg & E & Hfree). exists dr, dc, k. split_and!; try done.
  intros j Hj. specialize (Hfree j Hj). destruct (Hd dr dc Hin) as (_ & Hdr & Hdc & _).
  pose proof (SQ_ROW_bound sq Hs). pose proof (SQ_COL_bound sq).
  assert (in_grid (SQ_ROW sq + j * dr) (SQ_COL sq + j * dc) = true) as Hgj
    by (apply (ray_convex _ _ _ _ _ k); lia || done).
  apply in_grid_spec in Hgj as [? ?].
  destruct (Z.testbit oc' _) eqn:E'; [|done]. apply Hsub in E'; [congruence|].
  assert (on_board (SQ (SQ_ROW sq + j * dr) (SQ_COL sq + j * dc))) by (apply SQ_on_board; lia). sq_lia.
Qed.

(** A piece that the sliders do not see may leave without their noticing. *)
Lemma slide_unseen (dirs : list (Z * Z)) (sq oc oc' s n : Z) :
  good_dirs dirs -> on_board sq -> 0 <= n ->
  (forall k, 0 <= k -> Z.testbit oc' k = Z.testbit oc k && negb (k =? s)) ->
  Z.testbit (slide_dirs dirs sq oc) s = false ->
  Z.testbit (slide_dirs dirs sq oc') n = Z.testbit (slide_dirs dirs sq oc) n.
Proof.
  intros Hd Hs Hn Hsub Hun. apply eq_iff_eq_true. split.
  2:{ apply slide_mono; try done. intros k Hk. rewrite Hsub by done. by intros [? _]%andb_true_iff. }
  rewrite !slide_dirs_spec by done. intros (dr & dc & k & Hin & Hk & Hg & E & Hfree).
  exists dr, dc, k. split_and!; try done. destruct (Hd dr dc Hin) as (_ & Hdr & Hdc & _).
  pose proof (SQ_ROW_bound sq Hs). pose proof (SQ_COL_bound sq).
  assert (forall j, 0 <= j <= k -> in_grid (SQ_ROW sq + j * dr) (SQ_COL sq + j * dc) = true) as Hgr
    by (intros j Hj; apply (ray_convex _ _ _ _ _ k); lia || done).
  assert (forall (t : nat) j, 1 <= j < k -> j <= Z.of_nat t ->
    Z.testbit oc (SQ (SQ_ROW sq + j * dr) (SQ_COL sq + j * dc)) = false) as Hall;
    [|intros j Hj; apply (Hall (Z.to_nat j)); lia].
  induction t as [|t IH]; intros j Hj Ht; [lia|].
  pose proof (Hgr j ltac:(lia)) as Hgj. pose proof (proj1 (in_grid_spec _ _) Hgj) as [? ?].
  assert (on_board (SQ (SQ_ROW sq + j * dr) (SQ_COL sq + j * dc))) as Hon by (apply SQ_on_board; lia).
  specialize (Hfree j Hj). rewrite Hsub in Hfree by sq_lia.
  destruct (Z.eqb_spec (SQ (SQ_ROW sq + j * dr) (SQ_COL sq + j * dc)) s) as [Es|].
  - exfalso. apply not_true_iff_false in Hun. apply Hun. apply slide_dirs_spec; [done|done|sq_lia|].
    exists dr, dc, j. split_and!; [done|lia|done|done|]. intros i Hi. apply IH; lia.
  - by rewrite andb_true_r in Hfree.
Qed.

(** The lines of the pieces do not overlap, and none attacks its own square. *)
Definition lines_apart (to : Z) : bool :=
  let diag := bishop_attacks_calc to 0 in
  let orth := rook_attacks_calc to 0 in
  let pawns := Z.lor (pawn_attacks WHITE to) (pawn_attacks BLACK to) in
  (Z.land (knight_attacks to) (Z.lor diag orth) =? 0) &&
  (Z.land pawns orth =? 0) && (Z.land diag orth =? 0) &&
  negb (Z.testbit (Z.lor (Z.lor (knight_attacks to) (king_attacks to))
                         (Z.lor pawns (Z.lor diag orth))) to).

Lemma lines_apart_all (to : Z) : on_board to -> lines_apart to = true.
Proof. apply (forall_range lines_apart 64). vm_compute. reflexivity. Qed.

Lemma land_apart (x y s : Z) :
  Z.land x y =? 0 = true -> Z.testbit x s = true -> Z.testbit y s = false.
Proof.
  intros E%Z.eqb_eq Hx. apply (f_equal (fun z => Z.testbit z s)) in E.
  by rewrite Z.land_spec, Hx, Z.testbit_0_l in E.
Qed.

Lemma slide_alone (dirs : list (Z * Z)) (sq oc n : Z) :
  good_dirs dirs -> on_board sq -> 0 <= n ->
  Z.testbit (slide_dirs dirs sq oc) n = true -> Z.testbit (slide_dirs dirs sq 0) n = true.
Proof.
  intros Hd Hs Hn. apply slide_mono; try done. intros k _. by rewrite Z.testbit_0_l.
Qed.

Lemma filter_leave (P : Z -> bool) (s : Z) (l : list Z) :
  List.NoDup l -> In s l -> P s = true ->
  (length (List.filter (fun n => P n && negb (n =? s)%Z) l) + 1 = length (List.filter P l))%nat.
Proof.
  intros Hd Hin HP. induction Hd as [|x l Hx Hd IH]; [done|]. cbn [List.filter].
  destruct Hin as [->|Hin].
  - rewrite Z.eqb_refl, andb_false_r, HP. cbn [length].
    rewrite (List.filter_ext_in _ P); [lia|]. intros y Hy.
    destruct (Z.eqb_spec y s) as [->|]; [done|]. by rewrite andb_true_r.
  - specialize (IH Hin). destruct (Z.eqb_spec x s) as [->|]; [done|]. rewrite andb_true_r.
    destruct (P x); cbn [length]; lia.
Qed.

Lemma apply_if {A B} (f : A -> B) (c : bool) (x y : A) :
  f (if c then x else y) = if c then f x else f y.
Proof. by destruct c. Qed.

Section Exchange.
Context (b : Board) (Hinv : board_inv b) (to : Square) (Hto : on_board to).

Lemma both_testbit (c : Color) (t t' : PieceType) (s : Square) :
  real_color c -> real_type t -> real_type t' -> on_board s -> mb b s = PIECE_MAKE c t ->
  Z.testbit (both b t') s = (t' == t).
Proof.
  intros Hc Ht Ht' Hs E. unfold both. rewrite Z.lor_spec, !pcs_testbit, E by (done || discriminate).
  apply eq_iff_eq_true. rewrite orb_true_iff, !Z.eqb_eq, bool_decide_eq_true. split.
  - by intros [[_ ->]%PIECE_MAKE_inj|[_ ->]%PIECE_MAKE_inj].
  - intros ->. destruct c; [by left|by right|done].
Qed.

Definition pawn_hit (n : Z) : bool :=
  Z.testbit (pawn_attacks BLACK to) n && Z.testbit (pcs b WHITE PAWN) n ||
  Z.testbit (pawn_attacks WHITE to) n && Z.testbit (pcs b BLACK PAWN) n.

(** Outside Mercenary. *)
Lemma attackers_testbit (oc n : Z) :
  b_mod b <> MOD_MERCENARY ->
  Z.testbit (attackers_to b to oc) n =
  (Z.testbit (knight_attacks to) n && Z.testbit (both b KNIGHT) n ||
   Z.testbit (king_attacks to) n && Z.testbit (both b KING) n ||
   Z.testbit (bishop_attacks_calc to oc) n && Z.testbit (diag_sliders b) n ||
   Z.testbit (rook_attacks_calc to oc) n && Z.testbit (orth_sliders b) n ||
   pawn_hit n) && Z.testbit oc n.
Proof.
  intros Hm. unfold attackers_to. rewrite bool_decide_eq_false_2 by done. cbv zeta.
  unfold BB_EMPTY, pawn_hit. rewrite Z.lor_0_l, Z.land_spec, !Z.lor_spec, !Z.land_spec.
  f_equal. by rewrite !orb_assoc.
Qed.

Lemma attackers_in_occ (oc n : Z) : Z.testbit (attackers_to b to oc) n = true -> Z.testbit oc n = true.
Proof. unfold attackers_to. rewrite Z.land_spec. by intros [_ ?]%andb_true_iff. Qed.

Lemma bishop_alone (oc n : Z) :
  0 <= n -> Z.testbit (bishop_attacks_calc to oc) n = true ->
  Z.testbit (bishop_attacks_calc to 0) n = true.
Proof. intros. eapply slide_alone; eauto using bishop_dirs_good. Qed.

Lemma rook_alone (oc n : Z) :
  0 <= n -> Z.testbit (rook_attacks_calc to oc) n = true ->
  Z.testbit (rook_attacks_calc to 0) n = true.
Proof. intros. eapply slide_alone; eauto using rook_dirs_good. Qed.

Lemma attackers_not_self (oc : Z) : Z.testbit (attackers_to b to oc) to = false.
Proof.
  apply not_true_iff_false. intros H. unfold attackers_to in H.
  rewrite Z.land_spec in H. apply andb_true_iff in H as [H _].
  pose proof (lines_apart_all to Hto) as HL. unfold lines_apart in HL. cbv zeta in HL.
  rewrite !andb_true_iff in HL. destruct HL as [_ HL].
  rewrite negb_true_iff, !Z.lor_spec, !orb_false_iff in HL.
  destruct HL as ((H1 & H2) & (H3 & H4) & H5 & H6).
  assert (Z.testbit (bishop_attacks_calc to oc) to = false) as H5'
    by (apply not_true_iff_false; intros E; apply bishop_alone in E; [congruence|sq_lia]).
  assert (Z.testbit (rook_attacks_calc to oc) to = false) as H6'
    by (apply not_true_iff_false; intros E; apply rook_alone in E; [congruence|sq_lia]).
  unfold BB_EMPTY in H.
  destruct (b_mod b == MOD_MERCENARY); cbv zeta in H;
    rewrite !Z.lor_spec, !Z.land_spec, H1, H2, ?H3, ?H4, H5', H6', Z.testbit_0_l in H; done.
Qed.

Lemma least_attacker_spec (stm : Color) (atk : Bitboard) (pt : PieceType) (bb : Bitboard) :
  real_color stm -> least_attacker b stm atk = Some (pt, bb) ->
  real_type pt /\ exists s, on_board s /\ bb = BB_SQ s /\ Z.testbit atk s = true /\
    mb b s = PIECE_MAKE stm pt.
Proof.
  intros Hc. unfold least_attacker.
  destruct (List.find _ piece_types) as [p|] eqn:Ef; [|done]. intros [= <- <-].
  apply List.find_some in Ef as [Hin Hnz].
  assert (real_type p) as Hp by (simpl in Hin; destruct_or!; subst; done).
  split; [done|]. assert (0 <= pcs b stm p < 2 ^ 64) as Hb by auto with board.
  set (ov := Z.land atk (pcs b stm p)) in *.
  assert (0 <= ov < 2 ^ 64) as Ho.
  { apply bits_bounded; [lia|]. intros n Hn. unfold ov.
    by rewrite Z.land_spec, (testbit_above_64 (pcs b stm p)), andb_false_r by lia. }
  unfold bb_nonzero in Hnz. apply negb_true_iff, Z.eqb_neq in Hnz.
  destruct (bb_lsb_spec ov ltac:(lia)) as (Hs & Ht & _).
  exists (bb_lsb ov). split; [done|]. split; [by apply isolate_lsb; lia|].
  unfold ov in Ht at 1. rewrite Z.land_spec, andb_true_iff, pcs_testbit, Z.eqb_eq in Ht by done. done.
Qed.

Context (Hm : b_mod b <> MOD_MERCENARY).

(** An attacker that is not a knight or a rook is not on the sliders'
    diagonals, and so on: the lines its departure can open. *)
Lemma attacker_lines (oc s : Z) (c : Color) (pt : PieceType) :
  real_color c -> real_type pt -> on_board s -> mb b s = PIECE_MAKE c pt ->
  Z.testbit (attackers_to b to oc) s = true ->
  (pt = KNIGHT \/ pt = ROOK -> Z.testbit (bishop_attacks_calc to oc) s = false) /\
  (pt = KNIGHT \/ pt = BISHOP \/ pt = PAWN -> Z.testbit (rook_attacks_calc to oc) s = false).
Proof.
  intros Hc Hp Hs E H. pose proof (lines_apart_all to Hto) as HL. unfold lines_apart in HL.
  cbv zeta in HL. rewrite !andb_true_iff in HL. destruct HL as [[[L1 L2] L3] _].
  assert (0 <= s) as Hs0 by sq_lia.
  pose proof (land_apart _ _ s L1) as K1. rewrite Z.lor_spec in K1.
  pose proof (land_apart _ _ s L2) as K2. rewrite Z.lor_spec in K2.
  pose proof (land_apart _ _ s L3) as K3.
  pose proof (bishop_alone oc s Hs0) as AB. pose proof (rook_alone oc s Hs0) as AR.
  rewrite attackers_testbit in H by done. apply andb_true_iff in H as [H _].
  unfold diag_sliders, orth_sliders, pawn_hit in H. rewrite !Z.lor_spec in H.
  rewrite !(both_testbit c pt) in H by (done || discriminate).
  rewrite !pcs_testbit, E in H by (done || discriminate).
  revert H K1 K2 K3 AB AR Hc. clear.
  generalize (Z.testbit (knight_attacks to) s), (Z.testbit (king_attacks to) s),
    (Z.testbit (bishop_attacks_calc to oc) s), (Z.testbit (rook_attacks_calc to oc) s),
    (Z.testbit (bishop_attacks_calc to 0) s), (Z.testbit (rook_attacks_calc to 0) s),
    (Z.testbit (pawn_attacks WHITE to) s), (Z.testbit (pawn_attacks BLACK to) s).
  intros kn ki dg og d0 o0 pw pb H K1 K2 K3 AB AR Hc.
  split; intros Ht; destruct_or! Ht; subst pt; destruct c; try done;
    cbn in H; rewrite ?andb_false_r, ?andb_true_r, ?orb_false_r in H; cbn in H;
    destruct kn, dg, og, d0, o0, pw, pb; try done;
    first [discriminate (K1 eq_refl)|discriminate (K2 eq_refl)|discriminate (K3 eq_refl)
          |discriminate (AB eq_refl)|discriminate (AR eq_refl)].
Qed.

(** Keeping the attackers up to date gives the attackers afresh. *)
Lemma xray_fresh (oc s : Z) (c : Color) (pt : PieceType) :
  real_color c -> real_type pt -> pt <> KING -> on_board s -> mb b s = PIECE_MAKE c pt ->
  Z.testbit (attackers_to b to oc) s = true ->
  see_xray b to pt (Z.lxor oc (BB_SQ s)) (attackers_to b to oc) =
  attackers_to b to (Z.lxor oc (BB_SQ s)).
Proof.
  intros Hc Hp Hk Hs E H. destruct (attacker_lines oc s c pt Hc Hp Hs E H) as [HB HR].
  pose proof (attackers_in_occ oc s H) as Hos.
  set (oc' := Z.lxor oc (BB_SQ s)).
  assert (forall k, 0 <= k -> Z.testbit oc' k = Z.testbit oc k && negb (k =? s)) as Ho.
  { intros k Hk0. unfold oc'. rewrite Z.lxor_spec, BB_SQ_testbit by done.
    destruct (Z.eqb_spec k s) as [->|]; [by rewrite Hos|by rewrite xorb_false_r, andb_true_r]. }
  assert (forall k, 0 <= k -> Z.testbit oc' k = true -> Z.testbit oc k = true) as Hsub.
  { intros k Hk0. rewrite Ho by done. by intros [? _]%andb_true_iff. }
  apply bits_ext. intros n Hn.
  assert (Z.testbit (bishop_attacks_calc to oc) n = true ->
    Z.testbit (bishop_attacks_calc to oc') n = true) as MB
    by (apply slide_mono; auto using bishop_dirs_good).
  assert (Z.testbit (rook_attacks_calc to oc) n = true ->
    Z.testbit (rook_attacks_calc to oc') n = true) as MR
    by (apply slide_mono; auto using rook_dirs_good).
  assert (pt = KNIGHT \/ pt = ROOK ->
    Z.testbit (bishop_attacks_calc to oc') n = Z.testbit (bishop_attacks_calc to oc) n) as UB
    by (intros Ht; eapply slide_unseen; eauto using bishop_dirs_good).
  assert (pt = KNIGHT \/ pt = BISHOP \/ pt = PAWN ->
    Z.testbit (rook_attacks_calc to oc') n = Z.testbit (rook_attacks_calc to oc) n) as UR
    by (intros Ht; eapply slide_unseen; eauto using rook_dirs_good).
  unfold see_xray. cbv zeta. rewrite Z.land_spec.
  rewrite (attackers_testbit oc' n) by done.
  destruct (Z.testbit oc' n) eqn:En; [|by rewrite !andb_false_r]. rewrite !andb_true_r.
  repeat (rewrite (apply_if (fun x => Z.testbit x n)) || rewrite Z.lor_spec || rewrite Z.land_spec).
  rewrite attackers_testbit, (Hsub n Hn En), andb_true_r by done.
  generalize (Z.testbit (knight_attacks to) n && Z.testbit (both b KNIGHT) n),
    (Z.testbit (king_attacks to) n && Z.testbit (both b KING) n), (pawn_hit n),
    (Z.testbit (diag_sliders b) n), (Z.testbit (orth_sliders b) n).
  revert MB MR UB UR.
  generalize (Z.testbit (bishop_attacks_calc to oc) n), (Z.testbit (rook_attacks_calc to oc) n),
    (Z.testbit (bishop_attacks_calc to oc') n), (Z.testbit (rook_attacks_calc to oc') n).
  revert Hk Hp. clear. intros Hk Hp x y x' y' MB MR UB UR kn ki pa D O.
  destruct pt; try done; rewrite ?UB, ?UR by tauto; clear UB UR; destruct x, x', y, y';
    try discriminate (MB eq_refl); try discriminate (MR eq_refl); clear; by destruct kn, ki, pa, D, O.
Qed.

(** ** The exchange is bounded by the men on the board *)

(** Men that may still take part: all but the one on the target square. *)
Definition men_off (oc : Bitboard) : nat :=
  length (List.filter (fun n => Z.testbit oc n && negb (n =? to)) (seqZ 0 64)).

Lemma men_off_leave (oc s : Z) :
  on_board s -> Z.testbit (attackers_to b to oc) s = true ->
  (men_off (Z.lxor oc (BB_SQ s)) + 1 = men_off oc)%nat.
Proof.
  intros Hs Ha. pose proof (attackers_in_occ oc s Ha) as Ho.
  assert (s <> to) as Hne by (intros ->; by rewrite attackers_not_self in Ha).
  unfold men_off.
  rewrite <- (filter_leave (fun n => Z.testbit oc n && negb (n =? to)) s (seqZ 0 64)).
  - apply (f_equal (fun l => (length l + 1)%nat)). apply List.filter_ext_in. intros n Hn.
    apply list_elem_of_In, elem_of_seqZ in Hn.
    rewrite Z.lxor_spec, BB_SQ_testbit by (done || lia).
    destruct (Z.eqb_spec n s) as [->|]; [by rewrite Ho, andb_false_r|].
    by rewrite xorb_false_r, andb_true_r.
  - apply NoDup_ListNoDup, NoDup_seqZ.
  - apply list_elem_of_In, elem_of_seqZ. sq_lia.
  - rewrite Ho. by destruct (Z.eqb_spec s to).
Qed.

Lemma no_men_least (oc : Z) (stm : Color) :
  real_color stm -> men_off oc = 0%nat ->
  least_attacker b stm (side_attackers b stm oc (attackers_to b to oc)) = None.
Proof.
  intros Hc H0. destruct (least_attacker _ _ _) as [[pt bb]|] eqn:E; [|done].
  destruct (least_attacker_spec stm _ pt bb Hc E) as (_ & s & Hs & _ & Ha & _).
  unfold side_attackers in Ha. rewrite !Z.land_spec, !andb_true_iff in Ha.
  pose proof (men_off_leave oc s Hs (proj1 (proj1 Ha))). lia.
Qed.

Lemma exchange_nonneg (f : nat) (oc : Z) (stm : Color) (victim : PieceType) :
  0 <= bb_exchange f b to oc stm victim.
Proof.
  destruct f; cbn [bb_exchange]; [lia|]. destruct (least_attacker _ _ _) as [[[] ?]|]; try lia.
  destruct (bb_nonzero _); lia.
Qed.

(** Once a king has retaken, nothing attacks it. *)
Lemma see_rec_king (n : nat) (g : Z) (oc bb : Z) (stm : Color) :
  bb_nonzero (side_attackers b stm oc (attackers_to b to oc)) = false ->
  see_rec n b to g KING (Z.lxor oc bb)
    (see_xray b to KING (Z.lxor oc bb) (attackers_to b to oc)) stm = g.
Proof.
  intros H. destruct n; [done|]. cbn [see_rec]. destruct (_ <? 0); [done|].
  unfold bb_nonzero in H. apply negb_false_iff, Z.eqb_eq in H.
  set (atk := attackers_to b to oc) in *.
  assert (side_attackers b stm (Z.lxor oc bb) (see_xray b to KING (Z.lxor oc bb) atk) = 0) as ->.
  { apply bits_ext. intros k Hk. apply (f_equal (fun z => Z.testbit z k)) in H.
    unfold side_attackers, see_xray in *. cbn [bool_decide orb].
    rewrite !bool_decide_eq_false_2 by done. cbn [orb].
    rewrite !Z.land_spec, Z.testbit_0_l in *. destruct (Z.testbit atk k) eqn:E; [|done].
    rewrite (attackers_in_occ oc k E) in H. cbn [andb] in H. rewrite andb_true_r in H.
    by rewrite H, andb_false_r. }
  done.
Qed.

Lemma sgn_min (g x y : Z) : Z.sgn x = Z.sgn y -> Z.sgn (- maxi (- g) x) = Z.sgn (Z.min g (- y)).
Proof. unfold maxi. intros H. destruct (Z.ltb_spec x (- g)); lia. Qed.

(** The sign of the result is that of the exchange, whatever is cut off. *)
Lemma see_rec_exchange (n f : nat) (g : Z) (victim : PieceType) (oc : Z) (stm : Color) :
  real_color stm -> (men_off oc <= n)%nat -> (men_off oc <= f)%nat ->
  Z.sgn (see_rec n b to g victim oc (attackers_to b to oc) stm) =
  Z.sgn (g - bb_exchange f b to oc stm victim).
Proof.
  revert f g victim oc stm. induction n as [|n IH]; intros f g victim oc stm Hc Hn Hf.
  { cbn [see_rec]. destruct f; cbn [bb_exchange]; [f_equal; lia|].
    rewrite no_men_least by (done || lia). f_equal; lia. }
  destruct f as [|f].
  { cbn [see_rec bb_exchange]. rewrite no_men_least by (done || lia). rewrite Z.sub_0_r.
    by destruct (_ <? 0). }
  cbn [see_rec bb_exchange]. set (v := see_pv_of b victim).
  destruct (least_attacker _ _ _) as [[pt bb]|] eqn:E.
  2:{ rewrite Z.sub_0_r. by destruct (_ <? 0). }
  destruct (least_attacker_spec stm _ pt bb Hc E) as (Hp & s & Hs & -> & Ha & Hmb).
  unfold side_attackers in Ha. rewrite !Z.land_spec, !andb_true_iff in Ha.
  destruct Ha as [[Ha _] _]. pose proof (men_off_leave oc s Hs Ha) as Hmen.
  assert (real_color (color_opposite stm)) as Hc' by by destruct stm.
  destruct (decide (pt = KING)) as [->|Hk].
  - destruct (bb_nonzero _) eqn:Eo; cbn [bool_decide andb].
    { rewrite bool_decide_eq_true_2 by done. cbn [andb]. rewrite Z.sub_0_r. by destruct (_ <? 0). }
    rewrite andb_false_r, see_rec_king by done.
    destruct (Z.ltb_spec (maxi (- g) (v - g)) 0) as [Hlt|Hge]; unfold maxi in *.
    + destruct (Z.ltb_spec (v - g) (- g)); lia.
    + destruct (Z.ltb_spec (v - g) (- g)); lia.
  - rewrite bool_decide_eq_false_2 by done. cbn [andb].
    rewrite (xray_fresh oc s stm pt) by done.
    specialize (IH f (v - g) pt (Z.lxor oc (BB_SQ s)) (color_opposite stm) Hc' ltac:(lia) ltac:(lia)).
    set (E' := bb_exchange f b to (Z.lxor oc (BB_SQ s)) (color_opposite stm) pt) in *.
    assert (0 <= E') by apply exchange_nonneg.
    assert (Z.sgn (g - Z.max 0 (v - E')) = Z.sgn (if maxi (- g) (v - g) <? 0 then g else
      - maxi (- g) (see_rec n b to (v - g) pt (Z.lxor oc (BB_SQ s))
        (attackers_to b to (Z.lxor oc (BB_SQ s))) (color_opposite stm)))) as Heq.
    { destruct (Z.ltb_spec (maxi (- g) (v - g)) 0) as [Hlt|Hge].
      - unfold maxi in Hlt. destruct (Z.ltb_spec (v - g) (- g)); lia.
      - rewrite (sgn_min g _ _ IH). f_equal. lia. }
    rewrite <- Heq. by destruct pt.
Qed.
End Exchange.

(** ** Who attacks the square *)

(** Where no variant takes the right away, [attackers_to] finds the pieces that
    attack the square by their own rule. *)
Section Attackers.
Context (b : Board) (Hinv : board_inv b) (sq : Square) (Hsq : on_board sq).
Context (Hq : b_mod b <> MOD_SAVE_QUEEN) (Hkb : kb_phase1 b = false).

Lemma attackers_rule (oc : Bitboard) (n : Square) (c : Color) (t : PieceType) :
  on_board n -> real_color c -> real_type t -> mb b n = PIECE_MAKE c t ->
  Z.testbit (attackers_to b sq oc) n =
  Z.testbit oc n && Z.testbit (piece_attacks (set_b_all oc b) c t n) sq.
Proof.
  intros Hn Hc Ht E.
  assert (stq_prisoner (set_b_all oc b) c n = false) as Hpr
    by (unfold stq_prisoner; by rewrite bool_decide_eq_false_2).
  assert (Z.testbit (bishop_attacks_calc n oc) sq = Z.testbit (bishop_attacks_calc sq oc) n)
    as Eb by (apply slide_dirs_sym; auto using bishop_dirs_good).
  assert (Z.testbit (rook_attacks_calc n oc) sq = Z.testbit (rook_attacks_calc sq oc) n)
    as Er by (apply slide_dirs_sym; auto using rook_dirs_good).
  pose proof (knight_attacks_sym n sq Hn Hsq) as En. pose proof (king_attacks_sym n sq Hn Hsq) as Ek.
  pose proof (pawn_attacks_sym WHITE sq n ltac:(discriminate) Hsq Hn) as Ew.
  pose proof (pawn_attacks_sym BLACK sq n ltac:(discriminate) Hsq Hn) as Ebl.
  cbn [color_opposite] in Ew, Ebl.
  unfold attackers_to. cbv zeta. rewrite Z.land_spec, andb_comm. f_equal.
  rewrite (apply_if (fun x => Z.testbit x n)).
  unfold diag_sliders, orth_sliders, BB_EMPTY. rewrite !Z.lor_spec, !Z.land_spec, !Z.lor_spec.
  rewrite !(both_testbit b Hinv c t) by (done || discriminate).
  rewrite !pcs_testbit, E, Z.testbit_0_l by (done || discriminate).
  revert Hc Ht. unfold piece_attacks. change (kb_phase1 (set_b_all oc b)) with (kb_phase1 b).
  rewrite Hkb, Hpr. cbn [orb b_mod b_all set_b_all].
  destruct t; intros Hc Ht; rewrite ?(apply_if (fun x => Z.testbit x sq)), ?Z.lor_spec,
    ?Eb, ?Er, ?En, ?Ek; try done;
    (destruct c; [rewrite <- ?Ew|rewrite <- ?Ebl|done]); clear;
    generalize (Z.testbit (knight_attacks sq) n), (Z.testbit (king_attacks sq) n),
      (Z.testbit (bishop_attacks_calc sq oc) n), (Z.testbit (rook_attacks_calc sq oc) n),
      (Z.testbit (pawn_attacks WHITE sq) n), (Z.testbit (pawn_attacks BLACK sq) n);
    intros kn ki d o pw pb; destruct (b_mod b == MOD_MERCENARY);
    by destruct kn, ki, d, o, pw, pb.
Qed.

Lemma attackers_exact (n : Square) :
  on_board n ->
  Z.testbit (attackers_to b sq (b_all b)) n = true <-> exists c, real_color c /\ attacks_from b c n sq.
Proof.
  intros Hn. destruct (mb_valid b Hinv n Hn) as [E|(c & t & Hc & Ht & E)].
  - split.
    + intros H%attackers_in_occ. by rewrite all_testbit, E in H.
    + intros (c & Hc & t & Ht & E' & _). rewrite E in E'. by destruct (PIECE_MAKE_not_empty c t Hc).
  - rewrite (attackers_rule (b_all b) n c t), all_testbit, E by done.
    rewrite (proj2 (Z.eqb_neq _ _) (PIECE_MAKE_not_empty c t Hc)). cbn [negb andb].
    replace (set_b_all (b_all b) b) with b by by destruct b. split.
    + intros H. exists c. split; [done|]. by exists t.
    + intros (c' & Hc' & t' & Ht' & E' & H). rewrite E in E'. by apply PIECE_MAKE_inj in E' as [-> ->].
Qed.

(** ** The bitboards hold the pieces that can take *)

Lemma taker_bit (oc : Bitboard) (c : Color) (t : PieceType) (n : Square) :
  on_board n -> real_color c -> real_type t ->
  Z.testbit (Z.land (side_attackers b c oc (attackers_to b sq oc)) (pcs b c t)) n =
  can_take b oc sq c t n.
Proof.
  intros Hn Hc Ht. unfold side_attackers, can_take. rewrite !Z.land_spec, pcs_testbit by done.
  destruct (Z.eqb_spec (mb b n) (PIECE_MAKE c t)) as [E|]; [|by rewrite !andb_false_r].
  rewrite (attackers_rule oc n c t) by done. rewrite !andb_true_r, occ_testbit, E by done.
  rewrite PIECE_COLOR_MAKE, bool_decide_eq_true_2 by done.
  by destruct (Z.testbit oc n), (Z.testbit (piece_attacks _ c t n) sq).
Qed.

Lemma taker_squares (oc : Bitboard) (c : Color) (t : PieceType) :
  real_color c -> real_type t ->
  let ov := Z.land (side_attackers b c oc (attackers_to b sq oc)) (pcs b c t) in
  0 <= ov < 2 ^ 64 /\ List.filter (can_take b oc sq c t) (seqZ 0 64) = bb_squares ov.
Proof.
  intros Hc Ht ov. assert (0 <= pcs b c t < 2 ^ 64) as Hb by auto with board.
  assert (0 <= ov < 2 ^ 64) as Ho.
  { apply bits_bounded; [lia|]. intros n Hn. unfold ov.
    by rewrite Z.land_spec, (testbit_above_64 (pcs b c t)), andb_false_r by lia. }
  split; [done|]. rewrite bb_squares_filter by done. apply List.filter_ext_in. intros n Hn.
  apply list_elem_of_In, elem_of_seqZ in Hn. symmetry. apply taker_bit; [sq_lia|done|done].
Qed.

Lemma bb_squares_head (x : Z) : 0 < x < 2 ^ 64 -> exists l, bb_squares x = bb_lsb x :: l.
Proof.
  intros Hx. unfold bb_squares. cbn [bb_squares_loop].
  rewrite (proj2 (Z.eqb_neq x 0)) by lia. by eexists.
Qed.

(** The first of the takers is the least attacker of the code. *)
Lemma least_taker (oc : Bitboard) (c : Color) :
  real_color c ->
  least_attacker b c (side_attackers b c oc (attackers_to b sq oc)) =
  (fun '(t, n) => (t, BB_SQ n)) <$> head (takers b oc sq c).
Proof.
  intros Hc. unfold least_attacker, takers.
  assert (Forall real_type piece_types) as Hts by (repeat constructor; discriminate).
  induction Hts as [|t ts Ht Hts IH]; [done|]. cbn [List.find flat_map].
  destruct (taker_squares oc c t Hc Ht) as [Ho ->]. set (ov := Z.land _ _) in *.
  unfold bb_nonzero at 1. destruct (Z.eqb_spec ov 0) as [E|Hne]; cbn [negb].
  - rewrite E. exact IH.
  - destruct (bb_squares_head ov ltac:(lia)) as [l ->]. cbn. fold ov. by rewrite isolate_lsb by lia.
Qed.

Lemma takers_In (oc : Bitboard) (c : Color) (t : PieceType) (n : Square) :
  In (t, n) (takers b oc sq c) <-> In t piece_types /\ on_board n /\ can_take b oc sq c t n = true.
Proof.
  unfold takers. generalize piece_types. intros ts. rewrite in_flat_map. split.
  - intros (t' & Ht & (n' & [= -> ->] & [Hn H]%filter_In)%in_map_iff).
    apply list_elem_of_In, elem_of_seqZ in Hn. split_and!; [done|sq_lia|done].
  - intros (Ht & Hn & H). exists t. split; [done|]. apply in_map, filter_In.
    split; [apply list_elem_of_In, elem_of_seqZ; sq_lia|done].
Qed.

Lemma takers_nonempty (oc : Bitboard) (c : Color) :
  real_color c ->
  bb_nonzero (side_attackers b c oc (attackers_to b sq oc)) =
  match takers b oc sq c with [] => false | _ => true end.
Proof.
  intros Hc. pose proof (least_taker oc c Hc) as HL. set (atk := side_attackers _ _ _ _) in *.
  apply eq_iff_eq_true. unfold bb_nonzero. rewrite negb_true_iff, Z.eqb_neq. split.
  - intros Hne. assert (0 <= occ b c < 2 ^ 64) as Hb by auto with board.
    destruct (nonzero_has_bit atk) as (n & Hn & Hbit); [|done|].
    { apply Z.land_nonneg. left. apply Z.land_nonneg. right. lia. }
    assert (Z.testbit (occ b c) n = true) as Hoc.
    { unfold atk, side_attackers in Hbit. rewrite !Z.land_spec, !andb_true_iff in Hbit. tauto. }
    assert (on_board n) as Hon.
    { destruct (Z.ltb_spec n 64); [sq_lia|]. rewrite testbit_above_64 in Hoc by lia. done. }
    destruct (mb_valid b Hinv n Hon) as [E|(c' & t & Hc' & Ht & E)];
      rewrite occ_testbit, E in Hoc by done; [by destruct c|].
    rewrite PIECE_COLOR_MAKE in Hoc. apply bool_decide_eq_true in Hoc as ->.
    assert (In (t, n) (takers b oc sq c)) as Hin; [|by destruct (takers b oc sq c)].
    apply takers_In. split; [destruct t; simpl; auto 10; done|]. split; [done|].
    rewrite <- taker_bit by done. fold atk. rewrite Z.land_spec, Hbit, pcs_testbit, E by done.
    by rewrite Z.eqb_refl.
  - intros Ht E. rewrite E in HL. destruct (takers b oc sq c) as [|[t n] l]; [done|]. discriminate HL.
Qed.

Lemma clear_xor (oc n : Z) :
  on_board n -> Z.testbit oc n = true -> Z.clearbit oc n = Z.lxor oc (BB_SQ n).
Proof.
  intros Hn Ho. apply bits_ext. intros k Hk.
  rewrite Z.clearbit_eqb, Z.lxor_spec, BB_SQ_testbit by (done || sq_lia). rewrite (Z.eqb_sym n k).
  destruct (Z.eqb_spec k n) as [->|]; [by rewrite Ho|by rewrite xorb_false_r, andb_true_r].
Qed.

Lemma taker_in (oc : Bitboard) (c : Color) (t : PieceType) (n : Square) (l : list (PieceType * Square)) :
  takers b oc sq c = (t, n) :: l -> on_board n /\ Z.testbit oc n = true.
Proof.
  intros E. assert (In (t, n) (takers b oc sq c)) as H by (rewrite E; by left).
  apply takers_In in H as (_ & Hn & H). unfold can_take in H. rewrite !andb_true_iff in H. tauto.
Qed.

Lemma exchange_bb (fuel : nat) (oc : Bitboard) (stm : Color) (victim : PieceType) :
  real_color stm -> bb_exchange fuel b sq oc stm victim = exchange fuel b sq oc stm victim.
Proof.
  revert oc stm victim. induction fuel as [|fuel IH]; intros oc stm victim Hc; [done|].
  assert (real_color (color_opposite stm)) as Hc' by by destruct stm.
  pose proof (least_taker oc stm Hc) as HL. pose proof (takers_nonempty oc (color_opposite stm) Hc') as HO.
  cbn [bb_exchange exchange]. cbv zeta. rewrite HL, HO. clear HL HO.
  pose proof (taker_in oc stm) as Hin.
  destruct (takers b oc sq stm) as [|[t n] l]; [reflexivity|].
  destruct (Hin t n l eq_refl) as [Hn Ho].
  pose proof (IH (Z.clearbit oc n) (color_opposite stm) t Hc') as Hrec.
  rewrite (clear_xor oc n Hn Ho) in *. cbn [head fmap option_fmap option_map]. rewrite <- Hrec.
  destruct t, (takers b oc sq (color_opposite stm)); reflexivity.
Qed.
End Attackers.

(** ** [see_value] *)

Lemma see_value_rec (b : Board) (m : Move) :
  MOVE_IS_CAPTURE m = true \/ MOVE_IS_EP m = true ->
  see_value b m =
  see_rec 30 b (MOVE_TO m) (see_first_gain b m).1 (see_first_gain b m).2 (see_occ b m)
    (attackers_to b (MOVE_TO m) (see_occ b m))
    (color_opposite (PIECE_COLOR (mb b (MOVE_FROM m)))).
Proof.
  intros Hc. unfold see_value.
  replace (negb (MOVE_IS_CAPTURE m) && negb (MOVE_IS_EP m)) with false
    by (destruct Hc as [-> | ->]; by rewrite ?andb_false_r).
  destruct (see_first_gain b m) as [g0 v]. cbn [fst snd].
  pose proof (see_loop_rec 30 b (MOVE_TO m) 0 ((replicate 32 0).[0 <- g0]) v (see_occ b m)
    (attackers_to b (MOVE_TO m) (see_occ b m)) (color_opposite (PIECE_COLOR (mb b (MOVE_FROM m))))
    ltac:(lia)) as H.
  rewrite length_zset, length_replicate in H. specialize (H ltac:(lia)).
  destruct (see_loop 31 _ _ _ _ _ _ _ _) as [d gain]. destruct H as (Hd & Hl & _ & Hw).
  rewrite see_back_wval by (rewrite Hl; lia). replace (d - 1) with (d - 1 - 0) by lia. rewrite Hw.
  rewrite (znth_zset_eq (replicate 32 0) 0 g0); [done|]. unfold in_range. rewrite length_replicate. lia.
Qed.

Lemma see_pv_bounds (b : Board) (pt : PieceType) : 0 <= see_pv_of b pt <= 20000.
Proof.
  unfold see_pv_of, see_pv. assert (0 <= SEE_PIECE_VAL.[PieceType_to_Z pt] <= 20000)
    by (destruct pt; vm_compute; split; discriminate).
  score_bounds.
Qed.

Lemma see_rec_bounds (n : nat) (b : Board) (to : Square) (g : Z) (v : PieceType) (oc atk : Z)
    (stm : Color) :
  Z.min g (g - see_pv_of b v) <= see_rec n b to g v oc atk stm <= g.
Proof.
  revert g v oc atk stm. pose proof (see_pv_bounds b) as Hv.
  induction n as [|n IH]; intros g v oc atk stm; cbn [see_rec]; specialize (Hv v); [lia|].
  destruct (_ <? 0); [lia|]. destruct (least_attacker _ _ _) as [[pt bb]|]; [|lia].
  destruct (_ && _); [lia|].
  specialize (IH (see_pv_of b v - g) pt (Z.lxor oc bb) (see_xray b to pt (Z.lxor oc bb) atk)
    (color_opposite stm)).
  set (w := see_rec n _ _ _ _ _ _ _) in *. unfold maxi. destruct (Z.ltb_spec w (- g)); lia.
Qed.

Lemma first_gain_bounds (b : Board) (m : Move) : -40000 <= (see_first_gain b m).1 <= 40000.
Proof.
  unfold see_first_gain. pose proof (see_pv_bounds b (MOVE_CAPTURED m)).
  pose proof (see_pv_bounds b (MOVE_PROMO_TYPE m)). pose proof (see_pv_bounds b PAWN).
  cbv zeta. destruct (_ && _ && _), (MOVE_IS_PROMO m); cbn [fst]; lia.
Qed.

Lemma see_value_bounds (b : Board) (m : Move) : -60000 <= see_value b m <= 40000.
Proof.
  destruct (MOVE_IS_CAPTURE m) eqn:E1; [|destruct (MOVE_IS_EP m) eqn:E2].
  3:{ unfold see_value. rewrite E1, E2. cbn [negb andb]. lia. }
  all: rewrite see_value_rec by auto; pose proof (first_gain_bounds b m);
    match goal with |- _ <= see_rec ?n ?b ?t ?g ?v ?o ?a ?s <= _ =>
      pose proof (see_rec_bounds n b t g v o a s); pose proof (see_pv_bounds b v) end; lia.
Qed.

Section Value.
Context (b : Board) (m : Move) (Hinv : board_inv b) (Hf : move_fits b m).
Let to := MOVE_TO m.
Let from := MOVE_FROM m.

Lemma squares_leave (oc s : Z) :
  on_board s -> Z.testbit oc s = true ->
  (length (List.filter (Z.testbit (Z.lxor oc (BB_SQ s))) (seqZ 0 64)) + 1 =
   length (List.filter (Z.testbit oc) (seqZ 0 64)))%nat.
Proof.
  intros Hs Ho. rewrite <- (filter_leave (Z.testbit oc) s (seqZ 0 64)).
  - apply (f_equal (fun l => (length l + 1)%nat)). apply List.filter_ext_in. intros n Hn.
    apply list_elem_of_In, elem_of_seqZ in Hn. rewrite Z.lxor_spec, BB_SQ_testbit by (done || lia).
    destruct (Z.eqb_spec n s) as [->|]; [by rewrite Ho, andb_false_r|].
    by rewrite xorb_false_r, andb_true_r.
  - apply NoDup_ListNoDup, NoDup_seqZ.
  - apply list_elem_of_In, elem_of_seqZ. sq_lia.
  - done.
Qed.

Lemma men_off_le (oc : Z) :
  (men_off to oc <= length (List.filter (Z.testbit oc) (seqZ 0 64)))%nat.
Proof.
  unfold men_off. generalize (seqZ 0 64). induction l as [|x l IH]; simpl; [lia|].
  destruct (Z.testbit oc x), (x =? to); simpl; lia.
Qed.

Lemma men_off_to (oc : Z) :
  on_board to -> Z.testbit oc to = true ->
  (men_off to oc + 1 = length (List.filter (Z.testbit oc) (seqZ 0 64)))%nat.
Proof.
  intros Hs Ho. unfold men_off. apply filter_leave; [apply NoDup_ListNoDup, NoDup_seqZ| |done].
  apply list_elem_of_In, elem_of_seqZ. sq_lia.
Qed.

Lemma see_occ_men :
  MOVE_IS_CAPTURE m = true \/ MOVE_IS_EP m = true -> bb_popcount (b_all b) <= 32 ->
  (men_off to (see_occ b m) <= 30)%nat.
Proof.
  intros Hc Hp. assert (on_board from) as Hfr by (pose proof (from_bounds m); done).
  assert (on_board to) as Hto by (pose proof (to_bounds m); done).
  rewrite bb_popcount_squares, bb_squares_filter in Hp by auto with board.
  pose proof (squares_leave (b_all b) from Hfr) as H1.
  rewrite all_testbit in H1 by done. unfold from in H1 at 1. rewrite (mf_piece _ _ Hf) in H1.
  pose proof (PIECE_MAKE_not_empty (b_side b) (MOVE_PIECE m) (mf_side _ _ Hf)) as Hne.
  specialize (H1 ltac:(by apply negb_true_iff, Z.eqb_neq)). unfold see_occ. cbv zeta.
  fold from. destruct (MOVE_IS_EP m) eqn:Eep.
  - destruct (mf_ep _ _ Hf Eep) as (_ & He & Hef).
    assert (on_board (ep_cap_sq m)) as Hep.
    { apply SQ_on_board; [by apply SQ_ROW_bound|by apply SQ_COL_bound]. }
    pose proof (squares_leave (Z.lxor (b_all b) (BB_SQ from)) (ep_cap_sq m) Hep) as H2.
    rewrite Z.lxor_spec, all_testbit, BB_SQ_testbit in H2 by (done || sq_lia).
    assert (negb (mb b (ep_cap_sq m) =? PIECE_EMPTY) = true) as Et by by apply negb_true_iff, Z.eqb_neq.
    assert (ep_cap_sq m =? from = false) as Ef by by apply Z.eqb_neq.
    rewrite Et, Ef in H2. specialize (H2 eq_refl).
    pose proof (men_off_le (Z.lxor (Z.lxor (b_all b) (BB_SQ from)) (BB_SQ (ep_cap_sq m)))).
    change (SQ (SQ_ROW from) (SQ_COL (MOVE_TO m))) with (ep_cap_sq m). lia.
  - destruct Hc as [Hc|]; [|done]. pose proof (mf_capture _ _ Hf Eep Hc) as Hne'.
    pose proof (men_off_to (Z.lxor (b_all b) (BB_SQ from)) Hto) as H2.
    rewrite Z.lxor_spec, all_testbit, BB_SQ_testbit in H2 by (done || sq_lia).
    assert (negb (mb b to =? PIECE_EMPTY) = true) as Et by by apply negb_true_iff, Z.eqb_neq.
    assert (to =? from = false) as Ef by (apply Z.eqb_neq; symmetry; apply (mf_moves _ _ Hf)).
    rewrite Et, Ef in H2. specialize (H2 eq_refl). lia.
Qed.

Lemma see_value_sign :
  b_mod b <> MOD_MERCENARY -> b_mod b <> MOD_SAVE_QUEEN -> kb_phase1 b = false -> MOVE_IS_CAPTURE m = true \/ MOVE_IS_EP m = true ->
  bb_popcount (b_all b) <= 32 -> Z.sgn (see_value b m) = Z.sgn (exchange_value b m).
Proof.
  intros Hm Hq Hkb Hc Hp. rewrite see_value_rec by done. unfold exchange_value.
  destruct (see_first_gain b m) as [g0 v]. cbn [fst snd].
  pose proof (see_occ_men Hc Hp). fold to.
  assert (real_color (color_opposite (PIECE_COLOR (mb b (MOVE_FROM m))))) as Hstm.
  { rewrite (mf_piece _ _ Hf), PIECE_COLOR_MAKE. pose proof (mf_side _ _ Hf). by destruct (b_side b). }
  rewrite <- exchange_bb by (done || by apply to_bounds).
  apply see_rec_exchange; [done|by apply to_bounds|done|done|lia|lia].
Qed.
End Value.

