(* ===== verification/SearchState.v ===== *)
(** * The state of the search (the static variables of [search.c])

    Transposition table, killer moves, history and countermove tables, the
    node counter and the clock, with the small functions that update them. *)

From stdpp Require Import base numbers list option gmap.
From Stdlib Require Import ZArith Lia Bool.
From S2P Require Import Prelude Types Board HeurCommon.

(** ** Constants *)

Definition INFINITY_SCORE : Z := 999999.
Definition MATE_SCORE : Z := 100000.
Definition MAX_PLY : Z := 64.
Definition MAX_QPLY : Z := 8.
Definition MAX_NODES : Z := 20000000.

Definition is_mate (s : Z) : bool := (MATE_SCORE - 500 <? s) || (s <? - MATE_SCORE + 500).

(** ** Transposition table ([search.h])

    The array behind [entries] is a map from indices; an index never written
    holds the zero entry that [calloc] and [memset] leave.  A null pointer is
    [None]. *)

Inductive TTFlag := TT_EXACT | TT_LOWER | TT_UPPER.
#[export] Instance TTFlag_eq_dec : EqDecision TTFlag.
Proof. solve_decision. Defined.

Record TTEntry := mkEntry {
  tte_key : Z;
  tte_depth : Z;
  tte_score : Z;
  tte_flag : TTFlag;
  tte_best_move : Move
}.

Record TTable := mkTable {
  tt_entries : option (gmap Z TTEntry);
  tt_count : Z;
  tt_mask : Z
}.

Definition entry_zero : TTEntry := mkEntry 0 0 0 TT_EXACT MOVE_NONE.

(** [sizeof(TTEntry)]: a 64-bit key and four 32-bit fields. *)
Definition sizeof_TTEntry : Z := 24.

(** [while (n * 2 <= count) n *= 2]; an [int] is below [2 ^ 31]. *)
Fixpoint tt_size_loop (fuel : nat) (count n : Z) : Z :=
  match fuel with
  | O => n
  | S f => if n * 2 <=? count then tt_size_loop f count (n * 2) else n
  end.

Definition tt_alloc (size_mb : Z) : TTable :=
  let count := (size_mb * 1024 * 1024) ÷ sizeof_TTEntry in
  let n := tt_size_loop 31 count 1 in
  mkTable (Some ∅) n (n - 1).

Definition tt_free (tt : TTable) : TTable := mkTable None 0 (tt_mask tt).

Definition tt_clear (tt : TTable) : TTable :=
  match tt_entries tt with
  | Some _ => mkTable (Some ∅) (tt_count tt) (tt_mask tt)
  | None => tt
  end.

(** [tt->entries[i]] *)
Definition tt_entry (tt : TTable) (i : Z) : TTEntry :=
  match tt_entries tt with
  | Some es => default entry_zero (es !! i)
  | None => entry_zero
  end.

Definition tt_index (tt : TTable) (key : Z) : Z := Z.land key (tt_mask tt).

Definition tt_probe (tt : TTable) (key : Z) : option TTEntry :=
  let e := tt_entry tt (tt_index tt key) in
  if tte_key e =? key then Some e else None.

Definition tt_store (tt : TTable) (key depth score : Z) (flag : TTFlag) (best : Move) : TTable :=
  let i := tt_index tt key in
  let e := tt_entry tt i in
  if (tte_key e =? key) || (tte_depth e <=? depth) || (tte_best_move e =? MOVE_NONE) then
    mkTable ((fun es => <[i := mkEntry key depth score flag best]> es) <$> tt_entries tt)
      (tt_count tt) (tt_mask tt)
  else tt.

(** ** The static variables

    [clock_reads] is not in the source: it counts the calls of [time_ms_now],
    so that a sequence of clock readings can be given as a function. *)

Record Search := mkSearch {
  s_rng : Z;
  s_search_nonce : Z;
  s_killers : list (list Move);
  s_history : list (list (list Z));
  s_countermoves : list (list (list Move));
  s_tt : TTable;
  s_nodes : Z;
  s_stopped : bool;
  s_deadline_ms : Z;
  s_skill_level : Z;
  s_prev_skill : Z;
  s_eval_stack : list Z;
  s_root_moves : list Move;
  s_root_scores : list Z;
  s_root_count : Z;
  clock_reads : Z
}.

Definition set_s_rng (x : Z) (s : Search) : Search :=
  mkSearch x (s_search_nonce s) (s_killers s) (s_history s) (s_countermoves s) (s_tt s) (s_nodes
    s) (s_stopped s) (s_deadline_ms s) (s_skill_level s) (s_prev_skill s) (s_eval_stack s)
    (s_root_moves s) (s_root_scores s) (s_root_count s) (clock_reads s).
Definition set_s_search_nonce (x : Z) (s : Search) : Search :=
  mkSearch (s_rng s) x (s_killers s) (s_history s) (s_countermoves s) (s_tt s) (s_nodes s)
    (s_stopped s) (s_deadline_ms s) (s_skill_level s) (s_prev_skill s) (s_eval_stack s)
    (s_root_moves s) (s_root_scores s) (s_root_count s) (clock_reads s).
Definition set_s_killers (x : list (list Move)) (s : Search) : Search :=
  mkSearch (s_rng s) (s_search_nonce s) x (s_history s) (s_countermoves s) (s_tt s) (s_nodes s)
    (s_stopped s) (s_deadline_ms s) (s_skill_level s) (s_prev_skill s) (s_eval_stack s)
    (s_root_moves s) (s_root_scores s) (s_root_count s) (clock_reads s).
Definition set_s_history (x : list (list (list Z))) (s : Search) : Search :=
  mkSearch (s_rng s) (s_search_nonce s) (s_killers s) x (s_countermoves s) (s_tt s) (s_nodes s)
    (s_stopped s) (s_deadline_ms s) (s_skill_level s) (s_prev_skill s) (s_eval_stack s)
    (s_root_moves s) (s_root_scores s) (s_root_count s) (clock_reads s).
Definition set_s_countermoves (x : list (list (list Move))) (s : Search) : Search :=
  mkSearch (s_rng s) (s_search_nonce s) (s_killers s) (s_history s) x (s_tt s) (s_nodes s)
    (s_stopped s) (s_deadline_ms s) (s_skill_level s) (s_prev_skill s) (s_eval_stack s)
    (s_root_moves s) (s_root_scores s) (s_root_count s) (clock_reads s).
Definition set_s_tt (x : TTable) (s : Search) : Search :=
  mkSearch (s_rng s) (s_search_nonce s) (s_killers s) (s_history s) (s_countermoves s) x
    (s_nodes s) (s_stopped s) (s_deadline_ms s) (s_skill_level s) (s_prev_skill s) (s_eval_stack
    s) (s_root_moves s) (s_root_scores s) (s_root_count s) (clock_reads s).
Definition set_s_nodes (x : Z) (s : Search) : Search :=
  mkSearch (s_rng s) (s_search_nonce s) (s_killers s) (s_history s) (s_countermoves s) (s_tt s)
    x (s_stopped s) (s_deadline_ms s) (s_skill_level s) (s_prev_skill s) (s_eval_stack s)
    (s_root_moves s) (s_root_scores s) (s_root_count s) (clock_reads s).
Definition set_s_stopped (x : bool) (s : Search) : Search :=
  mkSearch (s_rng s) (s_search_nonce s) (s_killers s) (s_history s) (s_countermoves s) (s_tt s)
    (s_nodes s) x (s_deadline_ms s) (s_skill_level s) (s_prev_skill s) (s_eval_stack s)
    (s_root_moves s) (s_root_scores s) (s_root_count s) (clock_reads s).
Definition set_s_deadline_ms (x : Z) (s : Search) : Search :=
  mkSearch (s_rng s) (s_search_nonce s) (s_killers s) (s_history s) (s_countermoves s) (s_tt s)
    (s_nodes s) (s_stopped s) x (s_skill_level s) (s_prev_skill s) (s_eval_stack s)
    (s_root_moves s) (s_root_scores s) (s_root_count s) (clock_reads s).
Definition set_s_skill_level (x : Z) (s : Search) : Search :=
  mkSearch (s_rng s) (s_search_nonce s) (s_killers s) (s_history s) (s_countermoves s) (s_tt s)
    (s_nodes s) (s_stopped s) (s_deadline_ms s) x (s_prev_skill s) (s_eval_stack s)
    (s_root_moves s) (s_root_scores s) (s_root_count s) (clock_reads s).
Definition set_s_prev_skill (x : Z) (s : Search) : Search :=
  mkSearch (s_rng s) (s_search_nonce s) (s_killers s) (s_history s) (s_countermoves s) (s_tt s)
    (s_nodes s) (s_stopped s) (s_deadline_ms s) (s_skill_level s) x (s_eval_stack s)
    (s_root_moves s) (s_root_scores s) (s_root_count s) (clock_reads s).
Definition set_s_eval_stack (x : list Z) (s : Search) : Search :=
  mkSearch (s_rng s) (s_search_nonce s) (s_killers s) (s_history s) (s_countermoves s) (s_tt s)
    (s_nodes s) (s_stopped s) (s_deadline_ms s) (s_skill_level s) (s_prev_skill s) x
    (s_root_moves s) (s_root_scores s) (s_root_count s) (clock_reads s).
Definition set_s_root_moves (x : list Move) (s : Search) : Search :=
  mkSearch (s_rng s) (s_search_nonce s) (s_killers s) (s_history s) (s_countermoves s) (s_tt s)
    (s_nodes s) (s_stopped s) (s_deadline_ms s) (s_skill_level s) (s_prev_skill s) (s_eval_stack
    s) x (s_root_scores s) (s_root_count s) (clock_reads s).
Definition set_s_root_scores (x : list Z) (s : Search) : Search :=
  mkSearch (s_rng s) (s_search_nonce s) (s_killers s) (s_history s) (s_countermoves s) (s_tt s)
    (s_nodes s) (s_stopped s) (s_deadline_ms s) (s_skill_level s) (s_prev_skill s) (s_eval_stack
    s) (s_root_moves s) x (s_root_count s) (clock_reads s).
Definition set_s_root_count (x : Z) (s : Search) : Search :=
  mkSearch (s_rng s) (s_search_nonce s) (s_killers s) (s_history s) (s_countermoves s) (s_tt s)
    (s_nodes s) (s_stopped s) (s_deadline_ms s) (s_skill_level s) (s_prev_skill s) (s_eval_stack
    s) (s_root_moves s) (s_root_scores s) x (clock_reads s).
Definition set_clock_reads (x : Z) (s : Search) : Search :=
  mkSearch (s_rng s) (s_search_nonce s) (s_killers s) (s_history s) (s_countermoves s) (s_tt s)
    (s_nodes s) (s_stopped s) (s_deadline_ms s) (s_skill_level s) (s_prev_skill s) (s_eval_stack
    s) (s_root_moves s) (s_root_scores s) (s_root_count s) x.

(** The variables as the C program starts with them. *)
Definition zeros2 (n m : nat) : list (list Z) := replicate n (replicate m 0).
Definition zeros3 (k n m : nat) : list (list (list Z)) := replicate k (zeros2 n m).

Definition search_start : Search :=
  mkSearch 0 0 (zeros2 64 2) (zeros3 2 64 64) (zeros3 2 6 64) (mkTable None 0 0) 0 false 0 0 (-1)
    (replicate 72 0) (replicate 256 0) (replicate 256 0) 0 0.

(** ** Pseudo-random numbers *)

Definition rng_next (s_rng : Z) : Z :=
  let s := Z.lxor s_rng (u64 (Z.shiftl s_rng 13)) in
  let s := Z.lxor s (Z.shiftr s 7) in
  Z.lxor s (u64 (Z.shiftl s 17)).

(** The value and the generator's next state. *)
Definition rng_range (max s_rng : Z) : Z * Z :=
  if max <=? 1 then (0, s_rng)
  else
    let x := rng_next s_rng in
    let next := x in
    let x := Z.lxor x (Z.shiftr x 33) in
    let x := u64 (x * 0xff51afd7ed558ccd) in
    let x := Z.lxor x (Z.shiftr x 33) in
    let x := u64 (x * 0xc4ceb9fe1a85ec53) in
    let x := Z.lxor x (Z.shiftr x 33) in
    (x mod max, next).

(** ** Killers, history, countermoves

    The subscripts of the C arrays are not checked; [killers_in], [history_in]
    and [countermoves_in] say that they are inside the arrays. *)

Definition in_row {A} (l : list A) (i : Z) : bool := (0 <=? i) && (i <? Z.of_nat (length l)).

(** [t[c][i][j]] *)
Definition in_cube (t : list (list (list Z))) (c i j : Z) : bool :=
  in_row t c && in_row (t.[c]) i && in_row (t.[c].[i]) j.

(** [s_killers[ply][0]] and [s_killers[ply][1]] *)
Definition killers_in (s : Search) (ply : Z) : bool :=
  in_row (s_killers s) ply && in_row ((s_killers s).[ply]) 1.

(** [s_history[side][MOVE_FROM(m)][MOVE_TO(m)]] *)
Definition history_in (s : Search) (side : Color) (m : Move) : bool :=
  in_cube (s_history s) (Color_to_Z side) (MOVE_FROM m) (MOVE_TO m).

(** [s_countermoves[ps][MOVE_PIECE(prev)][MOVE_TO(prev)]] *)
Definition countermoves_in (s : Search) (ps : Color) (prev : Move) : bool :=
  in_cube (s_countermoves s) (Color_to_Z ps) (PieceType_to_Z (MOVE_PIECE prev)) (MOVE_TO prev).

Definition killer (s : Search) (ply i : Z) : Move := (s_killers s).[ply].[i].

Definition record_killer (m : Move) (ply : Z) (s : Search) : Search :=
  if MAX_PLY <=? ply then s
  else
    let row := (s_killers s).[ply] in
    if negb (m =? row.[0]) then
      let row := row.[1 <- row.[0]] in
      let row := row.[0 <- m] in
      set_s_killers ((s_killers s).[ply <- row]) s
    else s.

Definition history_entry (s : Search) (side : Color) (m : Move) : Z :=
  (s_history s).[Color_to_Z side].[MOVE_FROM m].[MOVE_TO m].

Definition HISTORY_MAX : Z := 16384.

(** [entry += bonus - entry * abs(bonus) / 16384], the division truncating. *)
Definition gravity (entry bonus : Z) : Z := entry + (bonus - (entry * Z.abs bonus) ÷ HISTORY_MAX).

Definition update_history (side : Color) (m : Move) (bonus : Z) (s : Search) : Search :=
  let c := Color_to_Z side in
  let h := s_history s in
  let row := h.[c].[MOVE_FROM m] in
  let row := row.[MOVE_TO m <- gravity (row.[MOVE_TO m]) bonus] in
  set_s_history (h.[c <- (h.[c]).[MOVE_FROM m <- row]]) s.

Definition record_history (side : Color) (m : Move) (depth : Z) (s : Search) : Search :=
  update_history side m (depth * depth) s.

Definition penalize_quiets (side : Color) (quiets : list Move) (count depth : Z) (s : Search) : Search :=
  let pen := - (depth * depth) in
  fold_left (fun s q => update_history side q pen s) (take (Z.to_nat count) quiets) s.

Definition countermove_of (s : Search) (ps : Color) (prev : Move) : Move :=
  (s_countermoves s).[Color_to_Z ps].[PieceType_to_Z (MOVE_PIECE prev)].[MOVE_TO prev].

Definition set_countermove (ps : Color) (prev m : Move) (s : Search) : Search :=
  let c := Color_to_Z ps in
  let p := PieceType_to_Z (MOVE_PIECE prev) in
  let t := s_countermoves s in
  let row := t.[c].[p].[MOVE_TO prev <- m] in
  set_s_countermoves (t.[c <- (t.[c]).[p <- row]]) s.

(** ** Time *)

(** The clock of the machine: the [n]-th reading of [time_ms_now]. *)
Class Clock := time_ms_now : Z -> Z.

Section Time.
Context {C : Clock}.

Definition read_clock (s : Search) : Z * Search :=
  (time_ms_now (clock_reads s), set_clock_reads (clock_reads s + 1) s).

Definition check_time (s : Search) : Search :=
  if Z.land (s_nodes s) 4095 =? 0 then
    if MAX_NODES <? s_nodes s then set_s_stopped true s
    else
      let '(now, s) := read_clock s in
      if s_deadline_ms s <=? now then set_s_stopped true s else s
  else s.
End Time.

Definition search_reset (clear_tt : bool) (s : Search) : Search :=
  let s := if clear_tt && (if tt_entries (s_tt s) then true else false)
           then set_s_tt (tt_clear (s_tt s)) s else s in
  let s := set_s_nodes 0 s in
  let s := set_s_stopped false s in
  let s := set_s_deadline_ms 0 s in
  let s := set_s_root_count 0 s in
  let s := set_s_killers (zeros2 64 2) s in
  let s := set_s_history (zeros3 2 64 64) s in
  let s := set_s_countermoves (zeros3 2 6 64) s in
  let s := set_s_eval_stack (replicate 72 0) s in
  let s := set_s_root_moves (replicate 256 0) s in
  set_s_root_scores (replicate 256 0) s.
