(* ===== verification/SearchTables.v ===== *)
(** * Invariants of the search's tables

    The transposition table is allocated and its mask fits its size, history
    scores stay within [HISTORY_MAX], the arrays keep their lengths.  Every
    update the search makes preserves this, whatever it stores. *)

From stdpp Require Import base numbers list option gmap.
From Stdlib Require Import ZArith Lia Bool.
From S2P Require Import Prelude Types Board Make SearchState.

Definition history_bounded (s : Search) : Prop :=
  forall c f t, - HISTORY_MAX <= (s_history s).[c].[f].[t] <= HISTORY_MAX.

(** Arrays of two and three dimensions. *)
Definition rect {A} (n m : nat) (t : list (list A)) : Prop :=
  length t = n /\ Forall (fun r => length r = m) t.
Definition cube {A} (k n m : nat) (t : list (list (list A))) : Prop :=
  length t = k /\ Forall (rect n m) t.

Record tables_ok (s : Search) : Prop := {
  tk_tt : is_Some (tt_entries (s_tt s));
  tk_mask : 0 <= tt_mask (s_tt s);
  tk_count : tt_count (s_tt s) = tt_mask (s_tt s) + 1;
  tk_history : history_bounded s;
  tk_killers : rect 64 2 (s_killers s);
  tk_shape : cube 2 64 64 (s_history s);
  tk_counters : cube 2 6 64 (s_countermoves s);
  tk_eval : length (s_eval_stack s) = 72%nat;
  tk_roots : length (s_root_moves s) = 256%nat;
  tk_scores : length (s_root_scores s) = 256%nat;
  tk_skill : 0 <= s_skill_level s <= 4
}.

(** What the recursive search does not touch: the moves and scores of the last
    iteration, the skill level. *)
Definition roots (s : Search) : list Move * list Z * Z * Z :=
  (s_root_moves s, s_root_scores s, s_root_count s, s_skill_level s).

Definition benign (f : Search -> Search) : Prop :=
  forall s, tables_ok s -> tables_ok (f s) /\ roots (f s) = roots s.

(** ** Shapes *)

Lemma in_row_iff {A} (l : list A) (i : Z) : in_row l i = true <-> in_range l i.
Proof. unfold in_row, in_range. lia. Qed.

Lemma Forall_znth {A} `{Inhabited A} (P : A -> Prop) (l : list A) (i : Z) :
  Forall P l -> in_range l i -> P (l.[i]).
Proof. intros Hl Hr. by eapply Forall_lookup_1, znth_lookup. Qed.

Lemma Forall_zset {A} (P : A -> Prop) (l : list A) (i : Z) (x : A) :
  Forall P l -> (in_range l i -> P x) -> Forall P (l.[i <- x]).
Proof.
  intros Hl Hx. unfold zset. destruct (Z.ltb_spec i 0); [done|].
  destruct (decide (Z.to_nat i < length l)%nat).
  - apply Forall_insert; [done|]. apply Hx. unfold in_range. lia.
  - by rewrite list_insert_ge by lia.
Qed.

Lemma rect_zset {A} (n m : nat) (t : list (list A)) (i j : Z) (x : A) :
  rect n m t -> rect n m (t.[i <- t.[i].[j <- x]]).
Proof.
  intros [Hl Hr]. split; [by rewrite length_zset|]. apply Forall_zset; [done|].
  intros Hi. rewrite length_zset. by apply (Forall_znth (fun r => length r = m)).
Qed.

Lemma cube_zset {A} (k n m : nat) (t : list (list (list A))) (c i j : Z) (x : A) :
  cube k n m t -> cube k n m (t.[c <- t.[c].[i <- t.[c].[i].[j <- x]]]).
Proof.
  intros [Hl Hr]. split; [by rewrite length_zset|]. apply Forall_zset; [done|].
  intros Hc. by apply rect_zset, (Forall_znth (rect n m)).
Qed.

Lemma rect_zeros (n m : nat) : rect n m (zeros2 n m).
Proof. split; [apply length_replicate|]. apply Forall_replicate, length_replicate. Qed.

Lemma cube_zeros (k n m : nat) : cube k n m (zeros3 k n m).
Proof. split; [apply length_replicate|]. apply Forall_replicate, rect_zeros. Qed.

Lemma cube_in (k n m : nat) (t : list (list (list Z))) (c i j : Z) :
  cube k n m t -> 0 <= c < Z.of_nat k -> 0 <= i < Z.of_nat n -> 0 <= j < Z.of_nat m ->
  in_cube t c i j = true.
Proof.
  intros [Hk Ht] Hc Hi Hj. unfold in_cube. rewrite !andb_true_iff, !in_row_iff.
  assert (in_range t c) as Hrc by (unfold in_range; lia).
  destruct (Forall_znth _ t c Ht Hrc) as [Hn Hrow].
  assert (in_range (t.[c]) i) as Hri by (unfold in_range; lia).
  split_and!; [done|done|]. unfold in_range. by rewrite (Forall_znth _ _ i Hrow Hri).
Qed.

Lemma killers_inside (s : Search) (ply : Z) : tables_ok s -> 0 <= ply < MAX_PLY -> killers_in s ply = true.
Proof.
  intros [_ _ _ _ [Hl Hr] _ _ _ _ _ _] Hp. unfold MAX_PLY in Hp. unfold killers_in.
  rewrite andb_true_iff, !in_row_iff.
  assert (in_range (s_killers s) ply) as Hi by (unfold in_range; lia).
  split; [done|]. unfold in_range. rewrite (Forall_znth _ _ ply Hr Hi). lia.
Qed.

Lemma color_index (c : Color) : real_color c -> 0 <= Color_to_Z c < 2.
Proof. destruct c; cbn; real || lia. Qed.

Lemma history_inside (s : Search) (side : Color) (m : Move) :
  tables_ok s -> real_color side -> history_in s side m = true.
Proof.
  intros Hs Hc. apply (cube_in 2 64 64); [apply Hs|by apply color_index|..];
    [apply MOVE_FROM_on_board|apply MOVE_TO_on_board].
Qed.

Lemma countermoves_inside (s : Search) (ps : Color) (prev : Move) :
  tables_ok s -> real_color ps -> real_type (MOVE_PIECE prev) -> countermoves_in s ps prev = true.
Proof.
  intros Hs Hc Hp. apply (cube_in 2 6 64); [apply Hs|by apply color_index| |apply MOVE_TO_on_board].
  destruct (MOVE_PIECE prev); real || (cbn; lia).
Qed.

(** ** History with gravity *)

Lemma gravity_bounds (entry bonus : Z) :
  - HISTORY_MAX <= entry <= HISTORY_MAX -> - HISTORY_MAX <= bonus <= HISTORY_MAX ->
  - HISTORY_MAX <= gravity entry bonus <= HISTORY_MAX.
Proof.
  unfold gravity, HISTORY_MAX. intros He Hb.
  pose proof (Z.quot_rem' (entry * Z.abs bonus) 16384) as E.
  set (q := (entry * Z.abs bonus) ÷ 16384) in *. set (r := Z.rem (entry * Z.abs bonus) 16384) in *.
  assert (0 <= entry -> 0 <= r < 16384).
  { intros. apply Z.rem_bound_pos; nia. }
  assert (entry <= 0 -> -16384 < r <= 0).
  { intros. apply (Z.rem_bound_pos_neg (entry * Z.abs bonus) 16384); nia. }
  pose proof (Z.mul_nonneg_nonneg (16384 - entry) (16384 - Z.abs bonus) ltac:(lia) ltac:(lia)).
  pose proof (Z.mul_nonneg_nonneg (16384 + entry) (16384 - Z.abs bonus) ltac:(lia) ltac:(lia)).
  lia.
Qed.

Lemma znth_zset_cases {A} `{Inhabited A} (l : list A) (i j : Z) (x : A) :
  l.[i <- x].[j] = l.[j] \/ l.[i <- x].[j] = x /\ i = j.
Proof.
  destruct (Z.eq_dec i j) as [->|]; [|left; by apply znth_zset_ne].
  destruct (decide (in_range l j)) as [Hr|Hr]; [right; by rewrite znth_zset_eq|left].
  unfold zset, znth, in_range in *. destruct (Z.ltb_spec j 0); [done|].
  by rewrite list_insert_ge by lia.
Qed.

Lemma update_history_bounded (side : Color) (m : Move) (bonus : Z) (s : Search) :
  - HISTORY_MAX <= bonus <= HISTORY_MAX -> history_bounded s ->
  history_bounded (update_history side m bonus s).
Proof.
  intros Hb Hs c f t. unfold update_history. cbn [s_history set_s_history]. cbv zeta.
  set (h := s_history s) in *. set (g := gravity _ _).
  assert (- HISTORY_MAX <= g <= HISTORY_MAX) as Hg by (apply gravity_bounds; auto).
  destruct (znth_zset_cases h (Color_to_Z side) c
    (h.[Color_to_Z side].[MOVE_FROM m <- h.[Color_to_Z side].[MOVE_FROM m].[MOVE_TO m <- g]]))
    as [->|[-> _]]; [apply Hs|].
  destruct (znth_zset_cases (h.[Color_to_Z side]) (MOVE_FROM m) f
    (h.[Color_to_Z side].[MOVE_FROM m].[MOVE_TO m <- g])) as [->|[-> _]]; [apply Hs|].
  destruct (znth_zset_cases (h.[Color_to_Z side].[MOVE_FROM m]) (MOVE_TO m) t g)
    as [->|[-> _]]; [apply Hs|done].
Qed.

(** ** The transposition table *)

(** An entry may be written over: the same position, not deeper, or empty. *)
Definition replaceable (tt : TTable) (key depth : Z) : bool :=
  let e := tt_entry tt (tt_index tt key) in
  (tte_key e =? key) || (tte_depth e <=? depth) || (tte_best_move e =? MOVE_NONE).

Lemma tt_store_lookup (tt : TTable) (key depth score : Z) (flag : TTFlag) (best : Move) (k : Z) :
  is_Some (tt_entries tt) ->
  tt_probe (tt_store tt key depth score flag best) k =
  if replaceable tt key depth && (tt_index tt k =? tt_index tt key)
  then if k =? key then Some (mkEntry key depth score flag best) else None
  else tt_probe tt k.
Proof.
  intros [es Hes]. unfold tt_probe, tt_store, replaceable.
  destruct (_ || _ || _); [cbn [andb]|done].
  unfold tt_entry, tt_index. cbn [tt_mask tt_entries]. rewrite Hes. cbn [fmap option_fmap option_map].
  destruct (Z.eqb_spec (Z.land k (tt_mask tt)) (Z.land key (tt_mask tt))) as [E|E].
  - rewrite E, lookup_insert_eq. cbn. rewrite (Z.eqb_sym key k). by destruct (k =? key).
  - by rewrite lookup_insert_ne.
Qed.

(** The number of entries is the greatest power of two that fits. *)
Lemma tt_size_loop_spec (fuel : nat) (count n : Z) :
  0 < n <= count -> count < n * 2 ^ (Z.of_nat fuel + 1) ->
  exists k, 0 <= k /\ tt_size_loop fuel count n = n * 2 ^ k /\ n * 2 ^ k <= count < n * 2 ^ (k + 1).
Proof.
  revert n. induction fuel as [|fuel IH]; intros n Hn Hc; cbn [tt_size_loop].
  { exists 0. rewrite Z.pow_0_r. change (2 ^ (Z.of_nat 0 + 1)) with 2 in Hc. change (2 ^ (0 + 1)) with 2. lia. }
  destruct (Z.leb_spec (n * 2) count).
  - destruct (IH (n * 2)) as (k & Hk & -> & Hb); [lia| |].
    { rewrite Nat2Z.inj_succ, <- Z.add_1_r, (Z.pow_add_r 2 (_ + 1)) in Hc by lia. lia. }
    exists (k + 1). rewrite (Z.pow_add_r 2 (k + 1)), !(Z.pow_add_r 2 k) in * by lia. lia.
  - exists 0. rewrite Z.pow_0_r. change (2 ^ (0 + 1)) with 2. lia.
Qed.

Lemma land_mask_bounds (key mask : Z) : 0 <= mask -> 0 <= Z.land key mask <= mask.
Proof.
  intros Hm. split; [apply Z.land_nonneg; by right|].
  assert (mask - Z.land key mask = Z.ldiff mask (Z.land key mask)) as E.
  { apply Z.sub_nocarry_ldiff. rewrite Z.ldiff_land, <- Z.land_assoc, Z.land_lnot_diag. apply Z.land_0_r. }
  assert (0 <= Z.ldiff mask (Z.land key mask)) by (apply Z.ldiff_nonneg; by left). lia.
Qed.

Lemma tt_alloc_spec (size_mb : Z) :
  1 <= size_mb < 2048 ->
  exists k, 0 <= k /\ tt_count (tt_alloc size_mb) = 2 ^ k /\
    2 ^ k * sizeof_TTEntry <= size_mb * 1024 * 1024 < 2 ^ (k + 1) * sizeof_TTEntry /\
    forall key, tt_index (tt_alloc size_mb) key = key mod 2 ^ k.
Proof.
  intros Hs. unfold tt_alloc, sizeof_TTEntry in *. cbn [tt_count].
  rewrite Z.quot_div_nonneg by lia. set (count := (size_mb * 1024 * 1024) / 24).
  assert (1 <= count < 2 ^ 32 /\ count * 24 <= size_mb * 1024 * 1024 < (count + 1) * 24) as [Hc Hb].
  { unfold count. Z.to_euclidean_division_equations. lia. }
  destruct (tt_size_loop_spec 31 count 1) as (k & Hk & E & Hle); [lia|change (Z.of_nat 31 + 1) with 32; lia|].
  exists k. split_and!; [done|lia|lia|lia|]. intros key. unfold tt_index. cbn [tt_mask]. rewrite E, Z.mul_1_l.
  rewrite <- Z.land_ones by done. f_equal. by rewrite Z.ones_equiv, Z.sub_1_r.
Qed.

(** ** Benign updates *)

Lemma benign_id : benign (fun s => s).
Proof. done. Qed.

Lemma benign_compose (f g : Search -> Search) : benign f -> benign g -> benign (fun s => g (f s)).
Proof. intros Hf Hg s Hs. destruct (Hf s Hs) as [H1 <-]. by apply Hg. Qed.

(** An update of a field the invariant does not mention. *)
Ltac benign_field := intros ? []; split; [by constructor|done].

Lemma benign_nodes (f : Search -> Z) : benign (fun s => set_s_nodes (f s) s).
Proof. benign_field. Qed.

Lemma benign_killer (m : Move) (ply : Z) : benign (record_killer m ply).
Proof.
  intros s H. unfold record_killer. destruct (_ <=? ply); [by apply benign_id|].
  destruct (negb _); [|by apply benign_id]. cbv zeta.
  destruct H as [Ht Hm Hc Hh [Hl Hr] Hsh Hco He Hro Hsc Hsk]. split; [|done]. constructor; try done.
  split; [by cbn; rewrite length_zset|]. apply Forall_zset; [done|]. intros Hi. rewrite !length_zset.
  by apply (Forall_znth (fun r => length r = 2%nat)).
Qed.

Lemma benign_countermove (c : Color) (prev m : Move) : benign (set_countermove c prev m).
Proof.
  intros s []. split; [|done]. constructor; try done. by apply cube_zset.
Qed.

Lemma benign_update (side : Color) (m : Move) (bonus : Z) :
  - HISTORY_MAX <= bonus <= HISTORY_MAX -> benign (update_history side m bonus).
Proof.
  intros Hb s Hs. pose proof (update_history_bounded side m bonus s Hb (tk_history s Hs)) as Hh.
  destruct Hs. split; [|done]. constructor; try done. by apply cube_zset.
Qed.

(** [depth * depth], or its opposite, for a depth the search can reach. *)
Lemma square_bound (depth : Z) : 0 <= depth <= 128 -> 0 <= depth * depth <= HISTORY_MAX.
Proof. unfold HISTORY_MAX. nia. Qed.

Lemma benign_history (side : Color) (m : Move) (depth : Z) :
  0 <= depth <= 128 -> benign (record_history side m depth).
Proof. intros H%square_bound. apply benign_update. lia. Qed.

Lemma penalize_bounded (side : Color) (quiets : list Move) (count depth : Z) (s : Search) :
  0 <= depth <= 128 -> history_bounded s -> history_bounded (penalize_quiets side quiets count depth s).
Proof.
  intros H%square_bound. unfold penalize_quiets. revert s.
  induction (take (Z.to_nat count) quiets) as [|q l IH]; intros s Hs; [done|].
  apply IH, update_history_bounded; [lia|done].
Qed.

Lemma benign_penalize (side : Color) (quiets : list Move) (count depth : Z) :
  0 <= depth <= 128 -> benign (penalize_quiets side quiets count depth).
Proof.
  intros H%square_bound. unfold penalize_quiets. generalize (take (Z.to_nat count) quiets).
  induction l as [|q l IH]; [apply benign_id|].
  apply (benign_compose (update_history side q (- (depth * depth)))); [|done].
  apply benign_update. lia.
Qed.

Lemma benign_store (key depth score : Z) (flag : TTFlag) (best : Move) :
  benign (fun s => set_s_tt (tt_store (s_tt s) key depth score flag best) s).
Proof.
  intros s [Ht]. split; [|done]. constructor; cbn [s_tt set_s_tt]; try done;
    unfold tt_store; destruct (_ || _ || _); try done.
  cbn [tt_entries]. destruct Ht as [es ->]. by eexists.
Qed.

Lemma benign_eval (ply x : Z) : benign (fun s => set_s_eval_stack ((s_eval_stack s).[ply <- x]) s).
Proof. intros s []. split; [constructor; try done; by rewrite <- length_zset with (i := ply) (x := x) in tk_eval0|done]. Qed.

Section Time.
Context {C : Clock}.

Lemma benign_check_time : benign check_time.
Proof.
  intros s Hs. unfold check_time, read_clock. destruct (_ =? 0); [|by apply benign_id].
  assert (benign (set_s_stopped true)) as Hstop by benign_field.
  assert (benign (set_clock_reads (clock_reads s + 1))) as Hread by benign_field.
  destruct (_ <? s_nodes s); [by apply Hstop|].
  destruct (_ <=? _); [by apply (benign_compose _ _ Hread Hstop)|by apply Hread].
Qed.

(** The prologue of a quiescence node. *)
Lemma benign_q_time : benign (fun s => check_time (set_s_nodes (s_nodes s + 1) s)).
Proof. apply (benign_compose _ _ (benign_nodes (fun s => s_nodes s + 1)) benign_check_time). Qed.
End Time.

Create HintDb tables.
#[export] Hint Resolve benign_nodes benign_killer benign_countermove benign_history benign_penalize
  benign_store benign_eval benign_check_time benign_q_time : tables.
