(* ===== verification/SearchMonad.v ===== *)
(** * Effects of the search

    The search mutates one board through a pointer and the static variables of
    [search.c]; [World] holds both.  A computation [M A] may also go wrong:
    [None] is a subscript outside one of the arrays of [search.c] whose accesses
    are checked here (transposition table, killers, history, countermoves,
    [MVV_LVA], [LMP_LIMIT], evaluation stack, root moves and scores,
    [SKILL_MARGIN]), or a recursion deeper than the fuel.  [wp m Q w] says that [m], run in the world [w], does not go wrong
    and ends with a result and a world that satisfy [Q]. *)

From stdpp Require Import base numbers list option.
From Stdlib Require Import ZArith Lia Bool.
From S2P Require Import Prelude Types Board Make SearchState.

Record World := mkWorld { w_board : Board; w_search : Search }.

Definition M (A : Type) : Type := World -> option (A * World).

#[export] Instance M_ret : MRet M := fun A a w => Some (a, w).
#[export] Instance M_bind : MBind M := fun A B f m w =>
  match m w with Some (a, w') => f a w' | None => None end.
#[export] Instance M_fmap : FMap M := fun A B f m w =>
  match m w with Some (a, w') => Some (f a, w') | None => None end.

Definition crash {A} : M A := fun _ => None.

Definition get_board : M Board := fun w => Some (w_board w, w).
Definition get_search : M Search := fun w => Some (w_search w, w).
Definition on_the_board (f : Board -> Board) : M unit :=
  fun w => Some (tt, mkWorld (f (w_board w)) (w_search w)).
Definition on_search (f : Search -> Search) : M unit :=
  fun w => Some (tt, mkWorld (w_board w) (f (w_search w))).

Definition make (m : Move) : M unit := on_the_board (fun b => board_make_move b m).
Definition unmake : M unit := on_the_board board_unmake_move.

(** An access to an array of [n] entries. *)
Definition bounds_check (i n : Z) : M unit := if (0 <=? i) && (i <? n) then mret tt else crash.

(** Accesses whose subscripts are inside their arrays when [p] holds. *)
Definition inside (p : bool) : M unit := if p then mret tt else crash.

Definition array_get {A} `{Inhabited A} (l : list A) (i : Z) : M A :=
  bounds_check i (Z.of_nat (length l));; mret (l.[i]).

(** ** Total correctness *)

Definition wp {A} (m : M A) (Q : A -> World -> Prop) (w : World) : Prop :=
  match m w with Some (a, w') => Q a w' | None => False end.

Section Wp.
Context {A B : Type}.
Implicit Types (m : M A) (w : World).

Lemma wp_ret (a : A) (Q : A -> World -> Prop) w : Q a w -> wp (mret a) Q w.
Proof. done. Qed.

Lemma wp_bind m (k : A -> M B) (Q : B -> World -> Prop) w :
  wp m (fun a w' => wp (k a) Q w') w -> wp (m ≫= k) Q w.
Proof. unfold wp, mbind, M_bind. by destruct (m w) as [[a w']|]. Qed.

Lemma wp_fmap (f : A -> B) m (Q : B -> World -> Prop) w :
  wp m (fun a w' => Q (f a) w') w -> wp (f <$> m) Q w.
Proof. unfold wp, fmap, M_fmap. by destruct (m w) as [[a w']|]. Qed.

Lemma wp_mono m (P Q : A -> World -> Prop) w :
  wp m P w -> (forall a w', P a w' -> Q a w') -> wp m Q w.
Proof. unfold wp. destruct (m w) as [[a w']|]; auto. Qed.
End Wp.

Lemma wp_get_board (Q : Board -> World -> Prop) w : Q (w_board w) w -> wp get_board Q w.
Proof. done. Qed.

Lemma wp_get_search (Q : Search -> World -> Prop) w : Q (w_search w) w -> wp get_search Q w.
Proof. done. Qed.

Lemma wp_on_board f (Q : unit -> World -> Prop) w :
  Q tt (mkWorld (f (w_board w)) (w_search w)) -> wp (on_the_board f) Q w.
Proof. done. Qed.

Lemma wp_on_search f (Q : unit -> World -> Prop) w :
  Q tt (mkWorld (w_board w) (f (w_search w))) -> wp (on_search f) Q w.
Proof. done. Qed.

Lemma wp_bounds (i n : Z) (Q : unit -> World -> Prop) w :
  0 <= i < n -> Q tt w -> wp (bounds_check i n) Q w.
Proof.
  intros Hi HQ. unfold bounds_check.
  by rewrite (proj2 (Z.leb_le 0 i)), (proj2 (Z.ltb_lt i n)) by lia.
Qed.

Lemma wp_inside (p : bool) (Q : unit -> World -> Prop) w : p = true -> Q tt w -> wp (inside p) Q w.
Proof. by intros ->. Qed.

Lemma wp_array {A} `{Inhabited A} (l : list A) (i : Z) (Q : A -> World -> Prop) w :
  0 <= i < Z.of_nat (length l) -> Q (l.[i]) w -> wp (array_get l i) Q w.
Proof. intros. apply wp_bind, wp_bounds; [done|]. by apply wp_ret. Qed.

(** What [wp] says of the run itself. *)
Lemma wp_run {A} (m : M A) (Q : A -> World -> Prop) w :
  wp m Q w -> exists a w', m w = Some (a, w') /\ Q a w'.
Proof. unfold wp. destruct (m w) as [[a w']|]; [|done]. eauto. Qed.

(** What holds of the result if the run does not go wrong. *)
Definition ends_in {A} (m : M A) (Q : A -> World -> Prop) (w : World) : Prop :=
  forall a w', m w = Some (a, w') -> Q a w'.

Lemma ends_wp {A} (m : M A) (Q : A -> World -> Prop) w : wp m Q w -> ends_in m Q w.
Proof. unfold wp. intros H a w' E. by rewrite E in H. Qed.

Lemma ends_bind {A B} (m : M A) (k : A -> M B) (Q : B -> World -> Prop) w :
  ends_in m (fun a w' => ends_in (k a) Q w') w -> ends_in (m ≫= k) Q w.
Proof.
  unfold ends_in, mbind, M_bind. intros H b w'. destruct (m w) as [[a w1]|]; [|done]. by apply H.
Qed.

Lemma ends_mono {A} (m : M A) (P Q : A -> World -> Prop) w :
  ends_in m P w -> (forall a w', P a w' -> Q a w') -> ends_in m Q w.
Proof. unfold ends_in. auto. Qed.
