(* ===== verification/Ordering.v ===== *)
(** * Move ordering ([move_score], [order_moves], [order_captures_see] of
      [search.c])

    The score that ranks a move, and the insertion sort on two parallel
    arrays.  The sort is proved to be a stable descending sort, and the scores
    to keep the documented order of the kinds of move. *)

From stdpp Require Import base numbers list option.
From Stdlib Require Import ZArith Lia Bool Permutation Sorted.
From S2P Require Import Prelude Types Board Attacks Movegen EvalCommon HeurCommon HeurMercenary HeurTruce HeurHeir HeurKingsBattle HeurFriendlyFire HeurSaveQueen See SearchState.

(** ** Scores *)

Definition MVV_LVA : list (list Z) :=
  [[105; 205; 305; 405; 505; 605];
   [104; 204; 304; 404; 504; 604];
   [103; 203; 303; 403; 503; 603];
   [102; 202; 302; 402; 502; 602];
   [101; 201; 301; 401; 501; 601];
   [100; 200; 300; 400; 500; 600]].

Definition mvv_lva (attacker victim : PieceType) : Z :=
  MVV_LVA.[PieceType_to_Z attacker].[PieceType_to_Z victim].

Definition mvv_lva_in (attacker victim : PieceType) : bool :=
  in_row MVV_LVA (PieceType_to_Z attacker) &&
  in_row (MVV_LVA.[PieceType_to_Z attacker]) (PieceType_to_Z victim).

(** [if (p > 0) score -= p], as the difference to the score. *)
Definition positive (p : Z) : Z := if 0 <? p then p else 0.

(** Captures and en passant. *)
Definition capture_score (b : Board) (m : Move) (side : Color) : Z :=
  let see := see_value b m in
  let ff_self_cap_score := search_ff_self_capture_score b m side in
  let score :=
    if (b_mod b == MOD_FRIENDLY_FIRE) && search_ff_is_own_capture b m && (140 <=? ff_self_cap_score)
    then 4600000 + ff_self_cap_score + maxi see (-200)
    else if 0 <=? see then 5000000 + mvv_lva (MOVE_PIECE m) (MOVE_CAPTURED m)
    else -1000000 + see in
  let score := score +
    (if (b_mod b == MOD_HEIR) && (0 <=? see) then
       let captured := MOVE_CAPTURED m in
       (if knight_or_more captured then 240 else 0) +
       (if (captured == PAWN) && central (MOVE_TO m) then 140 else 0) -
       positive (search_heir_risky_bishop_pawn_grab_penalty b m)
     else 0) in
  score +
    (if (b_mod b == MOD_KINGS_BATTLE) && negb (b_kb_unlocked b) then
       (if (MOVE_PIECE m == KING) && (MOVE_CAPTURED m == PAWN) then 1600 else 0) +
       (if MOVE_PIECE m == PAWN then search_kb_phase1_pawn_race_score b m side else 0)
     else 0).

(** The Heir terms of a quiet move. *)
Definition heir_quiet_terms (b : Board) (m : Move) (side : Color) : Z :=
  let minor := (MOVE_PIECE m == KNIGHT) || (MOVE_PIECE m == BISHOP) in
  let to_rel := rel_row side (MOVE_TO m) in
  let score := if minor && leaves_back_rank m side then 140 else 0 in
  let score := score +
    (if (MOVE_PIECE m == KING) && search_heir_king_under_direct_fire b then 220 else 0) in
  let score := score +
    (if MOVE_PIECE m == ROOK then
       (if to_rel =? 6 then 80 else 0) +
       (if Z.land (pcs b side PAWN) (file_mask (SQ_COL (MOVE_TO m))) =? 0 then 40 else 0)
     else 0) in
  let score := score +
    (if minor && within 2 5 (SQ_COL (MOVE_TO m)) && within 2 5 to_rel then 30 else 0) in
  let score := score - positive (search_heir_early_queen_sortie_penalty b m) in
  let score := score - positive (search_heir_f_pawn_block_move_penalty b m) in
  let score := score - positive (search_heir_flank_pawn_drift_penalty b m) in
  let score := score - positive (search_heir_risky_center_pawn_push_penalty b m) in
  let score := score - positive (search_heir_simplified_center_pawn_push_penalty b m) in
  score + positive (search_heir_pawn_harass_score b m).

(** The variants' terms of a quiet move. *)
Definition variant_quiet_terms (b : Board) (m : Move) (side : Color) : Z :=
  let score := search_truce_minor_development_score b m side in
  let score := score - search_truce_early_queen_sortie_penalty b m side in
  let score := score + search_truce_quiet_pawn_score b m side in
  let score := score + search_ff_minor_development_score b m side in
  let score := score - search_ff_early_queen_sortie_penalty b m side in
  let score := score + search_ff_quiet_pawn_score b m side in
  let score := score + search_ff_quiet_pressure_score b m side in
  let score := score + search_ff_king_safety_score b m side in
  let score := score + search_ff_king_zone_guard_score b m side in
  let score := score + search_ff_self_capture_prep_score b m side in
  let score := score - search_ff_pawn_challenge_penalty b m side in
  let score := score - search_ff_flank_pawn_harass_penalty b m side in
  let score := score + search_kb_phase1_king_activation_score b m side in
  let score := score + search_kb_phase1_pawn_race_score b m side in
  let score := score + search_kb_unlocked_queen_pressure_score b m side in
  let score := score + search_kb_unlocked_king_safety_score b m side in
  let score := score + search_kb_unlocked_development_score b m side in
  let score := score + search_kb_unlocked_king_shelter_score b m side in
  let score := score + search_merc_minor_development_score b m side in
  let score := score - search_merc_early_queen_sortie_penalty b m side in
  let score := score + search_merc_quiet_pawn_score b m side in
  let score := score + search_merc_king_safety_score b m side in
  let score := score + stq_minor_development_score b m side in
  let score := score + stq_quiet_pawn_score b m side in
  let score := score - stq_flank_pawn_penalty b m side in
  let score := score - stq_early_queen_sortie_penalty b m side in
  score - stq_king_drift_penalty b m side.

Definition move_score (s : Search) (b : Board) (m tt_move : Move) (ply : Z) (side : Color)
    (countermove : Move) : Z :=
  if (m =? tt_move) && negb (tt_move =? MOVE_NONE) then 10000000
  else if MOVE_IS_PROMO m then if MOVE_PROMO_TYPE m == QUEEN then 8000000 else -500000
  else if MOVE_IS_CAPTURE m || MOVE_IS_EP m then capture_score b m side
  else
    let kb_pawn_score := search_kb_phase1_pawn_race_score b m side in
    if (b_mod b == MOD_KINGS_BATTLE) && negb (b_kb_unlocked b) && (MOVE_PIECE m == PAWN) &&
       (260 <=? kb_pawn_score) then 5200000 + kb_pawn_score
    else if (ply <? MAX_PLY) && (m =? killer s ply 0) then 900000
    else if (ply <? MAX_PLY) && (m =? killer s ply 1) then 899000
    else if (m =? countermove) && negb (countermove =? MOVE_NONE) then 800000
    else
      let score := history_entry s side m in
      let score := score + (if b_mod b == MOD_HEIR then heir_quiet_terms b m side else 0) in
      score + variant_quiet_terms b m side.

(** The subscripts with which [move_score] reads [MVV_LVA], the killers and the
    history table are inside the arrays. *)
Definition score_reads (s : Search) (m : Move) (ply : Z) (side : Color) : bool :=
  if MOVE_IS_PROMO m then true
  else if MOVE_IS_CAPTURE m || MOVE_IS_EP m then mvv_lva_in (MOVE_PIECE m) (MOVE_CAPTURED m)
  else (if ply <? MAX_PLY then killers_in s ply else true) && history_in s side m.

(** ** The insertion sort *)

(** [while (j >= 0 && scores[j] < s)]: shift one entry up in both arrays; the
    fuel is [j + 1]. *)
Fixpoint shift_loop (fuel : nat) (s : Z) (moves scores : list Z) (j : Z) : list Z * list Z * Z :=
  match fuel with
  | O => (moves, scores, j)
  | S f =>
      if (0 <=? j) && (scores.[j] <? s) then
        shift_loop f s (moves.[j + 1 <- moves.[j]]) (scores.[j + 1 <- scores.[j]]) (j - 1)
      else (moves, scores, j)
  end.

(** One round of the outer loop. *)
Definition insert_round (st : list Z * list Z) (i : Z) : list Z * list Z :=
  let '(moves, scores) := st in
  let m := moves.[i] in
  let s := scores.[i] in
  let '(moves, scores, j) := shift_loop (Z.to_nat i) s moves scores (i - 1) in
  (moves.[j + 1 <- m], scores.[j + 1 <- s]).

Definition insertion_sort (moves scores : list Z) : list Z * list Z :=
  fold_left insert_round (seqZ 1 (Z.of_nat (length moves) - 1)) (moves, scores).

Definition order_moves (s : Search) (b : Board) (ml : MoveList) (tt_move : Move) (ply : Z)
    (side : Color) (countermove : Move) : MoveList :=
  let scores := map (fun m => move_score s b m tt_move ply side countermove) ml in
  (insertion_sort ml scores).1.

Definition order_captures_see (b : Board) (ml : MoveList) : MoveList :=
  let scores := map (see_value b) ml in
  (insertion_sort ml scores).1.

(** ** The sort by its meaning *)

(** Insert after every entry that is not smaller. *)
Fixpoint ins {A} (key : A -> Z) (x : A) (l : list A) : list A :=
  match l with
  | [] => [x]
  | y :: l => if key y <? key x then x :: y :: l else y :: ins key x l
  end.

Definition isort {A} (key : A -> Z) (l : list A) : list A := fold_left (fun acc x => ins key x acc) l [].

Definition descending {A} (key : A -> Z) : list A -> Prop := StronglySorted (fun x y => key y <= key x).

Section Isort.
Context {A : Type} (key : A -> Z).
Implicit Types (x y : A) (l : list A).

Lemma ins_perm x l : Permutation (x :: l) (ins key x l).
Proof.
  induction l as [|y l IH]; simpl; [done|]. destruct (_ <? _); [done|].
  rewrite <- IH. apply perm_swap.
Qed.

Lemma ins_In x y l : In y (ins key x l) <-> y = x \/ In y l.
Proof.
  split; intros H.
  - apply (Permutation_in _ (Permutation_sym (ins_perm x l))) in H. destruct H as [->|]; auto.
  - apply (Permutation_in _ (ins_perm x l)). destruct H as [->|]; [by left|by right].
Qed.

Lemma ins_descending x l : descending key l -> descending key (ins key x l).
Proof.
  induction 1 as [|y l Hs IH Hy]; simpl; [repeat constructor|].
  destruct (Z.ltb_spec (key y) (key x)).
  - constructor; [by constructor|]. constructor; [lia|].
    eapply List.Forall_impl; [|exact Hy]. simpl. lia.
  - constructor; [done|]. rewrite List.Forall_forall in *. intros z [->|Hz]%ins_In; [lia|auto].
Qed.

(** Entries of one score keep their order. *)
Lemma ins_stable (k : Z) x l :
  descending key l ->
  List.filter (fun y => key y =? k) (ins key x l) = List.filter (fun y => key y =? k) (l ++ [x]).
Proof.
  induction 1 as [|y l Hs IH Hy]; [done|]. cbn [ins app].
  destruct (Z.ltb_spec (key y) (key x)).
  - cbn [List.filter]. rewrite List.filter_app. cbn [List.filter].
    destruct (Z.eqb_spec (key x) k); [|by rewrite app_nil_r].
    assert (List.filter (fun y => key y =? k) l = []) as ->.
    { rewrite List.Forall_forall in Hy. clear -Hy H e. induction l as [|z l IH]; [done|]. simpl.
      pose proof (Hy z (or_introl eq_refl)). replace (key z =? k) with false by lia. apply IH.
      intros w Hw. apply Hy. by right. }
    by replace (key y =? k) with false by lia.
  - cbn [List.filter]. by rewrite IH.
Qed.

Lemma isort_snoc x l : isort key (l ++ [x]) = ins key x (isort key l).
Proof. unfold isort. by rewrite fold_left_app. Qed.

Lemma isort_perm l : Permutation l (isort key l).
Proof.
  induction l as [|x l IH] using rev_ind; [done|]. rewrite isort_snoc, <- ins_perm, <- IH.
  symmetry. apply Permutation_cons_append.
Qed.

Lemma isort_descending l : descending key (isort key l).
Proof.
  induction l as [|x l IH] using rev_ind; [constructor|]. rewrite isort_snoc. by apply ins_descending.
Qed.

Lemma isort_stable (k : Z) l :
  List.filter (fun y => key y =? k) (isort key l) = List.filter (fun y => key y =? k) l.
Proof.
  induction l as [|x l IH] using rev_ind; [done|].
  rewrite isort_snoc, ins_stable by apply isort_descending. by rewrite !List.filter_app, IH.
Qed.

(** Insertion from the right end of a sorted list is [ins]. *)
Lemma ins_split x (l1 l2 : list A) :
  Forall (fun y => key x <= key y) l1 -> Forall (fun y => key y < key x) l2 ->
  ins key x (l1 ++ l2) = l1 ++ x :: l2.
Proof.
  intros H1 H2. induction H1 as [|y l1 Hy H1 IH]; simpl.
  - destruct H2 as [|y l2 Hy H2]; [done|]. simpl. by replace (key y <? key x) with true by lia.
  - replace (key y <? key x) with false by lia. by rewrite IH.
Qed.
End Isort.

(** ** The arrays hold the sorted list *)

Lemma znth_app_mid {A} `{Inhabited A} (l1 l2 : list A) (x : A) :
  (l1 ++ x :: l2).[Z.of_nat (length l1)] = x.
Proof.
  unfold znth. destruct (Z.ltb_spec (Z.of_nat (length l1)) 0); [lia|]. rewrite Nat2Z.id.
  by rewrite list_lookup_total_middle.
Qed.

Lemma zset_app_mid {A} (l1 l2 : list A) (x y : A) :
  (l1 ++ x :: l2).[Z.of_nat (length l1) <- y] = l1 ++ y :: l2.
Proof.
  unfold zset. destruct (Z.ltb_spec (Z.of_nat (length l1)) 0); [lia|]. rewrite Nat2Z.id.
  replace (length l1) with (length l1 + 0)%nat by lia. by rewrite insert_app_r.
Qed.

Lemma descending_snoc {A} (key : A -> Z) (l : list A) (x : A) :
  descending key (l ++ [x]) -> descending key l /\ Forall (fun y => key x <= key y) l.
Proof.
  induction l as [|y l IH]; simpl; intros H; [split; constructor|].
  inversion_clear H as [|? ? Hs Hy]. destruct (IH Hs) as [H1 H2].
  apply List.Forall_app in Hy as [Hy Hx]. inversion_clear Hx. split; by constructor.
Qed.

(** Both arrays of a list of pairs. *)
Definition arrays (l : list (Z * Z)) : list Z * list Z := (map fst l, map snd l).

Lemma arrays_at (P R : list (Z * Z)) (g : Z * Z) :
  (map fst (P ++ g :: R)).[Z.of_nat (length P)] = g.1 /\
  (map snd (P ++ g :: R)).[Z.of_nat (length P)] = g.2.
Proof.
  rewrite !map_app. cbn [map]. split; [rewrite <- (length_map fst P)|rewrite <- (length_map snd P)];
    apply znth_app_mid.
Qed.

Lemma arrays_set (P R : list (Z * Z)) (g x : Z * Z) :
  (map fst (P ++ g :: R)).[Z.of_nat (length P) <- x.1] = map fst (P ++ x :: R) /\
  (map snd (P ++ g :: R)).[Z.of_nat (length P) <- x.2] = map snd (P ++ x :: R).
Proof.
  rewrite !map_app. cbn [map]. split; [rewrite <- (length_map fst P)|rewrite <- (length_map snd P)];
    apply zset_app_mid.
Qed.

Lemma shift_loop_spec (P R : list (Z * Z)) (g x : Z * Z) :
  descending snd P ->
  exists P1 P2, P = P1 ++ P2 /\
    Forall (fun y => x.2 <= y.2) P1 /\ Forall (fun y => y.2 < x.2) P2 /\
    let '(mv, sc, j) := shift_loop (length P) x.2 (map fst (P ++ g :: R)) (map snd (P ++ g :: R))
                          (Z.of_nat (length P) - 1) in
    (mv.[j + 1 <- x.1], sc.[j + 1 <- x.2]) = arrays (P1 ++ x :: P2 ++ R).
Proof.
  revert g R. induction P as [|p P IH] using rev_ind; intros g R Hd.
  { exists [], []. split_and!; [done|constructor|constructor|].
    cbn [shift_loop length]. destruct (arrays_set [] R g x) as [E1 E2]. unfold arrays. f_equal; assumption. }
  destruct (descending_snoc snd P p Hd) as [HP Hp].
  rewrite length_app, Nat.add_1_r. cbn [shift_loop length].
  replace (Z.of_nat (S (length P)) - 1) with (Z.of_nat (length P)) by lia.
  rewrite <- !app_assoc. cbn [app]. destruct (arrays_at P (g :: R) p) as [A1 A2].
  rewrite A1, A2. rewrite (proj2 (Z.leb_le 0 (Z.of_nat (length P)))) by lia. cbn [andb].
  destruct (Z.ltb_spec p.2 x.2).
  - destruct (IH p (p :: R) HP) as (P1 & P2 & E & H1 & H2 & HL).
    exists P1, (P2 ++ [p]). split_and!; [by rewrite E, app_assoc|done|apply List.Forall_app; auto|].
    destruct (arrays_set (P ++ [p]) R g p) as [S1 S2].
    rewrite length_app, Nat2Z.inj_add, <- !app_assoc in S1, S2. cbn [app length] in S1, S2.
    change (Z.of_nat 1) with 1 in S1, S2. rewrite S1, S2.
    destruct (shift_loop _ _ _ _ _) as [[mv sc] j]. rewrite HL. by rewrite <- app_assoc.
  - exists (P ++ [p]), []. split_and!; [by rewrite app_nil_r| |constructor|].
    { apply List.Forall_app. split; [|repeat constructor; lia].
      eapply List.Forall_impl; [|exact Hp]. simpl. lia. }
    destruct (arrays_set (P ++ [p]) R g x) as [S1 S2].
    rewrite length_app, Nat2Z.inj_add, <- !app_assoc in S1, S2. cbn [app length] in S1, S2.
    change (Z.of_nat 1) with 1 in S1, S2. rewrite S1, S2. rewrite <- app_assoc. done.
Qed.

Lemma insert_round_spec (Q R : list (Z * Z)) (x : Z * Z) :
  descending snd Q ->
  insert_round (arrays (Q ++ x :: R)) (Z.of_nat (length Q)) = arrays (ins snd x Q ++ R).
Proof.
  intros Hd. unfold insert_round, arrays at 1. destruct (arrays_at Q R x) as [-> ->].
  rewrite Nat2Z.id. destruct (shift_loop_spec Q R x x Hd) as (P1 & P2 & E & H1 & H2 & HL).
  destruct (shift_loop _ _ _ _ _) as [[mv sc] j]. rewrite HL, E, ins_split by done.
  by rewrite <- app_assoc.
Qed.

Lemma insertion_rounds (D Q : list (Z * Z)) :
  descending snd Q ->
  fold_left insert_round (seqZ (Z.of_nat (length Q)) (Z.of_nat (length D))) (arrays (Q ++ D)) =
  arrays (fold_left (fun acc x => ins snd x acc) D Q).
Proof.
  revert Q. induction D as [|x D IH]; intros Q Hd; [by rewrite app_nil_r|].
  rewrite seqZ_cons by (simpl; lia). cbn [fold_left]. rewrite insert_round_spec by done.
  rewrite <- (IH (ins snd x Q)) by by apply ins_descending.
  rewrite <- (Permutation_length (ins_perm snd x Q)). cbn [length].
  replace (Z.succ (Z.of_nat (length Q))) with (Z.of_nat (S (length Q))) by lia.
  by replace (Z.pred (Z.of_nat (S (length D)))) with (Z.of_nat (length D)) by lia.
Qed.

Lemma insertion_sort_isort (l : list (Z * Z)) :
  insertion_sort (map fst l) (map snd l) = arrays (isort snd l).
Proof.
  unfold insertion_sort. rewrite length_map. destruct l as [|x l]; [done|].
  replace (Z.of_nat (length (x :: l)) - 1) with (Z.of_nat (length l)) by (simpl; lia).
  apply (insertion_rounds l [x]). repeat constructor.
Qed.

Lemma ins_map {A} (f : A -> Z) (x : A) (l : list A) :
  map fst (ins snd (x, f x) (map (fun y => (y, f y)) l)) = ins f x l /\
  ins snd (x, f x) (map (fun y => (y, f y)) l) = map (fun y => (y, f y)) (ins f x l).
Proof.
  induction l as [|y l [IH1 IH2]]; simpl; [done|]. destruct (f y <? f x); simpl; [|by rewrite IH1, IH2].
  rewrite map_map, map_id. done.
Qed.

Lemma isort_map {A} (f : A -> Z) (l : list A) :
  isort snd (map (fun y => (y, f y)) l) = map (fun y => (y, f y)) (isort f l).
Proof.
  induction l as [|x l IH] using rev_ind; [done|].
  rewrite map_app, isort_snoc. cbn [map]. rewrite isort_snoc, IH. apply ins_map.
Qed.

Lemma sort_by (f : Z -> Z) (l : list Z) : (insertion_sort l (map f l)).1 = isort f l.
Proof.
  set (P := map (fun y => (y, f y)) l).
  assert (l = map fst P) as E1 by (unfold P; by rewrite map_map, map_id).
  assert (map f l = map snd P) as E2 by (unfold P; by rewrite map_map).
  rewrite E2. rewrite E1 at 1. rewrite insertion_sort_isort. unfold P.
  rewrite isort_map. cbn [fst arrays]. by rewrite map_map, map_id.
Qed.

Lemma order_moves_isort (s : Search) (b : Board) (ml : MoveList) (tt_move : Move) (ply : Z)
    (side : Color) (countermove : Move) :
  order_moves s b ml tt_move ply side countermove =
  isort (fun m => move_score s b m tt_move ply side countermove) ml.
Proof. apply sort_by. Qed.

Lemma order_captures_isort (b : Board) (ml : MoveList) :
  order_captures_see b ml = isort (see_value b) ml.
Proof. apply sort_by. Qed.

(** ** Kinds of moves *)

Inductive kind :=
  | KTable | KQueenPromotion | KPawnRace | KGoodCapture | KOwnCapture | KKiller | KSecondKiller
  | KCountermove | KQuiet | KUnderPromotion | KBadCapture.

Definition capture_kind (b : Board) (m : Move) (side : Color) : kind :=
  if (b_mod b == MOD_FRIENDLY_FIRE) && search_ff_is_own_capture b m &&
     (140 <=? search_ff_self_capture_score b m side) then KOwnCapture
  else if 0 <=? see_value b m then KGoodCapture else KBadCapture.

Definition move_kind (s : Search) (b : Board) (m tt_move : Move) (ply : Z) (side : Color)
    (countermove : Move) : kind :=
  if (m =? tt_move) && negb (tt_move =? MOVE_NONE) then KTable
  else if MOVE_IS_PROMO m then if MOVE_PROMO_TYPE m == QUEEN then KQueenPromotion else KUnderPromotion
  else if MOVE_IS_CAPTURE m || MOVE_IS_EP m then capture_kind b m side
  else if (b_mod b == MOD_KINGS_BATTLE) && negb (b_kb_unlocked b) && (MOVE_PIECE m == PAWN) &&
          (260 <=? search_kb_phase1_pawn_race_score b m side) then KPawnRace
  else if (ply <? MAX_PLY) && (m =? killer s ply 0) then KKiller
  else if (ply <? MAX_PLY) && (m =? killer s ply 1) then KSecondKiller
  else if (m =? countermove) && negb (countermove =? MOVE_NONE) then KCountermove
  else KQuiet.

(** The documented order, with the two kinds the comment leaves out. *)
Definition rank (k : kind) : Z :=
  match k with
  | KTable => 10 | KQueenPromotion => 9 | KPawnRace => 8 | KGoodCapture => 7 | KOwnCapture => 6
  | KKiller => 5 | KSecondKiller => 4 | KCountermove => 3 | KQuiet => 2 | KUnderPromotion => 1
  | KBadCapture => 0
  end.

(** The scores a kind can have. *)
Definition band (k : kind) : Z * Z :=
  match k with
  | KTable => (10000000, 10000000)
  | KQueenPromotion => (8000000, 8000000)
  | KPawnRace => (5200000, 5300000)
  | KGoodCapture => (4900000, 5100000)
  | KOwnCapture => (4500000, 4700000)
  | KKiller => (900000, 900000)
  | KSecondKiller => (899000, 899000)
  | KCountermove => (800000, 800000)
  | KQuiet => (-300000, 300000)
  | KUnderPromotion => (-500000, -500000)
  | KBadCapture => (-1100000, -900000)
  end.

Lemma band_order (k k' : kind) : rank k < rank k' -> (band k).2 < (band k').1.
Proof. destruct k, k'; simpl; lia. Qed.

Lemma positive_bounds (p hi : Z) : 0 <= p <= hi -> 0 <= positive p <= hi.
Proof. unfold positive. intros. score_bounds. Qed.

Lemma mvv_lva_bounds (t t' : PieceType) : 0 <= mvv_lva t t' <= 605.
Proof. destruct t, t'; vm_compute; split; discriminate. Qed.

Lemma heir_terms_bounds (b : Board) (m : Move) (side : Color) :
  -20000 <= heir_quiet_terms b m side <= 20000.
Proof.
  unfold heir_quiet_terms.
  pose proof (positive_bounds _ _ (heir_queen_bounds b m)).
  pose proof (positive_bounds _ _ (heir_f_pawn_bounds b m)).
  pose proof (positive_bounds _ _ (heir_flank_bounds b m)).
  pose proof (positive_bounds _ _ (heir_center_bounds b m)).
  pose proof (positive_bounds _ _ (heir_simplified_bounds b m)).
  pose proof (positive_bounds _ _ (heir_harass_bounds b m)).
  score_bounds.
Qed.

Lemma variant_terms_bounds (b : Board) (m : Move) (side : Color) :
  -100000 <= variant_quiet_terms b m side <= 100000.
Proof.
  unfold variant_quiet_terms. cbv zeta.
  pose proof (truce_development_bounds b m side). pose proof (truce_queen_bounds b m side).
  pose proof (truce_pawn_bounds b m side). pose proof (ff_development_bounds b m side).
  pose proof (ff_queen_bounds b m side). pose proof (ff_pawn_bounds b m side).
  pose proof (ff_pressure_bounds b m side). pose proof (ff_king_bounds b m side).
  pose proof (ff_guard_bounds b m side). pose proof (ff_prep_bounds b m side).
  pose proof (ff_pawn_challenge_bounds b m side). pose proof (ff_flank_bounds b m side).
  pose proof (kb_activation_bounds b m side). pose proof (kb_race_bounds b m side).
  pose proof (kb_queen_pressure_bounds b m side). pose proof (kb_king_safety_bounds b m side).
  pose proof (kb_development_bounds b m side). pose proof (kb_shelter_bounds b m side).
  pose proof (merc_development_bounds b m side). pose proof (merc_queen_bounds b m side).
  pose proof (merc_pawn_bounds b m side). pose proof (merc_king_bounds b m side).
  pose proof (stq_development_bounds b m side). pose proof (stq_pawn_bounds b m side).
  pose proof (stq_flank_bounds b m side). pose proof (stq_queen_bounds b m side).
  pose proof (stq_king_bounds b m side). lia.
Qed.

Lemma capture_band (b : Board) (m : Move) (side : Color) :
  (band (capture_kind b m side)).1 <= capture_score b m side <= (band (capture_kind b m side)).2.
Proof.
  unfold capture_kind, capture_score. cbv zeta.
  pose proof (see_value_bounds b m). pose proof (ff_self_capture_bounds b m side).
  pose proof (mvv_lva_bounds (MOVE_PIECE m) (MOVE_CAPTURED m)).
  pose proof (positive_bounds _ _ (heir_bishop_grab_bounds b m)). pose proof (kb_race_bounds b m side).
  destruct (_ && _ && _); [|destruct (Z.leb_spec 0 (see_value b m))]; cbn [band fst snd];
    unfold maxi; repeat abstract_guard; lia.
Qed.

Lemma move_band (s : Search) (b : Board) (m tt_move : Move) (ply : Z) (side : Color) (cm : Move) :
  - HISTORY_MAX <= history_entry s side m <= HISTORY_MAX ->
  (band (move_kind s b m tt_move ply side cm)).1 <= move_score s b m tt_move ply side cm <=
  (band (move_kind s b m tt_move ply side cm)).2.
Proof.
  unfold HISTORY_MAX. intros Hh. unfold move_kind, move_score. cbv zeta.
  destruct (_ && _); [simpl; lia|].
  destruct (MOVE_IS_PROMO m); [destruct (_ == QUEEN); simpl; lia|].
  destruct (_ || _); [apply capture_band|].
  pose proof (kb_race_bounds b m side).
  destruct (Z.leb_spec 260 (search_kb_phase1_pawn_race_score b m side));
    [rewrite andb_true_r|rewrite andb_false_r].
  1: destruct (_ && _); [cbn [band fst snd]; lia|].
  all: destruct (_ && _); [simpl; lia|]; destruct (_ && _); [simpl; lia|];
    destruct (_ && _); [simpl; lia|]; cbn [band fst snd];
    pose proof (heir_terms_bounds b m side); pose proof (variant_terms_bounds b m side);
    destruct (b_mod b == MOD_HEIR); lia.
Qed.

(** Whatever the tables hold, a move of a better kind scores higher. *)
Lemma kinds_ordered (s : Search) (b : Board) (m m' tt_move : Move) (ply : Z) (side : Color) (cm : Move) :
  (forall x, - HISTORY_MAX <= history_entry s side x <= HISTORY_MAX) ->
  rank (move_kind s b m tt_move ply side cm) < rank (move_kind s b m' tt_move ply side cm) ->
  move_score s b m tt_move ply side cm < move_score s b m' tt_move ply side cm.
Proof.
  intros Hh Hr%band_order. pose proof (move_band s b m tt_move ply side cm (Hh m)).
  pose proof (move_band s b m' tt_move ply side cm (Hh m')). lia.
Qed.
