(* ===== verification/Search.v ===== *)
(** * The search ([search.c])

    Quiescence, alpha-beta with its pruning, extensions and reductions, and
    iterative deepening at the root.  A long function is split at its comment
    headings; recursive calls go through a parameter [rec], tied by [fuel]. *)

From stdpp Require Import base numbers list option gmap.
From Stdlib Require Import ZArith Lia Bool.
From S2P Require Import Prelude Types Board Zobrist Attacks Make Movegen EvalCommon Evaluate HeurCommon HeurTruce HeurHeir HeurKingsBattle HeurFriendlyFire See SearchState SearchMonad Ordering.

(** ** Positions that end the game *)

(** The score, when [*is_terminal] is set. *)
Definition stq_terminal_score (b : Board) (ply : Z) : option Z :=
  if b_mod b != MOD_SAVE_QUEEN then None
  else
    let us := b_side b in
    let opp := color_opposite us in
    let us_qsq := bb_lsb (pcs b us QUEEN) in
    let opp_qsq := bb_lsb (pcs b opp QUEEN) in
    if negb (pcs b us QUEEN =? BB_EMPTY) && (stq_is_own_half us_qsq us && stq_on_prison us_qsq opp)
    then Some (MATE_SCORE - ply)
    else if negb (pcs b opp QUEEN =? BB_EMPTY) &&
            (stq_is_own_half opp_qsq opp && stq_on_prison opp_qsq us)
    then Some (- (MATE_SCORE - ply))
    else if 0 <? b_ply b then
      let captured := u_captured (hist b (b_ply b - 1)) in
      let captured_sq := u_captured_sq (hist b (b_ply b - 1)) in
      if negb (captured =? PIECE_EMPTY) && (PIECE_TYPE captured == QUEEN) &&
         negb (captured_sq =? SQ_NONE) then
        let captured_color := PIECE_COLOR captured in
        if stq_is_own_half captured_sq captured_color then
          Some (if captured_color == us then - (MATE_SCORE - ply) else MATE_SCORE - ply)
        else None
      else None
    else None.

(** Heir: no king and no way to get one. *)
Definition heir_terminal_score (b : Board) (ply : Z) : option Z :=
  if b_mod b == MOD_HEIR then
    let us := b_side b in
    if pcs b us KING =? BB_EMPTY then
      if heir b us || (pcs b us PAWN =? BB_EMPTY) then Some (- (MATE_SCORE - ply)) else None
    else None
  else None.

(** Succession: a king was made, a queen or the last pawn was lost. *)
Definition succ_terminal_score (b : Board) (ply : Z) : option Z :=
  if b_mod b == MOD_SUCCESSION then
    let us := b_side b in
    let them := color_opposite us in
    let our_queens := bb_popcount (pcs b us QUEEN) in
    let opp_queens := bb_popcount (pcs b them QUEEN) in
    if heir b them then Some (- (MATE_SCORE - ply))
    else if (our_queens <? 2) && negb (heir b us) then Some (- (MATE_SCORE - ply))
    else if (pcs b us PAWN =? BB_EMPTY) && negb (heir b us) then Some (- (MATE_SCORE - ply))
    else if (opp_queens <? 2) && negb (heir b them) then Some (MATE_SCORE - ply)
    else if (pcs b them PAWN =? BB_EMPTY) && negb (heir b them) then Some (MATE_SCORE - ply)
    else None
  else None.

(** ** Alpha-beta: what a node and a move are

    The local variables of [alpha_beta] that the move loop reads. *)

Record Node := mkNode {
  n_depth : Z;
  n_beta : Z;
  n_ply : Z;
  n_is_pv : bool;
  n_in_check : bool;
  n_improving : bool;
  n_heir_volatile : bool;
  n_kb_phase1 : bool;
  n_do_futility : bool
}.

(** The local variables of one round of the move loop, computed before the
    move is made. *)
Record MoveInfo := mkInfo {
  i_is_cap : bool;
  i_is_promo : bool;
  i_heir_critical : bool;
  i_heir_tactical : bool;
  i_mover : Color;
  i_see_val : Z;
  i_ff_self_cap_score : Z;
  i_ff_dev_score : Z;
  i_ff_pawn_score : Z;
  i_ff_king_score : Z;
  i_ff_guard_score : Z;
  i_ff_harass_penalty : Z;
  i_kb_pawn_score : Z;
  i_is_recapture : bool
}.

Definition ab_kb_phase1 (b : Board) : bool := (b_mod b == MOD_KINGS_BATTLE) && negb (b_kb_unlocked b).
Definition ab_heir_volatile (b : Board) : bool :=
  (b_mod b == MOD_HEIR) && search_heir_position_volatile b.

Definition move_info (b : Board) (m : Move) : MoveInfo :=
  let is_cap := MOVE_IS_CAPTURE m || MOVE_IS_EP m in
  let is_promo := MOVE_IS_PROMO m in
  let is_heir := b_mod b == MOD_HEIR in
  let mover := b_side b in
  let see_val := if is_cap then see_value b m else 0 in
  let ff := b_mod b == MOD_FRIENDLY_FIRE in
  let ff_quiet f := if ff && negb is_cap && negb is_promo then f b m mover else 0 in
  let prev := u_move (hist b (b_ply b - 1)) in
  mkInfo is_cap is_promo
    (is_heir && search_heir_critical_move b m)
    (is_heir && search_heir_tactical_capture b m see_val)
    mover see_val
    (if ff && is_cap then search_ff_self_capture_score b m mover else 0)
    (ff_quiet search_ff_minor_development_score)
    (ff_quiet search_ff_quiet_pawn_score)
    (ff_quiet search_ff_king_safety_score)
    (ff_quiet search_ff_king_zone_guard_score)
    (ff_quiet search_ff_flank_pawn_harass_penalty)
    (if ab_kb_phase1 b && (MOVE_PIECE m == PAWN) then search_kb_phase1_pawn_race_score b m mover else 0)
    (is_cap && (0 <? b_ply b) && negb (prev =? MOVE_NONE) && MOVE_IS_CAPTURE prev &&
       (MOVE_TO prev =? MOVE_TO m)).

Definition ff_tactical (i : MoveInfo) : bool := 140 <=? i_ff_self_cap_score i.

(** High-value Friendly Fire moves are never pruned. *)
Definition ff_keep (i : MoveInfo) : bool :=
  (60 <=? i_ff_dev_score i) || (70 <=? i_ff_king_score i) || (90 <=? i_ff_guard_score i) ||
  (120 <=? i_ff_pawn_score i).

Definition LMP_LIMIT : list Z := [0; 5; 10; 18; 28; 40].

(** Pre-search pruning of a move, after it is made; [lmp_limit] is
    [LMP_LIMIT[depth]] where the code reads it. *)
Definition prune_move (n : Node) (b : Board) (i : MoveInfo) (gives_check : bool)
    (moves_done lmp_limit : Z) : bool :=
  let is_merc := b_mod b == MOD_MERCENARY in
  let is_succ := b_mod b == MOD_SUCCESSION in
  let quiet_ok := negb (n_kb_phase1 n) && negb is_merc && negb is_succ && negb (n_heir_volatile n) &&
                  negb (i_is_cap i) && negb (i_is_promo i) && negb gives_check in
  if negb (n_is_pv n) && negb (n_in_check n) && (0 <? moves_done) then
    (quiet_ok && (n_depth n <=? 5) && (lmp_limit <=? moves_done) && negb (ff_keep i)) ||
    (quiet_ok && n_do_futility n && negb (ff_keep i)) ||
    (i_is_cap i && (n_depth n <=? 3) && negb gives_check &&
       (if ff_tactical i then i_see_val i <? -220
        else negb (i_heir_critical i) && (i_see_val i <? -80 * n_depth n)))
  else false.

(** Extensions; the board is the one after the move. *)
Definition extension (n : Node) (b : Board) (m : Move) (i : MoveInfo) (gives_check : bool) : Z :=
  let depth := n_depth n in
  let kb := n_kb_phase1 n in
  let is_merc := b_mod b == MOD_MERCENARY in
  let is_heir := b_mod b == MOD_HEIR in
  let merc_endgame := is_merc && (bb_popcount (b_all b) <=? 16) in
  let ext := if gives_check then 1 else 0 in
  let ext := if n_in_check n && (2 <=? depth) then maxi ext 1 else ext in
  let ext := if kb && (3 <=? depth) && (i_is_cap i || i_is_promo i) then maxi ext 1 else ext in
  let ext := if kb && (4 <=? depth) && i_is_cap i && (MOVE_PIECE m == PAWN) &&
                (MOVE_CAPTURED m == PAWN) then maxi ext 2 else ext in
  let ext := if kb && (4 <=? depth) && (MOVE_PIECE m == PAWN) && (320 <=? i_kb_pawn_score i)
             then maxi ext 2
             else if kb && (3 <=? depth) && (MOVE_PIECE m == PAWN) && negb (i_is_cap i) &&
                     negb (i_is_promo i) && (220 <=? i_kb_pawn_score i) then maxi ext 1 else ext in
  let ext := if (ext =? 0) && ff_tactical i && (4 <=? depth) then 1 else ext in
  let ext := if (ext =? 0) && i_is_recapture i && (4 <=? depth) then 1 else ext in
  let ext := if (ext =? 0) && merc_endgame && i_is_cap i && (4 <=? depth) then 1 else ext in
  let ext := if (ext =? 0) && i_heir_tactical i && (4 <=? depth) then 1 else ext in
  if (ext =? 0) && is_heir && (4 <=? depth) && i_heir_critical i then 1 else ext.

(** [if (c) r--] where the code also asks for [r > 0], and without. *)
Definition dec_pos (c : bool) (r : Z) : Z := if c && (0 <? r) then r - 1 else r.
Definition dec (c : bool) (r : Z) : Z := if c then r - 1 else r.

(** Truce: developing moves and pawn nudges are reduced less. *)
Definition truce_reduction (b : Board) (m : Move) (mover : Color) (r : Z) : Z :=
  let piece := MOVE_PIECE m in
  let from_rank := rel_row mover (MOVE_FROM m) in
  if (piece == KNIGHT) || (piece == BISHOP) then
    let r := dec (from_rank <=? 1) r in
    dec_pos ((piece == KNIGHT) && (2 <=? search_truce_undeveloped_minor_count b mover)) r
  else if piece == PAWN then
    let to_sq := MOVE_TO m in
    let to_rank := rel_row mover to_sq in
    let file := SQ_COL to_sq in
    let attack_row := SQ_ROW to_sq + fwd mover in
    let bishops := pcs b (color_opposite mover) BISHOP in
    let harasses_bishop :=
      (0 <=? attack_row) && (attack_row <? 8) &&
      (((0 <? file) && BB_HAS bishops (SQ attack_row (file - 1))) ||
       ((file <? 7) && BB_HAS bishops (SQ attack_row (file + 1)))) in
    if from_rank =? 1 then dec_pos ((3 <=? to_rank) || harasses_bishop) (r - 1) else r
  else r.

Definition ff_reduction (i : MoveInfo) (r : Z) : Z :=
  let r := dec ((50 <=? i_ff_dev_score i) || (80 <=? i_ff_king_score i)) r in
  let r := dec_pos (70 <=? i_ff_guard_score i) r in
  let r := dec_pos (120 <=? i_ff_pawn_score i) r in
  let r := dec_pos ((80 <=? i_ff_dev_score i) || (120 <=? i_ff_king_score i)) r in
  let r := dec_pos (120 <=? i_ff_guard_score i) r in
  if 70 <=? i_ff_harass_penalty i then r + 1 else r.

Definition kb_pawn_reduction (b : Board) (m : Move) (i : MoveInfo) (r : Z) : Z :=
  let from_rank := search_kb_phase1_forward_rank (i_mover i) (MOVE_FROM m) in
  let to_rank := search_kb_phase1_forward_rank (i_mover i) (MOVE_TO m) in
  let r := dec_pos (120 <=? i_kb_pawn_score i) r in
  let r := dec_pos (220 <=? i_kb_pawn_score i) r in
  if negb (i_is_cap i) && negb (i_is_promo i) && (from_rank =? 1) && (to_rank <=? 2) &&
     search_kb_phase1_any_pawn_capture_available b (i_mover i) then r + 1 else r.

Definition kb_unlocked_reduction (b : Board) (m : Move) (mover : Color) (r : Z) : Z :=
  dec ((90 <=? search_kb_unlocked_queen_pressure_score b m mover) ||
       (60 <=? search_kb_unlocked_king_safety_score b m mover) ||
       (50 <=? search_kb_unlocked_development_score b m mover) ||
       (80 <=? search_kb_unlocked_king_shelter_score b m mover)) r.

Definition succ_reduction (b : Board) (m : Move) (r : Z) : Z :=
  let r := r - 1 in
  let r := dec_pos (b_fullmove b <=? 16) r in
  dec_pos (MOVE_PIECE m == QUEEN) r.

(** Late move reduction; the board is the one after the move. *)
Definition late_reduction (n : Node) (b : Board) (m : Move) (i : MoveInfo) (ext moves_done : Z) : Z :=
  let is_merc := b_mod b == MOD_MERCENARY in
  let is_heir := b_mod b == MOD_HEIR in
  let is_succ := b_mod b == MOD_SUCCESSION in
  let quiet := negb (i_is_cap i) && negb (i_is_promo i) in
  let merc_quiet := is_merc && quiet in
  let heir_quiet := is_heir && n_heir_volatile n && i_heir_critical i && quiet in
  let new_depth := n_depth n - 1 + ext in
  if negb merc_quiet && negb heir_quiet && (3 <=? moves_done) && (3 <=? n_depth n) && (ext =? 0) && quiet
  then
    let r := 1 in
    let r := if 6 <=? moves_done then r + 1 else r in
    let r := if 12 <=? moves_done then r + 1 else r in
    let r := if negb (n_improving n) then r + 1 else r in
    let r := dec_pos (n_is_pv n) r in
    let r := dec_pos (is_heir && i_heir_critical i) r in
    let r := if truce_now b && (0 <? r) then truce_reduction b m (i_mover i) r else r in
    let r := if (b_mod b == MOD_FRIENDLY_FIRE) && (0 <? r) then ff_reduction i r else r in
    let r := if ab_kb_phase1 b && (MOVE_PIECE m == KING) && (0 <? r) then 0 else r in
    let r := if n_kb_phase1 n && (MOVE_PIECE m == PAWN) then kb_pawn_reduction b m i r else r in
    let r := if (b_mod b == MOD_KINGS_BATTLE) && b_kb_unlocked b && (0 <? r)
             then kb_unlocked_reduction b m (i_mover i) r else r in
    let r := if is_succ && (0 <? r) then succ_reduction b m r else r in
    let r := mini r (new_depth - 1) in
    if r <? 0 then 0 else r
  else 0.

Section Clocked.
Context {C : Clock}.

(** ** Quiescence *)

(** The value of a child for the player who has just moved: a second move in
    a row is searched with the window as it is, an answer with the window
    turned round. *)
Definition child_score (mover : Color) (rec : Z -> Z -> M Z) (alpha beta : Z) : M Z :=
  b ← get_board;
  if b_side b == mover then rec alpha beta else Z.opp <$> rec (- beta) (- alpha).

(** [order_moves] with the state of the search. *)
Definition sort_moves (b : Board) (ml : MoveList) (tt_move : Move) (ply : Z) (countermove : Move)
    : M MoveList :=
  s ← get_search;
  inside (forallb (fun m => score_reads s m ply (b_side b)) ml);;
  mret (order_moves s b ml tt_move ply (b_side b) countermove).

Fixpoint q_evasions (rec : Z -> Z -> Z -> Z -> M Z) (ms : MoveList) (alpha beta ply qply best : Z)
    : M Z :=
  match ms with
  | [] => mret best
  | m :: ms =>
      b ← get_board;
      make m;;
      score ← child_score (b_side b) (fun a be => rec a be (ply + 1) (qply + 1)) alpha beta;
      unmake;;
      s ← get_search;
      if s_stopped s then mret 0
      else
        let best := if best <? score then score else best in
        let alpha := if alpha <? best then best else alpha in
        if beta <=? alpha then mret best else q_evasions rec ms alpha beta ply qply best
  end.

(** The captures that are not worth searching. *)
Definition q_skip (b : Board) (m : Move) (stand_pat alpha qply : Z) : bool :=
  let is_merc := b_mod b == MOD_MERCENARY in
  let ff_tactical_capture := 140 <=? search_ff_self_capture_score b m (b_side b) in
  let see := see_value b m in
  if (if is_merc then if qply <? 4 then see <? -50 else see <=? 0
      else if ff_tactical_capture then see <? -220 else see <? 0)
  then true
  else
    let cap_val := see_pv_of b (MOVE_CAPTURED m) in
    stand_pat + cap_val + 200 <? alpha.

Fixpoint q_captures (rec : Z -> Z -> Z -> Z -> M Z) (ms : MoveList)
    (stand_pat alpha beta ply qply best : Z) : M Z :=
  match ms with
  | [] => mret best
  | m :: ms =>
      b ← get_board;
      if q_skip b m stand_pat alpha qply
      then q_captures rec ms stand_pat alpha beta ply qply best
      else
        make m;;
        score ← child_score (b_side b) (fun a be => rec a be (ply + 1) (qply + 1)) alpha beta;
        unmake;;
        s ← get_search;
        if s_stopped s then mret 0
        else
          let best := if best <? score then score else best in
          let alpha := if alpha <? best then best else alpha in
          if beta <=? alpha then mret best else q_captures rec ms stand_pat alpha beta ply qply best
  end.

(** In check every evasion is searched, or the captures only once deep. *)
Definition q_in_check (rec : Z -> Z -> Z -> Z -> M Z) (alpha beta ply qply : Z) : M Z :=
  b ← get_board;
  let search_all ml :=
    ml ← sort_moves b ml MOVE_NONE (mini ply (MAX_PLY - 1)) MOVE_NONE;
    q_evasions rec ml alpha beta ply qply (- INFINITY_SCORE) in
  if 4 <=? qply then
    match generate_captures b with
    | [] => match generate_moves b with
            | [] => mret (- (MATE_SCORE - ply))
            | _ => mret (evaluate b)
            end
    | ml => search_all ml
    end
  else
    match generate_moves b with
    | [] => mret (- (MATE_SCORE - ply))
    | ml => search_all ml
    end.

Definition q_stand_pat (rec : Z -> Z -> Z -> Z -> M Z) (alpha beta ply qply : Z) : M Z :=
  b ← get_board;
  let stand_pat := evaluate b in
  if beta <=? stand_pat then mret stand_pat
  else
    let alpha := if alpha <? stand_pat then stand_pat else alpha in
    q_captures rec (order_captures_see b (generate_captures b)) stand_pat alpha beta ply qply stand_pat.

Definition q_body (rec : Z -> Z -> Z -> Z -> M Z) (alpha beta ply qply : Z) : M Z :=
  on_search (fun s => check_time (set_s_nodes (s_nodes s + 1) s));;
  s ← get_search;
  if s_stopped s then mret 0
  else
    b ← get_board;
    match stq_terminal_score b ply with
    | Some score => mret score
    | None =>
        if MAX_PLY + MAX_QPLY <=? ply then mret (evaluate b)
        else if MAX_QPLY <=? qply then mret (evaluate b)
        else
          match heir_terminal_score b ply, succ_terminal_score b ply with
          | Some score, _ => mret score
          | None, Some score => mret score
          | None, None =>
              if board_in_check b (b_side b) then q_in_check rec alpha beta ply qply
              else q_stand_pat rec alpha beta ply qply
          end
    end.

Fixpoint quiescence (fuel : nat) (alpha beta ply qply : Z) : M Z :=
  match fuel with
  | O => crash
  | S f => q_body (quiescence f) alpha beta ply qply
  end.

(** A call at [qply = 0] nests at most nine deep. *)
Definition Q_FUEL : nat := 9.

(** ** Alpha-beta *)

(** [history[i].hash == hash] for [i = ply - 2, ply - 4, .. 0]. *)
Definition repetition (b : Board) : bool :=
  (4 <=? b_ply b) &&
  existsb (fun k => let i := b_ply b - 2 - 2 * k in (0 <=? i) && (u_hash (hist b i) =? b_hash b))
    (seqZ 0 (b_ply b / 2)).

(** How much deeper an entry must be to be trusted. *)
Definition tt_depth_margin (skill : Z) : Z :=
  if 4 <=? skill then 0 else if 3 <=? skill then 2 else if 2 <=? skill then 3 else 5.

Definition tt_cutoff (e : TTEntry) (skill depth alpha beta : Z) (is_pv : bool) : option Z :=
  if negb is_pv && (depth + tt_depth_margin skill <=? tte_depth e) then
    match tte_flag e with
    | TT_EXACT => Some (tte_score e)
    | TT_LOWER => if beta <=? tte_score e then Some (tte_score e) else None
    | TT_UPPER => if tte_score e <=? alpha then Some (tte_score e) else None
    end
  else None.

(** The table's score can replace the static evaluation. *)
Definition refined_eval (tte : option TTEntry) (static_eval : Z) : Z :=
  match tte with
  | None => static_eval
  | Some e =>
      match tte_flag e with
      | TT_EXACT => tte_score e
      | TT_LOWER => if static_eval <? tte_score e then tte_score e else static_eval
      | TT_UPPER => if tte_score e <? static_eval then tte_score e else static_eval
      end
  end.

(** The recursive call: depth, alpha, beta, ply, do_null, is_pv. *)
Definition Rec : Type := Z -> Z -> Z -> Z -> bool -> bool -> M Z.

(** A child with a given depth, window and kind of node. *)
Definition ab_child (rec : Rec) (n : Node) (mover : Color) (depth alpha beta : Z) (pv : bool) : M Z :=
  child_score mover (fun a be => rec depth a be (n_ply n + 1) true pv) alpha beta.

(** PVS and LMR for the move just made. *)
Definition search_move (rec : Rec) (n : Node) (m : Move) (i : MoveInfo) (ext alpha moves_done : Z)
    : M Z :=
  b ← get_board;
  let mover := i_mover i in
  let new_depth := n_depth n - 1 + ext in
  let kb_force_full_window := (b_mod b == MOD_KINGS_BATTLE) && n_is_pv n && (n_depth n <=? 4) in
  if (moves_done =? 0) || kb_force_full_window
  then ab_child rec n mover new_depth alpha (n_beta n) (n_is_pv n)
  else
    let reduction := late_reduction n b m i ext moves_done in
    score ← ab_child rec n mover (new_depth - reduction) alpha (alpha + 1) false;
    score ← (if (alpha <? score) && (0 <? reduction)
             then ab_child rec n mover new_depth alpha (alpha + 1) false else mret score);
    if (alpha <? score) && (score <? n_beta n)
    then ab_child rec n mover new_depth alpha (n_beta n) true else mret score.

(** A quiet move that refutes the node is remembered. *)
Definition record_cutoff (n : Node) (m : Move) (quiets : list Move) : M unit :=
  b ← get_board;
  s ← get_search;
  inside (if n_ply n <? MAX_PLY then killers_in s (n_ply n) else true);;
  inside (forallb (history_in s (b_side b)) (m :: quiets));;
  on_search (record_killer m (n_ply n));;
  on_search (record_history (b_side b) m (n_depth n));;
  on_search (penalize_quiets (b_side b) quiets (Z.of_nat (length quiets) - 1) (n_depth n));;
  let prev := u_move (hist b (b_ply b - 1)) in
  if (0 <? b_ply b) && negb (prev =? MOVE_NONE) then
    s ← get_search;
    inside (countermoves_in s (color_opposite (b_side b)) prev);;
    on_search (set_countermove (color_opposite (b_side b)) prev m)
  else mret tt.

(** The move loop; [None] when the search was stopped.  The local variables
    [alpha], [best_score], [best_move], [moves_done] and [searched_quiets] are
    arguments. *)
Fixpoint ab_moves (rec : Rec) (n : Node) (ms : MoveList) (alpha best_score : Z) (best_move : Move)
    (moves_done : Z) (quiets : list Move) : M (option (Z * Move)) :=
  match ms with
  | [] => mret (Some (best_score, best_move))
  | m :: ms =>
      b0 ← get_board;
      let i := move_info b0 m in
      make m;;
      b ← get_board;
      let same_turn := b_side b == i_mover i in
      let gives_check := board_in_check b (if same_turn then color_opposite (i_mover i) else b_side b) in
      lmp_limit ← (if n_depth n <=? 5 then array_get LMP_LIMIT (n_depth n) else mret 0);
      if prune_move n b i gives_check moves_done lmp_limit then
        unmake;;
        ab_moves rec n ms alpha best_score best_move moves_done quiets
      else
        let ext := extension n b m i gives_check in
        score ← search_move rec n m i ext alpha moves_done;
        unmake;;
        s ← get_search;
        if s_stopped s then mret None
        else
          let quiet := negb (i_is_cap i) && negb (i_is_promo i) in
          let quiets := if quiet && (Z.of_nat (length quiets) <? MAX_MOVES) then quiets ++ [m] else quiets in
          let moves_done := moves_done + 1 in
          let better := best_score <? score in
          let best_move := if better then m else best_move in
          let best_score := if better then score else best_score in
          let alpha := if alpha <? score then score else alpha in
          if n_beta n <=? alpha then
            (if quiet then record_cutoff n m quiets else mret tt);;
            mret (Some (best_score, best_move))
          else ab_moves rec n ms alpha best_score best_move moves_done quiets
  end.

(** The null move: the side to move passes. *)
Definition pass_turn (b : Board) : Board :=
  let sv_ep := b_ep_square b in
  let b := set_b_side (color_opposite (b_side b)) b in
  let b := set_b_hash (Z.lxor (b_hash b) (zob_side zob_keys)) b in
  let b := if negb (sv_ep =? SQ_NONE) then set_b_hash (Z.lxor (b_hash b) ((zob_ep zob_keys).[sv_ep])) b
           else b in
  set_b_ep_square SQ_NONE b.

Definition unpass (sv : Board) (b : Board) : Board :=
  set_b_hash (b_hash sv) (set_b_ep_square (b_ep_square sv) (set_b_side (b_side sv) b)).

Definition has_officers (b : Board) (us : Color) : bool :=
  bb_nonzero (pcs b us KNIGHT) || bb_nonzero (pcs b us BISHOP) ||
  bb_nonzero (pcs b us ROOK) || bb_nonzero (pcs b us QUEEN).

(** The score of a node cut off by the null move. *)
Definition null_move (rec : Rec) (depth beta ply : Z) : M (option Z) :=
  sv ← get_board;
  if has_officers sv (b_side sv) then
    let R := 3 + depth ÷ 4 in
    on_the_board pass_turn;;
    null_s ← Z.opp <$> rec (depth - R) (- beta) (- beta + 1) (ply + 1) false false;
    on_the_board (unpass sv);;
    s ← get_search;
    if s_stopped s then mret (Some 0)
    else if (beta <=? null_s) && negb (is_mate null_s) then mret (Some null_s) else mret None
  else mret None.

(** The table exists and the slot of a key is inside it. *)
Definition slot_in (tt : TTable) (key : Z) : bool :=
  match tt_entries tt with
  | None => false
  | Some _ => (0 <=? tt_index tt key) && (tt_index tt key <? tt_count tt)
  end.

(** [tt_probe(&s_tt, key)] *)
Definition probe (key : Z) : M (option TTEntry) :=
  s ← get_search;
  inside (slot_in (s_tt s) key);;
  mret (tt_probe (s_tt s) key).

Definition store (key depth score : Z) (flag : TTFlag) (best : Move) : M unit :=
  s ← get_search;
  inside (slot_in (s_tt s) key);;
  on_search (fun s => set_s_tt (tt_store (s_tt s) key depth score flag best) s).

(** The answer that refuted the opponent's last move before. *)
Definition read_countermove (b : Board) : M Move :=
  let prev := u_move (hist b (b_ply b - 1)) in
  if (0 <? b_ply b) && negb (prev =? MOVE_NONE) then
    s ← get_search;
    inside (countermoves_in s (color_opposite (b_side b)) prev);;
    mret (countermove_of s (color_opposite (b_side b)) prev)
  else mret MOVE_NONE.

(** Internal iterative deepening: a shallower search to find a move to try
    first. *)
Definition iid (rec : Rec) (hash depth alpha beta ply : Z) (is_pv in_check : bool) (tt_move : Move)
    : M Move :=
  if is_pv && (4 <=? depth) && (tt_move =? MOVE_NONE) && negb in_check then
    rec (depth - 2) alpha beta ply false true;;
    tte ← probe hash;
    mret (match tte with Some e => tte_best_move e | None => tt_move end)
  else mret tt_move.

(** Quiet moves are hopeless near the leaves when the evaluation is far below
    alpha. *)
Definition futility (b : Board) (depth alpha static_eval : Z) (is_pv in_check improving : bool) : bool :=
  if (b_mod b != MOD_MERCENARY) && negb (ab_heir_volatile b) && negb (ab_kb_phase1 b) && negb is_pv &&
     negb in_check && (depth <=? 3) && negb (is_mate alpha)
  then static_eval + depth * (if improving then 120 else 180) <=? alpha
  else false.

(** From move generation to the end of the function. *)
Definition ab_search (rec : Rec) (depth alpha beta ply : Z) (is_pv in_check improving : bool)
    (static_eval : Z) (tt_move : Move) : M Z :=
  b ← get_board;
  match generate_moves b with
  | [] =>
      mret (if in_check then - (MATE_SCORE - ply)
            else if (b_mod b == MOD_HEIR) && (pcs b (b_side b) KING =? BB_EMPTY)
            then - (MATE_SCORE - ply) else 0)
  | ml =>
      countermove ← read_countermove b;
      tt_move ← iid rec (b_hash b) depth alpha beta ply is_pv in_check tt_move;
      ml ← sort_moves b ml tt_move ply countermove;
      let n := mkNode depth beta ply is_pv in_check improving (ab_heir_volatile b) (ab_kb_phase1 b)
                 (futility b depth alpha static_eval is_pv in_check improving) in
      r ← ab_moves rec n ml alpha (- INFINITY_SCORE) MOVE_NONE 0 [];
      match r with
      | None => mret 0
      | Some (best_score, best_move) =>
          let flag := if best_score <=? alpha then TT_UPPER
                      else if beta <=? best_score then TT_LOWER else TT_EXACT in
          store (b_hash b) depth best_score flag best_move;;
          mret best_score
      end
  end.

(** No forward pruning in volatile positions. *)
Definition calm (b : Board) : bool :=
  (b_mod b != MOD_MERCENARY) && negb (ab_heir_volatile b) && negb (ab_kb_phase1 b) &&
  negb ((b_mod b == MOD_SUCCESSION) && (b_fullmove b <=? 16)).

(** [Some score] when quiescence confirms that the node is far below alpha. *)
Definition razoring (b : Board) (depth alpha beta ply : Z) (is_pv in_check : bool) (static_eval : Z)
    : M (option Z) :=
  let razor_margin := if depth =? 1 then 300 else 500 in
  if calm b && negb is_pv && negb in_check && (depth <=? 2) && negb (is_mate alpha) &&
     (static_eval + razor_margin <? alpha) then
    razor ← quiescence Q_FUEL alpha beta ply 0;
    mret (if razor <? alpha then Some razor else None)
  else mret None.

Definition reverse_futility (b : Board) (depth alpha beta static_eval : Z)
    (is_pv in_check improving : bool) : bool :=
  calm b && negb is_pv && negb in_check && (depth <=? 6) && negb (is_mate alpha) &&
  negb (is_mate beta) && (beta <=? static_eval - depth * (if improving then 70 else 100)).

(** [s_eval_stack[ply] = static_eval], and the improving flag. *)
Definition push_eval (ply static_eval : Z) (in_check : bool) : M bool :=
  s ← get_search;
  bounds_check ply (Z.of_nat (length (s_eval_stack s)));;
  on_search (fun s => set_s_eval_stack ((s_eval_stack s).[ply <- static_eval]) s);;
  s ← get_search;
  if negb in_check && (2 <=? ply) then
    now ← array_get (s_eval_stack s) ply;
    before ← array_get (s_eval_stack s) (ply - 2);
    mret (before <? now)
  else mret false.

(** From the table probe to the null move. *)
Definition ab_node (rec : Rec) (depth alpha beta ply : Z) (do_null is_pv : bool) : M Z :=
  b ← get_board;
  let in_check := board_in_check b (b_side b) in
  tte ← probe (b_hash b);
  s ← get_search;
  let tt_move := match tte with Some e => tte_best_move e | None => MOVE_NONE end in
  match e ← tte; tt_cutoff e (s_skill_level s) depth alpha beta is_pv with
  | Some score => mret score
  | None =>
      let raw_eval := if in_check then - INFINITY_SCORE else evaluate b in
      improving ← push_eval ply raw_eval in_check;
      let static_eval := if in_check then raw_eval else refined_eval tte raw_eval in
      razor ← razoring b depth alpha beta ply is_pv in_check static_eval;
      match razor with
      | Some score => mret score
      | None =>
          if reverse_futility b depth alpha beta static_eval is_pv in_check improving
          then mret static_eval
          else
            null ← (if calm b && do_null && negb in_check && negb is_pv && (3 <=? depth) &&
                       (0 <? ply) && (beta <=? static_eval)
                    then null_move rec depth beta ply else mret None);
            match null with
            | Some score => mret score
            | None => ab_search rec depth alpha beta ply is_pv in_check improving static_eval tt_move
            end
      end
  end.

Definition ab_body (rec : Rec) (depth alpha beta ply : Z) (do_null is_pv : bool) : M Z :=
  on_search check_time;;
  s ← get_search;
  if s_stopped s then mret 0
  else
    on_search (fun s => set_s_nodes (s_nodes s + 1) s);;
    b ← get_board;
    if repetition b then mret 0
    else
      match stq_terminal_score b ply with
      | Some score => mret score
      | None =>
          if MAX_PLY <=? ply then mret (evaluate b)
          else if depth <=? 0 then quiescence Q_FUEL alpha beta ply 0
          else
            match heir_terminal_score b ply, succ_terminal_score b ply with
            | Some score, _ => mret score
            | None, Some score => mret score
            | None, None =>
                let ma := - (MATE_SCORE - ply) in
                let mb := MATE_SCORE - ply - 1 in
                let alpha := if alpha <? ma then ma else alpha in
                let beta := if mb <? beta then mb else beta in
                if beta <=? alpha then mret alpha
                else ab_node rec depth alpha beta ply do_null is_pv
            end
      end.

Fixpoint alpha_beta (fuel : nat) (depth alpha beta ply : Z) (do_null is_pv : bool) : M Z :=
  match fuel with
  | O => crash
  | S f => ab_body (alpha_beta f) depth alpha beta ply do_null is_pv
  end.

(** Every call is at most [2 * (64 - ply) + depth + 1] deep, see [ab_fuel] in
    [SearchSpec]; the root calls with [ply = 1] and [depth <= 64]. *)
Definition AB_FUEL : nat := 200.

(** ** The root *)

Record SearchResult := mkResult {
  r_best_move : Move;
  r_score : Z;
  r_depth : Z;
  r_nodes : Z
}.

(** One root move: the aspiration window first, the full window when the score
    falls outside it. *)
Definition root_move (depth al be : Z) (root_in_check : bool) (m : Move) : M Z :=
  b0 ← get_board;
  let mover := b_side b0 in
  make m;;
  b ← get_board;
  let same_turn := b_side b == mover in
  let ext := if root_in_check ||
                board_in_check b (if same_turn then color_opposite mover else b_side b) then 1 else 0 in
  let call a be := child_score mover
    (fun a be => alpha_beta AB_FUEL (depth - 1 + ext) a be 1 true true) a be in
  score ← call al be;
  score ← (if ((score <=? al) || (be <=? score)) &&
              ((- INFINITY_SCORE <? al) || (be <? INFINITY_SCORE))
           then call (- INFINITY_SCORE) INFINITY_SCORE else mret score);
  unmake;;
  mret score.

(** The loop over the root moves: best score, best move and all scores;
    [None] when the search was stopped. *)
Fixpoint root_moves (depth al be : Z) (root_in_check : bool) (ms : MoveList) (best_rs : Z)
    (best_rm : Move) (scores : list Z) : M (option (Z * Move * list Z)) :=
  match ms with
  | [] => mret (Some (best_rs, best_rm, scores))
  | m :: ms =>
      score ← root_move depth al be root_in_check m;
      s ← get_search;
      if s_stopped s then mret None
      else
        let better := best_rs <? score in
        root_moves depth al be root_in_check ms (if better then score else best_rs)
          (if better then m else best_rm) (scores ++ [score])
  end.

(** The loop [for (;;)] that widens the window. *)
Fixpoint aspiration (fuel : nat) (depth : Z) (prev_best : Move) (ml : MoveList) (asp al be : Z)
    : M (option (MoveList * Z * Move * list Z)) :=
  match fuel with
  | O => crash
  | S f =>
      b ← get_board;
      ml ← sort_moves b ml prev_best 0 MOVE_NONE;
      r ← root_moves depth al be (board_in_check b (b_side b)) ml (- INFINITY_SCORE) MOVE_NONE [];
      match r with
      | None => mret None
      | Some (best_rs, best_rm, scores) =>
          if (best_rs <=? al) && (- INFINITY_SCORE <? al) then
            let asp := asp * 2 in
            aspiration f depth prev_best ml asp
              (if 500 <? asp then - INFINITY_SCORE else best_rs - asp) be
          else if (be <=? best_rs) && (be <? INFINITY_SCORE) then
            let asp := asp * 2 in
            aspiration f depth prev_best ml asp al
              (if 500 <? asp then INFINITY_SCORE else best_rs + asp)
          else mret (Some (ml, best_rs, best_rm, scores))
      end
  end.

(** The window doubles from 25; two sides open by the sixth failure. *)
Definition ASP_FUEL : nat := 7.

(** [for i < n: a[i] = l[i]] *)
Definition overwrite (a l : list Z) : list Z := l ++ drop (length l) a.

Definition commit (ml : MoveList) (scores : list Z) : M unit :=
  s ← get_search;
  bounds_check (Z.of_nat (length ml)) (Z.of_nat (length (s_root_moves s)) + 1);;
  bounds_check (Z.of_nat (length scores)) (Z.of_nat (length (s_root_scores s)) + 1);;
  on_search (fun s =>
    set_s_root_count (Z.of_nat (length ml))
      (set_s_root_scores (overwrite (s_root_scores s) scores)
         (set_s_root_moves (overwrite (s_root_moves s) ml) s))).

(** Iterative deepening. *)
Fixpoint deepen (ds : list Z) (result : SearchResult) : M SearchResult :=
  match ds with
  | [] => mret result
  | depth :: ds =>
      b ← get_board;
      match generate_moves b with
      | [] => mret result
      | ml =>
          let asp := 25 in
          let narrow := (4 <=? depth) && negb (is_mate (r_score result)) in
          let al := if narrow then r_score result - asp else - INFINITY_SCORE in
          let be := if narrow then r_score result + asp else INFINITY_SCORE in
          r ← aspiration ASP_FUEL depth (r_best_move result) ml asp al be;
          match r with
          | None => mret result
          | Some (ml, best_rs, best_rm, scores) =>
              commit ml scores;;
              s ← get_search;
              let result := mkResult best_rm best_rs depth (s_nodes s) in
              if is_mate best_rs then mret result else deepen ds result
          end
      end
  end.

(** ** Choosing among the root moves *)

Definition SKILL_MARGIN : list Z := [80; 50; 30; 15; 0].

Definition opening_limit (md : GameMod) : Z :=
  match md with
  | MOD_MERCENARY => 6
  | MOD_HEIR => 5
  | MOD_TRUCE => 8
  | MOD_KINGS_BATTLE => 6
  | MOD_SAVE_QUEEN => 5
  | MOD_SUCCESSION => 5
  | _ => 4
  end.

(** [s_margin] and [top_band] *)
Definition skill_margin (b : Board) (skill : Z) : Z :=
  let s_margin := SKILL_MARGIN.[skill] in
  let is_opening := b_fullmove b <=? opening_limit (b_mod b) in
  let s_margin := if is_opening && (skill <? 4) then maxi s_margin 10 else s_margin in
  if skill =? 4 then maxi s_margin (search_kb_full_skill_variety_margin b) else s_margin.

Definition top_band (b : Board) (skill : Z) : Z :=
  if skill =? 4 then maxi 3 (search_kb_full_skill_tiebreak_band b) else 3.

(** [for ...: if (score > best) best = score] from minus infinity. *)
Definition best_of (l : list (Move * Z)) : Z :=
  fold_left (fun best x => if best <? x.2 then x.2 else best) l (- INFINITY_SCORE).

Definition near_best (best margin : Z) (l : list (Move * Z)) : list (Move * Z) :=
  List.filter (fun x => best - x.2 <=? margin) l.

Definition weight (best_root s_margin : Z) (x : Move * Z) : Z :=
  let w := x.2 - (best_root - s_margin) + 1 in if w <? 1 then 1 else w.

(** The first candidate whose cumulated weight exceeds [pick]. *)
Fixpoint pick_weighted (weight : Move * Z -> Z) (l : list (Move * Z)) (pick cum : Z) : option Move :=
  match l with
  | [] => None
  | x :: l => let cum := cum + weight x in
              if pick <? cum then Some x.1 else pick_weighted weight l pick cum
  end.

(** The move played, and the generator's next state. *)
Definition select_move (b : Board) (skill score : Z) (best_move : Move) (roots : list (Move * Z))
    (rng : Z) : Move * Z :=
  if (1 <? Z.of_nat (length roots)) && negb (is_mate score) then
    let best_root := best_of roots in
    let s_margin := skill_margin b skill in
    if 0 <? s_margin then
      let cands := near_best best_root s_margin roots in
      if 1 <? Z.of_nat (length cands) then
        if 3 <=? skill then
          let top := near_best (best_of cands) (top_band b skill) cands in
          if 0 <? Z.of_nat (length top) then
            let '(k, rng) := rng_range (Z.of_nat (length top)) rng in ((map fst top).[k], rng)
          else (best_move, rng)
        else
          let w := weight best_root s_margin in
          let total_w := fold_left (fun total x => total + w x) cands 0 in
          let '(pick, rng) := rng_range total_w rng in
          (default best_move (pick_weighted w cands pick 0), rng)
      else (best_move, rng)
    else (best_move, rng)
  else (best_move, rng).

(** The moves and scores of the last completed iteration. *)
Definition root_list (s : Search) : list (Move * Z) :=
  zip (take (Z.to_nat (s_root_count s)) (s_root_moves s))
      (take (Z.to_nat (s_root_count s)) (s_root_scores s)).

(** [search_think] up to the deepening loop. *)
Definition think_setup (time_ms skill_level : Z) : M unit :=
  on_search (fun s => if tt_entries (s_tt s) then s else set_s_tt (tt_alloc 16) s);;
  on_search (search_reset false);;
  on_search (fun s => let '(now, s) := read_clock s in set_s_deadline_ms (now + time_ms) s);;
  on_search (set_s_skill_level (if skill_level <? 0 then 0 else if 4 <? skill_level then 4 else skill_level));;
  b ← get_board;
  on_search (fun s =>
    let '(now, s) := read_clock s in
    let nonce := u64 (s_search_nonce s + 1) in
    set_s_rng (Z.lxor (Z.lxor (Z.lxor (b_hash b) (u64 now)) (u64 (Z.shiftl (b_fullmove b) 32)))
                      (u64 (nonce * 0x9e3779b97f4a7c15)))
      (set_s_search_nonce nonce s));;
  on_search (fun s => set_s_prev_skill (s_skill_level s) s).

Definition search_think (time_ms max_depth skill_level : Z) : M SearchResult :=
  think_setup time_ms skill_level;;
  let depth_limit := if (0 <? max_depth) && (max_depth <? MAX_PLY) then max_depth else MAX_PLY in
  result ← deepen (seqZ 1 depth_limit) (mkResult MOVE_NONE 0 0 0);
  b ← get_board;
  s ← get_search;
  bounds_check (s_skill_level s) (Z.of_nat (length SKILL_MARGIN));;
  let '(best_move, rng) :=
    select_move b (s_skill_level s) (r_score result) (r_best_move result) (root_list s) (s_rng s) in
  on_search (set_s_rng rng);;
  mret (mkResult best_move (r_score result) (r_depth result) (r_nodes result)).
End Clocked.
