(* ===== verification/SearchSpec.v ===== *)
(** * Total correctness of the search

    Every routine of [Search] is run in a world whose board is consistent with
    room for the moves it can still make and whose tables satisfy their
    invariant ([safe]).  It ends without an access out of bounds and without
    running out of fuel, and leaves the board as it was, up to stale undo
    entries, and the tables in order ([keeps]). *)

From stdpp Require Import base numbers list option gmap.
From Stdlib Require Import ZArith Lia Bool Permutation.
From S2P Require Import Prelude Types Board Zobrist Attacks Make Movegen MovegenFacts MovegenSound Game SameGame Evaluate See SearchState SearchTables SearchMonad Ordering Search.

(** ** Worlds *)

Record safe (k : Z) (w : World) : Prop := {
  sf_board : ready k (w_board w);
  sf_tables : tables_ok (w_search w)
}.

Record keeps (w w' : World) : Prop := {
  kp_board : same_game (w_board w) (w_board w');
  kp_tables : tables_ok (w_search w');
  kp_roots : roots (w_search w') = roots (w_search w)
}.

Lemma keeps_refl (k : Z) (w : World) : safe k w -> keeps w w.
Proof. intros [_ Ht]. by constructor. Qed.

Lemma keeps_trans (w1 w2 w3 : World) : keeps w1 w2 -> keeps w2 w3 -> keeps w1 w3.
Proof.
  intros [H1 _ R1] [H2 T R2]. constructor; [by transitivity (w_board w2)|done|congruence].
Qed.

Lemma safe_keeps (k : Z) (w w' : World) : safe k w -> keeps w w' -> safe k w'.
Proof. intros [Hr _] [Hs Ht _]. constructor; [by eapply ready_same|done]. Qed.

Lemma safe_mono (k k' : Z) (w : World) : k' <= k -> safe k w -> safe k' w.
Proof. intros Hk [Hr Ht]. constructor; [by eapply ready_mono|done]. Qed.

Lemma keeps_search (w w' : World) (f : Search -> Search) :
  keeps w w' -> benign f -> keeps w (mkWorld (w_board w') (f (w_search w'))).
Proof.
  intros [Hs Ht Hr] Hf. destruct (Hf _ Ht) as [Ht' Hr']. constructor; [done|done|].
  cbn [w_search]. congruence.
Qed.

Lemma safe_search (k : Z) (w : World) (f : Search -> Search) :
  safe k w -> benign f -> safe k (mkWorld (w_board w) (f (w_search w))).
Proof. intros [Hr Ht] Hf. constructor; [done|]. by apply Hf. Qed.

(** A move is made, the position searched, the move taken back. *)
Definition made_world (m : Move) (w : World) : World :=
  mkWorld (board_make_move (w_board w) m) (w_search w).
Definition unmade_world (w : World) : World :=
  mkWorld (board_unmake_move (w_board w)) (w_search w).

Lemma safe_made (k : Z) (m : Move) (w : World) :
  1 <= k -> safe k w -> playable (w_board w) m -> safe (k - 1) (made_world m w).
Proof. intros Hk [Hr Ht] Hok. constructor; [by apply ready_make|done]. Qed.

Lemma keeps_turn (k : Z) (m : Move) (w w' w2 : World) :
  1 <= k -> safe k w' -> playable (w_board w') m -> keeps w w' -> keeps (made_world m w') w2 ->
  keeps w (unmade_world w2).
Proof.
  intros Hk [Hr _] Hok [Hs _ R1] [Hs2 Ht R2]. constructor; [|done|cbn in *; congruence].
  transitivity (w_board w'); [done|]. by apply (same_unmake k (w_board w') m).
Qed.

(** The null move. *)
Lemma ready_pass (k : Z) (b : Board) : ready k b -> ready k (pass_turn b).
Proof.
  intros [[Hinv Hside Hc He] Hm Hl Hp Hr Hv].
  assert (exists x, pass_turn b = set_b_hash x (set_b_ep_square SQ_NONE
    (set_b_side (color_opposite (b_side b)) b))) as [x ->].
  { unfold pass_turn. destruct (negb _); by eexists. }
  constructor; try done. constructor.
  - destruct Hinv as [H1 H2]. constructor; [exact H1|].
    exact (f_equal (fun b' => set_b_hash x (set_b_ep_square SQ_NONE
      (set_b_side (color_opposite (b_side b)) b'))) H2).
  - cbn. destruct (b_side b); real.
  - exact Hc.
  - intros []. done.
Qed.

Lemma same_unpass (b b2 : Board) : same_game (pass_turn b) b2 -> same_game b (unpass b b2).
Proof.
  intros (h & -> & Hlen & Hagree). exists h. unfold pass_turn in *.
  destruct (negb _); (split; [by destruct b|split; [exact Hlen|exact Hagree]]).
Qed.

(** ** Rules *)

(** One step of a computation. *)
Ltac wp_step :=
  lazymatch goal with
  | |- wp (mbind _ _) _ _ => apply wp_bind
  | |- wp (fmap _ _) _ _ => apply wp_fmap
  | |- wp (mret _) _ _ => apply wp_ret
  | |- wp get_board _ _ => apply wp_get_board
  | |- wp get_search _ _ => apply wp_get_search
  | |- wp (on_search _) _ _ => apply wp_on_search
  | |- wp (on_the_board _) _ _ => apply wp_on_board
  | |- wp (make _) _ _ => apply wp_on_board
  | |- wp unmake _ _ => apply wp_on_board
  | |- wp (if ?c then _ else _) _ _ => destruct c eqn:?
  end; cbv beta zeta.
Ltac wp_steps := repeat wp_step.

Lemma child_score_wp (mover : Color) (rec : Z -> Z -> M Z) (alpha beta : Z) (P : World -> Prop)
    (w : World) :
  (forall a be, wp (rec a be) (fun _ => P) w) -> wp (child_score mover rec alpha beta) (fun _ => P) w.
Proof. intros H. unfold child_score. wp_steps; apply H. Qed.

Lemma wp_benign (f : Search -> Search) (w0 w : World) (Q : unit -> World -> Prop) :
  benign f -> keeps w0 w -> (forall w', keeps w0 w' -> Q tt w') -> wp (on_search f) Q w.
Proof. intros Hf Hk HQ. apply wp_on_search, HQ. by apply keeps_search. Qed.

(** A computation that keeps the world it starts in keeps an earlier one. *)
Lemma wp_keeps {A} (m : M A) (w0 w : World) :
  keeps w0 w -> wp m (fun _ => keeps w) w -> wp m (fun _ => keeps w0) w.
Proof. intros Hk Hm. eapply wp_mono; [exact Hm|]. intros; by eapply keeps_trans. Qed.

Lemma ordered_playable (b : Board) (key : Move -> Z) (ml : MoveList) :
  Forall (playable b) ml -> Forall (playable b) (isort key ml).
Proof. intros H. by rewrite <- (isort_perm key ml). Qed.

(** The scores of moves that can be played are read inside the tables. *)
Lemma playable_reads (s : Search) (b : Board) (m : Move) (ply : Z) :
  tables_ok s -> playable b m -> 0 <= ply -> score_reads s m ply (b_side b) = true.
Proof.
  intros Hs [Hf Hg] Hp. unfold score_reads. destruct (MOVE_IS_PROMO m); [done|].
  destruct (MOVE_IS_CAPTURE m || MOVE_IS_EP m) eqn:E.
  - assert (MOVE_IS_CAPTURE m = true) as Hc.
    { apply orb_true_iff in E as [E|E]; [done|by apply (go_ep_capture b m Hg)]. }
    pose proof (mf_type b m Hf) as Ht. unfold MOVE_IS_CAPTURE in Hc.
    by destruct (MOVE_PIECE m), (MOVE_CAPTURED m).
  - rewrite (history_inside s (b_side b) m Hs (mf_side b m Hf)), andb_true_r.
    destruct (Z.ltb_spec ply MAX_PLY); [|done]. by apply killers_inside.
Qed.

Lemma sort_moves_wp (b : Board) (ml : MoveList) (tt_move : Move) (ply : Z) (cm : Move) (w : World)
    (Q : MoveList -> World -> Prop) :
  tables_ok (w_search w) -> Forall (playable b) ml -> 0 <= ply ->
  (forall ml', Permutation ml ml' -> Q ml' w) -> wp (sort_moves b ml tt_move ply cm) Q w.
Proof.
  intros Ht Hml Hp HQ. unfold sort_moves. do 3 wp_step. apply wp_inside.
  - apply forallb_forall. intros m Hm. rewrite List.Forall_forall in Hml. by apply playable_reads; auto.
  - wp_step. rewrite order_moves_isort. apply HQ, isort_perm.
Qed.

(** Sorting changes the order of the moves and nothing else. *)
Lemma sort_moves_run (b : Board) (ml ml' : MoveList) (tt_move : Move) (ply : Z) (cm : Move) (w w' : World) :
  sort_moves b ml tt_move ply cm w = Some (ml', w') -> Permutation ml ml' /\ w' = w.
Proof.
  unfold sort_moves, mbind, M_bind, get_search, inside. destruct (forallb _ ml); [|done].
  intros [= <- <-]. rewrite order_moves_isort. split; [apply isort_perm|done].
Qed.

Lemma generate_playable (b : Board) :
  game_inv b -> history_ok b -> Forall (playable b) (generate_moves b).
Proof. intros. apply List.Forall_forall. intros m. by apply generated_playable. Qed.

Lemma captures_playable (b : Board) :
  game_inv b -> history_ok b -> Forall (playable b) (generate_captures b).
Proof. intros. apply List.Forall_forall. intros m. by apply captured_playable. Qed.

Section Clocked.
Context {C : Clock}.

(** ** Quiescence *)

(** [MAX_PLY + MAX_QPLY] bounds the distance from the root. *)
Definition room (ply : Z) : Z := MAX_PLY + MAX_QPLY - ply.

Definition q_spec (qply : Z) (rec : Z -> Z -> Z -> Z -> M Z) : Prop :=
  forall alpha beta ply w, 0 <= ply -> safe (room ply) w ->
  wp (rec alpha beta ply qply) (fun _ => keeps w) w.

Section Body.
Context (rec : Z -> Z -> Z -> Z -> M Z) (ply qply beta : Z).
Context (Hrec : q_spec (qply + 1) rec) (Hply : 0 <= ply < MAX_PLY + MAX_QPLY).

Local Definition room_pos : 1 <= room ply.
Proof. unfold room. lia. Qed.

(** Making a move, searching the position and taking the move back. *)
Lemma q_turn (w0 w : World) (m : Move) (mover : Color) (alpha : Z) (Q : Z -> World -> Prop)
    (k : Z -> M Z) :
  safe (room ply) w0 -> keeps w0 w -> playable (w_board w0) m ->
  (forall score w', keeps w0 w' -> wp (k score) Q w') ->
  wp (make m;;
      score ← child_score mover (fun a be => rec a be (ply + 1) (qply + 1)) alpha beta;
      unmake;; k score) Q w.
Proof.
  intros Hs Hk Hm Hc. pose proof (safe_keeps _ _ _ Hs Hk) as Hs'.
  assert (playable (w_board w) m) as Hm' by (eapply same_playable; [apply Hk|done]).
  wp_steps. eapply wp_mono.
  { apply (child_score_wp mover _ alpha beta (keeps (made_world m w))). intros a be.
    apply Hrec; [lia|]. replace (room (ply + 1)) with (room ply - 1) by (unfold room; lia).
    apply safe_made; auto using room_pos. }
  intros score w2 Hk2. wp_steps. apply Hc.
  apply (keeps_turn (room ply) m w0 w w2); auto using room_pos.
Qed.

Lemma q_evasions_wp (w0 : World) (ms : MoveList) (alpha best : Z) (w : World) :
  safe (room ply) w0 -> keeps w0 w -> Forall (playable (w_board w0)) ms ->
  wp (q_evasions rec ms alpha beta ply qply best) (fun _ => keeps w0) w.
Proof.
  intros Hs Hk Hms. revert alpha best w Hk. induction Hms as [|m ms Hm Hms IH]; intros; cbn [q_evasions].
  { by wp_steps. }
  do 2 wp_step. apply (q_turn w0); [done..|]. intros score w' Hk'. wp_steps; auto.
Qed.

Lemma q_captures_wp (w0 : World) (ms : MoveList) (stand_pat alpha best : Z) (w : World) :
  safe (room ply) w0 -> keeps w0 w -> Forall (playable (w_board w0)) ms ->
  wp (q_captures rec ms stand_pat alpha beta ply qply best) (fun _ => keeps w0) w.
Proof.
  intros Hs Hk Hms. revert alpha best w Hk. induction Hms as [|m ms Hm Hms IH]; intros; cbn [q_captures].
  { by wp_steps. }
  do 3 wp_step; [auto|]. apply (q_turn w0); [done..|]. intros score w' Hk'. wp_steps; auto.
Qed.

Lemma q_sorted_wp (ml : MoveList) (alpha best : Z) (w : World) :
  safe (room ply) w -> Forall (playable (w_board w)) ml ->
  wp (ml ← sort_moves (w_board w) ml MOVE_NONE (mini ply (MAX_PLY - 1)) MOVE_NONE;
      q_evasions rec ml alpha beta ply qply best) (fun _ => keeps w) w.
Proof.
  intros Hs Hml. wp_step. apply sort_moves_wp; [apply Hs|done| |].
  - unfold mini, MAX_PLY. destruct (_ <? _); lia.
  - intros ml' Hp. apply q_evasions_wp; [done|by eapply keeps_refl|by rewrite <- Hp].
Qed.

Lemma q_in_check_wp (alpha : Z) (w : World) :
  safe (room ply) w -> wp (q_in_check rec alpha beta ply qply) (fun _ => keeps w) w.
Proof.
  intros Hs. pose proof (keeps_refl _ _ Hs) as Hk.
  pose proof (ready_history _ _ room_pos (sf_board _ _ Hs)) as Hh.
  pose proof (rd_game _ _ (sf_board _ _ Hs)) as Hg.
  unfold q_in_check. wp_steps.
  - pose proof (captures_playable _ Hg Hh) as Hc. destruct (generate_captures (w_board w)).
    + destruct (generate_moves _); by wp_steps.
    + by apply q_sorted_wp.
  - pose proof (generate_playable _ Hg Hh) as Hc. destruct (generate_moves (w_board w)); [by wp_steps|].
    by apply q_sorted_wp.
Qed.

Lemma q_stand_pat_wp (alpha : Z) (w : World) :
  safe (room ply) w -> wp (q_stand_pat rec alpha beta ply qply) (fun _ => keeps w) w.
Proof.
  intros Hs. pose proof (keeps_refl _ _ Hs) as Hk.
  pose proof (ready_history _ _ room_pos (sf_board _ _ Hs)) as Hh.
  pose proof (rd_game _ _ (sf_board _ _ Hs)) as Hg.
  unfold q_stand_pat. do 3 wp_step; [by wp_step|].
  apply q_captures_wp; [done..|]. rewrite order_captures_isort.
  by apply ordered_playable, captures_playable.
Qed.
End Body.

Lemma quiescence_wp (fuel : nat) (qply : Z) :
  qply <= MAX_QPLY -> MAX_QPLY - qply < Z.of_nat fuel -> q_spec qply (quiescence fuel).
Proof.
  revert qply. induction fuel as [|fuel IH]; intros qply Hq Hf alpha beta ply w Hply Hs; [lia|].
  pose proof (keeps_refl _ _ Hs) as Hk. cbn [quiescence]. unfold q_body. wp_step.
  apply (wp_benign _ w w); [auto with tables|done|]. intros w1 Hk1.
  assert (safe (room ply) w1) as Hs1 by (by eapply safe_keeps).
  do 3 wp_step; [by wp_steps|]. do 2 wp_step.
  destruct (stq_terminal_score _ ply); [by wp_steps|].
  do 2 (wp_step; [by wp_steps|]).
  destruct (heir_terminal_score _ ply); [by wp_steps|].
  destruct (succ_terminal_score _ ply); [by wp_steps|].
  assert (q_spec (qply + 1) (quiescence fuel)) as Hrec by (apply IH; lia).
  wp_step; apply (wp_keeps _ w w1 Hk1).
  - apply q_in_check_wp; [done|lia|done].
  - apply q_stand_pat_wp; [done|lia|done].
Qed.

Lemma quiescence_root : q_spec 0 (quiescence Q_FUEL).
Proof. apply quiescence_wp; unfold MAX_QPLY, Q_FUEL; lia. Qed.
End Clocked.
