(* ===== verification/AlphaSpec.v ===== *)
(** * Total correctness of alpha-beta

    [alpha_beta] and its parts satisfy the contract of [SearchSpec]; [ab_fuel]
    is the measure that decreases along its recursive calls. *)

From stdpp Require Import base numbers list option gmap.
From Stdlib Require Import ZArith Lia Bool Permutation.
From S2P Require Import Prelude Types Board Zobrist Attacks Make Movegen MovegenFacts MovegenSound Game SameGame Evaluate See SearchState SearchTables SearchMonad Ordering Search SearchSpec.

(** ** Extensions and reductions *)

Definition ext_ok (e : Z) : Prop := 0 <= e <= 2.

Lemma ext_0 : ext_ok 0.
Proof. by split. Qed.
Lemma ext_1 : ext_ok 1.
Proof. by split. Qed.
Lemma ext_2 : ext_ok 2.
Proof. by split. Qed.

Lemma ext_if (c : bool) (x y : Z) : ext_ok x -> ext_ok y -> ext_ok (if c then x else y).
Proof. by destruct c. Qed.

Lemma ext_max (x y : Z) : ext_ok x -> ext_ok y -> ext_ok (maxi x y).
Proof. unfold ext_ok, maxi. destruct (_ <? _); lia. Qed.

(** Forget the value of a local variable but for the property [P]. *)
Ltac abstract_let P tac :=
  match goal with
  | |- P (let x := ?v in @?f x) =>
      change (P (f v));
      first [ let H := fresh in assert (P v) as H by tac; revert H; generalize v; intros ? H; cbv beta
            | generalize v; intro; cbv beta ]
  end.

Lemma extension_bounds (n : Node) (b : Board) (m : Move) (i : MoveInfo) (gives_check : bool) :
  ext_ok (extension n b m i gives_check).
Proof.
  unfold extension.
  let leaf := (solve [auto 20 using ext_if, ext_max, ext_0, ext_1, ext_2 with nocore]) in
  repeat abstract_let ext_ok leaf; leaf.
Qed.

Lemma nonneg_if (c : bool) (x y : Z) : 0 <= x -> 0 <= y -> 0 <= (if c then x else y).
Proof. by destruct c. Qed.

Lemma clamp_nonneg (r : Z) : 0 <= (if r <? 0 then 0 else r).
Proof. destruct (Z.ltb_spec r 0); lia. Qed.

Lemma reduction_nonneg (n : Node) (b : Board) (m : Move) (i : MoveInfo) (ext moves_done : Z) :
  0 <= late_reduction n b m i ext moves_done.
Proof.
  unfold late_reduction. repeat abstract_let (Z.le 0) fail.
  apply nonneg_if; [|done].
  repeat abstract_let (Z.le 0) fail.
  apply clamp_nonneg.
Qed.

Section Clocked.
Context {C : Clock}.

(** ** Alpha-beta *)

(** The recursion is bounded: a child is one ply further and at most one deeper,
    internal deepening stays at the ply and goes two shallower. *)
Definition ab_fuel (depth ply : Z) : Z := 2 * (MAX_PLY - ply) + Z.max depth 0.

Definition ab_spec (fuel : Z) (rec : Rec) : Prop :=
  forall depth alpha beta ply do_null is_pv w,
  0 <= ply <= MAX_PLY -> depth <= MAX_PLY + ply -> ab_fuel depth ply < fuel ->
  safe (room ply) w -> wp (rec depth alpha beta ply do_null is_pv) (fun _ => keeps w) w.

Section Alpha.
Context (fuel : Z) (rec : Rec) (Hrec : ab_spec fuel rec).
Context (depth ply : Z) (Hply : 0 <= ply < MAX_PLY) (Hdepth : 0 < depth <= MAX_PLY + ply)
        (Hfuel : ab_fuel depth ply <= fuel).

Local Definition ab_room : 1 <= room ply.
Proof. unfold room, MAX_QPLY. lia. Qed.

Lemma child_wp (d alpha beta : Z) (do_null is_pv : bool) (w : World) :
  d <= depth + 1 -> safe (room (ply + 1)) w ->
  wp (rec d alpha beta (ply + 1) do_null is_pv) (fun _ => keeps w) w.
Proof. intros Hd Hs. apply Hrec; [lia|lia| |done]. unfold ab_fuel in *. lia. Qed.

Section Moves.
Context (n : Node) (Hn : n_depth n = depth) (Hnp : n_ply n = ply).

Lemma ab_child_wp (mover : Color) (d alpha beta : Z) (pv : bool) (w0 w : World) :
  d <= depth + 1 -> safe (room (ply + 1)) w0 -> keeps w0 w ->
  wp (ab_child rec n mover d alpha beta pv) (fun _ => keeps w0) w.
Proof.
  intros Hd Hs Hk. unfold ab_child. rewrite Hnp. apply child_score_wp. intros a be.
  apply (wp_keeps _ w0 w Hk), child_wp; [done|]. by eapply safe_keeps.
Qed.

Lemma search_move_wp (m : Move) (i : MoveInfo) (ext alpha moves_done : Z) (w : World) :
  ext_ok ext -> safe (room (ply + 1)) w ->
  wp (search_move rec n m i ext alpha moves_done) (fun _ => keeps w) w.
Proof.
  intros [_ He] Hs. pose proof (keeps_refl _ _ Hs) as Hk. unfold search_move. rewrite Hn.
  do 3 wp_step; [apply ab_child_wp; [lia|done|done]|].
  pose proof (reduction_nonneg n (w_board w) m i ext moves_done) as Hr.
  wp_step. eapply wp_mono; [apply (ab_child_wp _ _ _ _ _ w w); [lia|done|done]|].
  cbv beta. intros score w1 Hk1. wp_step.
  apply wp_mono with (P := fun _ => keeps w).
  { wp_step; [|by wp_step]. apply ab_child_wp; [lia|done|done]. }
  intros score' w2 Hk2. wp_step; [|by wp_step]. apply ab_child_wp; [lia|done|done].
Qed.

(** The opponent's last move has a place in the countermove table. *)
Lemma last_move (k : Z) (b : Board) (s : Search) :
  ready k b -> tables_ok s -> (0 <? b_ply b) = true ->
  countermoves_in s (color_opposite (b_side b)) (u_move (hist b (b_ply b - 1))) = true.
Proof.
  intros Hr Hs Hp. apply countermoves_inside; [done| |apply (rd_moves k b Hr); lia].
  pose proof (gi_side b (rd_game k b Hr)). destruct (b_side b); real.
Qed.

Lemma record_cutoff_wp (m : Move) (quiets : list Move) (w0 w : World) :
  safe (room ply) w0 -> keeps w0 w -> wp (record_cutoff n m quiets) (fun _ => keeps w0) w.
Proof.
  intros Hs Hk. pose proof (safe_keeps _ _ _ Hs Hk) as [Hr Ht].
  pose proof (gi_side _ (rd_game _ _ Hr)) as Hside.
  unfold record_cutoff. rewrite Hn, Hnp. do 5 wp_step. apply wp_inside.
  { destruct (_ <? _); [|done]. by apply killers_inside. }
  wp_step. apply wp_inside; [by apply forallb_forall; intros; apply history_inside|].
  unfold MAX_PLY in *.
  do 3 (wp_step; apply (wp_benign _ w0); [auto with tables lia|done|]; intros ? ?).
  wp_step; [|by wp_step]. apply andb_true_iff in Heqb as [Hp _].
  do 3 wp_step. apply wp_inside; [by eapply last_move, Hp; [|eapply kp_tables]|].
  apply (wp_benign _ w0); [auto with tables|done|done].
Qed.
Lemma lmp_wp (w : World) (P : World -> Prop) :
  P w -> wp (if n_depth n <=? 5 then array_get LMP_LIMIT (n_depth n) else mret 0) (fun _ => P) w.
Proof.
  intros HP. rewrite Hn. wp_step; [|by wp_step]. apply wp_array; [|done]. cbn. lia.
Qed.

Lemma ab_moves_wp (ms : MoveList) (alpha best_score : Z) (best_move : Move) (moves_done : Z)
    (quiets : list Move) (w0 w : World) :
  safe (room ply) w0 -> keeps w0 w -> Forall (playable (w_board w0)) ms ->
  wp (ab_moves rec n ms alpha best_score best_move moves_done quiets) (fun _ => keeps w0) w.
Proof.
  intros Hs Hk Hms. revert alpha best_score best_move moves_done quiets w Hk.
  induction Hms as [|m ms Hm Hms IH]; intros; cbn [ab_moves]; [by wp_step|].
  pose proof (safe_keeps _ _ _ Hs Hk) as Hs1.
  assert (playable (w_board w) m) as Hm1 by (eapply same_playable; [apply Hk|done]).
  pose proof (safe_made _ m w ab_room Hs1 Hm1) as Hs2.
  replace (room ply - 1) with (room (ply + 1)) in Hs2 by (unfold room; lia).
  pose proof (keeps_refl _ _ Hs2) as Hk2.
  assert (forall w2, keeps (made_world m w) w2 -> keeps w0 (unmade_world w2)) as Hback
    by (intros; by eapply (keeps_turn (room ply) m w0 w); auto using ab_room).
  do 7 wp_step. eapply wp_mono; [by apply (lmp_wp _ (eq (made_world m w)))|].
  intros lmp w' <-. cbv beta. wp_step.
  { do 2 wp_step. apply IH. by apply Hback. }
  wp_step. eapply wp_mono; [by apply search_move_wp, Hs2; apply extension_bounds|].
  intros score w2 Hk3%Hback. do 5 wp_step; [by wp_step|].
  wp_step; [|by apply IH]. wp_step.
  apply wp_mono with (P := fun _ => keeps w0).
  { wp_step; [|by wp_step]. by apply record_cutoff_wp. }
  intros _ w3 Hk4. by wp_step.
Qed.
End Moves.
Lemma safe_passed (w : World) :
  safe (room ply) w -> safe (room (ply + 1)) (mkWorld (pass_turn (w_board w)) (w_search w)).
Proof.
  intros [Hr Ht]. constructor; [|done]. apply ready_pass. eapply ready_mono; [|exact Hr].
  unfold room. lia.
Qed.

Lemma null_move_wp (beta : Z) (w0 w : World) :
  safe (room ply) w0 -> keeps w0 w -> wp (null_move rec depth beta ply) (fun _ => keeps w0) w.
Proof.
  intros Hs Hk. pose proof (safe_keeps _ _ _ Hs Hk) as Hs1. unfold null_move.
  do 3 wp_step; [|by wp_step]. do 4 wp_step. set (w1 := mkWorld _ _).
  assert (0 <= depth ÷ 4) by (apply Z.quot_pos; lia).
  eapply wp_mono; [apply child_wp; [lia|by apply safe_passed]|].
  intros x w2 [Hs2 Ht2 Hr2]. do 2 wp_step. set (w3 := mkWorld _ _).
  assert (keeps w0 w3) as Hk3.
  { apply (keeps_trans w0 w w3 Hk). constructor; [|done|done]. by apply same_unpass. }
  by wp_steps.
Qed.

Lemma slot_inside (s : Search) (key : Z) : tables_ok s -> slot_in (s_tt s) key = true.
Proof.
  intros [[es Ht] Hm Hc]. unfold slot_in. rewrite Ht, Hc. unfold tt_index.
  pose proof (land_mask_bounds key _ Hm). lia.
Qed.

Lemma probe_wp (key : Z) (w : World) (Q : option TTEntry -> World -> Prop) :
  tables_ok (w_search w) -> Q (tt_probe (s_tt (w_search w)) key) w -> wp (probe key) Q w.
Proof.
  intros Ht HQ. unfold probe. do 3 wp_step. apply wp_inside; [by apply slot_inside|by wp_step].
Qed.

Lemma store_wp (key depth' score : Z) (flag : TTFlag) (best : Move) (w0 w : World)
    (Q : unit -> World -> Prop) :
  keeps w0 w -> (forall w', keeps w0 w' -> Q tt w') -> wp (store key depth' score flag best) Q w.
Proof.
  intros Hk HQ. unfold store. do 3 wp_step. apply wp_inside; [apply slot_inside, Hk|].
  apply (wp_benign _ w0); [auto with tables|done|done].
Qed.

Lemma read_countermove_wp (k : Z) (b : Board) (w0 w : World) :
  ready k b -> keeps w0 w -> wp (read_countermove b) (fun _ => keeps w0) w.
Proof.
  intros Hr Hk. unfold read_countermove. wp_step; [|by wp_step].
  apply andb_true_iff in Heqb0 as [Hp _]. do 3 wp_step.
  apply wp_inside; [by eapply last_move; [|apply Hk|]|]. by wp_steps.
Qed.

Lemma iid_wp (hash alpha beta : Z) (is_pv in_check : bool) (tt_move : Move) (w0 w : World) :
  safe (room ply) w0 -> keeps w0 w ->
  wp (iid rec hash depth alpha beta ply is_pv in_check tt_move) (fun _ => keeps w0) w.
Proof.
  intros Hs Hk. unfold iid. wp_step; [|by wp_step]. wp_step.
  rewrite !andb_true_iff, Z.leb_le in Heqb. destruct Heqb as [[[_ Hd] _] _].
  eapply wp_mono.
  { apply (wp_keeps _ w0 w Hk), Hrec; [lia|lia| |by eapply safe_keeps].
    unfold ab_fuel in *. lia. }
  intros ? w1 Hk1. wp_step. apply probe_wp; [apply Hk1|]. by wp_step.
Qed.

Lemma ab_search_wp (alpha beta : Z) (is_pv in_check improving : bool) (static_eval : Z)
    (tt_move : Move) (w0 w : World) :
  safe (room ply) w0 -> keeps w0 w ->
  wp (ab_search rec depth alpha beta ply is_pv in_check improving static_eval tt_move)
    (fun _ => keeps w0) w.
Proof.
  intros Hs Hk. pose proof (safe_keeps _ _ _ Hs Hk) as Hs1. pose proof (sf_board _ _ Hs1) as Hr.
  pose proof (ready_history _ _ ab_room Hr) as Hh. pose proof (rd_game _ _ Hr) as Hg.
  unfold ab_search. do 2 wp_step. pose proof (generate_playable _ Hg Hh) as Hms.
  destruct (generate_moves (w_board w)) as [|m ms]; [by wp_step|].
  wp_step. eapply wp_mono; [by apply (read_countermove_wp (room ply) _ w w), (keeps_refl (room ply))|].
  intros cm w1 Hk1. wp_step. eapply wp_mono; [by apply iid_wp with (w0 := w)|].
  intros tm w2 Hk2. wp_step. apply sort_moves_wp; [apply Hk2|done|lia|]. intros ml' Hperm. wp_step.
  eapply wp_mono; [apply ab_moves_wp with (w0 := w); try done; by rewrite <- Hperm|].
  intros r w3 Hk3. pose proof (keeps_trans _ _ _ Hk Hk3) as Hk0.
  destruct r as [[best_score best_move]|]; [|by wp_step]. wp_step.
  apply (store_wp _ _ _ _ _ w0); [done|]. intros w4 Hk4. by wp_step.
Qed.

Lemma razoring_wp (b : Board) (alpha beta : Z) (is_pv in_check : bool) (static_eval : Z)
    (w0 w : World) :
  safe (room ply) w0 -> keeps w0 w ->
  wp (razoring b depth alpha beta ply is_pv in_check static_eval) (fun _ => keeps w0) w.
Proof.
  intros Hs Hk. unfold razoring. wp_step; [|by wp_step]. wp_step. eapply wp_mono.
  { apply (wp_keeps _ w0 w Hk), quiescence_root; [lia|by eapply safe_keeps]. }
  intros x w1 Hk1. by wp_step.
Qed.

Lemma push_eval_wp (static_eval : Z) (in_check : bool) (w0 w : World) :
  keeps w0 w -> wp (push_eval ply static_eval in_check) (fun _ => keeps w0) w.
Proof.
  intros Hk. assert (forall w', keeps w0 w' -> Z.of_nat (length (s_eval_stack (w_search w'))) = 72) as Hl.
  { intros w' [_ [] _]. lia. }
  unfold MAX_PLY in *. unfold push_eval. do 3 wp_step. apply wp_bounds; [rewrite Hl by done; lia|].
  wp_step. apply (wp_benign _ w0); [auto with tables|done|]. intros w1 Hk1. do 3 wp_step; [|by wp_step].
  apply andb_true_iff in Heqb as [_ H2].
  wp_step. apply wp_array; [rewrite Hl by done; lia|].
  wp_step. apply wp_array; [rewrite Hl by done; lia|]. by wp_step.
Qed.

Lemma ab_node_wp (alpha beta : Z) (do_null is_pv : bool) (w : World) :
  safe (room ply) w -> wp (ab_node rec depth alpha beta ply do_null is_pv) (fun _ => keeps w) w.
Proof.
  intros Hs. pose proof (keeps_refl _ _ Hs) as Hk. unfold ab_node. do 3 wp_step.
  apply probe_wp; [apply Hs|]. do 2 wp_step.
  match goal with |- wp (match ?e with Some _ => _ | None => _ end) _ _ => destruct e end; [by wp_step|].
  wp_step. eapply wp_mono; [by apply push_eval_wp|]. intros improving w1 Hk1. wp_step.
  eapply wp_mono; [by apply razoring_wp|]. intros [score|] w2 Hk2; [by wp_step|].
  wp_step; [by wp_step|]. wp_step. apply wp_mono with (P := fun _ => keeps w).
  { wp_step; [|by wp_step]. by apply null_move_wp. }
  intros [score|] w3 Hk3; [by wp_step|]. by apply ab_search_wp.
Qed.
End Alpha.

Lemma ab_body_wp (fuel : Z) (rec : Rec) : ab_spec fuel rec -> ab_spec (fuel + 1) (ab_body rec).
Proof.
  intros Hrec depth alpha beta ply do_null is_pv w Hply Hdepth Hfuel Hs.
  pose proof (keeps_refl _ _ Hs) as Hk. unfold ab_body. wp_step.
  apply (wp_benign _ w w); [auto with tables|done|]. intros w1 Hk1.
  do 3 wp_step; [by wp_step|]. wp_step.
  apply (wp_benign _ w w1); [auto with tables|done|]. intros w2 Hk2.
  do 3 wp_step; [by wp_step|].
  destruct (stq_terminal_score _ ply); [by wp_step|].
  pose proof (safe_keeps _ _ _ Hs Hk2) as Hs2.
  wp_step; [by wp_step|]. wp_step; [apply (wp_keeps _ w w2 Hk2), quiescence_root; [lia|done]|].
  destruct (heir_terminal_score _ ply); [by wp_step|].
  destruct (succ_terminal_score _ ply); [by wp_step|].
  match goal with |- wp (if ?c then _ else _) _ _ => destruct c end; [by wp_step|].
  apply (wp_keeps _ w w2 Hk2). apply ab_node_wp with (fuel := fuel); [done|lia|lia|lia|done].
Qed.

Lemma alpha_beta_wp (fuel : nat) : ab_spec (Z.of_nat fuel) (alpha_beta fuel).
Proof.
  induction fuel as [|fuel IH].
  - intros depth alpha beta ply do_null is_pv w Hply _ Hf. unfold ab_fuel in Hf. lia.
  - rewrite Nat2Z.inj_succ, <- Z.add_1_r. exact (ab_body_wp _ _ IH).
Qed.
End Clocked.
