(* ===== verification/RootSpec.v ===== *)
(** * Total correctness of iterative deepening and of the choice of a move

    [search_think] ends, restores the board and reports a move of the last
    completed iteration whose score is within the margin of the skill level,
    or no move when no iteration was completed. *)

From stdpp Require Import base numbers list option gmap.
From Stdlib Require Import ZArith Lia Bool Permutation.
From S2P Require Import Prelude Types Board Zobrist Attacks Make Movegen MovegenFacts MovegenSound Game SameGame Evaluate HeurCommon HeurKingsBattle See SearchState SearchTables SearchMonad Ordering Search SearchSpec AlphaSpec.

(** ** The best of a list of moves and scores *)

(** [best] and its [score] come from the list and nothing scores higher; or
    nothing scores above the start value. *)
Definition best_in (l : list (Move * Z)) (best : Move) (score : Z) : Prop :=
  Forall (fun x => x.2 <= score) l /\ (In (best, score) l \/ best = MOVE_NONE /\ score = - INFINITY_SCORE).

Lemma best_step (l : list (Move * Z)) (best m : Move) (score x : Z) :
  best_in l best score ->
  best_in (l ++ [(m, x)]) (if score <? x then m else best) (if score <? x then x else score).
Proof.
  intros [Hall Hbest]. destruct (Z.ltb_spec score x).
  - split; [|left; apply in_app_iff; right; by left].
    apply Forall_app. split; [|by repeat constructor].
    eapply Forall_impl; [exact Hall|]. cbn. lia.
  - split; [apply Forall_app; split; [done|by repeat constructor]|].
    destruct Hbest as [Hin|Hn]; [left; apply in_app_iff; by left|by right].
Qed.

(** ** Random numbers *)

Lemma rng_range_bounds (max rng : Z) : 0 < max -> 0 <= (rng_range max rng).1 < max.
Proof.
  intros Hm. unfold rng_range. destruct (Z.leb_spec max 1); cbn [fst]; [lia|].
  by apply Z.mod_pos_bound.
Qed.

(** ** The choice *)

Lemma pick_weighted_in (w : Move * Z -> Z) (l : list (Move * Z)) (pick cum : Z) (m : Move) :
  pick_weighted w l pick cum = Some m -> exists x, In x l /\ x.1 = m.
Proof.
  revert cum. induction l as [|x l IH]; intros cum; cbn [pick_weighted]; [done|].
  destruct (_ <? _); [intros [= <-]; exists x; split; [by left|done]|].
  intros (y & Hy & <-)%IH. exists y. split; [by right|done].
Qed.

Lemma near_best_in (best margin : Z) (l : list (Move * Z)) (x : Move * Z) :
  In x (near_best best margin l) <-> In x l /\ best - x.2 <= margin.
Proof. unfold near_best. by rewrite filter_In, Z.leb_le. Qed.

Lemma best_of_ge (l : list (Move * Z)) (x : Move * Z) : In x l -> x.2 <= best_of l.
Proof.
  unfold best_of. generalize (- INFINITY_SCORE). revert x.
  assert (forall l a, a <= fold_left (fun best (x : Move * Z) => if best <? x.2 then x.2 else best) l a)
    as Hmono.
  { clear l. induction l as [|y l IH]; intros a; cbn [fold_left]; [lia|].
    etransitivity; [|apply IH]. destruct (Z.ltb_spec a y.2); lia. }
  induction l as [|y l IH]; intros x a Hin; [done|].
  cbn [fold_left]. destruct Hin as [->|Hin]; [|by apply IH].
  etransitivity; [|apply Hmono]. destruct (Z.ltb_spec a x.2); lia.
Qed.

(** The best of the candidates is the best of all. *)
Lemma best_of_near (l : list (Move * Z)) (margin : Z) (x y : Move * Z) :
  In x (near_best (best_of l) margin l) -> In y l -> 0 <= margin ->
  y.2 <= best_of (near_best (best_of l) margin l).
Proof.
  intros Hx Hy Hm. destruct (Z.le_gt_cases (best_of l - y.2) margin) as [Hle|Hgt].
  - by apply best_of_ge, near_best_in.
  - pose proof (best_of_ge _ x Hx). apply near_best_in in Hx as [_ Hx]. lia.
Qed.

Lemma select_move_cases (b : Board) (skill score : Z) (best : Move) (l : list (Move * Z)) (rng : Z) :
  (select_move b skill score best l rng).1 = best \/
  exists x, In x l /\ x.1 = (select_move b skill score best l rng).1 /\
    best_of l - x.2 <= skill_margin b skill /\
    (3 <= skill -> best_of (near_best (best_of l) (skill_margin b skill) l) - x.2 <= top_band b skill).
Proof.
  unfold select_move. destruct (_ && _); [|by left]. destruct (0 <? _); [|by left].
  set (cands := near_best _ _ l). destruct (1 <? _); [|by left]. destruct (Z.leb_spec 3 skill).
  - set (top := near_best (best_of cands) _ cands). destruct (Z.ltb_spec 0 (Z.of_nat (length top))) as [Ht|]; [|by left].
    pose proof (rng_range_bounds (Z.of_nat (length top)) rng Ht) as Hk.
    destruct (rng_range _ rng) as [k rng']. cbn [fst] in *. right.
    assert (in_range (map fst top) k) as Hr by (unfold in_range; rewrite length_map; lia).
    pose proof (znth_lookup _ _ Hr) as Hl. apply list_elem_of_lookup_2, list_elem_of_In in Hl.
    apply in_map_iff in Hl as (x & E & Hx). exists x.
    apply near_best_in in Hx as [Hx Hb]. apply near_best_in in Hx as [Hx Hm]. by split_and!.
  - set (w := weight _ _). destruct (rng_range _ rng) as [pick rng']. cbn [fst].
    destruct (pick_weighted w cands pick 0) as [m|] eqn:E; [|by left]. right. cbn [default].
    apply pick_weighted_in in E as (x & Hx & <-). exists x.
    apply near_best_in in Hx as [Hx Hm]. split_and!; [done..|lia].
Qed.

Lemma skill_margin_nonneg (b : Board) (skill : Z) : 0 <= skill <= 4 -> 0 <= skill_margin b skill.
Proof.
  intros Hs. unfold skill_margin, maxi.
  assert (0 <= SKILL_MARGIN.[skill]) as Hm.
  { assert (skill = 0 \/ skill = 1 \/ skill = 2 \/ skill = 3 \/ skill = 4) as H by lia.
    destruct H as [->|[->|[->|[->| ->]]]]; by vm_compute. }
  revert Hm. generalize (SKILL_MARGIN.[skill]). intros x Hx. cbv zeta.
  set (y := if _ && _ then _ else x).
  assert (0 <= y) as Hy by (unfold y; destruct (_ && _); [destruct (Z.ltb_spec 10 x); lia|done]).
  destruct (skill =? 4); [|done]. destruct (Z.ltb_spec (search_kb_full_skill_variety_margin b) y); lia.
Qed.

(** A recorded move that scores at most [d] below every recorded move. *)
Definition scores_within (d : Z) (l : list (Move * Z)) (m : Move) : Prop :=
  exists x, In (m, x) l /\ Forall (fun y => y.2 - x <= d) l.

Lemma scores_within_mono (d d' : Z) (l : list (Move * Z)) (m : Move) :
  d <= d' -> scores_within d l m -> scores_within d' l m.
Proof.
  intros Hd (x & Hin & Hl). exists x. split; [done|]. eapply Forall_impl; [exact Hl|]. cbn. lia.
Qed.

Lemma best_within (best : Move) (score : Z) (l : list (Move * Z)) :
  In (best, score) l -> Forall (fun y => y.2 <= score) l -> scores_within 0 l best.
Proof. intros Hin Hl. exists score. split; [done|]. eapply Forall_impl; [exact Hl|]. cbn. lia. Qed.

Lemma select_move_margin (b : Board) (skill score : Z) (best : Move) (l : list (Move * Z)) (rng : Z) :
  0 <= skill <= 4 -> In (best, score) l -> Forall (fun y => y.2 <= score) l ->
  scores_within (skill_margin b skill) l (select_move b skill score best l rng).1.
Proof.
  intros Hs Hin Hl. pose proof (skill_margin_nonneg b skill Hs) as Hm.
  destruct (select_move_cases b skill score best l rng) as [->|([m x] & Hx & E & Hd & _)].
  - by eapply scores_within_mono, best_within.
  - cbn [fst snd] in *. rewrite <- E. exists x. split; [done|]. apply List.Forall_forall.
    intros y Hy. pose proof (best_of_ge l y Hy). lia.
Qed.

Lemma top_band_ge (b : Board) (skill : Z) : 3 <= top_band b skill.
Proof. unfold top_band, maxi. destruct (skill =? 4); [destruct (Z.ltb_spec (search_kb_full_skill_tiebreak_band b) 3); lia|done]. Qed.

Lemma select_move_band (b : Board) (skill score : Z) (best : Move) (l : list (Move * Z)) (rng : Z) :
  3 <= skill <= 4 -> In (best, score) l -> Forall (fun y => y.2 <= score) l ->
  scores_within (top_band b skill) l (select_move b skill score best l rng).1.
Proof.
  intros Hs Hin Hl. pose proof (top_band_ge b skill) as Hb.
  pose proof (skill_margin_nonneg b skill ltac:(lia)) as Hm.
  destruct (select_move_cases b skill score best l rng) as [->|([m x] & Hx & E & Hd & Ht)].
  - eapply scores_within_mono; [|by eapply best_within]. lia.
  - cbn [fst snd] in *. rewrite <- E. exists x. split; [done|]. apply List.Forall_forall.
    intros y Hy. specialize (Ht ltac:(lia)).
    pose proof (best_of_near l (skill_margin b skill) (m, x) y
      (proj2 (near_best_in _ _ _ _) (conj Hx Hd)) Hy Hm). lia.
Qed.

(** The margin of full skill is zero outside King's Battle. *)
Lemma select_move_full (b : Board) (score : Z) (best : Move) (l : list (Move * Z)) (rng : Z) :
  b_mod b <> MOD_KINGS_BATTLE -> select_move b 4 score best l rng = (best, rng).
Proof.
  intros Hm. unfold select_move. destruct (_ && _); [|done].
  assert (skill_margin b 4 = 0) as ->; [|done].
  unfold skill_margin. rewrite andb_false_r. cbv zeta.
  change (4 =? 4) with true. cbv iota. unfold search_kb_full_skill_variety_margin,
    search_kb_full_skill_variety_enabled. by rewrite (bool_decide_eq_false_2 (b_mod b = MOD_KINGS_BATTLE)).
Qed.

(** With no move above minus infinity there is nothing to choose from. *)
Lemma select_move_none (b : Board) (skill score : Z) (l : list (Move * Z)) (rng : Z) (best : Move) :
  (length l <= 1)%nat -> (select_move b skill score best l rng).1 = best.
Proof.
  intros Hl. unfold select_move. destruct (Z.ltb_spec 1 (Z.of_nat (length l))); [lia|done].
Qed.

Section Clocked.
Context {C : Clock}.

(** ** One iteration *)

Section Root.
Context (depth : Z) (Hdepth : 1 <= depth <= MAX_PLY) (w0 : World) (Hs : safe (room 0) w0).

Local Definition root_room : 1 <= room 0.
Proof. unfold room, MAX_PLY, MAX_QPLY. lia. Qed.

Lemma root_call_wp (mover : Color) (ext al be : Z) (w1 w : World) :
  0 <= ext <= 1 -> safe (room 1) w1 -> keeps w1 w ->
  wp (child_score mover (fun a be => alpha_beta AB_FUEL (depth - 1 + ext) a be 1 true true) al be)
    (fun _ => keeps w1) w.
Proof.
  intros He Hs1 Hk. apply child_score_wp. intros a be'. apply (wp_keeps _ w1 w Hk).
  unfold MAX_PLY in *.
  apply alpha_beta_wp; [unfold MAX_PLY; lia|unfold MAX_PLY; lia| |by eapply safe_keeps].
  unfold ab_fuel, MAX_PLY. change (Z.of_nat AB_FUEL) with 200. lia.
Qed.

Lemma root_move_wp (al be : Z) (root_in_check : bool) (m : Move) (w : World) :
  keeps w0 w -> playable (w_board w0) m ->
  wp (root_move depth al be root_in_check m) (fun _ => keeps w0) w.
Proof.
  intros Hk Hm. pose proof (safe_keeps _ _ _ Hs Hk) as Hs1.
  assert (playable (w_board w) m) as Hm1 by (eapply same_playable; [apply Hk|done]).
  pose proof (safe_made _ m w root_room Hs1 Hm1) as Hs2.
  replace (room 0 - 1) with (room 1) in Hs2 by (unfold room; lia).
  pose proof (keeps_refl _ _ Hs2) as Hk2.
  unfold root_move. do 7 wp_step. set (ext := if _ || _ then 1 else 0).
  assert (0 <= ext <= 1) as He by (unfold ext; destruct (_ || _); lia).
  eapply wp_mono; [by apply (root_call_wp _ _ _ _ (made_world m w))|].
  intros score w1 Hk3. wp_step. apply wp_mono with (P := fun _ => keeps (made_world m w)).
  { wp_step; [|by wp_step]. by apply root_call_wp. }
  intros score' w2 Hk4. do 3 wp_step.
  apply (keeps_turn (room 0) m w0 w w2); auto using root_room.
Qed.

(** What an iteration reports when it is not stopped. *)
Definition iteration_ok (ms : MoveList) (best_rs : Z) (best_rm : Move) (scores : list Z) : Prop :=
  length scores = length ms /\ best_in (zip ms scores) best_rm best_rs.

Lemma root_moves_wp (al be : Z) (root_in_check : bool) (done ms : MoveList) (best_rs : Z)
    (best_rm : Move) (scores : list Z) (w : World) :
  keeps w0 w -> Forall (playable (w_board w0)) ms -> iteration_ok done best_rs best_rm scores ->
  wp (root_moves depth al be root_in_check ms best_rs best_rm scores)
    (fun r w' => keeps w0 w' /\ match r with
       | None => True
       | Some (rs, rm, sc) => iteration_ok (done ++ ms) rs rm sc
       end) w.
Proof.
  intros Hk Hms. revert done best_rs best_rm scores w Hk.
  induction Hms as [|m ms Hm Hms IH]; intros done best_rs best_rm scores w Hk Hok; cbn [root_moves].
  { wp_step. by rewrite app_nil_r. }
  wp_step. eapply wp_mono; [by apply root_move_wp|]. intros score w1 Hk1.
  do 3 wp_step; [by wp_step|]. rewrite (cons_middle m done ms), app_assoc. apply IH; [done|].
  destruct Hok as [Hl Hb]. split; [rewrite !length_app, Hl; done|].
  rewrite zip_with_app by done. by apply best_step.
Qed.

(** ** Widening the window

    A failure doubles the window, or opens the side that failed once the window
    is wider than 500. *)

Definition closed_sides (al be : Z) : Z :=
  (if - INFINITY_SCORE <? al then 1 else 0) + (if be <? INFINITY_SCORE then 1 else 0).

Definition asp_room (fuel : nat) (asp al be : Z) : Prop :=
  exists d : Z, 0 <= d /\ 500 < asp * 2 ^ (d + 1) /\ d + closed_sides al be < Z.of_nat fuel.

Lemma asp_room_step (fuel : nat) (asp al be al' be' : Z) :
  0 < asp -> asp_room (S fuel) asp al be ->
  closed_sides al' be' <= closed_sides al be ->
  (500 < asp * 2 -> closed_sides al' be' < closed_sides al be) ->
  asp_room fuel (asp * 2) al' be'.
Proof.
  intros Hp (d & Hd & Hasp & Hf) Hle Hlt. rewrite Nat2Z.inj_succ in Hf.
  destruct (Z.le_gt_cases (asp * 2) 500) as [Hs'|Hs'].
  - assert (1 <= d). { destruct (Z.eq_dec d 0) as [->|]; lia. }
    exists (d - 1). replace (d - 1 + 1) with d by lia. split_and!; [lia| |lia].
    rewrite Z.pow_add_r in Hasp by lia. lia.
  - exists d. split_and!; [done| |lia]. lia.
Qed.

Definition aspiration_ok (ml : MoveList) (r : option (MoveList * Z * Move * list Z)) : Prop :=
  match r with
  | None => True
  | Some (ml', rs, rm, sc) => Permutation ml ml' /\ iteration_ok ml' rs rm sc
  end.

Lemma aspiration_wp (fuel : nat) (prev_best : Move) (ml : MoveList) (asp al be : Z) (w : World) :
  keeps w0 w -> Forall (playable (w_board w0)) ml -> 0 < asp -> asp_room fuel asp al be ->
  wp (aspiration fuel depth prev_best ml asp al be)
    (fun r w' => keeps w0 w' /\ aspiration_ok ml r) w.
Proof.
  revert ml asp al be w. induction fuel as [|fuel IH]; intros ml asp al be w Hk Hml Hp Hf.
  { destruct Hf as (d & ? & _ & Hf). unfold closed_sides in Hf. repeat case_match; lia. }
  cbn [aspiration]. do 3 wp_step. apply sort_moves_wp; [apply Hk| |done|].
  { eapply Forall_impl; [exact Hml|]. intros x. apply same_playable, Hk. }
  intros ml' Hperm. wp_step.
  assert (Forall (playable (w_board w0)) ml') as Hml' by (by rewrite <- Hperm).
  eapply wp_mono; [apply (root_moves_wp _ _ _ []); [done|done|]|].
  { split; [done|]. split; [done|by right]. }
  cbn [app]. intros [[[rs rm] sc]|] w1 [Hk1 Hit]; [|by wp_step].
  assert (forall al' be', asp_room fuel (asp * 2) al' be' ->
    wp (aspiration fuel depth prev_best ml' (asp * 2) al' be')
      (fun r w' => keeps w0 w' /\ aspiration_ok ml r) w1) as Hnext.
  { intros al' be' Hr. eapply wp_mono; [apply IH; [done|done|lia|done]|].
    intros [[[[ml'' rs'] rm'] sc']|] w2 [Hk2 H]; split; try done.
    destruct H as [H1 H2]. split; [by rewrite Hperm|done]. }
  wp_step; [|wp_step; [|by wp_step]].
  - apply andb_true_iff in Heqb as [_ E]. apply Hnext, (asp_room_step fuel asp al be); [done|done|..];
      unfold closed_sides; rewrite E; repeat case_match; lia.
  - apply andb_true_iff in Heqb0 as [_ E]. apply Hnext, (asp_room_step fuel asp al be); [done|done|..];
      unfold closed_sides; rewrite E; repeat case_match; lia.
Qed.
End Root.
(** ** Deepening *)

(** What a result says of the position: no iteration was completed, or the
    recorded moves are all legal moves, the best of them with its score. *)
Definition report (b : Board) (l : list (Move * Z)) (r : SearchResult) : Prop :=
  l = [] /\ r_best_move r = MOVE_NONE \/
  Permutation (generate_moves b) (map fst l) /\ best_in l (r_best_move r) (r_score r).

Lemma length_overwrite (a l : list Z) : (length l <= length a)%nat -> length (overwrite a l) = length a.
Proof. intros. unfold overwrite. rewrite length_app, length_drop. lia. Qed.

Lemma take_overwrite (a l : list Z) : take (length l) (overwrite a l) = l.
Proof. unfold overwrite. apply take_app_length. Qed.

Lemma map_fst_zip {A B} (l : list A) (k : list B) : length k = length l -> map fst (zip l k) = l.
Proof.
  revert k. induction l as [|x l IH]; intros [|y k] H; try done. cbn. f_equal. apply IH. by injection H.
Qed.

Lemma commit_wp (ml : MoveList) (scores : list Z) (w : World) (Q : unit -> World -> Prop) :
  tables_ok (w_search w) -> (length ml <= 256)%nat -> length scores = length ml ->
  (forall s', tables_ok s' -> root_list s' = zip ml scores ->
     s_skill_level s' = s_skill_level (w_search w) -> Q () (mkWorld (w_board w) s')) ->
  wp (commit ml scores) Q w.
Proof.
  intros [] Hl Hsc HQ. unfold commit. do 3 wp_step. apply wp_bounds; [lia|].
  wp_step. apply wp_bounds; [lia|]. apply wp_on_search, HQ; [|unfold root_list; cbn|done].
  - constructor; try done; cbn; rewrite length_overwrite; lia.
  - rewrite Nat2Z.id, take_overwrite. by rewrite <- Hsc, take_overwrite.
Qed.

Lemma generate_length (b : Board) :
  game_inv b -> history_ok b -> (length (generate_moves b) <= 256)%nat.
Proof.
  intros Hg Hh. rewrite generate_filter by done. pose proof (pseudo_moves_length b).
  pose proof (List.filter_length_le (legal b) (pseudo_moves b)). lia.
Qed.

(** The world between two iterations. *)
Record between (w0 w : World) (r : SearchResult) : Prop := {
  bt_board : same_game (w_board w0) (w_board w);
  bt_tables : tables_ok (w_search w);
  bt_skill : s_skill_level (w_search w) = s_skill_level (w_search w0);
  bt_report : report (w_board w0) (root_list (w_search w)) r
}.

Lemma root_list_roots (s s' : Search) : roots s' = roots s -> root_list s' = root_list s.
Proof. unfold roots, root_list. intros [= -> -> -> _]. done. Qed.

Lemma between_keeps (w0 w w' : World) (r : SearchResult) :
  between w0 w r -> keeps w w' -> between w0 w' r.
Proof.
  intros [Hs Ht Hl Hr] [Hs' Ht' Hroots]. constructor; [by transitivity (w_board w)|done| |].
  - injection Hroots. congruence.
  - by rewrite (root_list_roots _ _ Hroots).
Qed.

Lemma first_window (result : SearchResult) (depth : Z) :
  let narrow := (4 <=? depth) && negb (is_mate (r_score result)) in
  asp_room ASP_FUEL 25 (if narrow then r_score result - 25 else - INFINITY_SCORE)
    (if narrow then r_score result + 25 else INFINITY_SCORE).
Proof.
  exists 4. split_and!; [lia|done|]. unfold closed_sides, ASP_FUEL. repeat case_match; lia.
Qed.

Lemma deepen_wp (ds : list Z) (result : SearchResult) (w0 w : World) :
  Forall (fun d => 1 <= d <= MAX_PLY) ds -> safe (room 0) w0 -> between w0 w result ->
  wp (deepen ds result) (fun r w' => between w0 w' r) w.
Proof.
  intros Hds Hs0. revert result w. induction Hds as [|depth ds Hd Hds IH]; intros result w Hb; cbn [deepen].
  { by wp_step. }
  pose proof (rd_game _ _ (sf_board _ _ Hs0)) as Hg.
  pose proof (ready_history _ _ root_room (sf_board _ _ Hs0)) as Hh.
  assert (safe (room 0) w) as Hs.
  { destruct Hb as [Hsame Ht _ _]. constructor; [by eapply ready_same, Hs0|done]. }
  pose proof (keeps_refl _ _ Hs) as Hk.
  do 2 wp_step. rewrite (same_generate _ _ Hg Hh (bt_board _ _ _ Hb)).
  pose proof (generate_playable _ Hg Hh) as Hms. pose proof (generate_length _ Hg Hh) as Hlen.
  pose proof (bt_report _ _ _ Hb) as Hrep. unfold report in Hrep.
  destruct (generate_moves (w_board w0)) as [|m ms] eqn:Egen; [by wp_step|].
  wp_step. eapply wp_mono.
  { apply (aspiration_wp depth Hd w Hs); [done| |lia|apply first_window].
    eapply Forall_impl; [exact Hms|]. intros x. apply same_playable, Hb. }
  intros [[[[ml rs] rm] sc]|] w1 [Hk1 Hasp]; [|wp_step; by eapply between_keeps].
  pose proof (between_keeps _ _ _ _ Hb Hk1) as Hb1. destruct Hasp as [Hperm [Hsc Hbest]].
  wp_step. apply commit_wp; [apply Hk1|by rewrite <- Hperm|done|].
  intros s' Hs' Hroots Hskill. do 2 wp_step.
  assert (between w0 (mkWorld (w_board w1) s') (mkResult rm rs depth (s_nodes s'))) as Hb2.
  { constructor; [apply Hb1|done|cbn [w_search]; rewrite Hskill; apply Hb1|].
    right. cbn [w_search]. rewrite Hroots, map_fst_zip, Egen by done. by split. }
  wp_step; [by wp_step|]. by apply IH.
Qed.
(** ** The whole search *)

(** A table is either not there yet or as [tt_alloc] makes it. *)
Definition tt_ok (tt : TTable) : Prop :=
  tt_entries tt = None \/ 0 <= tt_mask tt /\ tt_count tt = tt_mask tt + 1.

Definition clamp_skill (skill_level : Z) : Z :=
  if skill_level <? 0 then 0 else if 4 <? skill_level then 4 else skill_level.

Lemma clamp_skill_bounds (x : Z) : 0 <= clamp_skill x <= 4.
Proof. unfold clamp_skill. destruct (Z.ltb_spec x 0), (Z.ltb_spec 4 x); lia. Qed.

Lemma znth_replicate {A} `{Inhabited A} (n : nat) (x : A) (i : Z) (P : A -> Prop) :
  P inhabitant -> P x -> P ((replicate n x).[i]).
Proof.
  intros H0 Hx. unfold znth. destruct (i <? 0); [done|]. rewrite list_lookup_total_alt.
  destruct (replicate n x !! Z.to_nat i) as [y|] eqn:E; [|done].
  by apply lookup_replicate in E as [-> _].
Qed.

Lemma history_zeros (s : Search) : s_history s = zeros3 2 64 64 -> history_bounded s.
Proof.
  intros E c f t. rewrite E. unfold zeros3, zeros2.
  apply (znth_replicate 2 _ c (fun h => - HISTORY_MAX <= h.[f].[t] <= HISTORY_MAX)); [by destruct f, t|].
  apply (znth_replicate 64 _ f (fun h => - HISTORY_MAX <= h.[t] <= HISTORY_MAX)); [by destruct t|].
  by apply (znth_replicate 64 _ t (fun h => - HISTORY_MAX <= h <= HISTORY_MAX)).
Qed.

(** The world [search_think] deepens in. *)
Record prepared (time_ms skill_level : Z) (w w' : World) : Prop := {
  pr_board : w_board w' = w_board w;
  pr_tables : tables_ok (w_search w');
  pr_roots : root_list (w_search w') = [];
  pr_skill : s_skill_level (w_search w') = clamp_skill skill_level;
  pr_nodes : s_nodes (w_search w') = 0;
  pr_running : s_stopped (w_search w') = false;
  pr_deadline : s_deadline_ms (w_search w') = time_ms_now (clock_reads (w_search w)) + time_ms;
  pr_clock : clock_reads (w_search w') = clock_reads (w_search w) + 2
}.

Lemma think_setup_wp (time_ms skill_level : Z) (w : World) :
  tt_ok (s_tt (w_search w)) ->
  wp (think_setup time_ms skill_level) (fun _ => prepared time_ms skill_level w) w.
Proof.
  intros Htt. unfold think_setup. wp_steps.
  set (s1 := if tt_entries (s_tt (w_search w)) then _ else _).
  assert (is_Some (tt_entries (s_tt s1)) /\ 0 <= tt_mask (s_tt s1) /\
          tt_count (s_tt s1) = tt_mask (s_tt s1) + 1 /\ clock_reads s1 = clock_reads (w_search w))
    as (H1 & H2 & H3 & H4).
  { unfold s1. destruct (tt_entries (s_tt (w_search w))) as [es|] eqn:E.
    - rewrite E. destruct Htt as [?|[? ?]]; [congruence|]. by split_and!.
    - split_and!; [by eexists|by vm_compute|by vm_compute|done]. }
  clearbody s1. pose proof (clamp_skill_bounds skill_level) as Hsk.
  unfold search_reset, read_clock, set_s_rng. cbn.
  constructor; cbn; try done.
  - constructor; cbn; try done; [by apply history_zeros|apply rect_zeros|apply cube_zeros..].
  - by rewrite H4.
  - rewrite H4. lia.
Qed.
Lemma skill_margin_set (h : list Undo) (b : Board) (skill : Z) :
  skill_margin (set_b_history h b) skill = skill_margin b skill.
Proof.
  unfold skill_margin, search_kb_full_skill_variety_margin, search_kb_full_skill_variety_enabled.
  drop_history. reflexivity.
Qed.

(** What the result says of the recorded moves [l]: no iteration was completed
    and there is no move; or [l] scores exactly the legal moves, [r_score] is the
    greatest score, and the move is within the margin of the skill level below
    all of them (there is none if all scores are minus infinity). *)
Definition choice_ok (b : Board) (skill : Z) (l : list (Move * Z)) (r : SearchResult) : Prop :=
  l = [] /\ r_best_move r = MOVE_NONE \/
  Permutation (generate_moves b) (map fst l) /\ Forall (fun y => y.2 <= r_score r) l /\
  (In (r_score r) (map snd l) /\ scores_within (skill_margin b skill) l (r_best_move r) \/
   r_score r = - INFINITY_SCORE /\ r_best_move r = MOVE_NONE).

(** What [search_think] promises. *)
Record think_ok (skill : Z) (w w' : World) (r : SearchResult) : Prop := {
  th_board : same_game (w_board w) (w_board w');
  th_tables : tables_ok (w_search w');
  th_choice : choice_ok (w_board w) skill (root_list (w_search w')) r
}.

Lemma depths_ok (max_depth : Z) :
  Forall (fun d => 1 <= d <= MAX_PLY)
    (seqZ 1 (if (0 <? max_depth) && (max_depth <? MAX_PLY) then max_depth else MAX_PLY)).
Proof.
  apply Forall_forall. intros d [H1 H2]%elem_of_seqZ. split; [done|].
  destruct (_ && _) eqn:E; [|lia]. apply andb_true_iff in E as [_ E%Z.ltb_lt]. lia.
Qed.

Lemma benign_set_rng (x : Z) : benign (set_s_rng x).
Proof. benign_field. Qed.

Lemma search_think_wp (time_ms max_depth skill_level : Z) (w : World) :
  ready (room 0) (w_board w) -> tt_ok (s_tt (w_search w)) ->
  wp (search_think time_ms max_depth skill_level)
    (fun r w' => think_ok (clamp_skill skill_level) w w' r) w.
Proof.
  intros Hr Htt. unfold search_think. wp_step. eapply wp_mono; [by apply think_setup_wp|].
  intros _ w1 [Eb Ht1 Hroots Hskill _ _ _ _]. wp_step. eapply wp_mono.
  { apply (deepen_wp _ _ w1 w1); [apply depths_ok|constructor; [by rewrite Eb|done]|].
    constructor; [done|done|done|left]. by split. }
  intros r w2 [Hs2 Ht2 Hl2 Hrep]. do 5 wp_step. rewrite Hskill in Hl2. rewrite Hl2.
  pose proof (clamp_skill_bounds skill_level) as Hsk. apply wp_bounds; [cbn; lia|].
  destruct (select_move _ _ _ _ _ _) as [m rng] eqn:Esel. do 3 wp_step.
  rewrite Eb in *. set (l := root_list (w_search w2)) in *.
  destruct (benign_set_rng rng _ Ht2) as [Ht3 Hr3].
  constructor; cbn [w_board w_search]; [done|done|].
  rewrite (root_list_roots _ _ Hr3). fold l. assert (m = (select_move (w_board w2) (clamp_skill skill_level)
    (r_score r) (r_best_move r) l (s_rng (w_search w2))).1) as -> by (by rewrite Esel).
  destruct Hrep as [[El Em]|[Hp [Hmax Hbest]]]; [left|right]; cbn [r_best_move r_score].
  { split; [done|]. rewrite El, Em. apply select_move_none. cbn. lia. }
  split; [done|]. split; [done|]. destruct Hbest as [Hin|[Em Esc]]; [left|right].
  - split; [by apply (in_map snd) in Hin|]. destruct Hs2 as (h & E2 & _). rewrite E2.
    rewrite <- (skill_margin_set h). by apply select_move_margin.
  - split; [done|]. rewrite Em, Esc. unfold select_move. by rewrite andb_false_r.
Qed.
(** ** No time

    The first node asks the clock; past the deadline the first iteration is
    abandoned and there is nothing to report. *)

Definition out_of_time (s : Search) : Prop :=
  s_nodes s = 0 /\ s_deadline_ms s <= time_ms_now (clock_reads s).

Lemma alpha_beta_out_of_time (fuel : nat) (depth alpha beta ply : Z) (do_null is_pv : bool) (w : World) :
  out_of_time (w_search w) ->
  wp (alpha_beta (S fuel) depth alpha beta ply do_null is_pv)
    (fun score w' => score = 0 /\ s_stopped (w_search w') = true /\
       root_list (w_search w') = root_list (w_search w) /\
       s_skill_level (w_search w') = s_skill_level (w_search w)) w.
Proof.
  intros [Hn Hd]. cbn [alpha_beta]. unfold ab_body. do 4 wp_step.
  unfold check_time, read_clock. rewrite Hn. cbn [Z.land Z.eqb MAX_NODES Z.ltb Z.compare w_search].
  cbn [s_deadline_ms set_clock_reads]. rewrite (proj2 (Z.leb_le _ _) Hd). by wp_step.
Qed.

Lemma root_moves_out_of_time (m : Move) (ms : MoveList) (depth : Z) (root_in_check : bool) (rs : Z)
    (rm : Move) (scores : list Z) (w : World) :
  out_of_time (w_search w) ->
  wp (root_moves depth (- INFINITY_SCORE) INFINITY_SCORE root_in_check (m :: ms) rs rm scores)
    (fun r w' => r = None /\ root_list (w_search w') = root_list (w_search w) /\
       s_skill_level (w_search w') = s_skill_level (w_search w)) w.
Proof.
  intros Ho. cbn [root_moves]. wp_step. unfold root_move. do 7 wp_step. set (w1 := mkWorld _ (w_search w)).
  assert (out_of_time (w_search w1)) as Ho1 by done.
  apply wp_mono with (P := fun score w' => score = 0 /\ s_stopped (w_search w') = true /\
    root_list (w_search w') = root_list (w_search w) /\
    s_skill_level (w_search w') = s_skill_level (w_search w)).
  { unfold child_score. do 3 wp_step.
    - by apply (alpha_beta_out_of_time 199 _ _ _ _ _ _ w1).
    - wp_step. eapply wp_mono; [by apply (alpha_beta_out_of_time 199 _ _ _ _ _ _ w1)|].
      by intros x w' (-> & H). }
  intros score w2 (-> & Hst & Hl & Hsk).
  do 2 wp_step; [done|]. do 7 wp_step; [by wp_step|]. cbn [w_search] in *. congruence.
Qed.

(** The world after an abandoned search: the same recorded moves and level. *)
Definition abandoned (w w' : World) : Prop :=
  root_list (w_search w') = root_list (w_search w) /\
  s_skill_level (w_search w') = s_skill_level (w_search w).

(** One round of the window, from the sorted moves on. *)
Lemma aspiration_out_of_time (ml : MoveList) (depth : Z) (root_in_check : bool)
    (k : option (Z * Move * list Z) -> M (option (MoveList * Z * Move * list Z))) (w : World) :
  out_of_time (w_search w) -> ml <> [] -> k None = mret None ->
  wp (r ← root_moves depth (- INFINITY_SCORE) INFINITY_SCORE root_in_check ml (- INFINITY_SCORE) MOVE_NONE [];
      k r) (fun r w' => r = None /\ abandoned w w') w.
Proof.
  intros Ho Hne Hk. destruct ml as [|m ms]; [done|]. wp_step.
  eapply wp_mono; [by apply root_moves_out_of_time|]. intros r w' (-> & H). rewrite Hk. by wp_step.
Qed.

Lemma deepen_out_of_time (ds : list Z) (result : SearchResult) (w : World) :
  out_of_time (w_search w) ->
  ends_in (deepen (1 :: ds) result) (fun r w' => r = result /\ abandoned w w') w /\
  (game_inv (w_board w) -> history_ok (w_board w) -> tables_ok (w_search w) ->
   wp (deepen (1 :: ds) result) (fun r w' => r = result /\ abandoned w w') w).
Proof.
  intros Ho. cbn [deepen]. split.
  - apply ends_bind, ends_wp, wp_get_board.
    destruct (generate_moves (w_board w)) as [|m ms]; [by apply ends_wp; wp_step|].
    cbn [Z.leb Z.compare andb ASP_FUEL aspiration]. cbv zeta.
    apply ends_bind. apply ends_mono with (P := fun r w' => r = None /\ abandoned w w').
    2:{ intros r w' (-> & H). apply ends_wp. by wp_step. }
    apply ends_bind, ends_wp, wp_get_board. apply ends_bind. intros ml w' (Hp & ->)%sort_moves_run.
    apply ends_wp, aspiration_out_of_time; [done| |done].
    intros ->. by apply Permutation_sym, Permutation_nil in Hp.
  - intros Hg Hh Ht. do 2 wp_step. pose proof (generate_playable _ Hg Hh) as Hms.
    destruct (generate_moves (w_board w)) as [|m ms]; [by wp_step|].
    cbn [Z.leb Z.compare andb ASP_FUEL aspiration]. do 4 wp_step.
    apply sort_moves_wp; [done|done|done|]. intros ml Hp.
    eapply wp_mono; [apply aspiration_out_of_time; [done| |done]|].
    + intros ->. by apply Permutation_sym, Permutation_nil in Hp.
    + intros r w' (-> & H). by wp_step.
Qed.

(** The choice among no recorded moves. *)
Lemma select_nothing (w : World) :
  root_list (w_search w) = [] -> 0 <= s_skill_level (w_search w) <= 4 ->
  wp (b ← get_board;
      s ← get_search;
      bounds_check (s_skill_level s) (Z.of_nat (length SKILL_MARGIN));;
      let '(best_move, rng) := select_move b (s_skill_level s) 0 MOVE_NONE (root_list s) (s_rng s) in
      on_search (set_s_rng rng);;
      mret (mkResult best_move 0 0 0)) (fun r _ => r = mkResult MOVE_NONE 0 0 0) w.
Proof.
  intros Hl Hs. do 5 wp_step. apply wp_bounds; [cbn; lia|]. rewrite Hl.
  unfold select_move. change (1 <? Z.of_nat (length (@nil (Move * Z)))) with false.
  cbv beta iota delta [andb]. by do 3 wp_step.
Qed.

Lemma search_think_out_of_time (time_ms max_depth skill_level : Z) (w : World) :
  tt_ok (s_tt (w_search w)) ->
  time_ms_now (clock_reads (w_search w)) + time_ms <= time_ms_now (clock_reads (w_search w) + 2) ->
  ends_in (search_think time_ms max_depth skill_level) (fun r _ => r = mkResult MOVE_NONE 0 0 0) w /\
  (game_inv (w_board w) -> history_ok (w_board w) ->
   wp (search_think time_ms max_depth skill_level) (fun r _ => r = mkResult MOVE_NONE 0 0 0) w).
Proof.
  intros Htt Hclock. unfold search_think. pose proof (clamp_skill_bounds skill_level) as Hsk.
  assert (exists ds, seqZ 1 (if (0 <? max_depth) && (max_depth <? MAX_PLY) then max_depth else MAX_PLY)
            = 1 :: ds) as [ds Eds].
  { rewrite seqZ_cons; [by eexists|]. destruct (_ && _) eqn:E; [|done].
    apply andb_true_iff in E as [E%Z.ltb_lt _]. done. }
  assert (forall w1, prepared time_ms skill_level w w1 -> out_of_time (w_search w1)) as Ho.
  { intros w1 [_ _ _ _ Hn _ Hd Hc]. split; [done|by rewrite Hd, Hc]. }
  assert (forall w1 w2, prepared time_ms skill_level w w1 -> abandoned w1 w2 ->
    root_list (w_search w2) = [] /\ 0 <= s_skill_level (w_search w2) <= 4) as Hlast.
  { intros w1 w2 [_ _ Hroots Hskill _ _ _ _] [-> ->]. by rewrite Hroots, Hskill. }
  cbv zeta. rewrite Eds. split.
  - apply ends_bind, ends_wp. eapply wp_mono; [by apply think_setup_wp|]. intros u w1 Hprep. cbv beta.
    apply ends_bind. eapply ends_mono; [apply deepen_out_of_time; auto|]. cbv beta.
    intros r w2 (-> & Hab). apply ends_wp. destruct (Hlast w1 w2 Hprep Hab). by apply select_nothing.
  - intros Hg Hh. wp_step. eapply wp_mono; [by apply think_setup_wp|]. intros u w1 Hprep.
    pose proof (pr_board _ _ _ _ Hprep) as Eb. pose proof (pr_tables _ _ _ _ Hprep) as Ht1. wp_step.
    eapply wp_mono; [apply deepen_out_of_time; [auto|by rewrite Eb..|done]|].
    intros r w2 (-> & Hab). destruct (Hlast w1 w2 Hprep Hab). by apply select_nothing.
Qed.
End Clocked.
