(* ===== verification/SearchTheorems.v ===== *)
(** * What the search promises

    The claims about [search.c] and [search/*.c], each with an instance at a
    concrete position. *)

From Stdlib Require Import String.
From stdpp Require Import base numbers list option gmap.
From Stdlib Require Import ZArith Lia Bool List Permutation.
From S2P Require Import Prelude Types Board Zobrist Attacks Make Movegen MovegenFacts MovegenSound Game Fen Decide SameGame Evaluate HeurCommon HeurFriendlyFire See SearchState SearchTables SearchMonad Ordering Search SearchSpec AlphaSpec RootSpec.
Import ListNotations.
Open Scope Z_scope.

(** ** Instances *)

(** A clock that ticks once a reading. *)
Definition steady : Clock := fun n => n.

Definition ready_check (k : Z) (b : Board) : bool :=
  game_check b && negb (b_mod b == MOD_HEIR) && (Z.of_nat (length (b_history b)) =? MAX_HISTORY) &&
  (b_ply b =? 0) && (k <=? MAX_HISTORY).

Lemma ready_check_ok (k : Z) (b : Board) : ready_check k b = true -> ready k b.
Proof.
  unfold ready_check. rewrite !andb_true_iff, !Z.eqb_eq, Z.leb_le.
  intros ((((Hg & Hm) & Hl) & Hp) & Hk). apply negb_true_iff, bool_decide_eq_false in Hm.
  constructor; [by apply game_check_inv|done|done|lia|lia|lia].
Qed.

Definition fresh (b : Board) : World := mkWorld b search_start.

(** The initial position after the tables are set up. *)
Definition searching (b : Board) : World :=
  mkWorld b (set_s_tt (tt_alloc 16) search_start).

Lemma searching_safe (k : Z) (b : Board) : ready_check k b = true -> safe k (searching b).
Proof.
  intros H%ready_check_ok. constructor; [done|].
  constructor; [by eexists|done|by vm_compute|by apply history_zeros|apply rect_zeros|
    apply cube_zeros..|done|done|done|done].
Qed.

(** White can take a pawn that a pawn defends. *)
Definition defended_pawn : Board :=
  position "4k3/8/2p5/3p4/4P3/8/3Q4/4K3 w - - 0 1" MOD_CLASSIC.

Definition pawn_takes : Move := move_capture (SQ 3 4) (SQ 4 3) PAWN PAWN.
Definition queen_takes : Move := move_capture (SQ 1 3) (SQ 4 3) QUEEN PAWN.

(** ** The search as a whole *)

(** C4: [search_think] ends for every time limit, depth and skill level and
    every behaviour of the clock, outside Heir and with room for 72 more moves
    on the undo stack.  The transposition table, killers, history, countermoves,
    [MVV_LVA], [LMP_LIMIT], evaluation stack, root moves and scores and
    [SKILL_MARGIN] are read and written inside their bounds; the board is the
    one it was given, up to stale undo entries; the tables satisfy their
    invariant.  Either no iteration was completed and no move is returned, or
    every legal move has a recorded score, the score returned is the greatest of
    them, and the move returned is a recorded one that scores below none of them
    by more than the margin of the skill level (no move if all scores are minus
    infinity). *)
Theorem think_correct (C : Clock) (time_ms max_depth skill_level : Z) (w : World) :
  ready (room 0) (w_board w) -> tt_ok (s_tt (w_search w)) ->
  exists r w', search_think time_ms max_depth skill_level w = Some (r, w') /\
    think_ok (clamp_skill skill_level) w w' r.
Proof. intros Hr Ht. by apply wp_run, search_think_wp. Qed.

Lemma think_correct_witness :
  exists r w', @search_think steady 1000 3 4 (fresh (start MOD_CLASSIC)) = Some (r, w') /\
    think_ok 4 (fresh (start MOD_CLASSIC)) w' r.
Proof.
  apply (think_correct steady 1000 3 4 (fresh (start MOD_CLASSIC))).
  - apply ready_check_ok. vm_compute. reflexivity.
  - left. reflexivity.
Defined.

(** C9: [alpha_beta] returns: from a safe world at ply at most 64 and with a
    depth the root can ask for, the recursion is never deeper than twice the
    plies left plus the depth, the board is restored, the tables keep their
    invariant and the recorded root moves are not touched. *)
Theorem alpha_beta_returns (C : Clock) (fuel : nat) (depth alpha beta ply : Z) (do_null is_pv : bool)
    (w : World) :
  0 <= ply <= MAX_PLY -> depth <= MAX_PLY + ply -> ab_fuel depth ply < Z.of_nat fuel ->
  safe (room ply) w ->
  exists score w', alpha_beta fuel depth alpha beta ply do_null is_pv w = Some (score, w') /\ keeps w w'.
Proof. intros. by apply wp_run, alpha_beta_wp. Qed.

Lemma alpha_beta_returns_witness :
  exists score w', @alpha_beta steady AB_FUEL 64 (-100) 100 1 true true (searching (start MOD_TRUCE)) =
    Some (score, w') /\ keeps (searching (start MOD_TRUCE)) w'.
Proof.
  apply (alpha_beta_returns steady AB_FUEL 64 (-100) 100 1 true true (searching (start MOD_TRUCE)));
    [vm_compute; split; discriminate|vm_compute; discriminate|vm_compute; reflexivity|].
  apply searching_safe. vm_compute. reflexivity.
Defined.

(** C38: When the clock has passed the deadline at the first reading after the
    set-up (a non-positive time limit, say), whatever the search returns is no
    move, score and depth zero; and on a consistent board it does return that,
    whatever legal moves there are. *)
Theorem no_time_no_move (C : Clock) (time_ms max_depth skill_level : Z) (w : World) :
  tt_ok (s_tt (w_search w)) ->
  time_ms_now (clock_reads (w_search w)) + time_ms <= time_ms_now (clock_reads (w_search w) + 2) ->
  (forall r w', search_think time_ms max_depth skill_level w = Some (r, w') ->
     r = mkResult MOVE_NONE 0 0 0) /\
  (game_inv (w_board w) -> history_ok (w_board w) ->
   exists w', search_think time_ms max_depth skill_level w = Some (mkResult MOVE_NONE 0 0 0, w')).
Proof.
  intros Ht Hc. destruct (search_think_out_of_time time_ms max_depth skill_level w Ht Hc) as [He Hwp].
  split; [exact He|]. intros Hg Hh. destruct (wp_run _ _ _ (Hwp Hg Hh)) as (r & w' & E & ->). by exists w'.
Qed.

Lemma no_time_no_move_witness :
  length (generate_moves (start MOD_CLASSIC)) = 20%nat /\
  exists w', @search_think steady 0 0 4 (fresh (start MOD_CLASSIC)) = Some (mkResult MOVE_NONE 0 0 0, w').
Proof.
  split; [vm_compute; reflexivity|].
  apply (no_time_no_move steady 0 0 4 (fresh (start MOD_CLASSIC))); [left; reflexivity| |check|check].
  vm_compute. discriminate.
Defined.

(** ** Static exchange evaluation *)



(** C27: Outside Save the Queen and the locked phase of King's Battle
    [attackers_to] is, on the position as it stands, the set of the pieces of
    either colour that attack the square by the rules of the variant. *)
Theorem attacker_set (b : Board) (sq n : Square) :
  board_inv b -> on_board sq -> on_board n -> b_mod b <> MOD_SAVE_QUEEN -> kb_phase1 b = false ->
  Z.testbit (attackers_to b sq (b_all b)) n = true <-> exists c, real_color c /\ attacks_from b c n sq.
Proof. intros. by apply attackers_exact. Qed.

Lemma attacker_set_witness :
  Z.testbit (attackers_to defended_pawn (SQ 4 3) (b_all defended_pawn)) (SQ 5 2) = true <->
  exists c, real_color c /\ attacks_from defended_pawn c (SQ 5 2) (SQ 4 3).
Proof.
  apply (attacker_set defended_pawn (SQ 4 3) (SQ 5 2)); [check|vm_compute; split; [discriminate|reflexivity]..| |].
  - vm_compute. discriminate.
  - vm_compute. reflexivity.
Defined.

(** ** Move ordering *)

(** C16: [order_moves] sorts: its result is a permutation of the moves, in
    descending order of [move_score], and moves of equal score keep their
    order; [order_captures_see] does the same by exchange value. *)
Theorem ordering_is_stable_sort (s : Search) (b : Board) (ml : MoveList) (tt_move : Move) (ply : Z)
    (side : Color) (countermove : Move) :
  let key := fun m => move_score s b m tt_move ply side countermove in
  let sorted := order_moves s b ml tt_move ply side countermove in
  let by_see := order_captures_see b ml in
  (Permutation ml sorted /\ descending key sorted /\
   forall k, List.filter (fun m => key m =? k) sorted = List.filter (fun m => key m =? k) ml) /\
  (Permutation ml by_see /\ descending (see_value b) by_see /\
   forall k, List.filter (fun m => see_value b m =? k) by_see = List.filter (fun m => see_value b m =? k) ml).
Proof.
  cbv zeta. rewrite order_moves_isort, order_captures_isort.
  auto 10 using isort_perm, isort_descending, isort_stable.
Qed.

(** C23: Moves are tried in the order of their kind: table move, queen
    promotion, pawn race, capture that does not lose, rewarding capture of an
    own piece, first and second killer, countermove, quiet move,
    underpromotion, losing capture.  No bonus a heuristic can give carries a
    move over the bound of its kind, as long as the tables satisfy their
    invariant. *)
Theorem ordering_by_kind (s : Search) (b : Board) (m m' tt_move : Move) (ply : Z) (side : Color)
    (countermove : Move) :
  tables_ok s ->
  rank (move_kind s b m tt_move ply side countermove) <
    rank (move_kind s b m' tt_move ply side countermove) ->
  move_score s b m tt_move ply side countermove < move_score s b m' tt_move ply side countermove.
Proof. intros Ht. pose proof (tk_history s Ht) as Hh. apply kinds_ordered. intros x. apply Hh. Qed.

Lemma ordering_by_kind_witness :
  move_score (w_search (searching defended_pawn)) defended_pawn queen_takes MOVE_NONE 0 WHITE MOVE_NONE <
  move_score (w_search (searching defended_pawn)) defended_pawn pawn_takes MOVE_NONE 0 WHITE MOVE_NONE.
Proof.
  apply (ordering_by_kind (w_search (searching defended_pawn)) defended_pawn queen_takes pawn_takes
           MOVE_NONE 0 WHITE MOVE_NONE).
  - apply (sf_tables 1), searching_safe. vm_compute. reflexivity.
  - vm_compute. reflexivity.
Defined.

(** ** Tables *)

(** C25: The history scores stay within plus or minus 16384: rewarding the
    move that refuted a node and punishing the quiet moves tried before it keep
    the bound at every depth the search can reach. *)
Theorem history_stays_bounded (s : Search) (side : Color) (m : Move) (quiets : list Move)
    (count depth : Z) :
  0 <= depth <= 128 -> history_bounded s ->
  history_bounded (penalize_quiets side quiets count depth (record_history side m depth s)).
Proof.
  intros Hd Hs. apply penalize_bounded; [done|]. apply update_history_bounded; [|done].
  pose proof (square_bound depth Hd). lia.
Qed.

Lemma history_stays_bounded_witness :
  history_bounded (penalize_quiets WHITE [pawn_takes; queen_takes] 1 127
    (record_history WHITE queen_takes 127 search_start)).
Proof.
  apply (history_stays_bounded search_start WHITE queen_takes [pawn_takes; queen_takes] 1 127).
  - vm_compute. split; discriminate.
  - apply history_zeros. reflexivity.
Defined.

(** C26: What the transposition table answers after a store: for the stored
    position the new entry, for another position of the same slot nothing, for
    the other slots what it answered before; and a deeper entry with a move of
    another position is kept. *)
Theorem table_after_store (tt : TTable) (key depth score : Z) (flag : TTFlag) (best : Move) (k : Z) :
  is_Some (tt_entries tt) ->
  tt_probe (tt_store tt key depth score flag best) k =
  if replaceable tt key depth && (tt_index tt k =? tt_index tt key)
  then if k =? key then Some (mkEntry key depth score flag best) else None
  else tt_probe tt k.
Proof. apply tt_store_lookup. Qed.

Lemma table_after_store_witness :
  tt_probe (tt_store (tt_alloc 16) 5 3 40 TT_EXACT pawn_takes) 5 =
  if replaceable (tt_alloc 16) 5 3 && (tt_index (tt_alloc 16) 5 =? tt_index (tt_alloc 16) 5)
  then if 5 =? 5 then Some (mkEntry 5 3 40 TT_EXACT pawn_takes) else None
  else tt_probe (tt_alloc 16) 5.
Proof. apply (table_after_store (tt_alloc 16) 5 3 40 TT_EXACT pawn_takes 5). eexists. reflexivity. Defined.

(** C39: [tt_alloc] makes a table of the greatest power of two of entries that
    fits the megabytes it is given, in [int] range for every size whose bytes
    are; the slot of a key is the key modulo that number, so inside the table;
    and the fresh table answers no key but zero, which it answers with the empty
    entry. *)
Theorem table_allocation (size_mb : Z) :
  1 <= size_mb < 2048 ->
  exists k, 0 <= k < 31 /\ tt_count (tt_alloc size_mb) = 2 ^ k /\
    2 ^ k * sizeof_TTEntry <= size_mb * 1024 * 1024 < 2 ^ (k + 1) * sizeof_TTEntry /\
    (forall key, tt_index (tt_alloc size_mb) key = key mod 2 ^ k) /\
    (forall key, tt_probe (tt_alloc size_mb) key = if key =? 0 then Some entry_zero else None).
Proof.
  intros Hs. destruct (tt_alloc_spec size_mb Hs) as (k & Hk & Ec & Hb & Hi). exists k.
  split_and!; [done| |done|lia|lia|done|].
  - apply (Z.pow_lt_mono_r_iff 2); [lia..|]. unfold sizeof_TTEntry in Hb. lia.
  - intros key. unfold tt_probe, tt_entry. cbn. rewrite lookup_empty. cbn. by rewrite Z.eqb_sym.
Qed.

Lemma table_allocation_witness :
  exists k, 0 <= k < 31 /\ tt_count (tt_alloc 16) = 2 ^ k /\
    2 ^ k * sizeof_TTEntry <= 16 * 1024 * 1024 < 2 ^ (k + 1) * sizeof_TTEntry /\
    (forall key, tt_index (tt_alloc 16) key = key mod 2 ^ k) /\
    (forall key, tt_probe (tt_alloc 16) key = if key =? 0 then Some entry_zero else None).
Proof. apply (table_allocation 16). split; [discriminate|reflexivity]. Defined.

(** C24: The move played is a recorded one, and it scores below no recorded move
    by more than the margin of the skill level; from level 3 on, by more than
    the tie-break band either, which is three points outside King's Battle; and
    at full skill outside King's Battle no recorded move scores higher and the
    generator is left alone.  [best] is the move the iteration found best. *)
Theorem choice_by_skill (b : Board) (skill score : Z) (best : Move) (l : list (Move * Z)) (rng : Z) :
  0 <= skill <= 4 -> In (best, score) l -> Forall (fun y => y.2 <= score) l ->
  let '(m, rng') := select_move b skill score best l rng in
  scores_within (skill_margin b skill) l m /\
  (3 <= skill -> scores_within (top_band b skill) l m) /\
  (b_mod b <> MOD_KINGS_BATTLE ->
     (skill = 3 -> scores_within 3 l m) /\ (skill = 4 -> scores_within 0 l m /\ rng' = rng)).
Proof.
  intros Hs Hin Hl. pose proof (select_move_margin b skill score best l rng Hs Hin Hl) as Hmargin.
  pose proof (fun H => select_move_band b skill score best l rng H Hin Hl) as Hband.
  pose proof (fun H => select_move_full b score best l rng H) as Hfull.
  destruct (select_move b skill score best l rng) as [m rng'] eqn:E. cbn [fst] in *.
  split; [done|]. split; [auto with lia|]. intros Hm. split; intros ->.
  - apply Hband. lia.
  - rewrite Hfull in E by done. injection E as <- <-. split; [by eapply best_within|done].
Qed.

Lemma choice_by_skill_witness :
  let '(m, rng') := select_move defended_pawn 4 90 pawn_takes [(pawn_takes, 90); (queen_takes, 70)] 12345 in
  scores_within (skill_margin defended_pawn 4) [(pawn_takes, 90); (queen_takes, 70)] m /\
  (3 <= 4 -> scores_within (top_band defended_pawn 4) [(pawn_takes, 90); (queen_takes, 70)] m) /\
  (b_mod defended_pawn <> MOD_KINGS_BATTLE ->
     (4 = 3 -> scores_within 3 [(pawn_takes, 90); (queen_takes, 70)] m) /\
     (4 = 4 -> scores_within 0 [(pawn_takes, 90); (queen_takes, 70)] m /\ rng' = 12345)).
Proof.
  apply (choice_by_skill defended_pawn 4 90 pawn_takes [(pawn_takes, 90); (queen_takes, 70)] 12345).
  - split; discriminate.
  - left. reflexivity.
  - repeat constructor; vm_compute; discriminate.
Defined.
