(* ===== verification/BridgeCommon.v ===== *)
(** * What the bridge's refinements share ([bridge_common.c], [bridge_internal.h])

    After the search the bridge may replace its move: a table of known
    positions names a better one, or the most promising alternatives are
    searched again, each on a copy of the board, and compared.  This file
    holds the tables' form, the candidate arrays and the verifying search.

    [bridge_verify_nesting] is raised around the inner search and lowered after
    it, so it is a constant of each level: an instance of [Verifier] gives its
    value and what [bridge_engine_search_best_move] is one level further down. *)

From stdpp Require Import base numbers list option.
From Stdlib Require Import ZArith Lia Bool.
From S2P Require Import Prelude Types Board Make Movegen HeurCommon SearchState SearchMonad Search.

(** ** Helpers *)

Definition clamp_int (value lower upper : Z) : Z :=
  if value <? lower then lower else if upper <? value then upper else value.

Definition bridge_square_has_piece (b : Board) (sq : Square) (side : Color) (piece_type : PieceType) : bool :=
  let piece := mb b sq in
  negb (piece =? PIECE_EMPTY) && (PIECE_COLOR piece == side) && (PIECE_TYPE piece == piece_type).

Fixpoint bridge_find_legal_move (ml : MoveList) (from to : Square) (piece_type : PieceType) : Move :=
  match ml with
  | [] => MOVE_NONE
  | m :: ml =>
      if (MOVE_FROM m =? from) && (MOVE_TO m =? to) && (MOVE_PIECE m == piece_type) then m
      else bridge_find_legal_move ml from to piece_type
  end.

(** [MOVE_CAPTURED(m) >= t] *)
Definition captured_at_least (t : PieceType) (m : Move) : bool :=
  PieceType_to_Z t <=? PieceType_to_Z (MOVE_CAPTURED m).

Definition is_capture (m : Move) : bool := MOVE_IS_CAPTURE m || MOVE_IS_EP m.

(** A shallow or short search. *)
Definition fast_mode (time_ms max_depth : Z) : bool :=
  (max_depth <=? 4) || ((0 <? time_ms) && (time_ms <=? 150)).

(** ** Tables of positions

    The source spells each entry out as an [if] over [board->side], a bound on
    [board->fullmove], calls of [bridge_square_has_piece] and a call of
    [bridge_find_legal_move]; an entry may ask that a second move, the one to
    avoid, be legal too, or that the move found by the search have a given
    form. *)

Record Step := mkStep { st_from : Square; st_to : Square; st_piece : PieceType }.

Definition find_step (ml : MoveList) (s : Step) : Move :=
  bridge_find_legal_move ml (st_from s) (st_to s) (st_piece s).

Inductive RawKind := Quiet | PlainCapture | Capturing.

Record RawForm := mkRaw { rf_step : Step; rf_kind : RawKind; rf_captured : option PieceType }.

Definition is_step (m : Move) (s : Step) : bool :=
  (MOVE_PIECE m == st_piece s) && (MOVE_FROM m =? st_from s) && (MOVE_TO m =? st_to s).

Definition raw_kind (m : Move) (k : RawKind) : bool :=
  match k with
  | Quiet => negb (MOVE_IS_CAPTURE m) && negb (MOVE_IS_EP m) && negb (MOVE_IS_PROMO m)
  | PlainCapture => MOVE_IS_CAPTURE m && negb (MOVE_IS_EP m) && negb (MOVE_IS_PROMO m)
  | Capturing => MOVE_IS_CAPTURE m
  end.

Definition has_form (m : Move) (f : RawForm) : bool :=
  is_step m (rf_step f) && raw_kind m (rf_kind f) &&
  match rf_captured f with Some t => MOVE_CAPTURED m == t | None => true end.

Record Rule := mkRule {
  ru_side : Color;
  ru_raw : option RawForm;
  ru_fullmove : option Z;
  ru_men : list (Square * Color * PieceType);
  ru_play : Step;
  ru_avoid : option Step
}.

Definition men_stand (b : Board) (men : list (Square * Color * PieceType)) : bool :=
  forallb (fun '(sq, side, piece) => bridge_square_has_piece b sq side piece) men.

Definition rule_matches (b : Board) (raw : Move) (r : Rule) : bool :=
  (b_side b == ru_side r) &&
  match ru_raw r with Some f => has_form raw f | None => true end &&
  match ru_fullmove r with Some n => b_fullmove b <=? n | None => true end &&
  men_stand b (ru_men r).

(** The move the entry asks for, if it is legal (and the one to avoid is). *)
Definition rule_move (ml : MoveList) (r : Rule) : Move :=
  match ru_avoid r with
  | None => find_step ml (ru_play r)
  | Some avoid =>
      let prefer_move := find_step ml (ru_play r) in
      let avoid_move := find_step ml avoid in
      if negb (prefer_move =? MOVE_NONE) && negb (avoid_move =? MOVE_NONE) then prefer_move
      else MOVE_NONE
  end.

(** The entries in order; one that matches without a legal move is passed over. *)
Fixpoint first_rule (b : Board) (ml : MoveList) (raw : Move) (rules : list Rule) : Move :=
  match rules with
  | [] => MOVE_NONE
  | r :: rules =>
      let move := if rule_matches b raw r then rule_move ml r else MOVE_NONE in
      if negb (move =? MOVE_NONE) then move else first_rule b ml raw rules
  end.

(** ** Candidates

    The arrays [candidates] and [candidate_scores] up to [candidate_count], as
    one list.  Entry 0 is the move of the search and never moves. *)

Notation Candidates := (list (Move * Z)).

Definition first_candidate (raw : Move) : Candidates := [(raw, 2000000000)].

Definition seen (m : Move) (l : Candidates) : bool := existsb (fun c => c.1 =? m) l.

(** [while (insert_at > 1 && candidate_scores[insert_at - 1] < priority)]: each
    round copies one entry to the right. *)
Fixpoint make_room (insert_at : nat) (priority : Z) (l : Candidates) : nat * Candidates :=
  match insert_at with
  | S (S _ as j) =>
      if (l !!! j).2 <? priority then make_room j priority (<[insert_at := l !!! j]> l)
      else (insert_at, l)
  | _ => (insert_at, l)
  end.

(** The insertion into an array of [capacity] entries.  As long as there is
    room the entry at [candidate_count] is taken into use. *)
Definition add_candidate (capacity : nat) (move : Move) (priority : Z) (l : Candidates) : Candidates :=
  let candidate_count := length l in
  if bool_decide (candidate_count = capacity) && (priority <=? (l !!! (candidate_count - 1)%nat).2) then l
  else
    let insert_at := if bool_decide (capacity - 1 < candidate_count)%nat then (capacity - 1)%nat
                     else candidate_count in
    let l := if bool_decide (candidate_count < capacity)%nat then l ++ [(move, priority)] else l in
    let '(insert_at, l) := make_room insert_at priority l in
    <[insert_at := (move, priority)]> l.

(** The loop over the move list; [accept] gives the priority of a move that is
    not passed over. *)
Definition gather (capacity : nat) (accept : Move -> option Z) (ml : MoveList) (l : Candidates) : Candidates :=
  fold_left (fun l move =>
    if seen move l then l
    else match accept move with
         | Some priority => add_candidate capacity move priority l
         | None => l
         end) ml l.

(** The loop that fills the array in the order of the move list. *)
Definition collect (capacity : nat) (include : Move -> bool) (ml : MoveList) (l : list Move) : list Move :=
  fold_left (fun l move =>
    if bool_decide (length l < capacity)%nat && include move && negb (existsb (fun c => c =? move) l)
    then l ++ [move] else l) ml l.

(** ** Results *)

(** [raw.best_move = m; return raw] *)
Definition with_move (raw : SearchResult) (m : Move) : SearchResult :=
  mkResult m (r_score raw) (r_depth raw) (r_nodes raw).

(** [raw.best_move = m; raw.score = score; return raw] *)
Definition with_choice (raw : SearchResult) (c : Move * Z) : SearchResult :=
  mkResult c.1 c.2 (r_depth raw) (r_nodes raw).

(** The loop that keeps the first candidate of the greatest value. *)
Definition pick_best (value : Move * Z -> Z) (first : Move * Z) (rest : list (Move * Z)) : Move * Z :=
  fold_left (fun best c => if value best <? value c then c else best) rest first.

(** ** Verification *)

Class Verifier := {
  bridge_verify_nesting : Z;
  deeper_search : Z -> Z -> Z -> M SearchResult
}.

(** [Board child = ...] and what is done on [child]: the board of the caller
    stays, the statics of the search are shared. *)
Definition on_copy {A} (child : Board) (m : M A) : M A := fun w =>
  match m (mkWorld child (w_search w)) with
  | Some (a, w') => Some (a, mkWorld (w_board w) (w_search w'))
  | None => None
  end.

Section Verify.
Context {C : Clock} {V : Verifier}.

Definition kb_verify_child_score (root : Board) (move : Move) (time_ms max_depth skill_level : Z) : M Z :=
  let mover := b_side root in
  on_copy (board_make_move root move) (
    reply ← (if 0 <? bridge_verify_nesting then
               on_search (search_reset true);; search_think time_ms max_depth skill_level
             else deeper_search time_ms max_depth skill_level);
    child ← get_board;
    mret (if b_side child == mover then r_score reply else - r_score reply)).

(** The verifying loop; some refinements call [search_reset(1)] before each
    candidate.  The comparisons of the source's loop body touch no state and
    follow in the callers. *)
Fixpoint verify_all (reset : bool) (b : Board) (time_ms max_depth skill_level : Z) (candidates : list Move)
    : M (list (Move * Z)) :=
  match candidates with
  | [] => mret []
  | move :: candidates =>
      (if reset then on_search (search_reset true) else mret tt);;
      score ← kb_verify_child_score b move time_ms max_depth skill_level;
      rest ← verify_all reset b time_ms max_depth skill_level candidates;
      mret ((move, score) :: rest)
  end.
End Verify.
