(* ===== verification/BridgeKingDiscipline.v ===== *)
(** * Early king walks and minor-piece trades ([bridge_king_discipline.c]) *)

From stdpp Require Import base numbers list option.
From Stdlib Require Import ZArith Lia Bool.
From S2P Require Import Prelude Types Board Attacks Make Movegen EvalCommon HeurCommon SearchState SearchMonad Search BridgeCommon.

Definition king_discipline_mod_enabled (b : Board) : bool :=
  match b_mod b with
  | MOD_HEIR | MOD_MERCENARY | MOD_SAVE_QUEEN | MOD_SUCCESSION => true
  | _ => false
  end.

Definition king_discipline_has_castling_rights (b : Board) (side : Color) : bool :=
  let mask := if side == WHITE then Z.lor CASTLE_WK CASTLE_WQ else Z.lor CASTLE_BK CASTLE_BQ in
  negb (Z.land (b_castling b) mask =? 0).

Definition king_discipline_candidate_priority (b : Board) (move : Move) (side : Color) : Z :=
  let piece := MOVE_PIECE move in
  let score := 0 in
  if move =? MOVE_NONE then -100000
  else if (piece == KING) && negb (MOVE_IS_CASTLE move) then -100000
  else
    let score := if MOVE_IS_CASTLE move then score + 8000 else score in
    let score := if is_capture move
                 then score + 2200 + (if captured_at_least KNIGHT move then 1200 else 0) else score in
    let score := if (piece == KNIGHT) || (piece == BISHOP)
                 then score + 1800 + (if leaves_back_rank move side then 900 else 0) else score in
    let score :=
      if (piece == PAWN) && negb (special move) then
        let from_rank := rel_row side (MOVE_FROM move) in
        let to_rank := rel_row side (MOVE_TO move) in
        let file := SQ_COL (MOVE_FROM move) in
        if (from_rank =? 1) && (2 <=? file) && (file <=? 5)
        then score + 1000 + (if to_rank =? 3 then 220 else 0) else score
      else score in
    let score := if (piece == ROOK) || (piece == QUEEN) then score + 120 else score in
    if negb (king_discipline_mod_enabled b) then 0 else score.

Definition merc_trade_candidate_priority (b : Board) (move : Move) (side : Color) : Z :=
  let piece := MOVE_PIECE move in
  let score := 0 in
  if move =? MOVE_NONE then -100000
  else
    let score := if is_capture move
                 then score + 2600 + (if captured_at_least KNIGHT move then 1400 else 0) else score in
    let score := if MOVE_IS_CASTLE move then score + 1500 else score in
    let score := if (piece == KNIGHT) || (piece == BISHOP)
                 then score + 900 + (if leaves_back_rank move side then 300 else 0) else score in
    let score :=
      if (piece == PAWN) && negb (special move) then
        let from_rank := rel_row side (MOVE_FROM move) in
        let file := SQ_COL (MOVE_FROM move) in
        if (from_rank =? 1) && (2 <=? file) && (file <=? 5) then score + 700 else score
      else score in
    if (piece == KING) && negb (MOVE_IS_CASTLE move) then score - 600 else score.

(** The candidates of both refinements: twenty, at or above a priority. *)
Definition at_least (lowest : Z) (priority : Move -> Z) (move : Move) : option Z :=
  if priority move <? lowest then None else Some (priority move).

Section Refine.
Context {C : Clock} {V : Verifier}.

Definition mercenary_minor_trade_refine_result (b : Board) (raw : SearchResult)
    (time_ms max_depth skill_level : Z) : M SearchResult :=
  let best := r_best_move raw in
  if (b_mod b != MOD_MERCENARY) || (best =? MOVE_NONE) || (skill_level <? 4) then mret raw
  else if 30 <? b_fullmove b then mret raw
  else if negb (MOVE_IS_CAPTURE best) || MOVE_IS_EP best || MOVE_IS_PROMO best then mret raw
  else if MOVE_CAPTURED best != PAWN then mret raw
  else if (MOVE_PIECE best != KNIGHT) && (MOVE_PIECE best != BISHOP) then mret raw
  else if 0 <? bridge_verify_nesting then mret raw
  else
    let side := b_side b in
    if board_in_check b side then mret raw
    else
      let ml := generate_moves b in
      let candidates := gather 20 (at_least 700 (fun move => merc_trade_candidate_priority b move side)) ml
                          (first_candidate best) in
      if bool_decide (length candidates <= 1)%nat then mret raw
      else
        let verify_depth := if max_depth <? 6 then 6 else max_depth in
        let verify_time := if time_ms <=? 0 then 260 else clamp_int ((time_ms * 3) ÷ 2) 180 340 in
        verified ← verify_all false b verify_time verify_depth skill_level (map fst candidates);
        match verified with
        | [] => mret raw
        | first :: rest =>
            let choice := pick_best snd first rest in
            if choice.1 =? best then mret raw
            else if choice.2 <? first.2 + 18 then mret raw
            else mret (with_choice raw choice)
        end.

Definition king_discipline_verify (b : Board) (time_ms max_depth : Z) : Z * Z :=
  let verify_depth := if max_depth <? 5 then 5 else max_depth in
  let verify_time := if time_ms <=? 0 then 220 else clamp_int ((time_ms * 3) ÷ 2) 140 280 in
  if b_mod b == MOD_MERCENARY then
    (if verify_depth <? 6 then 6 else verify_depth,
     if time_ms <=? 0 then 260 else clamp_int (time_ms * 2) 180 360)
  else (verify_depth, verify_time).

Definition king_discipline_refine_result (b : Board) (raw : SearchResult)
    (time_ms max_depth skill_level : Z) : M SearchResult :=
  let best := r_best_move raw in
  if negb (king_discipline_mod_enabled b) || (best =? MOVE_NONE) || (skill_level <? 4) then mret raw
  else
    let fullmove_limit := if b_mod b == MOD_MERCENARY then 24 else 16 in
    if fullmove_limit <? b_fullmove b then mret raw
    else if (MOVE_PIECE best != KING) || MOVE_IS_CASTLE best || special best then mret raw
    else
      let side := b_side b in
      if negb (king_discipline_has_castling_rights b side) then mret raw
      else
        let king_bb := pcs b side KING in
        if king_bb =? BB_EMPTY then mret raw
        else if board_square_attacked b (bb_lsb king_bb) (color_opposite side) then mret raw
        else if 0 <? bridge_verify_nesting then mret raw
        else
          let ml := generate_moves b in
          let candidates :=
            gather 20 (at_least 900 (fun move => king_discipline_candidate_priority b move side)) ml
              (first_candidate best) in
          if bool_decide (length candidates <= 1)%nat then mret raw
          else
            let '(verify_depth, verify_time) := king_discipline_verify b time_ms max_depth in
            verified ← verify_all false b verify_time verify_depth skill_level (map fst candidates);
            match verified with
            | [] => mret raw
            | first :: rest =>
                let choice := pick_best snd first rest in
                if choice.1 =? best then mret raw
                else
                  let min_improvement :=
                    if MOVE_IS_CASTLE choice.1 then (if b_mod b == MOD_MERCENARY then 0 else 8)
                    else (if b_mod b == MOD_MERCENARY then 4 else 24) in
                  if choice.2 <? first.2 + min_improvement then mret raw
                  else mret (with_choice raw choice)
            end.
End Refine.
