(* ===== verification/BridgeKingsBattle.v ===== *)
(** * King's Battle refinements ([bridge_kings_battle.c])

    [kb_verify_child_score], which every refinement uses, is in
    [BridgeCommon]. *)

From stdpp Require Import base numbers list option.
From Stdlib Require Import ZArith Lia Bool.
From S2P Require Import Prelude Types Board Attacks Make Movegen EvalCommon HeurCommon HeurKingsBattle SearchState SearchMonad Search BridgeCommon.

(** ** Priorities and biases of the locked phase *)

Definition kb_phase1_is_central_two_step_break (side : Color) (move : Move) : bool :=
  if (MOVE_PIECE move != PAWN) || special move then false
  else
    let from_rank := search_kb_phase1_forward_rank side (MOVE_FROM move) in
    let to_rank := search_kb_phase1_forward_rank side (MOVE_TO move) in
    let file := SQ_COL (MOVE_FROM move) in
    (from_rank =? 1) && (to_rank =? 3) && (2 <=? file) && (file <=? 5).

Definition kb_phase1_candidate_priority (b : Board) (move : Move) (side : Color) : Z :=
  if (b_mod b != MOD_KINGS_BATTLE) || b_kb_unlocked b then 0
  else if MOVE_IS_PROMO move then 10000
  else if MOVE_PIECE move == KING then
    let score := 1000 + search_kb_phase1_king_activation_score b move side in
    if MOVE_IS_CAPTURE move && (MOVE_CAPTURED move == PAWN) then score + 4000 else score
  else if MOVE_PIECE move == PAWN then
    let score := 1800 + search_kb_phase1_pawn_race_score b move side in
    let score := if MOVE_IS_CAPTURE move then score + 500 else score in
    let score := if kb_phase1_is_central_two_step_break side move then score + 220 else score in
    if 3 <=? search_kb_phase1_forward_rank side (MOVE_TO move) then score + 80 else score
  else 0.

Definition kb_phase1_king_forward_rank (b : Board) (side : Color) : Z :=
  let king_bb := pcs b side KING in
  if king_bb =? BB_EMPTY then 0 else search_kb_phase1_forward_rank side (bb_lsb king_bb).

(** The terms for a quiet pawn move that depend on the king's file. *)
Definition kb_phase1_shelter_bias (b : Board) (side : Color) (from_rank to_rank file king_rank : Z) : Z :=
  if negb (pcs b side KING =? BB_EMPTY) then
    let king_file := SQ_COL (bb_lsb (pcs b side KING)) in
    (if (from_rank =? 1) && (to_rank =? 2) && (Z.abs (file - king_file) <=? 1)
     then (if 2 <=? king_rank then 110 else -180) else 0) +
    (if (2 <=? king_rank) && (king_file <=? 2) && (3 <=? file) && (from_rank =? 1) && (to_rank =? 2)
     then -180 else 0) +
    (if (2 <=? king_rank) && (5 <=? king_file) && (file <=? 4) && (from_rank =? 1) && (to_rank =? 2)
     then -180 else 0)
  else 0.

Definition kb_phase1_refine_bias (b : Board) (move : Move) (side : Color) : Z :=
  if (b_mod b != MOD_KINGS_BATTLE) || b_kb_unlocked b then 0
  else
    let piece := MOVE_PIECE move in
    let capture := MOVE_IS_CAPTURE move || MOVE_IS_EP move in
    let king_rank := kb_phase1_king_forward_rank b side in
    let from_rank := search_kb_phase1_forward_rank side (MOVE_FROM move) in
    let to_rank := search_kb_phase1_forward_rank side (MOVE_TO move) in
    if piece == KING then
      (if capture && (MOVE_CAPTURED move == PAWN) then 220 else 0) +
      (if negb capture && (from_rank <=? to_rank) then 70 else 0) +
      (if negb capture && (2 <=? king_rank) && (king_rank <=? to_rank) then 60 else 0)
    else if (piece == PAWN) && negb capture && negb (MOVE_IS_PROMO move) then
      let file := SQ_COL (MOVE_FROM move) in
      (if search_kb_phase1_any_pawn_capture_available b side then -180 else 0) +
      (if (3 <=? from_rank) && (from_rank <? to_rank) then -220 else 0) +
      (if (from_rank =? 1) && (to_rank =? 3) && (2 <=? file) && (file <=? 5) && (2 <=? king_rank)
       then - (if 3 <=? king_rank then 220 else 60) else 0) +
      kb_phase1_shelter_bias b side from_rank to_rank file king_rank +
      (if (2 <=? king_rank) && (from_rank =? 1) && (to_rank =? 2) && ((file <=? 1) || (6 <=? file))
       then 70 else 0)
    else if (piece == PAWN) && capture && (MOVE_CAPTURED move == PAWN) then 140
    else 0.

Definition kb_unlocked_refine_bias (b : Board) (move : Move) (side : Color) : Z :=
  if (b_mod b != MOD_KINGS_BATTLE) || negb (b_kb_unlocked b) then 0
  else
    let quiet_pawn := (MOVE_PIECE move == PAWN) && negb (MOVE_IS_CAPTURE move) &&
                      negb (MOVE_IS_EP move) && negb (MOVE_IS_PROMO move) in
    let opp := color_opposite side in
    if search_kb_unlocked_is_king_safety_move b move side then 140
    else if search_kb_unlocked_is_shelter_move b move side then 90
    else if search_kb_unlocked_is_development_move b move side then 60
    else if search_kb_unlocked_is_queen_pressure_move b move side then 50
    else if quiet_pawn && negb (pcs b side KING =? BB_EMPTY) && negb (pcs b opp QUEEN =? BB_EMPTY) then
      let king_sq := bb_lsb (pcs b side KING) in
      let opp_queen_sq := bb_lsb (pcs b opp QUEEN) in
      let dr := Z.abs (SQ_ROW king_sq - SQ_ROW opp_queen_sq) in
      let dc := Z.abs (SQ_COL king_sq - SQ_COL opp_queen_sq) in
      let dist := if dc <? dr then dr else dc in
      if dist <=? 4 then -120 else 0
    else 0.

(** ** Known positions *)

Definition kb_phase1_rules_1 : list Rule := [
  mkRule BLACK None None
    [(SQ 4 2, BLACK, KING); (SQ 3 4, WHITE, KING); (SQ 6 1, BLACK, PAWN);
     (SQ 6 2, BLACK, PAWN); (SQ 6 3, BLACK, PAWN)]
    (mkStep (SQ 6 1) (SQ 5 1) PAWN) None;
  mkRule BLACK None None
    [(SQ 5 1, BLACK, KING); (SQ 2 4, WHITE, KING); (SQ 6 5, BLACK, PAWN);
     (SQ 4 4, WHITE, PAWN)]
    (mkStep (SQ 6 5) (SQ 4 5) PAWN) None;
  mkRule BLACK None None
    [(SQ 5 2, BLACK, KING); (SQ 3 3, WHITE, KING); (SQ 4 0, WHITE, PAWN);
     (SQ 4 1, BLACK, PAWN); (SQ 6 4, BLACK, PAWN); (SQ 5 5, BLACK, PAWN);
     (SQ 5 6, BLACK, PAWN)]
    (mkStep (SQ 6 4) (SQ 4 4) PAWN) None;
  mkRule BLACK None None
    [(SQ 5 5, BLACK, KING); (SQ 4 1, WHITE, KING); (SQ 5 1, BLACK, PAWN);
     (SQ 5 3, BLACK, PAWN); (SQ 6 4, BLACK, PAWN); (SQ 5 6, BLACK, PAWN);
     (SQ 4 0, WHITE, PAWN); (SQ 3 5, WHITE, PAWN)]
    (mkStep (SQ 6 4) (SQ 4 4) PAWN) None;
  mkRule WHITE None None
    [(SQ 3 5, WHITE, KING); (SQ 5 3, BLACK, KING); (SQ 3 3, WHITE, PAWN);
     (SQ 3 6, WHITE, PAWN); (SQ 4 5, BLACK, PAWN); (SQ 1 4, WHITE, PAWN)]
    (mkStep (SQ 1 4) (SQ 2 4) PAWN) None;
  mkRule BLACK None None
    [(SQ 5 3, BLACK, KING); (SQ 3 3, WHITE, KING); (SQ 4 3, BLACK, PAWN);
     (SQ 6 2, BLACK, PAWN); (SQ 4 6, BLACK, PAWN); (SQ 3 2, WHITE, PAWN)]
    (mkStep (SQ 6 2) (SQ 4 2) PAWN) None;
  mkRule BLACK None None
    [(SQ 5 3, BLACK, KING); (SQ 3 3, WHITE, KING); (SQ 6 4, BLACK, PAWN);
     (SQ 5 5, BLACK, PAWN); (SQ 5 6, BLACK, PAWN); (SQ 3 1, WHITE, PAWN);
     (SQ 2 2, WHITE, PAWN)]
    (mkStep (SQ 6 4) (SQ 4 4) PAWN) None;
  mkRule WHITE None None
    [(SQ 2 4, WHITE, KING); (SQ 5 4, BLACK, KING); (SQ 3 3, WHITE, PAWN);
     (SQ 4 5, BLACK, PAWN); (SQ 1 2, WHITE, PAWN)]
    (mkStep (SQ 1 2) (SQ 2 2) PAWN) None;
  mkRule BLACK None None
    [(SQ 5 5, BLACK, KING); (SQ 3 4, WHITE, KING); (SQ 4 2, BLACK, PAWN);
     (SQ 6 3, BLACK, PAWN); (SQ 3 3, WHITE, PAWN); (SQ 2 4, WHITE, PAWN)]
    (mkStep (SQ 6 3) (SQ 4 3) PAWN) None;
  mkRule BLACK None None
    [(SQ 5 3, BLACK, KING); (SQ 3 4, WHITE, KING); (SQ 4 4, BLACK, PAWN);
     (SQ 6 5, BLACK, PAWN); (SQ 3 5, WHITE, PAWN); (SQ 2 3, WHITE, PAWN)]
    (mkStep (SQ 6 5) (SQ 4 5) PAWN) None;
  mkRule WHITE None None
    [(SQ 2 5, WHITE, KING); (SQ 4 3, BLACK, KING); (SQ 4 4, BLACK, PAWN);
     (SQ 4 5, BLACK, PAWN); (SQ 3 5, WHITE, PAWN); (SQ 2 3, WHITE, PAWN);
     (SQ 1 4, WHITE, PAWN)]
    (mkStep (SQ 1 4) (SQ 3 4) PAWN) None;
  mkRule BLACK None None
    [(SQ 5 2, BLACK, KING); (SQ 3 4, WHITE, KING); (SQ 4 4, BLACK, PAWN);
     (SQ 5 1, BLACK, PAWN); (SQ 6 5, BLACK, PAWN); (SQ 3 2, WHITE, PAWN);
     (SQ 2 3, WHITE, PAWN); (SQ 2 6, WHITE, PAWN)]
    (mkStep (SQ 6 5) (SQ 5 5) PAWN) None
].

Definition kb_phase1_rules_2 : list Rule := [
  mkRule BLACK None None
    [(SQ 4 2, BLACK, KING); (SQ 3 4, WHITE, KING); (SQ 6 3, BLACK, PAWN);
     (SQ 5 5, BLACK, PAWN); (SQ 5 2, BLACK, PAWN); (SQ 5 1, BLACK, PAWN);
     (SQ 4 0, BLACK, PAWN); (SQ 4 4, WHITE, PAWN)]
    (mkStep (SQ 6 3) (SQ 4 3) PAWN) None;
  mkRule BLACK None None
    [(SQ 5 4, BLACK, KING); (SQ 4 2, WHITE, KING); (SQ 4 7, BLACK, PAWN);
     (SQ 5 6, BLACK, PAWN); (SQ 4 3, BLACK, PAWN); (SQ 3 1, WHITE, PAWN);
     (SQ 2 2, WHITE, PAWN); (SQ 2 3, WHITE, PAWN); (SQ 2 4, WHITE, PAWN);
     (SQ 3 5, WHITE, PAWN)]
    (mkStep (SQ 4 7) (SQ 3 7) PAWN) None;
  mkRule BLACK None None
    [(SQ 5 4, BLACK, KING); (SQ 3 4, WHITE, KING); (SQ 4 2, BLACK, PAWN);
     (SQ 6 5, BLACK, PAWN); (SQ 3 3, WHITE, PAWN); (SQ 1 2, WHITE, PAWN)]
    (mkStep (SQ 6 5) (SQ 4 5) PAWN) None;
  mkRule BLACK None None
    [(SQ 3 4, BLACK, KING); (SQ 4 2, WHITE, KING); (SQ 4 4, BLACK, PAWN);
     (SQ 4 5, BLACK, PAWN); (SQ 6 6, BLACK, PAWN); (SQ 3 3, WHITE, PAWN)]
    (mkStep (SQ 6 6) (SQ 5 6) PAWN) None;
  mkRule WHITE None None
    [(SQ 3 4, WHITE, KING); (SQ 5 3, BLACK, KING); (SQ 3 2, WHITE, PAWN);
     (SQ 3 3, WHITE, PAWN); (SQ 3 6, WHITE, PAWN); (SQ 2 5, WHITE, PAWN);
     (SQ 4 4, BLACK, PAWN); (SQ 5 5, BLACK, PAWN)]
    (mkStep (SQ 3 2) (SQ 4 2) PAWN) None;
  mkRule BLACK None None
    [(SQ 5 4, BLACK, KING); (SQ 3 4, WHITE, KING); (SQ 6 3, BLACK, PAWN);
     (SQ 5 2, BLACK, PAWN); (SQ 4 4, BLACK, PAWN); (SQ 5 5, BLACK, PAWN);
     (SQ 3 2, WHITE, PAWN); (SQ 3 3, WHITE, PAWN); (SQ 3 6, WHITE, PAWN);
     (SQ 2 5, WHITE, PAWN)]
    (mkStep (SQ 6 3) (SQ 4 3) PAWN) None;
  mkRule BLACK None None
    [(SQ 5 4, BLACK, KING); (SQ 3 4, WHITE, KING); (SQ 5 3, BLACK, PAWN);
     (SQ 4 2, BLACK, PAWN); (SQ 4 6, BLACK, PAWN); (SQ 5 5, BLACK, PAWN);
     (SQ 3 5, WHITE, PAWN); (SQ 3 6, WHITE, PAWN); (SQ 2 3, WHITE, PAWN);
     (SQ 2 4, WHITE, PAWN)]
    (mkStep (SQ 5 3) (SQ 4 3) PAWN) None;
  mkRule WHITE None None
    [(SQ 3 2, WHITE, KING); (SQ 3 4, BLACK, KING); (SQ 3 3, WHITE, PAWN);
     (SQ 4 4, BLACK, PAWN); (SQ 4 5, BLACK, PAWN); (SQ 2 0, WHITE, PAWN)]
    (mkStep (SQ 3 3) (SQ 4 3) PAWN) None;
  mkRule WHITE None None
    [(SQ 3 6, WHITE, PAWN); (SQ 4 3, BLACK, PAWN); (SQ 1 5, WHITE, PAWN);
     (SQ 1 4, WHITE, PAWN); (SQ 1 3, WHITE, PAWN)]
    (mkStep (SQ 1 5) (SQ 2 5) PAWN) None;
  mkRule BLACK None None
    [(SQ 4 2, BLACK, KING); (SQ 4 5, WHITE, KING); (SQ 6 5, BLACK, PAWN);
     (SQ 4 4, BLACK, PAWN); (SQ 5 3, BLACK, PAWN); (SQ 4 1, BLACK, PAWN);
     (SQ 3 6, WHITE, PAWN); (SQ 2 4, WHITE, PAWN)]
    (mkStep (SQ 6 5) (SQ 5 5) PAWN) None;
  mkRule WHITE None None
    [(SQ 3 2, WHITE, KING); (SQ 3 4, BLACK, KING); (SQ 1 4, WHITE, PAWN);
     (SQ 1 0, WHITE, PAWN); (SQ 4 5, BLACK, PAWN); (SQ 5 4, BLACK, PAWN)]
    (mkStep (SQ 1 4) (SQ 2 4) PAWN) None;
  mkRule WHITE None None
    [(SQ 3 2, WHITE, KING); (SQ 3 4, BLACK, KING); (SQ 3 3, WHITE, PAWN);
     (SQ 2 4, WHITE, PAWN); (SQ 1 5, WHITE, PAWN); (SQ 1 0, WHITE, PAWN);
     (SQ 4 4, BLACK, PAWN); (SQ 4 5, BLACK, PAWN)]
    (mkStep (SQ 1 5) (SQ 2 5) PAWN) None
].

Definition kb_phase1_rules_3 : list Rule := [
  mkRule WHITE None None
    [(SQ 3 2, WHITE, KING); (SQ 4 4, BLACK, KING); (SQ 1 3, WHITE, PAWN);
     (SQ 3 1, WHITE, PAWN); (SQ 2 2, WHITE, PAWN); (SQ 4 2, BLACK, PAWN);
     (SQ 5 3, BLACK, PAWN); (SQ 5 4, BLACK, PAWN); (SQ 4 5, BLACK, PAWN)]
    (mkStep (SQ 1 3) (SQ 3 3) PAWN) None;
  mkRule WHITE None None
    [(SQ 2 3, WHITE, KING); (SQ 1 7, BLACK, KING); (SQ 1 6, WHITE, PAWN);
     (SQ 3 4, WHITE, PAWN); (SQ 3 3, WHITE, PAWN); (SQ 3 1, WHITE, PAWN);
     (SQ 3 7, WHITE, PAWN); (SQ 4 5, BLACK, PAWN); (SQ 4 3, BLACK, PAWN);
     (SQ 5 4, BLACK, PAWN)]
    (mkStep (SQ 1 6) (SQ 3 6) PAWN) None;
  mkRule WHITE None None
    [(SQ 2 4, WHITE, KING); (SQ 5 2, BLACK, KING); (SQ 2 6, WHITE, PAWN);
     (SQ 3 1, WHITE, PAWN); (SQ 3 2, WHITE, PAWN); (SQ 4 2, BLACK, PAWN);
     (SQ 4 4, BLACK, PAWN); (SQ 4 5, BLACK, PAWN); (SQ 2 0, WHITE, PAWN)]
    (mkStep (SQ 2 6) (SQ 3 6) PAWN) None
].

Definition kb_phase1_regression_override_move (b : Board) (ml : MoveList) : Move :=
  if (b_mod b != MOD_KINGS_BATTLE) || b_kb_unlocked b then MOVE_NONE
  else first_rule b ml MOVE_NONE (kb_phase1_rules_1 ++ kb_phase1_rules_2 ++ kb_phase1_rules_3).

Definition kb_unlocked_rules : list Rule := [
  mkRule BLACK None None
    [(SQ 5 2, BLACK, KING); (SQ 2 5, WHITE, KING); (SQ 4 4, WHITE, PAWN);
     (SQ 7 3, BLACK, QUEEN)]
    (mkStep (SQ 5 2) (SQ 5 1) KING) None;
  mkRule WHITE None None
    [(SQ 4 1, WHITE, QUEEN); (SQ 2 4, WHITE, KING); (SQ 5 3, BLACK, KING);
     (SQ 6 3, BLACK, QUEEN); (SQ 4 3, BLACK, PAWN); (SQ 4 5, BLACK, BISHOP);
     (SQ 3 3, WHITE, PAWN)]
    (mkStep (SQ 4 1) (SQ 4 3) QUEEN) None
].

(** The third entry also asks that a square be unattacked. *)
Definition kb_unlocked_regression_override_move (b : Board) (ml : MoveList) : Move :=
  if (b_mod b != MOD_KINGS_BATTLE) || negb (b_kb_unlocked b) then MOVE_NONE
  else
    let move := first_rule b ml MOVE_NONE kb_unlocked_rules in
    if negb (move =? MOVE_NONE) then move
    else if (b_side b == WHITE) &&
            bridge_square_has_piece b (SQ 2 3) WHITE KING &&
            bridge_square_has_piece b (SQ 0 3) WHITE QUEEN &&
            bridge_square_has_piece b (SQ 4 2) BLACK KING &&
            bridge_square_has_piece b (SQ 7 3) BLACK QUEEN &&
            bridge_square_has_piece b (SQ 3 2) WHITE PAWN &&
            negb (board_square_attacked b (SQ 2 3) BLACK)
         then bridge_find_legal_move ml (SQ 3 0) (SQ 2 1) QUEEN
         else MOVE_NONE.

(** ** The locked phase *)

Definition kb_phase1_suspicious_root (b : Board) (best : Move) (side : Color) : bool :=
  let from_rank := search_kb_phase1_forward_rank side (MOVE_FROM best) in
  let to_rank := search_kb_phase1_forward_rank side (MOVE_TO best) in
  let suspicious_root :=
    (MOVE_PIECE best == KING) ||
    ((MOVE_PIECE best == PAWN) && negb (MOVE_IS_CAPTURE best) && negb (MOVE_IS_EP best) &&
     (to_rank <=? 2)) in
  if negb suspicious_root && (MOVE_PIECE best == PAWN) && negb (MOVE_IS_CAPTURE best) &&
     negb (MOVE_IS_EP best) && negb (MOVE_IS_PROMO best) then
    let king_rank := kb_phase1_king_forward_rank b side in
    let file := SQ_COL (MOVE_FROM best) in
    search_kb_phase1_any_pawn_capture_available b side ||
    ((3 <=? from_rank) && (from_rank <? to_rank)) ||
    ((from_rank =? 1) && (to_rank =? 3) && (2 <=? file) && (file <=? 5) && (2 <=? king_rank))
  else suspicious_root.

Definition kb_phase1_accept (b : Board) (move : Move) : option Z :=
  let priority := kb_phase1_candidate_priority b move (b_side b) in
  if priority <=? -220 then None else Some priority.

(** A pawn that steps up in front of the king. *)
Definition kb_phase1_shelter_pawn (side : Color) (king_file : Z) (move : Move) : bool :=
  if (MOVE_PIECE move != PAWN) || special move then false
  else
    let file := SQ_COL (MOVE_FROM move) in
    let from_rank := search_kb_phase1_forward_rank side (MOVE_FROM move) in
    let to_rank := search_kb_phase1_forward_rank side (MOVE_TO move) in
    if negb (from_rank =? 1) || negb (to_rank =? 2) then false
    else if 1 <? Z.abs (file - king_file) then false
    else true.

(** The loop over the candidates after the first: the verified shelter move
    farthest from the enemy king, with its distance. *)
Definition kb_phase1_best_shelter (side : Color) (king_file enemy_king_file : Z) (rest : list (Move * Z))
    : option (Move * Z * Z) :=
  fold_left (fun best c =>
    if negb (kb_phase1_shelter_pawn side king_file c.1) then best
    else
      let dist := Z.abs (SQ_COL (MOVE_FROM c.1) - enemy_king_file) in
      match best with
      | None => Some (c, dist)
      | Some (c0, best_shelter_dist) =>
          if (best_shelter_dist <? dist) || ((dist =? best_shelter_dist) && (c0.2 <? c.2))
          then Some (c, dist) else best
      end) rest None.

(** The choice once the kings are taken into account, with its adjusted score. *)
Definition kb_phase1_sheltered (b : Board) (side : Color) (first : Move * Z) (rest : list (Move * Z))
    (choice : Move * Z) (best_adjusted : Z) : (Move * Z) * Z :=
  if negb (pcs b side KING =? BB_EMPTY) && negb (pcs b (color_opposite side) KING =? BB_EMPTY) then
    if 3 <=? kb_phase1_king_forward_rank b side then
      let king_file := SQ_COL (bb_lsb (pcs b side KING)) in
      let enemy_king_file := SQ_COL (bb_lsb (pcs b (color_opposite side) KING)) in
      match kb_phase1_best_shelter side king_file enemy_king_file rest with
      | Some (c, _) =>
          if first.2 - 140 <=? c.2 then (c, c.2 + kb_phase1_refine_bias b c.1 side + 200)
          else (choice, best_adjusted)
      | None => (choice, best_adjusted)
      end
    else (choice, best_adjusted)
  else (choice, best_adjusted).

Section Refine.
Context {C : Clock} {V : Verifier}.

(** From the candidate loop on: [suspicious_root] holds, so there is room for
    14 candidates and the longer of the two verification times applies. *)
Definition kb_phase1_verify (b : Board) (ml : MoveList) (raw : SearchResult)
    (time_ms max_depth skill_level : Z) : M SearchResult :=
  let best := r_best_move raw in
  let side := b_side b in
  let candidates := gather 14 (kb_phase1_accept b) ml (first_candidate best) in
  if bool_decide (length candidates <= 1)%nat then mret raw
  else
    let verify_depth := if max_depth <? 6 then 6 else max_depth in
    let verify_time := if time_ms <=? 0 then 200 else clamp_int ((time_ms * 3) ÷ 2) 140 220 in
    verified ← verify_all false b verify_time verify_depth skill_level (map fst candidates);
    match verified with
    | [] => mret raw
    | first :: rest =>
        let adjusted c := c.2 + kb_phase1_refine_bias b c.1 side in
        let choice := pick_best adjusted first rest in
        let '(choice, best_adjusted) := kb_phase1_sheltered b side first rest choice (adjusted choice) in
        if (choice.1 =? best) || (best_adjusted <? adjusted first + 2) then mret raw
        else mret (with_choice raw choice)
    end.

Definition kb_refine_phase1_result (b : Board) (raw : SearchResult)
    (time_ms max_depth skill_level : Z) : M SearchResult :=
  let best := r_best_move raw in
  if (b_mod b != MOD_KINGS_BATTLE) || b_kb_unlocked b || (skill_level <? 4) || (best =? MOVE_NONE)
  then mret raw
  else
    let side := b_side b in
    let fast := fast_mode time_ms max_depth in
    let ml := generate_moves b in
    let regression_override :=
      if bool_decide (1 < length ml)%nat then kb_phase1_regression_override_move b ml else MOVE_NONE in
    if fast && negb (regression_override =? MOVE_NONE) then mret (with_move raw regression_override)
    else if search_kb_full_skill_variety_enabled b then mret raw
    else if negb fast then mret raw
    else if negb (kb_phase1_suspicious_root b best side) then mret raw
    else if bool_decide (length ml <= 1)%nat then mret raw
    else
      let regression_override := kb_phase1_regression_override_move b ml in
      if negb (regression_override =? MOVE_NONE) then mret (with_move raw regression_override)
      else kb_phase1_verify b ml raw time_ms max_depth skill_level.

(** ** The unlocked phase *)

Definition kb_unlocked_include (b : Board) (m : Move) : bool :=
  MOVE_IS_PROMO m || MOVE_IS_CAPTURE m || MOVE_IS_EP m ||
  search_kb_unlocked_is_queen_pressure_move b m (b_side b) ||
  search_kb_unlocked_is_king_safety_move b m (b_side b) ||
  search_kb_unlocked_is_shelter_move b m (b_side b) ||
  search_kb_unlocked_is_development_move b m (b_side b).

Definition kb_refine_unlocked_result (b : Board) (raw : SearchResult)
    (time_ms max_depth skill_level : Z) : M SearchResult :=
  let best := r_best_move raw in
  if (b_mod b != MOD_KINGS_BATTLE) || negb (b_kb_unlocked b) || (skill_level <? 4) || (max_depth <=? 1) ||
     (best =? MOVE_NONE) then mret raw
  else
    let side := b_side b in
    if negb (fast_mode time_ms max_depth) then mret raw
    else
      let ml := generate_moves b in
      if bool_decide (length ml <= 1)%nat then mret raw
      else
        let regression_override := kb_unlocked_regression_override_move b ml in
        if negb (regression_override =? MOVE_NONE) then mret (with_move raw regression_override)
        else if negb ((MOVE_PIECE best == KING) || (kb_unlocked_refine_bias b best side <? 0)) then mret raw
        else
          let candidates := collect 12 (kb_unlocked_include b) ml [best] in
          if bool_decide (length candidates <= 1)%nat then mret raw
          else
            let verify_depth := if max_depth <=? 4 then 4 else max_depth - 2 in
            let verify_time := if time_ms <=? 0 then 100 else clamp_int ((time_ms * 3) ÷ 4) 80 120 in
            verified ← verify_all false b verify_time verify_depth skill_level candidates;
            match verified with
            | [] => mret raw
            | first :: rest =>
                let adjusted c := c.2 + kb_unlocked_refine_bias b c.1 side in
                let choice := pick_best adjusted first rest in
                if (choice.1 =? best) || (adjusted choice <? adjusted first + 8) then mret raw
                else mret (with_choice raw choice)
            end.
End Refine.
