(* ===== verification/BridgeFriendlyFire.v ===== *)
(** * Friendly Fire refinement ([bridge_friendly_fire.c]) *)

From stdpp Require Import base numbers list option.
From Stdlib Require Import ZArith Lia Bool.
From S2P Require Import Prelude Types Board Attacks Make Movegen EvalCommon HeurCommon HeurFriendlyFire SearchState SearchMonad Search BridgeCommon.

(** ** Known positions *)

Definition ff_rules : list Rule := [
  mkRule BLACK None None
    [(SQ 7 5, BLACK, KING); (SQ 3 1, BLACK, BISHOP); (SQ 3 7, BLACK, QUEEN);
     (SQ 1 5, WHITE, QUEEN); (SQ 0 4, WHITE, KING)]
    (mkStep (SQ 3 1) (SQ 6 4) BISHOP) None;
  mkRule WHITE None None
    [(SQ 0 4, WHITE, KING); (SQ 3 3, WHITE, QUEEN); (SQ 1 6, BLACK, QUEEN);
     (SQ 0 7, WHITE, ROOK)]
    (mkStep (SQ 0 7) (SQ 0 5) ROOK) None
].

Definition ff_regression_override_move (b : Board) (ml : MoveList) : Move :=
  if b_mod b != MOD_FRIENDLY_FIRE then MOVE_NONE else first_rule b ml MOVE_NONE ff_rules.

(** ** Distances *)

Definition ff_bridge_center_distance (sq : Square) : Z :=
  let row := SQ_ROW sq in
  let col := SQ_COL sq in
  let row_d3 := Z.abs (row - 3) in
  let row_d4 := Z.abs (row - 4) in
  let col_d3 := Z.abs (col - 3) in
  let col_d4 := Z.abs (col - 4) in
  let row_dist := if row_d3 <? row_d4 then row_d3 else row_d4 in
  let col_dist := if col_d3 <? col_d4 then col_d3 else col_d4 in
  row_dist + col_dist.

Definition ff_bridge_chebyshev_distance (a b : Square) : Z :=
  let row_dist := Z.abs (SQ_ROW a - SQ_ROW b) in
  let col_dist := Z.abs (SQ_COL a - SQ_COL b) in
  if col_dist <? row_dist then row_dist else col_dist.

Definition ff_bridge_is_central_square (sq : Square) : bool :=
  (2 <=? SQ_ROW sq) && (SQ_ROW sq <=? 5) && (2 <=? SQ_COL sq) && (SQ_COL sq <=? 5).

Definition ff_bridge_pawn_shield_count (b : Board) (side : Color) (king_sq : Square) : Z :=
  let row := SQ_ROW king_sq in
  let col := SQ_COL king_sq in
  let next_row := row + fwd side in
  if (next_row <? 0) || (7 <? next_row) then 0
  else fold_left (fun shield dc =>
    let next_col := col + dc in
    if (next_col <? 0) || (7 <? next_col) then shield
    else if BB_HAS (pcs b side PAWN) (SQ next_row next_col) then shield + 1 else shield) [-1; 0; 1] 0.

(** ** Captures *)

(** The moves the helpers below look at: captures of enemy men that are
    neither en passant nor promotions. *)
Definition ff_enemy_capture (b : Board) (move : Move) : bool :=
  negb ((b_mod b != MOD_FRIENDLY_FIRE) || negb (MOVE_IS_CAPTURE move) || MOVE_IS_EP move ||
        MOVE_IS_PROMO move || search_ff_is_own_capture b move).

Definition ff_bridge_minor_capture_priority (b : Board) (move : Move) (side : Color) : Z :=
  if negb (ff_enemy_capture b move) || (MOVE_CAPTURED move != PAWN) then 0
  else
    let piece := MOVE_PIECE move in
    if (piece != KNIGHT) && (piece != BISHOP) then 0
    else
      let from_sq := MOVE_FROM move in
      let to_sq := MOVE_TO move in
      let opp := color_opposite side in
      let occ := Z.lxor (b_all b) (BB_SQ from_sq) in
      let attacks := if piece == KNIGHT then knight_attacks to_sq else bishop_attacks_calc to_sq occ in
      let score := if ff_bridge_is_central_square to_sq then 84 else 0 in
      let score :=
        if ff_bridge_center_distance to_sq <? ff_bridge_center_distance from_sq
        then score + 24 * (ff_bridge_center_distance from_sq - ff_bridge_center_distance to_sq)
        else score in
      let score := if negb (Z.land attacks (pcs b opp QUEEN) =? 0) then score + 72 else score in
      let score := score + 40 * bb_popcount (Z.land attacks (pcs b opp ROOK)) in
      let score := score + 30 * bb_popcount (Z.land attacks (Z.lor (pcs b opp BISHOP) (pcs b opp KNIGHT))) in
      let score := score + 12 * bb_popcount (Z.land attacks (pcs b opp PAWN)) in
      let enemy_king := pcs b opp KING in
      if negb (enemy_king =? BB_EMPTY) then
        let king_sq := bb_lsb enemy_king in
        let king_zone := Z.lor (king_attacks king_sq) (BB_SQ king_sq) in
        score + 14 * bb_popcount (Z.land attacks king_zone) + (if BB_HAS attacks king_sq then 32 else 0)
      else score.

Definition ff_bridge_loose_minor_capture (b : Board) (move : Move) (side : Color) : bool :=
  if negb (ff_enemy_capture b move) then false
  else if (MOVE_PIECE move != KNIGHT) && (MOVE_PIECE move != BISHOP) then false
  else if negb (captured_at_least KNIGHT move) then false
  else
    let child := board_make_move b move in
    let to_sq := MOVE_TO move in
    board_square_attacked child to_sq (b_side child) && negb (board_square_attacked child to_sq side).

(** A capture by queen or rook of the same man that is safe or protected. *)
Definition ff_safe_heavy_capture (b : Board) (move : Move) (side : Color) (alt : Move) : bool :=
  let target_sq := MOVE_TO move in
  if alt =? move then false
  else if negb (is_capture alt) || MOVE_IS_PROMO alt then false
  else if search_ff_is_own_capture b alt || negb (MOVE_TO alt =? target_sq) ||
          (MOVE_CAPTURED alt != MOVE_CAPTURED move) then false
  else if (MOVE_PIECE alt != QUEEN) && (MOVE_PIECE alt != ROOK) then false
  else
    let child := board_make_move b alt in
    negb (board_square_attacked child target_sq (b_side child)) || board_square_attacked child target_sq side.

Definition ff_bridge_pawn_capture_has_safe_heavy_alternative (b : Board) (move : Move) (side : Color) : bool :=
  if negb (ff_enemy_capture b move) then false
  else if (MOVE_PIECE move != PAWN) || negb (captured_at_least KNIGHT move) then false
  else existsb (ff_safe_heavy_capture b move side) (generate_moves b).

(** ** Rook moves that shield the king *)

Definition ff_bridge_rook_firebreak_priority (b : Board) (move : Move) (side : Color) : Z :=
  if (b_mod b != MOD_FRIENDLY_FIRE) || (MOVE_PIECE move != ROOK) || special move then 0
  else
    let opp := color_opposite side in
    let king_bb := pcs b side KING in
    let enemy_queen_bb := pcs b opp QUEEN in
    if (king_bb =? BB_EMPTY) || (enemy_queen_bb =? BB_EMPTY) then 0
    else
      let king_sq := bb_lsb king_bb in
      let queen_sq := bb_lsb enemy_queen_bb in
      let from_sq := MOVE_FROM move in
      let to_sq := MOVE_TO move in
      let home_rank := back_rank side in
      if negb (SQ_ROW king_sq =? home_rank) || negb (SQ_ROW from_sq =? home_rank) ||
         negb (SQ_ROW to_sq =? home_rank) then 0
      else if 3 <? ff_bridge_chebyshev_distance queen_sq king_sq then 0
      else
        let from_dist := Z.abs (SQ_COL from_sq - SQ_COL king_sq) in
        let to_dist := Z.abs (SQ_COL to_sq - SQ_COL king_sq) in
        if from_dist <=? to_dist then 0
        else
          let from_attacked := board_square_attacked b from_sq opp in
          let king_hot := board_square_attacked b king_sq opp in
          let child := board_make_move b move in
          let to_attacked := board_square_attacked child to_sq opp in
          let next_king_hot := board_square_attacked child king_sq opp in
          if negb from_attacked && negb to_attacked && negb king_hot && negb next_king_hot then 0
          else
            let score := 28 * (from_dist - to_dist) in
            let score := if from_attacked then score + 28 else score in
            let score := if to_attacked then score + 16 else score in
            let score := if king_hot && negb next_king_hot then score + 56 else score in
            if negb king_hot && next_king_hot then 0 else score.

Definition ff_bridge_has_strong_rook_firebreak (b : Board) (side : Color) : bool :=
  if b_mod b != MOD_FRIENDLY_FIRE then false
  else existsb (fun move =>
         if (MOVE_PIECE move != ROOK) || special move then false
         else 0 <? ff_bridge_rook_firebreak_priority b move side) (generate_moves b).

Definition ff_bridge_unsafe_queen_pawn_grab (b : Board) (move : Move) (side : Color) : bool :=
  if negb (ff_enemy_capture b move) then false
  else if (MOVE_PIECE move != QUEEN) || (MOVE_CAPTURED move != PAWN) then false
  else
    let opp := color_opposite side in
    let king_bb := pcs b side KING in
    let enemy_queen_bb := pcs b opp QUEEN in
    if (king_bb =? BB_EMPTY) || (enemy_queen_bb =? BB_EMPTY) then false
    else
      let king_sq := bb_lsb king_bb in
      let enemy_queen_sq := bb_lsb enemy_queen_bb in
      if 3 <? ff_bridge_chebyshev_distance enemy_queen_sq king_sq then false
      else
        let from_sq := MOVE_FROM move in
        let to_sq := MOVE_TO move in
        let from_dist := ff_bridge_chebyshev_distance from_sq king_sq in
        let to_dist := ff_bridge_chebyshev_distance to_sq king_sq in
        let child := board_make_move b move in
        let king_hot := board_square_attacked b king_sq opp in
        let next_king_hot := board_square_attacked child king_sq opp in
        let queen_attacked := board_square_attacked child to_sq (b_side child) in
        let queen_defended := board_square_attacked child to_sq side in
        if negb king_hot && next_king_hot then true
        else if queen_attacked && negb queen_defended then true
        else if ff_bridge_has_strong_rook_firebreak b side && (from_dist <=? to_dist) then true
        else from_dist <? to_dist.

(** ** Quiet moves *)

Definition ff_bridge_quiet_minor_activity_score (b : Board) (move : Move) (side : Color) : Z :=
  if (b_mod b != MOD_FRIENDLY_FIRE) || special move then 0
  else
    let piece := MOVE_PIECE move in
    if (piece != KNIGHT) && (piece != BISHOP) then 0
    else if 112 <=? search_ff_pawn_challenge_penalty b move side then 0
    else
      let from_sq := MOVE_FROM move in
      let to_sq := MOVE_TO move in
      let from_center := ff_bridge_center_distance from_sq in
      let to_center := ff_bridge_center_distance to_sq in
      (if ff_bridge_is_central_square to_sq then (if piece == KNIGHT then 64 else 40) else 0) +
      (if to_center <? from_center then 24 * (from_center - to_center) else 0) +
      (if (piece == KNIGHT) && ((SQ_COL from_sq <=? 1) || (6 <=? SQ_COL from_sq)) &&
          (2 <=? SQ_COL to_sq) && (SQ_COL to_sq <=? 5) then 18 else 0) +
      (if (piece == BISHOP) && ff_bridge_is_central_square to_sq &&
          negb (SQ_ROW from_sq =? back_rank side) then 16 else 0).

(** The bonus for the man on one of the two squares the pawn attacks. *)
Definition ff_harass_bonus (b : Board) (side : Color) (attack_row attack_col : Z) : Z :=
  if (attack_col <? 0) || (7 <? attack_col) then 0
  else
    let target_sq := SQ attack_row attack_col in
    let target := mb b target_sq in
    if (target =? PIECE_EMPTY) || (PIECE_COLOR target != color_opposite side) then 0
    else
      let bonus := match PIECE_TYPE target with
                   | QUEEN => 64
                   | ROOK => 48
                   | BISHOP | KNIGHT => 40
                   | _ => 0
                   end in
      if bonus <=? 0 then 0
      else
        let bonus := if 3 <=? rel_row side target_sq then bonus + 18 else bonus in
        let king_bb := pcs b side KING in
        if negb (king_bb =? BB_EMPTY) && (ff_bridge_chebyshev_distance target_sq (bb_lsb king_bb) <=? 3)
        then bonus + 18 else bonus.

Definition ff_bridge_quiet_pawn_harass_priority (b : Board) (move : Move) (side : Color) : Z :=
  if (b_mod b != MOD_FRIENDLY_FIRE) || (MOVE_PIECE move != PAWN) || special move then 0
  else
    let from_sq := MOVE_FROM move in
    let to_sq := MOVE_TO move in
    if negb (rel_row side from_sq =? 1) then 0
    else
      let attack_row := SQ_ROW to_sq + fwd side in
      if (attack_row <? 0) || (7 <? attack_row) then 0
      else fold_left (fun best dc =>
             let bonus := ff_harass_bonus b side attack_row (SQ_COL to_sq + dc) in
             if best <? bonus then bonus else best) [-1; 1] 0.

(** ** Priorities *)

Definition ff_capture_priority (b : Board) (move : Move) (side : Color) : Z :=
  let score := ff_bridge_minor_capture_priority b move side in
  match MOVE_CAPTURED move with
  | QUEEN => 1650 + score
  | ROOK => 1500 + score
  | BISHOP | KNIGHT =>
      score + 1320 + (if MOVE_PIECE move == PAWN then 120 else 0) -
      (if MOVE_PIECE move == QUEEN then 80 else 0)
  | _ => score
  end.

Definition ff_candidate_priority (b : Board) (move : Move) (side : Color) : Z :=
  if b_mod b != MOD_FRIENDLY_FIRE then 0
  else if MOVE_IS_PROMO move then 10000
  else if search_ff_is_own_capture b move then
    1600 + search_ff_self_capture_score b move side + (if MOVE_CAPTURED move == PAWN then 200 else 0)
  else if is_capture move then ff_capture_priority b move side
  else
    search_ff_minor_development_score b move side +
    ff_bridge_quiet_minor_activity_score b move side +
    search_ff_king_safety_score b move side +
    search_ff_king_zone_guard_score b move side +
    search_ff_quiet_pawn_score b move side +
    ff_bridge_quiet_pawn_harass_priority b move side +
    search_ff_quiet_pressure_score b move side +
    search_ff_self_capture_prep_score b move side -
    search_ff_pawn_challenge_penalty b move side -
    search_ff_flank_pawn_harass_penalty b move side -
    search_ff_early_queen_sortie_penalty b move side.

(** ** Bare kings against one rook or queen *)

(** With the type of the heavy piece. *)
Definition ff_bridge_is_simple_conversion_endgame (b : Board) (side : Color) : option PieceType :=
  if b_mod b != MOD_FRIENDLY_FIRE then None
  else
    let opp := color_opposite side in
    if (pcs b side KING =? BB_EMPTY) || (pcs b opp KING =? BB_EMPTY) then None
    else
      let side_rooks := pcs b side ROOK in
      let side_queens := pcs b side QUEEN in
      let side_heavy := Z.lor side_rooks side_queens in
      if negb (bb_popcount side_heavy =? 1) then None
      else if negb (side_rooks =? BB_EMPTY) && negb (side_queens =? BB_EMPTY) then None
      else if negb (pcs b side PAWN =? BB_EMPTY) || negb (pcs b side KNIGHT =? BB_EMPTY) ||
              negb (pcs b side BISHOP =? BB_EMPTY) then None
      else
        let opp_non_king := Z.lor (Z.lor (Z.lor (Z.lor (pcs b opp PAWN) (pcs b opp KNIGHT))
                                    (pcs b opp BISHOP)) (pcs b opp ROOK)) (pcs b opp QUEEN) in
        if negb (opp_non_king =? BB_EMPTY) then None
        else Some (if negb (side_rooks =? BB_EMPTY) then ROOK else QUEEN).

(** [for (i = ply - 2; i >= 0; i -= 2)] over the undo stack. *)
Definition ff_repetition_hits (child : Board) : Z :=
  if 4 <=? b_ply child then
    fold_left (fun hits k =>
      if u_hash (hist child (b_ply child - 2 - 2 * k)) =? b_hash child then hits + 1 else hits)
      (seqZ 0 (b_ply child / 2)) 0
  else 0.

Definition ff_bridge_simple_endgame_tiebreak (b : Board) (move : Move) (side : Color) : Z :=
  match ff_bridge_is_simple_conversion_endgame b side with
  | None => 0
  | Some _ =>
      let child := board_make_move b move in
      let opp := color_opposite side in
      let own_before := bb_lsb (pcs b side KING) in
      let own_after := bb_lsb (pcs child side KING) in
      let enemy_before := bb_lsb (pcs b opp KING) in
      let enemy_after := bb_lsb (pcs child opp KING) in
      let dist_before := ff_bridge_chebyshev_distance own_before enemy_before in
      let dist_after := ff_bridge_chebyshev_distance own_after enemy_after in
      let score := 40 * (ff_bridge_center_distance enemy_after - ff_bridge_center_distance enemy_before) in
      let score := score + 44 * (dist_before - dist_after) in
      let gives_check := board_square_attacked child enemy_after side in
      let score := if gives_check then score + 96 else score in
      let repetition_hits := ff_repetition_hits child in
      let score := if 2 <=? repetition_hits then score - 1200
                   else if repetition_hits =? 1 then score - 320 else score in
      let replies := Z.of_nat (length (generate_moves child)) in
      if replies =? 0 then (if gives_check then 10000 else -10000)
      else
        let score := if replies <=? 2 then score + 60 else score in
        let score := if 7 <=? replies then score - 40 else score in
        let score := if (MOVE_PIECE move == KING) && (dist_after <? dist_before) then score + 24 else score in
        if (MOVE_PIECE move != KING) && negb gives_check && (dist_before <=? dist_after) &&
           (ff_bridge_center_distance enemy_after <=? ff_bridge_center_distance enemy_before)
        then score - 80 else score
  end.

(** The best of the verified moves by score, then by tiebreak. *)
Definition ff_endgame_best (tiebreak : Move -> Z) (raw : Move) (verified : list (Move * Z)) : (Move * Z) * Z :=
  fold_left (fun best c =>
    let '((_, best_score), best_tiebreak) := best in
    if (best_score <? c.2) || ((c.2 =? best_score) && (best_tiebreak <? tiebreak c.1))
    then (c, tiebreak c.1) else best) verified ((raw, -32000), -32000).

(** Score and tiebreak recorded for the move of the search. *)
Definition ff_endgame_raw (tiebreak : Move -> Z) (raw : Move) (verified : list (Move * Z)) : Z * Z :=
  fold_left (fun acc c => if c.1 =? raw then (c.2, tiebreak c.1) else acc) verified (-32000, -32000).

(** ** Which moves of the search to doubt *)

Definition ff_enemy_queen_close (b : Board) (side : Color) : bool :=
  negb (pcs b (color_opposite side) QUEEN =? BB_EMPTY) && negb (pcs b side KING =? BB_EMPTY) &&
  (ff_bridge_chebyshev_distance (bb_lsb (pcs b side KING)) (bb_lsb (pcs b (color_opposite side) QUEEN)) <=? 3).

Definition ff_king_move_suspicious (b : Board) (move : Move) (side : Color) : bool :=
  let king_safety := search_ff_king_safety_score b move side in
  let home_rank := back_rank side in
  let early_non_castle := negb (MOVE_IS_CASTLE move) && (b_fullmove b <=? 16) in
  let flank_tuck := (SQ_ROW (MOVE_TO move) =? home_rank) &&
                    ((SQ_COL (MOVE_TO move) <=? 2) || (5 <=? SQ_COL (MOVE_TO move))) in
  let shield := ff_bridge_pawn_shield_count b side (MOVE_TO move) in
  if MOVE_IS_CASTLE move && (b_fullmove b <=? 24) && ff_enemy_queen_close b side then true
  else (king_safety <? 80) || (early_non_castle && (king_safety <? 140)) ||
       (early_non_castle && flank_tuck && (shield <=? 1)).

Definition ff_root_looks_suspicious (b : Board) (move : Move) (side : Color) : bool :=
  if (b_mod b != MOD_FRIENDLY_FIRE) || (move =? MOVE_NONE) then false
  else
    let minor := (MOVE_PIECE move == KNIGHT) || (MOVE_PIECE move == BISHOP) in
    let takes_enemy := is_capture move && negb (MOVE_IS_PROMO move) && negb (search_ff_is_own_capture b move) in
    if takes_enemy && (MOVE_CAPTURED move == PAWN) && minor then true
    else if takes_enemy && captured_at_least KNIGHT move && minor then true
    else if ff_bridge_loose_minor_capture b move side then true
    else if ff_bridge_pawn_capture_has_safe_heavy_alternative b move side then true
    else if (MOVE_PIECE move == KING) && negb (special move) && ff_king_move_suspicious b move side then true
    else if (MOVE_PIECE move == QUEEN) && (0 <? search_ff_early_queen_sortie_penalty b move side) then true
    else if (MOVE_PIECE move == QUEEN) && MOVE_IS_CAPTURE move && negb (MOVE_IS_EP move) &&
            negb (MOVE_IS_PROMO move) && (MOVE_CAPTURED move == PAWN) && ff_enemy_queen_close b side then true
    else ff_candidate_priority b move side <=? 0.

(** A quiet rook move that shields the king is doubted when the queen could
    take a pawn instead. *)
Definition ff_rook_root_suspicious (b : Board) (ml : MoveList) (best : Move) : bool :=
  (MOVE_PIECE best == ROOK) && negb (MOVE_IS_CAPTURE best) && negb (MOVE_IS_EP best) &&
  negb (MOVE_IS_PROMO best) && (b_fullmove b <=? 24) &&
  (0 <? ff_bridge_rook_firebreak_priority b best (b_side b)) &&
  existsb (fun move =>
    negb ((MOVE_PIECE move != QUEEN) || negb (MOVE_IS_CAPTURE move) || MOVE_IS_EP move ||
          MOVE_IS_PROMO move || (MOVE_CAPTURED move != PAWN) || search_ff_is_own_capture b move)) ml.

(** The bishop move that comes closest to the king, with its priority. *)
Definition ff_forced_guard (b : Board) (ml : MoveList) : Move * Z :=
  let king_sq := bb_lsb (pcs b (b_side b) KING) in
  fold_left (fun acc move =>
    if (MOVE_PIECE move != BISHOP) || special move then acc
    else
      let from_dist := ff_bridge_chebyshev_distance (MOVE_FROM move) king_sq in
      let to_dist := ff_bridge_chebyshev_distance (MOVE_TO move) king_sq in
      let proximity_gain := from_dist - to_dist in
      if (proximity_gain <=? 0) || (2 <? to_dist) then acc
      else
        let priority := proximity_gain * 100 - ff_bridge_center_distance (MOVE_TO move) in
        if acc.2 <? priority then (move, priority) else acc) ml (MOVE_NONE, -32000).

(** ** Candidates *)

(** What the loop needs to know of the move of the search. *)
Record FfRoot := mkFfRoot {
  fr_best : Move;
  fr_priority : Z;
  fr_tactical : bool;
  fr_king_quiet : bool;
  fr_unsafe_grab : bool;
  fr_queen_close : bool
}.

Definition ff_root (b : Board) (best : Move) : FfRoot :=
  let raw_is_king_quiet := (MOVE_PIECE best == KING) && negb (MOVE_IS_CAPTURE best) &&
                           negb (MOVE_IS_EP best) && negb (MOVE_IS_PROMO best) in
  mkFfRoot best (ff_candidate_priority b best (b_side b)) (special best) raw_is_king_quiet
    (ff_bridge_unsafe_queen_pawn_grab b best (b_side b))
    (raw_is_king_quiet && ff_enemy_queen_close b (b_side b)).

(** The priority of an alternative; [None] when it is passed over. *)
Definition ff_alternative_priority (b : Board) (r : FfRoot) (move : Move) : option Z :=
  let priority := ff_candidate_priority b move (b_side b) in
  if fr_king_quiet r && fr_queen_close r && (MOVE_PIECE move == PAWN) && negb (special move) then None
  else
    let priority :=
      if fr_king_quiet r then
        let guard_score := search_ff_king_zone_guard_score b move (b_side b) in
        if 0 <? guard_score then
          priority + (guard_score + 60) + (if MOVE_PIECE move == BISHOP then 80 else 0) +
          (if MOVE_PIECE move == ROOK then 40 else 0)
        else priority
      else priority in
    let priority :=
      if fr_unsafe_grab r then
        let bridge_priority := ff_bridge_rook_firebreak_priority b move (b_side b) in
        if (0 <? bridge_priority) && (priority <? bridge_priority + 96) then bridge_priority + 96
        else priority
      else priority in
    if priority <=? 0 then None else Some priority.

(** An alternative that makes the move of the search look doubtful. *)
Definition ff_raises_doubt (b : Board) (r : FfRoot) (move : Move) (priority : Z) : bool :=
  (fr_tactical r && MOVE_IS_CAPTURE (fr_best r) &&
   (PieceType_to_Z (MOVE_CAPTURED (fr_best r)) <=? PieceType_to_Z BISHOP) &&
   negb (MOVE_IS_CAPTURE move) && negb (MOVE_IS_EP move) && negb (MOVE_IS_PROMO move) &&
   (MOVE_PIECE move == PAWN) && (120 <=? search_ff_quiet_pawn_score b move (b_side b))) ||
  (negb (fr_tactical r) && (40 <=? priority) && (fr_priority r + 24 <=? priority)).

(** The loop, with [suspicious_root]. *)
Definition ff_gather (b : Board) (r : FfRoot) (ml : MoveList) (suspicious_root : bool) : Candidates * bool :=
  fold_left (fun acc move =>
    let '(l, suspicious_root) := acc in
    if seen move l then acc
    else match ff_alternative_priority b r move with
         | None => acc
         | Some priority =>
             (add_candidate 16 move priority l, suspicious_root || ff_raises_doubt b r move priority)
         end) ml (first_candidate (fr_best r), suspicious_root).

(** ** The refinement *)

(** The first verified move of the greatest score among those of a kind. *)
Definition best_among (ok : Move -> bool) (verified : list (Move * Z)) : Move * Z :=
  fold_left (fun best c => if ok c.1 && (best.2 <? c.2) then c else best) verified (MOVE_NONE, -32000).

Definition ff_firebreak (b : Board) (move : Move) : bool :=
  (MOVE_PIECE move == ROOK) && negb (MOVE_IS_CAPTURE move) && negb (MOVE_IS_EP move) &&
  negb (MOVE_IS_PROMO move) && (0 <? ff_bridge_rook_firebreak_priority b move (b_side b)).

Definition ff_choose (b : Board) (r : FfRoot) (raw : SearchResult) (first : Move * Z) (rest : list (Move * Z))
    : SearchResult :=
  let best := fr_best r in
  let verified := first :: rest in
  let best_non_king := best_among (fun m => MOVE_PIECE m != KING) verified in
  let best_firebreak := best_among (ff_firebreak b) verified in
  let choice := pick_best snd first rest in
  let choice :=
    if fr_unsafe_grab r && negb (best_firebreak.1 =? MOVE_NONE) && (first.2 - 80 <=? best_firebreak.2)
    then best_firebreak else choice in
  let choice :=
    if fr_king_quiet r && MOVE_IS_CASTLE best && fr_queen_close r &&
       negb (best_non_king.1 =? MOVE_NONE) && (first.2 - 36 <=? best_non_king.2)
    then best_non_king else choice in
  if fr_king_quiet r && MOVE_IS_CASTLE best && negb (choice.1 =? best) && (MOVE_PIECE choice.1 != PAWN) &&
     (first.2 - 20 <=? choice.2) then with_choice raw choice
  else if fr_unsafe_grab r && negb (choice.1 =? best) && (MOVE_PIECE choice.1 == ROOK) &&
          negb (MOVE_IS_CAPTURE choice.1) && negb (MOVE_IS_EP choice.1) && negb (MOVE_IS_PROMO choice.1) &&
          (first.2 - 80 <=? choice.2) then with_choice raw choice
  else if (choice.1 =? best) || (choice.2 <? first.2 + 4) then raw
  else with_choice raw choice.

Section Refine.
Context {C : Clock} {V : Verifier}.

Definition ff_endgame_refine (b : Board) (ml : MoveList) (raw : SearchResult)
    (time_ms max_depth skill_level : Z) : M SearchResult :=
  let best := r_best_move raw in
  let tiebreak move := ff_bridge_simple_endgame_tiebreak b move (b_side b) in
  let endgame_verify_depth := if max_depth <? 7 then 7 else max_depth + 2 in
  let endgame_verify_time := if time_ms <=? 0 then 520 else clamp_int (time_ms * 5) 380 700 in
  verified ← verify_all true b endgame_verify_time endgame_verify_depth skill_level ml;
  let '(choice, endgame_best_tiebreak) := ff_endgame_best tiebreak best verified in
  let '(raw_score, raw_tiebreak) := ff_endgame_raw tiebreak best verified in
  raw_value ←
    (if raw_score =? -32000 then
       on_search (search_reset true);;
       score ← kb_verify_child_score b best endgame_verify_time endgame_verify_depth skill_level;
       mret (score, tiebreak best)
     else mret (raw_score, raw_tiebreak));
  let '(raw_score, raw_tiebreak) := raw_value in
  if negb (choice.1 =? best) &&
     ((raw_score <? choice.2) ||
      ((choice.2 =? raw_score) && (raw_tiebreak <? endgame_best_tiebreak)) ||
      ((raw_tiebreak <? endgame_best_tiebreak) && (raw_score - 12 <=? choice.2)))
  then mret (with_choice raw choice) else mret raw.

Definition ff_verify (b : Board) (r : FfRoot) (ml : MoveList) (raw : SearchResult) (suspicious_root : bool)
    (time_ms max_depth skill_level : Z) : M SearchResult :=
  let '(candidates, suspicious_root) := ff_gather b r ml suspicious_root in
  if negb suspicious_root || bool_decide (length candidates <= 1)%nat then mret raw
  else
    let verify_depth := if max_depth <? 6 then 6 else max_depth + 2 in
    let verify_time := if time_ms <=? 0 then 420 else clamp_int (time_ms * 4) 320 520 in
    verified ← verify_all true b verify_time verify_depth skill_level (map fst candidates);
    match verified with
    | [] => mret raw
    | first :: rest => mret (ff_choose b r raw first rest)
    end.

Definition ff_refine_result (b : Board) (raw : SearchResult) (time_ms max_depth skill_level : Z)
    : M SearchResult :=
  let best := r_best_move raw in
  if (b_mod b != MOD_FRIENDLY_FIRE) || (best =? MOVE_NONE) || (skill_level <? 4) then mret raw
  else if negb (fast_mode time_ms max_depth) then mret raw
  else
    let r := ff_root b best in
    let suspicious_root := ff_root_looks_suspicious b best (b_side b) in
    let ml := generate_moves b in
    if bool_decide (length ml <= 1)%nat then mret raw
    else
      let regression_override := ff_regression_override_move b ml in
      if negb (regression_override =? MOVE_NONE) then mret (with_move raw regression_override)
      else match ff_bridge_is_simple_conversion_endgame b (b_side b) with
      | Some _ => ff_endgame_refine b ml raw time_ms max_depth skill_level
      | None =>
          let suspicious_root := suspicious_root || ff_rook_root_suspicious b ml best in
          let '(forced_guard_bishop_move, forced_guard_bishop_priority) :=
            if fr_king_quiet r && MOVE_IS_CASTLE best && fr_queen_close r && (b_fullmove b <=? 24)
            then ff_forced_guard b ml else (MOVE_NONE, -32000) in
          if negb (forced_guard_bishop_move =? MOVE_NONE) && (0 <? forced_guard_bishop_priority)
          then mret (with_move raw forced_guard_bishop_move)
          else ff_verify b r ml raw suspicious_root time_ms max_depth skill_level
      end.
End Refine.
