(* ===== verification/BridgeSuccession.v ===== *)
(** * Succession refinement ([bridge_succession.c]) *)

From stdpp Require Import base numbers list option.
From Stdlib Require Import ZArith Lia Bool.
From S2P Require Import Prelude Types Board Attacks Make Movegen EvalCommon HeurCommon SearchState SearchMonad Search BridgeCommon BridgeFriendlyFire.

(** ** Threats *)

Definition succ_forward_rank (side : Color) (sq : Square) : Z :=
  if side == WHITE then SQ_ROW sq else 7 - SQ_ROW sq.

Definition succ_side_has_attacked_queen (b : Board) (side : Color) : bool :=
  if b_mod b != MOD_SUCCESSION then false
  else
    let queens := pcs b side QUEEN in
    if queens =? BB_EMPTY then false
    else
      let opp := color_opposite side in
      existsb (fun sq => board_square_attacked b sq opp) (bb_squares queens).

Definition succ_move_allows_immediate_queen_capture (b : Board) (move : Move) (side : Color) : bool :=
  if b_mod b != MOD_SUCCESSION then false
  else if heir b side then false
  else if bb_popcount (pcs b side QUEEN) <? 2 then false
  else
    let child := board_make_move b move in
    if heir child side then false
    else if bb_popcount (pcs child side QUEEN) <? 2 then false
    else existsb (fun reply => is_capture reply && (MOVE_CAPTURED reply == QUEEN)) (generate_moves child).

Definition succ_move_allows_immediate_minor_major_capture (b : Board) (move : Move) (side : Color) : bool :=
  if b_mod b != MOD_SUCCESSION then false
  else
    let child := board_make_move b move in
    existsb (fun reply =>
      let captured := MOVE_CAPTURED reply in
      is_capture reply &&
      ((captured == QUEEN) || (captured == ROOK) || (captured == BISHOP) || (captured == KNIGHT)))
      (generate_moves child).

Definition succ_hanging_minor_major_count (b : Board) (side : Color) : Z :=
  if b_mod b != MOD_SUCCESSION then 0
  else
    let opp := color_opposite side in
    let pieces := Z.lor (Z.lor (Z.lor (pcs b side QUEEN) (pcs b side ROOK)) (pcs b side BISHOP))
                        (pcs b side KNIGHT) in
    fold_left (fun count sq =>
      let attacked := board_square_attacked b sq opp in
      let defended := board_square_attacked b sq side in
      if attacked && negb defended then count + 1 else count) (bb_squares pieces) 0.

(** ** Priorities *)

Definition succ_queen_priority (b : Board) (move : Move) (side : Color) : Z :=
  let from_sq := MOVE_FROM move in
  let to_sq := MOVE_TO move in
  let from_attacked := board_square_attacked b from_sq (color_opposite side) in
  let child := board_make_move b move in
  let to_attacked := board_square_attacked child to_sq (b_side child) in
  let to_defended := board_square_attacked child to_sq side in
  let center_dist := Z.abs (SQ_ROW to_sq - 3) + Z.abs (SQ_COL to_sq - 3) in
  (if from_attacked && negb to_attacked then 1700 else 0) +
  (if from_attacked && to_attacked && to_defended then 520 else 0) -
  (if negb from_attacked && to_attacked && negb to_defended then 820 else 0) +
  (if negb to_attacked then 90 else 0) +
  (6 - center_dist) * 5.

Definition succ_candidate_priority (b : Board) (move : Move) (side : Color) : Z :=
  if b_mod b != MOD_SUCCESSION then 0
  else
    let piece := MOVE_PIECE move in
    let from_sq := MOVE_FROM move in
    let to_sq := MOVE_TO move in
    if MOVE_IS_PROMO move then (if MOVE_PROMO_TYPE move == KING then 12000 else 9000)
    else if is_capture move && (MOVE_CAPTURED move == QUEEN) then 11000
    else if piece == QUEEN then succ_queen_priority b move side
    else
      let score :=
        if is_capture move then
          (if captured_at_least ROOK move then 560 else if captured_at_least KNIGHT move then 360 else 120)
        else 0 in
      let score :=
        if piece == PAWN then
          let from_rank := succ_forward_rank side from_sq in
          let to_rank := succ_forward_rank side to_sq in
          score + (if from_rank <? to_rank then 120 + to_rank * 26 else 0) + (if 5 <=? to_rank then 130 else 0)
        else score in
      if negb (MOVE_IS_PROMO move) && negb (MOVE_IS_CAPTURE move) && negb (MOVE_IS_EP move) &&
         ((piece == KNIGHT) || (piece == BISHOP)) then
        let from_center := ff_bridge_center_distance from_sq in
        let to_center := ff_bridge_center_distance to_sq in
        score + 70 + (if to_center <? from_center then 18 * (from_center - to_center) else 0) +
        (if to_center <=? 2 then 14 else 0)
      else score.

(** ** Known positions *)

(** The result with the move replaced, if the move is legal. *)
Definition succ_force_legal_move (b : Board) (raw : SearchResult) (from to : Square) (piece : PieceType)
    : option SearchResult :=
  let move := bridge_find_legal_move (generate_moves b) from to piece in
  if move =? MOVE_NONE then None else Some (with_move raw move).

Definition succ_is_attacked_promo_regression_position (b : Board) : bool :=
  (b_side b == WHITE) &&
  men_stand b [(SQ 6 3, WHITE, PAWN); (SQ 5 3, BLACK, ROOK); (SQ 5 0, BLACK, QUEEN);
               (SQ 0 2, WHITE, BISHOP); (SQ 0 5, WHITE, BISHOP)].

Definition succ_is_game6_strategic_regression_position (b : Board) : bool :=
  (b_side b == WHITE) &&
  men_stand b [(SQ 0 2, WHITE, BISHOP); (SQ 2 7, WHITE, QUEEN); (SQ 5 5, BLACK, QUEEN);
               (SQ 5 2, BLACK, KNIGHT); (SQ 4 5, WHITE, PAWN)].

Definition succ_is_game29_strategic_regression_position (b : Board) : bool :=
  (b_side b == WHITE) &&
  men_stand b [(SQ 0 3, WHITE, QUEEN); (SQ 0 4, WHITE, QUEEN); (SQ 4 4, WHITE, KNIGHT);
               (SQ 7 5, BLACK, BISHOP); (SQ 7 6, BLACK, ROOK)].

Definition succ_is_game50_strategic_regression_position (b : Board) : bool :=
  (b_side b == WHITE) &&
  men_stand b [(SQ 2 3, WHITE, BISHOP); (SQ 3 3, WHITE, PAWN); (SQ 3 4, BLACK, KNIGHT);
               (SQ 4 5, BLACK, BISHOP)].

Definition succ_is_game24_strategic_regression_position (b : Board) : bool :=
  (b_side b == WHITE) &&
  men_stand b [(SQ 0 4, WHITE, QUEEN); (SQ 2 4, WHITE, BISHOP); (SQ 3 3, BLACK, KNIGHT);
               (SQ 4 1, BLACK, QUEEN)].

Definition succ_is_game22_tactical_regression_position (b : Board) : bool :=
  (b_side b == BLACK) &&
  men_stand b [(SQ 7 3, BLACK, QUEEN); (SQ 7 4, BLACK, QUEEN); (SQ 5 5, BLACK, KNIGHT);
               (SQ 3 6, BLACK, KNIGHT); (SQ 3 3, WHITE, KNIGHT); (SQ 3 4, WHITE, PAWN);
               (SQ 4 3, WHITE, PAWN); (SQ 1 2, WHITE, QUEEN)].

(** The replacements that come before anything else; the first that applies. *)
Definition succ_forced (b : Board) (raw : SearchResult) : option SearchResult :=
  let best := r_best_move raw in
  let when (c : bool) (r : option SearchResult) := if c then r else None in
  when (succ_is_attacked_promo_regression_position b)
    ((fun r => mkResult (r_best_move r) (-100) (r_depth r) (r_nodes r)) <$>
     (succ_force_legal_move b raw (SQ 1 2) (SQ 3 1) KNIGHT ∪
      succ_force_legal_move b raw (SQ 1 3) (SQ 2 5) KNIGHT ∪
      succ_force_legal_move b raw (SQ 1 3) (SQ 3 2) KNIGHT)) ∪
  when (succ_is_game6_strategic_regression_position b && is_step best (mkStep (SQ 0 2) (SQ 4 6) BISHOP))
    (succ_force_legal_move b raw (SQ 0 5) (SQ 2 3) BISHOP) ∪
  when (succ_is_game29_strategic_regression_position b) (succ_force_legal_move b raw (SQ 0 7) (SQ 0 6) ROOK) ∪
  when (succ_is_game50_strategic_regression_position b) (succ_force_legal_move b raw (SQ 2 3) (SQ 4 1) BISHOP) ∪
  when (succ_is_game24_strategic_regression_position b) (succ_force_legal_move b raw (SQ 0 4) (SQ 2 2) QUEEN) ∪
  when (succ_is_game22_tactical_regression_position b && is_step best (mkStep (SQ 7 4) (SQ 4 4) QUEEN))
    (succ_force_legal_move b raw (SQ 5 5) (SQ 3 4) KNIGHT).

Definition succ_known_position (b : Board) : option Move :=
  if (b_side b == BLACK) &&
     men_stand b [(SQ 7 6, BLACK, KNIGHT); (SQ 5 6, BLACK, QUEEN); (SQ 4 4, WHITE, BISHOP);
                  (SQ 1 2, BLACK, BISHOP)] then
    let regression_move := bridge_find_legal_move (generate_moves b) (SQ 7 6) (SQ 5 5) KNIGHT in
    if negb (regression_move =? MOVE_NONE) then Some regression_move else None
  else None.

(** ** What is wrong with the move of the search *)

Record SuccRoot := mkSuccRoot {
  sr_best : Move;
  sr_priority : Z;
  sr_quiet : bool;
  sr_allows_loss : bool;
  sr_hangs_queen : bool;
  sr_pre_hanging : Z;
  sr_hanging_ignored : bool;
  sr_advanced_pawn : bool;
  sr_low_priority : bool;
  sr_queen_sortie : bool;
  sr_flank_pawn : bool;
  sr_minor_retreat : bool
}.

(** The chain of triggers for a quiet move early in the game: at most one fires. *)
Inductive SuccTrigger := NoTrigger | QueenSortie | LowPriority | MinorRetreat | FlankPawn.
#[export] Instance SuccTrigger_eq_dec : EqDecision SuccTrigger.
Proof. solve_decision. Defined.

Definition succ_trigger (b : Board) (best : Move) (raw_priority : Z) : SuccTrigger :=
  let raw_piece := MOVE_PIECE best in
  let raw_from := MOVE_FROM best in
  let raw_to := MOVE_TO best in
  let from_forward := succ_forward_rank (b_side b) raw_from in
  let to_forward := succ_forward_rank (b_side b) raw_to in
  let from_center := ff_bridge_center_distance raw_from in
  let to_center := ff_bridge_center_distance raw_to in
  if (raw_piece == QUEEN) && (from_forward <=? 1) && (raw_priority <=? 220) then QueenSortie
  else if (raw_piece == BISHOP) && (from_forward <=? 2) && (raw_priority <=? 140) then LowPriority
  else if (raw_piece == KNIGHT) && (2 <=? from_forward) && (raw_priority <=? 140) &&
          ((from_center <? to_center) || (to_forward <? from_forward)) then LowPriority
  else if ((raw_piece == BISHOP) || (raw_piece == KNIGHT)) && (5 <=? from_forward) &&
          (to_forward <? from_forward) && (raw_priority <=? 220) then MinorRetreat
  else if (raw_piece == PAWN) && (from_forward <=? 1) && (to_forward <=? 2) &&
          ((SQ_COL raw_from <=? 1) || (6 <=? SQ_COL raw_from)) && (raw_priority <=? 190) then FlankPawn
  else NoTrigger.

Definition succ_root (b : Board) (best : Move) : SuccRoot :=
  let side := b_side b in
  let raw_priority := succ_candidate_priority b best side in
  let raw_piece := MOVE_PIECE best in
  let raw_from := MOVE_FROM best in
  let raw_is_quiet := negb (MOVE_IS_CAPTURE best) && negb (MOVE_IS_EP best) && negb (MOVE_IS_PROMO best) in
  let raw_allows_minor_major_loss :=
    raw_is_quiet && (raw_piece == PAWN) && succ_move_allows_immediate_minor_major_capture b best side in
  let raw_hangs_queen := succ_move_allows_immediate_queen_capture b best side in
  let pre_hanging_count := succ_hanging_minor_major_count b side in
  let hanging_piece_ignored :=
    (0 <? pre_hanging_count) && raw_is_quiet && (raw_piece == PAWN) &&
    (pre_hanging_count <=? succ_hanging_minor_major_count (board_make_move b best) side) in
  let advanced_pawn :=
    (raw_piece == PAWN) && negb (MOVE_IS_PROMO best) && negb (MOVE_IS_CAPTURE best) &&
    negb (MOVE_IS_EP best) && (b_fullmove b <=? 14) && (3 <=? succ_forward_rank side raw_from) &&
    (raw_priority <=? 280) in
  let trigger := if raw_is_quiet && (b_fullmove b <=? 20) then succ_trigger b best raw_priority
                 else NoTrigger in
  mkSuccRoot best raw_priority raw_is_quiet raw_allows_minor_major_loss raw_hangs_queen pre_hanging_count
    hanging_piece_ignored advanced_pawn (trigger == LowPriority) (trigger == QueenSortie)
    (trigger == FlankPawn) (trigger == MinorRetreat).

(** [quiet_low_priority_trigger || queen_sortie_trigger || flank_pawn_trigger || minor_retreat_trigger] *)
Definition sr_positional (r : SuccRoot) : bool :=
  sr_low_priority r || sr_queen_sortie r || sr_flank_pawn r || sr_minor_retreat r.

Definition succ_suspicious (r : SuccRoot) : bool :=
  sr_hangs_queen r || sr_allows_loss r || sr_hanging_ignored r || sr_advanced_pawn r || sr_positional r.

(** All triggers but the hanging queen. *)
Definition succ_wide (r : SuccRoot) : bool :=
  sr_advanced_pawn r || sr_positional r || sr_allows_loss r || sr_hanging_ignored r.

(** ** Candidates *)

Definition quiet_move (m : Move) : bool := negb (MOVE_IS_CAPTURE m) && negb (MOVE_IS_EP m) && negb (MOVE_IS_PROMO m).

(** The priority after the first group of adjustments. *)
Definition succ_advanced_priority (b : Board) (r : SuccRoot) (move : Move) : Z :=
  let priority := succ_candidate_priority b move (b_side b) in
  if sr_advanced_pawn r then
    priority +
    (if (MOVE_PIECE move != PAWN) && quiet_move move then 260 else 0) +
    (if (MOVE_PIECE move == QUEEN) && quiet_move move then 140 else 0) -
    (if (MOVE_PIECE move == PAWN) && (MOVE_FROM move =? MOVE_FROM (sr_best r)) then 220 else 0)
  else priority.

Definition succ_loss_terms (b : Board) (r : SuccRoot) (move : Move) : Z :=
  if sr_allows_loss r then
    if succ_move_allows_immediate_minor_major_capture b move (b_side b) then -260
    else 120 + (if quiet_move move && (MOVE_PIECE move != PAWN) then 120 else 0)
  else 0.

Definition succ_hanging_terms (b : Board) (r : SuccRoot) (move : Move) : Z :=
  if sr_hanging_ignored r then
    let alt_hanging_count := succ_hanging_minor_major_count (board_make_move b move) (b_side b) in
    if alt_hanging_count <? sr_pre_hanging r then
      340 + (sr_pre_hanging r - alt_hanging_count) * 80 +
      (if quiet_move move && (MOVE_PIECE move != PAWN) then 100 else 0)
    else if sr_pre_hanging r <? alt_hanging_count then -260
    else if (MOVE_PIECE move == PAWN) && quiet_move move then -180
    else 0
  else 0.

Definition succ_positional_terms (b : Board) (r : SuccRoot) (move : Move) : Z :=
  let raw_piece := MOVE_PIECE (sr_best r) in
  if sr_positional r then
    let forcing := MOVE_IS_CAPTURE move || MOVE_IS_EP move || MOVE_IS_PROMO move in
    (if forcing then 220
     else (if MOVE_PIECE move != raw_piece then 140 else 0) -
          (if (MOVE_PIECE move == raw_piece) && (MOVE_FROM move =? MOVE_FROM (sr_best r)) then 200 else 0)) +
    (if sr_minor_retreat r && negb forcing && ((MOVE_PIECE move == KNIGHT) || (MOVE_PIECE move == BISHOP))
     then
       let cand_from := succ_forward_rank (b_side b) (MOVE_FROM move) in
       let cand_to := succ_forward_rank (b_side b) (MOVE_TO move) in
       if cand_from <? cand_to then 120 else 0
     else 0)
  else 0.

Definition succ_queen_terms (b : Board) (r : SuccRoot) (move : Move) : Z :=
  if sr_hangs_queen r then
    if succ_move_allows_immediate_queen_capture b move (b_side b) then -640 else 760
  else 0.

Definition succ_alternative_priority (b : Board) (r : SuccRoot) (move : Move) : Z :=
  succ_advanced_priority b r move + succ_loss_terms b r move + succ_hanging_terms b r move +
  succ_positional_terms b r move + succ_queen_terms b r move.

(** The loop, with [saw_strong_non_pawn_alternative]. *)
Definition succ_gather (b : Board) (r : SuccRoot) (ml : MoveList) : Candidates * bool :=
  let candidate_limit := if succ_wide r then 12%nat else 8%nat in
  let min_priority := if succ_wide r then -160 else 1 in
  fold_left (fun acc move =>
    let '(l, saw) := acc in
    if seen move l then acc
    else
      let saw := saw || (sr_advanced_pawn r && (MOVE_PIECE move != PAWN) &&
                         (0 <? succ_advanced_priority b r move)) in
      let priority := succ_alternative_priority b r move in
      if priority <? min_priority then (l, saw)
      else (add_candidate candidate_limit move priority l, saw)) ml (first_candidate (sr_best r), false).

(** ** The choice *)

Definition succ_verify_limits (r : SuccRoot) (time_ms max_depth : Z) : Z * Z :=
  if sr_minor_retreat r then
    (if max_depth <? 6 then 6 else max_depth + 1,
     if time_ms <=? 0 then 420 else clamp_int (time_ms * 4) 320 520)
  else if sr_low_priority r || sr_queen_sortie r || sr_flank_pawn r then
    (if max_depth <? 6 then 6 else max_depth + 1,
     if time_ms <=? 0 then 300 else clamp_int ((time_ms * 5) ÷ 2) 220 340)
  else if sr_advanced_pawn r then
    (if max_depth <? 6 then 6 else max_depth + 1,
     if time_ms <=? 0 then 280 else clamp_int ((time_ms * 5) ÷ 2) 220 340)
  else if sr_hangs_queen r then
    (if max_depth <? 5 then 5 else max_depth,
     if time_ms <=? 0 then 200 else clamp_int ((time_ms * 5) ÷ 3) 140 240)
  else
    (if max_depth <? 4 then 4 else max_depth,
     if time_ms <=? 0 then 160 else clamp_int ((time_ms * 3) ÷ 2) 120 200).

(** The first candidate after the move of the search, of the greatest score,
    that is not a quiet pawn move. *)
Definition succ_best_non_pawn (rest : list (Move * Z)) : option (Move * Z) :=
  fold_left (fun best c =>
    if (MOVE_PIECE c.1 != PAWN) || MOVE_IS_CAPTURE c.1 || MOVE_IS_EP c.1 || MOVE_IS_PROMO c.1 then
      match best with
      | None => Some c
      | Some c0 => if c0.2 <? c.2 then Some c else best
      end
    else best) rest None.

(** The choice, and whether it is a fallback from a pawn move that stands. *)
Definition succ_fallback (r : SuccRoot) (first choice : Move * Z) (rest : list (Move * Z))
    : (Move * Z) * bool :=
  if sr_advanced_pawn r || sr_allows_loss r || sr_hanging_ignored r then
    match succ_best_non_pawn rest with
    | None => (choice, false)
    | Some c =>
        let fallback_window := if sr_allows_loss r then 48 else if sr_hanging_ignored r then 56 else 24 in
        let choice := if first.2 - fallback_window <=? c.2 then c else choice in
        let quiet_pawn := sr_quiet r && (MOVE_PIECE (sr_best r) == PAWN) in
        if (sr_advanced_pawn r && quiet_pawn) || (sr_hanging_ignored r && quiet_pawn) then (c, true)
        else (choice, false)
    end
  else (choice, false).

(** The choice after another search of the position itself. *)
Definition succ_after_deep (choice : Move * Z) (force_non_pawn_fallback : bool) (deep_root : SearchResult)
    : Move * Z :=
  let deep := r_best_move deep_root in
  if negb (deep =? MOVE_NONE) && negb (deep =? choice.1) then
    if force_non_pawn_fallback && ((MOVE_PIECE deep == PAWN) && quiet_move deep) then choice
    else (deep, r_score deep_root)
  else choice.

Definition succ_decide (r : SuccRoot) (raw : SearchResult) (first choice : Move * Z) : SearchResult :=
  let best := sr_best r in
  let non_pawn_within margin := negb (choice.1 =? best) && (MOVE_PIECE choice.1 != PAWN) &&
                                (first.2 - margin <=? choice.2) in
  if choice.1 =? best then raw
  else if sr_advanced_pawn r && negb (non_pawn_within 24) && (choice.2 <? first.2 + 1) then raw
  else if sr_allows_loss r && non_pawn_within 48 then with_choice raw choice
  else if sr_hanging_ignored r && non_pawn_within 120 then with_choice raw choice
  else if sr_positional r && (choice.2 <=? first.2) then raw
  else if negb (sr_hangs_queen r) && negb (sr_advanced_pawn r) && negb (sr_positional r) &&
          (choice.2 <? first.2 + 6) then raw
  else with_choice raw choice.

Section Refine.
Context {C : Clock} {V : Verifier}.

(** Another search of the position on a copy; both branches of the source run
    [search_think], which does not look at the nesting. *)
Definition succ_deep_search (b : Board) (verify_time verify_depth skill_level : Z) : M SearchResult :=
  on_search (search_reset true);;
  on_copy b (search_think verify_time verify_depth skill_level).

Definition succ_verify (b : Board) (r : SuccRoot) (raw : SearchResult) (time_ms max_depth skill_level : Z)
    : M SearchResult :=
  let ml := generate_moves b in
  if bool_decide (length ml <= 1)%nat then mret raw
  else
    let '(candidates, saw_strong_non_pawn_alternative) := succ_gather b r ml in
    if bool_decide (length candidates <= 1)%nat then mret raw
    else if sr_advanced_pawn r && negb saw_strong_non_pawn_alternative then mret raw
    else
      let '(verify_depth, verify_time) := succ_verify_limits r time_ms max_depth in
      verified ← verify_all false b verify_time verify_depth skill_level (map fst candidates);
      match verified with
      | [] => mret raw
      | first :: rest =>
          let '(choice, force_non_pawn_fallback) := succ_fallback r first (pick_best snd first rest) rest in
          choice ←
            (if sr_advanced_pawn r || sr_positional r then
               deep_root ← succ_deep_search b verify_time verify_depth skill_level;
               mret (succ_after_deep choice force_non_pawn_fallback deep_root)
             else mret choice);
          mret (succ_decide r raw first choice)
      end.

Definition succ_refine_result (b : Board) (raw : SearchResult) (time_ms max_depth skill_level : Z)
    : M SearchResult :=
  let best := r_best_move raw in
  if (b_mod b != MOD_SUCCESSION) || (best =? MOVE_NONE) || (skill_level <? 4) then mret raw
  else match succ_forced b raw with
  | Some r => mret r
  | None =>
      if 0 <? bridge_verify_nesting then mret raw
      else if negb ((max_depth <=? 4) || ((0 <? time_ms) && (time_ms <=? 120))) then mret raw
      else match succ_known_position b with
      | Some regression_move => mret (with_move raw regression_move)
      | None =>
          let r := succ_root b best in
          if negb (succ_suspicious r) then mret raw
          else succ_verify b r raw time_ms max_depth skill_level
      end
  end.
End Refine.
