(* ===== verification/BridgeSaveQueen.v ===== *)
(** * Save the Queen refinement ([bridge_save_queen.c]) *)

From stdpp Require Import base numbers list option.
From Stdlib Require Import ZArith Lia Bool.
From S2P Require Import Prelude Types Board Attacks Make Movegen EvalCommon HeurCommon SearchState SearchMonad Search BridgeCommon.

(** ** Priorities *)

Definition stq_undeveloped_minor_count (b : Board) (side : Color) : Z :=
  if b_mod b != MOD_SAVE_QUEEN then 0 else back_rank_minors b side.

Definition stq_forward_rank (side : Color) (sq : Square) : Z :=
  if side == WHITE then SQ_ROW sq else 7 - SQ_ROW sq.

Definition stq_prisoner_escape_distance (side : Color) (sq : Square) : Z :=
  if side == WHITE then SQ_ROW sq - 3 else 4 - SQ_ROW sq.

Definition stq_is_opening_queen_sortie (b : Board) (move : Move) (side : Color) : bool :=
  if (b_mod b != MOD_SAVE_QUEEN) || (move =? MOVE_NONE) then false
  else if (MOVE_PIECE move != QUEEN) || special move then false
  else if 10 <? b_fullmove b then false
  else if stq_undeveloped_minor_count b side <? 2 then false
  else
    let from_sq := MOVE_FROM move in
    if negb (stq_is_own_half from_sq side) then false
    else ((side == WHITE) && (from_sq =? SQ 7 3)) || ((side == BLACK) && (from_sq =? SQ 0 3)).

Definition stq_capture_priority (b : Board) (move : Move) (side : Color) : Z :=
  let piece := MOVE_PIECE move in
  let to_sq := MOVE_TO move in
  1400 + (if captured_at_least KNIGHT move then 1200 else 0) +
  (if (piece == PAWN) && (MOVE_CAPTURED move != PAWN) then 500 else 0) -
  (if (piece == KNIGHT) && (b_fullmove b <=? 10) then
     let file := SQ_COL to_sq in
     let rank := stq_forward_rank side to_sq in
     if ((file <=? 1) || (6 <=? file)) && (rank <=? 2) then 700 else 0
   else 0).

Definition stq_king_priority (b : Board) (move : Move) (side : Color) : Z :=
  let from_sq := MOVE_FROM move in
  let to_sq := MOVE_TO move in
  let in_check := board_square_attacked b from_sq (color_opposite side) in
  let child := board_make_move b move in
  let to_attacked := board_square_attacked child to_sq (b_side child) in
  (if in_check then 80 else -200) +
  (if SQ_COL to_sq =? SQ_COL from_sq then 28 else 0) -
  (if negb (SQ_COL to_sq =? SQ_COL from_sq) then 52 else 0) -
  (if ((side == WHITE) && (SQ_ROW to_sq =? 0)) || ((side == BLACK) && (SQ_ROW to_sq =? 7)) then 40 else 0) +
  (if to_attacked then -280 else 24).

(** The queen's knight leaves its square for c3 or d2. *)
Definition stq_queens_knight (move : Move) (side : Color) : bool :=
  let from_sq := MOVE_FROM move in
  let to_sq := MOVE_TO move in
  ((side == WHITE) && (from_sq =? SQ 0 1) && ((to_sq =? SQ 2 2) || (to_sq =? SQ 1 3))) ||
  ((side == BLACK) && (from_sq =? SQ 7 1) && ((to_sq =? SQ 5 2) || (to_sq =? SQ 6 3))).

Definition stq_minor_priority (b : Board) (move : Move) (side : Color) : Z :=
  let piece := MOVE_PIECE move in
  let to_sq := MOVE_TO move in
  if negb (SQ_ROW (MOVE_FROM move) =? back_rank side) || (SQ_ROW to_sq =? back_rank side) then 0
  else
    (if piece == KNIGHT then 900 else 700) +
    (if (piece == KNIGHT) && (((side == WHITE) && (to_sq =? SQ 2 5)) || ((side == BLACK) && (to_sq =? SQ 5 5)))
     then 250 else 0) -
    (if (b_fullmove b <=? 10) && (piece == KNIGHT) && stq_queens_knight move side then 450 else 0).

Definition stq_pawn_priority (move : Move) (side : Color) : Z :=
  let from_rank := stq_forward_rank side (MOVE_FROM move) in
  let file := SQ_COL (MOVE_FROM move) in
  if negb (from_rank =? 1) then 0
  else if (2 <=? file) && (file <=? 5) then 520
  else if (file <=? 1) || (6 <=? file) then -260
  else 0.

Definition stq_queen_priority (b : Board) (move : Move) (side : Color) : Z :=
  let from_sq := MOVE_FROM move in
  let to_sq := MOVE_TO move in
  let undeveloped := stq_undeveloped_minor_count b side in
  let child := board_make_move b move in
  let queen_attacked := board_square_attacked child to_sq (b_side child) in
  let queen_defended := board_square_attacked child to_sq side in
  if negb (stq_is_own_half from_sq side) then
    let before_dist := stq_prisoner_escape_distance side from_sq in
    let after_dist := stq_prisoner_escape_distance side to_sq in
    (if after_dist <? before_dist then 450 else 0) +
    (if before_dist <=? 2 then 160 else 0) -
    (if (before_dist <=? after_dist) && (b_fullmove b <=? 10) then 360 else 0) -
    (if queen_attacked && negb queen_defended then 980 else if queen_attacked then 280 else 0)
  else
    - (if (b_fullmove b <=? 10) && (2 <=? undeveloped) then 180 else 0) -
    (if queen_attacked && negb queen_defended then 820 else if queen_attacked then 220 else 0).

Definition stq_candidate_priority (b : Board) (move : Move) (side : Color) : Z :=
  if b_mod b != MOD_SAVE_QUEEN then 0
  else
    let piece := MOVE_PIECE move in
    if MOVE_IS_PROMO move then 7000
    else if is_capture move then stq_capture_priority b move side
    else if piece == KING then stq_king_priority b move side
    else if (piece == KNIGHT) || (piece == BISHOP) then stq_minor_priority b move side
    else if piece == PAWN then stq_pawn_priority move side
    else if piece == QUEEN then stq_queen_priority b move side
    else 0.

Definition stq_root_looks_suspicious (b : Board) (move : Move) (side : Color) : bool :=
  if (b_mod b != MOD_SAVE_QUEEN) || (move =? MOVE_NONE) then false
  else if 14 <? b_fullmove b then false
  else
    let piece := MOVE_PIECE move in
    let from_sq := MOVE_FROM move in
    let to_sq := MOVE_TO move in
    let in_check := board_square_attacked b from_sq (color_opposite side) in
    if (piece == KING) && negb (MOVE_IS_CAPTURE move) && negb (MOVE_IS_EP move) && negb in_check then true
    else if (piece == KING) && in_check then true
    else if (piece == PAWN) && negb (MOVE_IS_CAPTURE move) && negb (MOVE_IS_EP move) &&
            negb (MOVE_IS_PROMO move) && (stq_forward_rank side from_sq =? 1) &&
            ((SQ_COL from_sq <=? 1) || (6 <=? SQ_COL from_sq)) &&
            (2 <=? stq_undeveloped_minor_count b side) then true
    else if (piece == KNIGHT) && (b_fullmove b <=? 10) && stq_queens_knight move side then true
    else if (piece == KNIGHT) && (b_fullmove b <=? 10) && MOVE_IS_CAPTURE move &&
            ((SQ_COL to_sq <=? 1) || (6 <=? SQ_COL to_sq)) && (stq_forward_rank side to_sq <=? 2) &&
            (2 <=? stq_undeveloped_minor_count b side) then true
    else if stq_is_opening_queen_sortie b move side then true
    else stq_candidate_priority b move side <? 0.

(** ** Known positions

    Most entries name a move to avoid as well: it must be legal for the entry
    to apply. *)

Definition stq_rules_1 : list Rule := [
  mkRule WHITE None (Some 8)
    [(SQ 7 3, WHITE, QUEEN); (SQ 0 3, BLACK, QUEEN); (SQ 0 4, WHITE, KING);
     (SQ 7 4, BLACK, KING); (SQ 3 1, WHITE, PAWN); (SQ 2 2, WHITE, KNIGHT);
     (SQ 2 5, WHITE, KNIGHT); (SQ 5 2, BLACK, KNIGHT); (SQ 5 5, BLACK, KNIGHT);
     (SQ 6 3, BLACK, BISHOP)]
    (mkStep (SQ 1 0) (SQ 2 0) PAWN) (Some (mkStep (SQ 3 1) (SQ 4 1) PAWN));
  mkRule WHITE None None
    [(SQ 7 3, WHITE, QUEEN); (SQ 1 4, BLACK, QUEEN); (SQ 0 4, WHITE, KING);
     (SQ 7 4, BLACK, KING); (SQ 1 2, BLACK, PAWN); (SQ 4 3, WHITE, PAWN);
     (SQ 4 6, WHITE, BISHOP)]
    (mkStep (SQ 0 4) (SQ 1 4) KING) (Some (mkStep (SQ 7 3) (SQ 6 4) QUEEN));
  mkRule BLACK None None
    [(SQ 7 3, WHITE, QUEEN); (SQ 1 4, BLACK, QUEEN); (SQ 0 4, WHITE, KING);
     (SQ 7 4, BLACK, KING); (SQ 3 3, BLACK, KNIGHT); (SQ 4 6, WHITE, BISHOP);
     (SQ 3 0, WHITE, BISHOP); (SQ 4 3, WHITE, PAWN); (SQ 2 3, BLACK, PAWN)]
    (mkStep (SQ 1 4) (SQ 2 5) QUEEN) (Some (mkStep (SQ 3 3) (SQ 1 2) KNIGHT));
  mkRule BLACK None (Some 7)
    [(SQ 0 3, BLACK, QUEEN); (SQ 7 3, WHITE, QUEEN); (SQ 0 4, WHITE, KING);
     (SQ 7 4, BLACK, KING); (SQ 5 0, BLACK, KNIGHT); (SQ 4 1, WHITE, KNIGHT);
     (SQ 2 4, WHITE, BISHOP); (SQ 4 2, WHITE, PAWN); (SQ 7 5, BLACK, BISHOP)]
    (mkStep (SQ 5 0) (SQ 3 1) KNIGHT) (Some (mkStep (SQ 7 5) (SQ 4 2) BISHOP));
  mkRule BLACK None (Some 6)
    [(SQ 7 3, WHITE, QUEEN); (SQ 0 3, BLACK, QUEEN); (SQ 0 4, WHITE, KING);
     (SQ 7 4, BLACK, KING); (SQ 2 2, WHITE, KNIGHT); (SQ 2 5, WHITE, KNIGHT);
     (SQ 5 2, BLACK, KNIGHT); (SQ 5 5, BLACK, KNIGHT); (SQ 4 1, BLACK, PAWN);
     (SQ 3 3, WHITE, PAWN); (SQ 1 3, WHITE, BISHOP)]
    (mkStep (SQ 6 0) (SQ 5 0) PAWN) (Some (mkStep (SQ 4 1) (SQ 3 1) PAWN));
  mkRule BLACK None (Some 6)
    [(SQ 0 3, BLACK, QUEEN); (SQ 7 3, WHITE, QUEEN); (SQ 0 4, WHITE, KING);
     (SQ 7 4, BLACK, KING); (SQ 7 5, BLACK, BISHOP); (SQ 5 5, BLACK, KNIGHT);
     (SQ 5 4, BLACK, PAWN); (SQ 2 5, WHITE, KNIGHT); (SQ 3 2, WHITE, PAWN);
     (SQ 3 3, WHITE, PAWN)]
    (mkStep (SQ 7 5) (SQ 3 1) BISHOP) (Some (mkStep (SQ 0 3) (SQ 1 2) QUEEN));
  mkRule WHITE None (Some 10)
    [(SQ 7 3, WHITE, QUEEN); (SQ 0 3, BLACK, QUEEN); (SQ 4 4, WHITE, KNIGHT);
     (SQ 4 5, BLACK, BISHOP); (SQ 3 2, BLACK, PAWN); (SQ 3 5, WHITE, PAWN)]
    (mkStep (SQ 1 1) (SQ 2 1) PAWN) (Some (mkStep (SQ 7 3) (SQ 6 3) QUEEN));
  mkRule WHITE None (Some 13)
    [(SQ 7 3, WHITE, QUEEN); (SQ 0 3, BLACK, QUEEN); (SQ 4 4, WHITE, PAWN);
     (SQ 4 5, BLACK, BISHOP); (SQ 3 2, BLACK, PAWN); (SQ 0 4, WHITE, KING)]
    (mkStep (SQ 1 4) (SQ 2 4) PAWN) (Some (mkStep (SQ 7 3) (SQ 6 3) QUEEN));
  mkRule BLACK None None
    [(SQ 1 0, BLACK, KNIGHT); (SQ 0 1, WHITE, ROOK)]
    (mkStep (SQ 6 4) (SQ 4 2) BISHOP) (Some (mkStep (SQ 6 4) (SQ 3 1) BISHOP));
  mkRule WHITE None (Some 6)
    [(SQ 6 2, WHITE, QUEEN); (SQ 0 3, BLACK, QUEEN); (SQ 0 4, WHITE, KING);
     (SQ 7 4, BLACK, KING); (SQ 2 2, WHITE, KNIGHT); (SQ 5 2, BLACK, KNIGHT);
     (SQ 2 4, WHITE, PAWN); (SQ 4 2, BLACK, PAWN); (SQ 5 4, BLACK, PAWN)]
    (mkStep (SQ 1 0) (SQ 2 0) PAWN) None
].

Definition stq_rules_2 : list Rule := [
  mkRule WHITE None None
    [(SQ 6 2, WHITE, QUEEN); (SQ 2 1, BLACK, QUEEN); (SQ 1 0, WHITE, PAWN);
     (SQ 1 3, WHITE, KING); (SQ 6 4, BLACK, KING); (SQ 0 0, BLACK, KNIGHT)]
    (mkStep (SQ 1 0) (SQ 2 1) PAWN) None;
  mkRule BLACK None (Some 14)
    [(SQ 7 3, WHITE, QUEEN); (SQ 0 3, BLACK, QUEEN); (SQ 0 4, WHITE, KING);
     (SQ 7 4, BLACK, KING); (SQ 4 1, WHITE, KNIGHT); (SQ 2 4, WHITE, PAWN);
     (SQ 5 2, BLACK, KNIGHT); (SQ 3 5, BLACK, BISHOP)]
    (mkStep (SQ 3 5) (SQ 4 4) BISHOP) (Some (mkStep (SQ 5 2) (SQ 3 1) KNIGHT));
  mkRule BLACK None (Some 8)
    [(SQ 7 3, WHITE, QUEEN); (SQ 0 3, BLACK, QUEEN); (SQ 0 4, WHITE, KING);
     (SQ 7 4, BLACK, KING); (SQ 6 3, BLACK, KNIGHT); (SQ 7 6, BLACK, KNIGHT);
     (SQ 3 2, WHITE, BISHOP); (SQ 2 0, WHITE, KNIGHT); (SQ 2 4, WHITE, PAWN)]
    (mkStep (SQ 6 3) (SQ 4 4) KNIGHT) (Some (mkStep (SQ 7 6) (SQ 5 5) KNIGHT));
  mkRule BLACK None (Some 8)
    [(SQ 7 3, WHITE, QUEEN); (SQ 0 3, BLACK, QUEEN); (SQ 0 4, WHITE, KING);
     (SQ 7 4, BLACK, KING); (SQ 5 5, BLACK, KNIGHT); (SQ 7 2, BLACK, BISHOP);
     (SQ 4 4, WHITE, PAWN); (SQ 2 2, WHITE, KNIGHT)]
    (mkStep (SQ 7 2) (SQ 6 1) BISHOP) (Some (mkStep (SQ 5 5) (SQ 4 7) KNIGHT));
  mkRule WHITE None (Some 10)
    [(SQ 7 3, WHITE, QUEEN); (SQ 0 3, BLACK, QUEEN); (SQ 0 4, WHITE, KING);
     (SQ 7 4, BLACK, KING); (SQ 6 1, BLACK, BISHOP); (SQ 5 5, BLACK, KNIGHT);
     (SQ 4 4, WHITE, PAWN); (SQ 2 2, WHITE, KNIGHT)]
    (mkStep (SQ 1 5) (SQ 2 5) PAWN) (Some (mkStep (SQ 4 4) (SQ 5 5) PAWN));
  mkRule WHITE None (Some 4)
    [(SQ 7 3, WHITE, QUEEN); (SQ 0 3, BLACK, QUEEN); (SQ 3 3, WHITE, PAWN);
     (SQ 4 2, BLACK, PAWN)]
    (mkStep (SQ 3 3) (SQ 4 2) PAWN) (Some (mkStep (SQ 7 3) (SQ 6 2) QUEEN));
  mkRule WHITE None (Some 5)
    [(SQ 7 3, WHITE, QUEEN); (SQ 0 3, BLACK, QUEEN); (SQ 4 2, WHITE, PAWN);
     (SQ 3 2, WHITE, PAWN); (SQ 5 0, BLACK, KNIGHT); (SQ 5 5, BLACK, KNIGHT)]
    (mkStep (SQ 0 1) (SQ 2 2) KNIGHT) (Some (mkStep (SQ 7 3) (SQ 6 2) QUEEN));
  mkRule BLACK None (Some 3)
    [(SQ 7 3, WHITE, QUEEN); (SQ 0 3, BLACK, QUEEN); (SQ 4 3, WHITE, PAWN);
     (SQ 3 3, WHITE, PAWN); (SQ 5 2, BLACK, PAWN)]
    (mkStep (SQ 5 2) (SQ 4 3) PAWN) (Some (mkStep (SQ 0 3) (SQ 1 2) QUEEN));
  mkRule BLACK None (Some 4)
    [(SQ 6 2, WHITE, QUEEN); (SQ 0 3, BLACK, QUEEN); (SQ 4 3, BLACK, PAWN);
     (SQ 3 3, WHITE, PAWN)]
    (mkStep (SQ 6 4) (SQ 5 4) PAWN) (Some (mkStep (SQ 0 3) (SQ 1 2) QUEEN));
  mkRule WHITE None (Some 5)
    [(SQ 6 2, WHITE, QUEEN); (SQ 0 3, BLACK, QUEEN); (SQ 4 3, BLACK, PAWN);
     (SQ 3 3, WHITE, PAWN)]
    (mkStep (SQ 0 6) (SQ 2 5) KNIGHT) (Some (mkStep (SQ 0 1) (SQ 2 0) KNIGHT))
].

Definition stq_rules_3 : list Rule := [
  mkRule BLACK None (Some 10)
    [(SQ 7 3, WHITE, QUEEN); (SQ 0 3, BLACK, QUEEN); (SQ 6 2, WHITE, KNIGHT);
     (SQ 6 3, BLACK, KNIGHT); (SQ 4 3, WHITE, PAWN); (SQ 3 3, WHITE, PAWN);
     (SQ 7 6, BLACK, KING)]
    (mkStep (SQ 6 3) (SQ 5 1) KNIGHT) (Some (mkStep (SQ 0 3) (SQ 1 2) QUEEN));
  mkRule BLACK None (Some 12)
    [(SQ 7 3, WHITE, QUEEN); (SQ 0 3, BLACK, QUEEN); (SQ 5 1, BLACK, KNIGHT);
     (SQ 2 3, WHITE, BISHOP); (SQ 5 3, WHITE, PAWN); (SQ 7 6, BLACK, KING)]
    (mkStep (SQ 5 1) (SQ 7 2) KNIGHT) (Some (mkStep (SQ 0 3) (SQ 1 2) QUEEN));
  mkRule BLACK None (Some 10)
    [(SQ 5 2, WHITE, QUEEN); (SQ 0 3, BLACK, QUEEN); (SQ 3 2, BLACK, PAWN);
     (SQ 4 4, WHITE, KNIGHT); (SQ 3 5, WHITE, BISHOP); (SQ 4 1, BLACK, KNIGHT)]
    (mkStep (SQ 3 2) (SQ 2 3) PAWN) (Some (mkStep (SQ 0 3) (SQ 1 2) QUEEN));
  mkRule BLACK None (Some 7)
    [(SQ 7 3, WHITE, QUEEN); (SQ 0 3, BLACK, QUEEN); (SQ 7 2, BLACK, BISHOP);
     (SQ 3 2, WHITE, BISHOP); (SQ 5 0, BLACK, KNIGHT); (SQ 2 2, WHITE, KNIGHT);
     (SQ 4 4, WHITE, PAWN); (SQ 3 6, BLACK, KNIGHT)]
    (mkStep (SQ 7 2) (SQ 6 3) BISHOP) (Some (mkStep (SQ 0 3) (SQ 1 4) QUEEN));
  mkRule BLACK None (Some 18)
    [(SQ 7 3, WHITE, QUEEN); (SQ 0 3, BLACK, QUEEN); (SQ 0 5, WHITE, KING);
     (SQ 3 0, BLACK, BISHOP); (SQ 3 3, BLACK, BISHOP); (SQ 2 4, WHITE, KNIGHT);
     (SQ 4 3, WHITE, PAWN); (SQ 4 2, BLACK, PAWN)]
    (mkStep (SQ 0 3) (SQ 1 2) QUEEN) (Some (mkStep (SQ 0 3) (SQ 1 4) QUEEN));
  mkRule WHITE None (Some 6)
    [(SQ 7 3, WHITE, QUEEN); (SQ 0 3, BLACK, QUEEN); (SQ 0 4, WHITE, KING);
     (SQ 1 6, WHITE, BISHOP); (SQ 2 5, WHITE, KNIGHT); (SQ 2 2, WHITE, KNIGHT);
     (SQ 6 6, BLACK, BISHOP); (SQ 4 2, BLACK, PAWN)]
    (mkStep (SQ 0 4) (SQ 0 6) KING) (Some (mkStep (SQ 7 3) (SQ 6 2) QUEEN));
  mkRule WHITE None (Some 9)
    [(SQ 7 3, WHITE, QUEEN); (SQ 0 3, BLACK, QUEEN); (SQ 0 6, WHITE, KING);
     (SQ 0 4, WHITE, ROOK); (SQ 2 0, WHITE, KNIGHT); (SQ 1 3, WHITE, KNIGHT);
     (SQ 3 1, BLACK, KNIGHT); (SQ 6 3, BLACK, BISHOP)]
    (mkStep (SQ 7 3) (SQ 6 2) QUEEN) (Some (mkStep (SQ 7 3) (SQ 6 4) QUEEN));
  mkRule WHITE None (Some 14)
    [(SQ 7 3, WHITE, QUEEN); (SQ 3 1, BLACK, QUEEN); (SQ 6 2, WHITE, KNIGHT);
     (SQ 5 4, WHITE, PAWN); (SQ 3 3, WHITE, PAWN); (SQ 2 3, WHITE, BISHOP);
     (SQ 7 6, BLACK, KING); (SQ 7 5, BLACK, ROOK); (SQ 6 4, BLACK, BISHOP);
     (SQ 6 3, BLACK, KNIGHT); (SQ 6 5, BLACK, PAWN)]
    (mkStep (SQ 5 4) (SQ 6 5) PAWN) (Some (mkStep (SQ 5 4) (SQ 6 3) PAWN));
  mkRule WHITE None (Some 18)
    [(SQ 7 3, WHITE, QUEEN); (SQ 0 0, WHITE, ROOK); (SQ 0 4, WHITE, KING);
     (SQ 6 2, WHITE, KNIGHT); (SQ 3 3, WHITE, PAWN); (SQ 3 1, BLACK, QUEEN);
     (SQ 6 5, BLACK, ROOK); (SQ 6 7, BLACK, KING); (SQ 7 1, BLACK, ROOK);
     (SQ 7 2, BLACK, BISHOP); (SQ 6 3, BLACK, KNIGHT); (SQ 6 4, BLACK, BISHOP)]
    (mkStep (SQ 0 0) (SQ 0 2) ROOK) (Some (mkStep (SQ 1 0) (SQ 2 0) PAWN))
].

Definition stq_rules_4 : list Rule := [
  mkRule WHITE None (Some 12)
    [(SQ 7 3, WHITE, QUEEN); (SQ 1 2, BLACK, QUEEN); (SQ 1 3, BLACK, BISHOP);
     (SQ 0 4, WHITE, KING); (SQ 0 1, WHITE, KNIGHT); (SQ 2 5, WHITE, KNIGHT);
     (SQ 7 4, BLACK, KING); (SQ 5 2, BLACK, KNIGHT); (SQ 5 1, BLACK, PAWN);
     (SQ 5 4, BLACK, PAWN); (SQ 4 3, WHITE, PAWN)]
    (mkStep (SQ 0 1) (SQ 1 3) KNIGHT) (Some (mkStep (SQ 0 4) (SQ 1 3) KING));
  mkRule BLACK None (Some 20)
    [(SQ 7 3, WHITE, QUEEN); (SQ 3 3, BLACK, QUEEN); (SQ 6 5, BLACK, KING);
     (SQ 0 6, WHITE, KING); (SQ 4 2, BLACK, KNIGHT); (SQ 5 2, BLACK, KNIGHT);
     (SQ 3 1, WHITE, PAWN); (SQ 3 2, WHITE, PAWN); (SQ 2 2, WHITE, KNIGHT);
     (SQ 2 4, WHITE, BISHOP)]
    (mkStep (SQ 3 3) (SQ 3 4) QUEEN) (Some (mkStep (SQ 4 2) (SQ 5 0) KNIGHT));
  mkRule BLACK None (Some 10)
    [(SQ 7 3, WHITE, QUEEN); (SQ 1 2, BLACK, QUEEN); (SQ 0 4, WHITE, KING);
     (SQ 7 4, BLACK, KING); (SQ 4 0, WHITE, BISHOP); (SQ 3 4, BLACK, KNIGHT);
     (SQ 2 1, WHITE, PAWN); (SQ 2 5, WHITE, KNIGHT); (SQ 5 0, BLACK, KNIGHT);
     (SQ 5 4, BLACK, PAWN); (SQ 6 1, BLACK, PAWN)]
    (mkStep (SQ 6 1) (SQ 5 1) PAWN) (Some (mkStep (SQ 7 4) (SQ 6 4) KING))
].

Definition stq_regression_override_move (b : Board) (ml : MoveList) : Move :=
  if b_mod b != MOD_SAVE_QUEEN then MOVE_NONE
  else first_rule b ml MOVE_NONE (stq_rules_1 ++ stq_rules_2 ++ stq_rules_3 ++ stq_rules_4).

(** ** The refinement *)

Definition stq_accept (b : Board) (best : Move) (move : Move) : option Z :=
  let raw_priority := stq_candidate_priority b best (b_side b) in
  let raw_is_king := MOVE_PIECE best == KING in
  let min_priority := if raw_priority <? 0 then raw_priority + 40 else 1 in
  let priority := stq_candidate_priority b move (b_side b) in
  if raw_is_king && (MOVE_PIECE move == KING) then
    (if priority <? raw_priority + 60 then None else Some priority)
  else if priority <? min_priority then None else Some priority.

Definition stq_verify_limits (best : Move) (time_ms max_depth : Z) : Z * Z :=
  let verify_depth := if max_depth <? 5 then 5 else max_depth in
  let verify_time := if time_ms <=? 0 then 190 else clamp_int ((time_ms * 5) ÷ 4) 130 210 in
  if MOVE_PIECE best == KING then
    (if verify_depth <? 6 then 6 else verify_depth + 1,
     if time_ms <=? 0 then 250 else clamp_int ((time_ms * 7) ÷ 4) 180 300)
  else (verify_depth, verify_time).

(** The best alternative that is not an opening sortie of the queen. *)
Definition stq_best_alternative (b : Board) (rest : list (Move * Z)) : Move * Z :=
  fold_left (fun best c =>
    if stq_is_opening_queen_sortie b c.1 (b_side b) then best
    else if best.2 <? c.2 then c else best) rest (MOVE_NONE, -2000000000).

Definition stq_choose (b : Board) (raw : SearchResult) (first : Move * Z) (rest : list (Move * Z))
    : SearchResult :=
  let best := r_best_move raw in
  let choice := pick_best snd first rest in
  if stq_is_opening_queen_sortie b best (b_side b) then
    if negb (choice.1 =? best) && (first.2 - 50 <=? choice.2) then with_choice raw choice
    else
      let alternative := stq_best_alternative b rest in
      if negb (alternative.1 =? MOVE_NONE) && (first.2 - 50 <=? alternative.2)
      then with_choice raw alternative else raw
  else if (choice.1 =? best) || (choice.2 <? first.2 + 30) then raw
  else with_choice raw choice.

Section Refine.
Context {C : Clock} {V : Verifier}.

Definition stq_refine_result (b : Board) (raw : SearchResult) (time_ms max_depth skill_level : Z)
    : M SearchResult :=
  let best := r_best_move raw in
  if (b_mod b != MOD_SAVE_QUEEN) || (best =? MOVE_NONE) || (skill_level <? 4) then mret raw
  else if 0 <? bridge_verify_nesting then mret raw
  else
    let ml := generate_moves b in
    if bool_decide (length ml <= 1)%nat then mret raw
    else
      let regression_override := stq_regression_override_move b ml in
      if negb (regression_override =? MOVE_NONE) then mret (with_move raw regression_override)
      else if negb (stq_root_looks_suspicious b best (b_side b)) then mret raw
      else
        let candidates := gather 8 (stq_accept b best) ml (first_candidate best) in
        if bool_decide (length candidates <= 1)%nat then mret raw
        else
          let '(verify_depth, verify_time) := stq_verify_limits best time_ms max_depth in
          verified ← verify_all false b verify_time verify_depth skill_level (map fst candidates);
          match verified with
          | [] => mret raw
          | first :: rest => mret (stq_choose b raw first rest)
          end.
End Refine.
