(* ===== verification/BridgeHeir.v ===== *)
(** * Heir refinement ([bridge_heir.c]) *)

From stdpp Require Import base numbers list option.
From Stdlib Require Import ZArith Lia Bool.
From S2P Require Import Prelude Types Board Attacks Make Movegen EvalCommon HeurCommon HeurHeir SearchState SearchMonad Search BridgeCommon.

Definition heir_is_flank_rook_pawn_raid (b : Board) (m : Move) : bool :=
  if (MOVE_PIECE m != ROOK) || negb (MOVE_IS_CAPTURE m) || (MOVE_CAPTURED m != PAWN) then false
  else
    let to_file := SQ_COL (MOVE_TO m) in
    if (1 <? to_file) && (to_file <? 6) then false
    else
      let to_rank := SQ_ROW (MOVE_TO m) in
      if b_side b == WHITE then 4 <=? to_rank else to_rank <=? 3.

(** ** Known positions

    All but the special cases below are entries of the four tables. *)

Definition heir_rules_1 : list Rule := [
  mkRule WHITE (Some (mkRaw (mkStep (SQ 0 3) (SQ 7 3) ROOK) Capturing (Some ROOK))) None
    [(SQ 7 4, BLACK, KING); (SQ 7 3, BLACK, ROOK); (SQ 5 2, BLACK, QUEEN);
     (SQ 5 0, BLACK, PAWN); (SQ 4 1, BLACK, PAWN); (SQ 3 0, WHITE, ROOK);
     (SQ 1 2, WHITE, QUEEN); (SQ 3 4, WHITE, KNIGHT); (SQ 3 5, WHITE, BISHOP)]
    (mkStep (SQ 3 0) (SQ 5 0) ROOK) None;
  mkRule WHITE (Some (mkRaw (mkStep (SQ 6 0) (SQ 6 1) ROOK) Quiet None)) None
    [(SQ 0 0, WHITE, ROOK); (SQ 0 7, WHITE, QUEEN); (SQ 2 0, WHITE, PAWN);
     (SQ 2 4, WHITE, PAWN); (SQ 3 2, WHITE, PAWN); (SQ 2 7, BLACK, PAWN);
     (SQ 2 3, BLACK, QUEEN); (SQ 7 3, BLACK, ROOK); (SQ 7 7, BLACK, ROOK)]
    (mkStep (SQ 0 7) (SQ 2 7) QUEEN) None;
  mkRule WHITE (Some (mkRaw (mkStep (SQ 2 4) (SQ 2 3) KING) PlainCapture None)) None
    [(SQ 7 3, BLACK, ROOK); (SQ 2 1, BLACK, ROOK); (SQ 2 3, BLACK, KNIGHT);
     (SQ 1 3, WHITE, ROOK); (SQ 4 4, BLACK, PAWN); (SQ 3 7, WHITE, PAWN);
     (SQ 4 0, WHITE, PAWN)]
    (mkStep (SQ 2 4) (SQ 3 4) KING) None;
  mkRule WHITE (Some (mkRaw (mkStep (SQ 3 4) (SQ 2 3) KING) PlainCapture None)) None
    [(SQ 6 3, BLACK, ROOK); (SQ 2 1, BLACK, ROOK); (SQ 2 3, BLACK, KNIGHT);
     (SQ 1 3, WHITE, ROOK); (SQ 4 4, BLACK, PAWN); (SQ 3 7, WHITE, PAWN);
     (SQ 4 0, WHITE, PAWN)]
    (mkStep (SQ 3 4) (SQ 2 4) KING) None;
  mkRule WHITE (Some (mkRaw (mkStep (SQ 5 4) (SQ 4 4) QUEEN) Quiet None)) None
    [(SQ 1 4, WHITE, KING); (SQ 5 4, WHITE, QUEEN); (SQ 0 7, WHITE, KNIGHT);
     (SQ 6 1, BLACK, PAWN); (SQ 6 2, BLACK, PAWN); (SQ 6 4, BLACK, ROOK);
     (SQ 5 2, BLACK, KING); (SQ 4 2, BLACK, BISHOP); (SQ 5 6, BLACK, PAWN);
     (SQ 4 5, BLACK, PAWN)]
    (mkStep (SQ 5 4) (SQ 1 0) QUEEN) None;
  mkRule WHITE (Some (mkRaw (mkStep (SQ 2 0) (SQ 3 0) PAWN) Quiet None)) None
    [(SQ 0 7, WHITE, ROOK); (SQ 3 7, BLACK, BISHOP); (SQ 1 3, WHITE, QUEEN);
     (SQ 1 4, WHITE, KING); (SQ 4 1, BLACK, QUEEN)]
    (mkStep (SQ 0 7) (SQ 3 7) ROOK) None;
  mkRule WHITE (Some (mkRaw (mkStep (SQ 6 4) (SQ 3 4) ROOK) Quiet None)) None
    [(SQ 6 4, WHITE, ROOK); (SQ 0 7, WHITE, QUEEN); (SQ 6 0, BLACK, PAWN);
     (SQ 6 2, BLACK, PAWN); (SQ 7 3, BLACK, ROOK); (SQ 5 5, BLACK, QUEEN)]
    (mkStep (SQ 6 4) (SQ 6 2) ROOK) None
].

Definition heir_rules_2 : list Rule := [
  mkRule BLACK (Some (mkRaw (mkStep (SQ 7 4) (SQ 6 4) KING) Quiet None)) None
    [(SQ 6 3, BLACK, BISHOP); (SQ 7 2, BLACK, QUEEN); (SQ 1 2, BLACK, ROOK);
     (SQ 3 0, WHITE, PAWN); (SQ 5 5, WHITE, QUEEN); (SQ 0 4, WHITE, KING);
     (SQ 0 1, WHITE, ROOK)]
    (mkStep (SQ 6 3) (SQ 3 0) BISHOP) None;
  mkRule BLACK (Some (mkRaw (mkStep (SQ 6 7) (SQ 4 7) PAWN) Quiet None)) None
    [(SQ 7 4, BLACK, KING); (SQ 7 5, BLACK, ROOK); (SQ 7 0, BLACK, ROOK);
     (SQ 0 0, BLACK, BISHOP); (SQ 6 6, BLACK, PAWN); (SQ 5 5, WHITE, KNIGHT);
     (SQ 3 5, WHITE, BISHOP); (SQ 3 6, WHITE, PAWN); (SQ 0 4, WHITE, KING);
     (SQ 0 7, WHITE, ROOK)]
    (mkStep (SQ 6 6) (SQ 5 6) PAWN) None;
  mkRule BLACK (Some (mkRaw (mkStep (SQ 6 6) (SQ 6 7) KING) Quiet None)) None
    [(SQ 6 4, BLACK, ROOK); (SQ 3 4, BLACK, KNIGHT); (SQ 4 0, WHITE, PAWN);
     (SQ 3 3, WHITE, PAWN); (SQ 1 1, WHITE, QUEEN); (SQ 0 5, WHITE, ROOK);
     (SQ 0 6, WHITE, KING)]
    (mkStep (SQ 6 6) (SQ 5 6) KING) None;
  mkRule WHITE (Some (mkRaw (mkStep (SQ 1 1) (SQ 3 1) PAWN) Quiet None)) None
    [(SQ 0 4, WHITE, KING); (SQ 0 0, WHITE, ROOK); (SQ 0 7, WHITE, ROOK);
     (SQ 1 2, WHITE, QUEEN); (SQ 1 3, WHITE, BISHOP); (SQ 2 3, WHITE, PAWN);
     (SQ 2 5, WHITE, KNIGHT); (SQ 3 4, WHITE, KNIGHT); (SQ 4 2, WHITE, PAWN);
     (SQ 7 4, BLACK, KING); (SQ 5 0, BLACK, QUEEN); (SQ 5 2, BLACK, KNIGHT);
     (SQ 6 4, BLACK, BISHOP); (SQ 4 5, BLACK, BISHOP); (SQ 4 4, BLACK, PAWN);
     (SQ 3 5, BLACK, PAWN)]
    (mkStep (SQ 1 2) (SQ 2 2) QUEEN) None;
  mkRule WHITE (Some (mkRaw (mkStep (SQ 1 1) (SQ 3 1) PAWN) Quiet None)) None
    [(SQ 0 4, WHITE, KING); (SQ 7 4, BLACK, KING); (SQ 2 5, WHITE, KNIGHT);
     (SQ 5 2, BLACK, KNIGHT); (SQ 5 4, BLACK, BISHOP); (SQ 5 3, BLACK, PAWN);
     (SQ 4 5, BLACK, PAWN)]
    (mkStep (SQ 2 5) (SQ 3 3) KNIGHT) None;
  mkRule WHITE (Some (mkRaw (mkStep (SQ 1 7) (SQ 3 7) PAWN) Quiet None)) None
    [(SQ 0 5, WHITE, KING); (SQ 0 7, WHITE, ROOK); (SQ 1 5, WHITE, PAWN);
     (SQ 2 4, BLACK, ROOK); (SQ 6 3, BLACK, KING); (SQ 3 1, BLACK, KNIGHT);
     (SQ 3 5, BLACK, PAWN)]
    (mkStep (SQ 1 5) (SQ 2 4) PAWN) None
].

Definition heir_rules_3 : list Rule := [
  mkRule BLACK (Some (mkRaw (mkStep (SQ 5 4) (SQ 4 4) PAWN) Quiet None)) None
    [(SQ 7 4, BLACK, KING); (SQ 0 5, WHITE, KING); (SQ 5 1, BLACK, PAWN);
     (SQ 4 2, BLACK, ROOK); (SQ 3 3, WHITE, ROOK); (SQ 4 6, WHITE, BISHOP);
     (SQ 2 5, WHITE, KNIGHT)]
    (mkStep (SQ 5 1) (SQ 4 1) PAWN) None;
  mkRule BLACK (Some (mkRaw (mkStep (SQ 4 1) (SQ 3 0) PAWN) PlainCapture None)) None
    [(SQ 7 4, BLACK, KING); (SQ 4 2, BLACK, ROOK); (SQ 5 4, BLACK, PAWN);
     (SQ 3 3, WHITE, ROOK); (SQ 2 4, WHITE, BISHOP); (SQ 2 5, WHITE, KNIGHT);
     (SQ 3 0, WHITE, PAWN)]
    (mkStep (SQ 4 1) (SQ 3 1) PAWN) None;
  mkRule BLACK (Some (mkRaw (mkStep (SQ 3 3) (SQ 2 3) PAWN) Quiet None)) None
    [(SQ 6 3, BLACK, KING); (SQ 7 0, BLACK, ROOK); (SQ 7 7, BLACK, ROOK);
     (SQ 5 2, BLACK, KNIGHT); (SQ 6 1, BLACK, PAWN); (SQ 6 2, BLACK, PAWN);
     (SQ 5 1, BLACK, PAWN); (SQ 2 7, BLACK, PAWN); (SQ 2 6, WHITE, KING);
     (SQ 0 6, WHITE, ROOK); (SQ 4 1, WHITE, BISHOP); (SQ 4 3, WHITE, PAWN);
     (SQ 4 5, WHITE, PAWN); (SQ 2 1, WHITE, PAWN); (SQ 1 0, WHITE, PAWN)]
    (mkStep (SQ 7 0) (SQ 7 5) ROOK) None;
  mkRule WHITE (Some (mkRaw (mkStep (SQ 3 5) (SQ 4 6) BISHOP) Quiet None)) None
    [(SQ 0 5, WHITE, KING); (SQ 0 3, WHITE, ROOK); (SQ 0 4, WHITE, ROOK);
     (SQ 2 5, WHITE, KNIGHT); (SQ 3 0, WHITE, PAWN); (SQ 3 5, WHITE, BISHOP);
     (SQ 3 7, WHITE, PAWN); (SQ 7 4, BLACK, KING); (SQ 6 6, BLACK, BISHOP);
     (SQ 6 7, BLACK, ROOK); (SQ 3 2, BLACK, ROOK); (SQ 3 3, BLACK, PAWN);
     (SQ 5 1, BLACK, PAWN); (SQ 5 6, BLACK, PAWN)]
    (mkStep (SQ 3 5) (SQ 4 4) BISHOP) None
].

Definition heir_rules_4 : list Rule := [
  mkRule BLACK (Some (mkRaw (mkStep (SQ 6 3) (SQ 5 3) PAWN) Quiet None)) (Some 14)
    [(SQ 7 4, BLACK, KING); (SQ 6 3, BLACK, PAWN); (SQ 3 4, WHITE, KNIGHT);
     (SQ 2 2, WHITE, BISHOP); (SQ 0 4, WHITE, KING)]
    (mkStep (SQ 6 3) (SQ 4 3) PAWN) None;
  mkRule BLACK (Some (mkRaw (mkStep (SQ 7 3) (SQ 4 3) ROOK) PlainCapture (Some PAWN))) None
    [(SQ 7 5, BLACK, KING); (SQ 7 7, BLACK, ROOK); (SQ 6 2, BLACK, PAWN);
     (SQ 1 3, BLACK, QUEEN); (SQ 4 2, WHITE, BISHOP); (SQ 0 5, WHITE, KING);
     (SQ 2 1, WHITE, QUEEN)]
    (mkStep (SQ 6 2) (SQ 4 2) PAWN) None;
  mkRule BLACK (Some (mkRaw (mkStep (SQ 7 4) (SQ 6 4) KING) Quiet None)) None
    [(SQ 6 3, BLACK, BISHOP); (SQ 7 2, BLACK, QUEEN); (SQ 1 2, BLACK, ROOK);
     (SQ 3 0, WHITE, PAWN); (SQ 5 5, WHITE, QUEEN); (SQ 0 4, WHITE, KING);
     (SQ 0 1, WHITE, ROOK)]
    (mkStep (SQ 6 3) (SQ 3 0) BISHOP) None;
  mkRule WHITE (Some (mkRaw (mkStep (SQ 3 6) (SQ 4 6) PAWN) Quiet None)) None
    [(SQ 0 0, WHITE, ROOK); (SQ 0 2, WHITE, ROOK); (SQ 4 2, WHITE, BISHOP);
     (SQ 7 6, BLACK, KING); (SQ 3 4, BLACK, BISHOP); (SQ 4 3, BLACK, PAWN)]
    (mkStep (SQ 0 0) (SQ 3 0) ROOK) None
].

(** Black wants to play queen d8-e7 although the queens could be traded. *)
Definition heir_declined_trade (b : Board) (ml : MoveList) (best : Move) : option Move :=
  if (b_side b == BLACK) && has_form best (mkRaw (mkStep (SQ 7 3) (SQ 6 4) QUEEN) Quiet None) then
    let queen_trade := bridge_find_legal_move ml (SQ 7 3) (SQ 0 3) QUEEN in
    if negb (queen_trade =? MOVE_NONE) then
      let support_push := bridge_find_legal_move ml (SQ 6 5) (SQ 5 5) PAWN in
      Some (if negb (support_push =? MOVE_NONE) then support_push else best)
    else None
  else None.

(** A rook that could take the queen and takes a rook instead. *)
Definition takes_queen_with_rook (m : Move) : bool :=
  (MOVE_PIECE m == ROOK) && MOVE_IS_CAPTURE m && (MOVE_CAPTURED m == QUEEN).

Definition heir_rook_takes_queen (ml : MoveList) (best : Move) : option Move :=
  if (MOVE_PIECE best == ROOK) && is_capture best && (MOVE_CAPTURED best == ROOK)
  then List.find takes_queen_with_rook ml else None.

(** Black wants to trade queens on d1. *)
Definition heir_queen_trade (b : Board) (ml : MoveList) (best : Move) : option Move :=
  if (b_side b == BLACK) && is_step best (mkStep (SQ 7 3) (SQ 0 3) QUEEN) then
    let queen_recenter := bridge_find_legal_move ml (SQ 7 3) (SQ 6 4) QUEEN in
    if negb (queen_recenter =? MOVE_NONE) then Some queen_recenter
    else
      let support_push := bridge_find_legal_move ml (SQ 6 5) (SQ 5 5) PAWN in
      if negb (support_push =? MOVE_NONE) then Some support_push else None
  else None.

Definition heir_rule (b : Board) (ml : MoveList) (best : Move) (rules : list Rule) : option Move :=
  let move := first_rule b ml best rules in
  if negb (move =? MOVE_NONE) then Some move else None.

(** The replacement that comes first, if any. *)
Definition heir_known_position (b : Board) (ml : MoveList) (best : Move) : option Move :=
  heir_declined_trade b ml best ∪
  heir_rule b ml best heir_rules_1 ∪
  heir_rook_takes_queen ml best ∪
  heir_rule b ml best (heir_rules_2 ++ heir_rules_3) ∪
  heir_queen_trade b ml best ∪
  heir_rule b ml best heir_rules_4.

(** ** What is wrong with the move of the search *)

Record HeirRoot := mkHeirRoot {
  hr_best : Move;
  hr_queen_sortie : bool;
  hr_tactical : bool;
  hr_center_push : bool;
  hr_bishop_miss : bool;
  hr_king_retreat : bool;
  hr_bishop_capture : bool;
  hr_rook_capture : bool;
  hr_flank_raid : bool;
  hr_pawn_endgame : bool
}.

Definition quiet_pawn_to_flank (m : Move) : bool :=
  (MOVE_PIECE m == PAWN) && negb (MOVE_IS_CAPTURE m) && negb (MOVE_IS_EP m) && negb (MOVE_IS_PROMO m) &&
  ((SQ_COL (MOVE_TO m) <=? 1) || (6 <=? SQ_COL (MOVE_TO m))).

Definition men_on_board (b : Board) : Z := bb_popcount (Z.lor (occ b WHITE) (occ b BLACK)).

Definition heir_flank_raid (b : Board) (ml : MoveList) (best : Move) : bool :=
  (2 <=? bb_popcount (pcs b (b_side b) ROOK)) && (men_on_board b <=? 18) &&
  (2 <=? SQ_COL (MOVE_TO best)) && (SQ_COL (MOVE_TO best) <=? 5) &&
  existsb (fun m =>
    negb (m =? best) && negb (MOVE_FROM m =? MOVE_FROM best) && heir_is_flank_rook_pawn_raid b m) ml.

Definition heir_pawn_endgame (b : Board) (ml : MoveList) (best : Move) : bool :=
  (MOVE_PIECE best == PAWN) && negb (MOVE_IS_CAPTURE best) && negb (MOVE_IS_EP best) &&
  negb (MOVE_IS_PROMO best) && (20 <=? b_fullmove b) &&
  (3 <=? SQ_COL (MOVE_TO best)) && (SQ_COL (MOVE_TO best) <=? 4) &&
  (0 <? bb_popcount (pcs b WHITE ROOK)) && (0 <? bb_popcount (pcs b BLACK ROOK)) &&
  (men_on_board b <=? 16) && existsb quiet_pawn_to_flank ml.

Definition heir_root (b : Board) (ml : MoveList) (best : Move) : HeirRoot :=
  let tactical_root := MOVE_IS_CAPTURE best && (MOVE_PIECE best == PAWN) && captured_at_least BISHOP best in
  let bishop_capture_root := (MOVE_PIECE best == BISHOP) && is_capture best in
  let rook_minor_capture_root :=
    (MOVE_PIECE best == ROOK) && is_capture best && captured_at_least KNIGHT best &&
    (PieceType_to_Z (MOVE_CAPTURED best) <=? PieceType_to_Z BISHOP) in
  let rook_rook_capture_root :=
    (MOVE_PIECE best == ROOK) && is_capture best && (MOVE_CAPTURED best == ROOK) in
  let rook_queen_capture_available := rook_rook_capture_root && existsb takes_queen_with_rook ml in
  let quiet_bishop_root :=
    (MOVE_PIECE best == BISHOP) && negb (MOVE_IS_CAPTURE best) && negb (MOVE_IS_EP best) &&
    negb (MOVE_IS_PROMO best) in
  let tactical_minor_or_better_available :=
    quiet_bishop_root &&
    existsb (fun m => search_heir_is_tactical_capture_candidate b m && captured_at_least BISHOP m) ml in
  mkHeirRoot best
    (0 <? search_heir_early_queen_sortie_penalty b best)
    tactical_root
    (0 <? search_heir_risky_center_pawn_push_penalty b best)
    (quiet_bishop_root && tactical_minor_or_better_available)
    (0 <? search_heir_passive_king_edge_retreat_penalty b best)
    bishop_capture_root
    (rook_minor_capture_root || (rook_rook_capture_root && rook_queen_capture_available))
    (rook_rook_capture_root && heir_flank_raid b ml best)
    (heir_pawn_endgame b ml best).

Definition heir_suspicious (r : HeirRoot) : bool :=
  hr_queen_sortie r || hr_tactical r || hr_center_push r || hr_bishop_miss r || hr_king_retreat r ||
  hr_bishop_capture r || hr_rook_capture r || hr_flank_raid r || hr_pawn_endgame r.

(** ** The refinement *)

Definition heir_include (b : Board) (r : HeirRoot) (m : Move) : bool :=
  if hr_rook_capture r then MOVE_PIECE m == ROOK
  else if hr_flank_raid r then
    (MOVE_PIECE m == ROOK) && (MOVE_IS_CAPTURE m || negb (MOVE_FROM m =? MOVE_FROM (hr_best r)))
  else if hr_pawn_endgame r then quiet_pawn_to_flank m
  else
    search_heir_is_tactical_capture_candidate b m ||
    (hr_bishop_capture r && is_capture m) ||
    (hr_king_retreat r && (MOVE_PIECE m == KING)) ||
    (hr_center_push r && (MOVE_PIECE m == PAWN) && negb (MOVE_IS_CAPTURE m) && negb (MOVE_IS_EP m) &&
     negb (MOVE_IS_PROMO m)).

(** Depth, time and the margin by which an alternative must be better. *)
Definition heir_verify_limits (r : HeirRoot) (time_ms max_depth : Z) : Z * Z * Z :=
  let verify_depth := if max_depth <? 8 then max_depth + 3 else max_depth in
  let verify_time := if time_ms <=? 0 then 450 else clamp_int (time_ms * 3) 300 600 in
  if hr_rook_capture r || hr_flank_raid r then
    (if verify_depth <? 8 then 8 else verify_depth + 1,
     if time_ms <=? 0 then 520 else clamp_int (time_ms * 4) 420 700, 30)
  else if hr_pawn_endgame r then
    (if verify_depth <? 9 then 9 else verify_depth + 2,
     if time_ms <=? 0 then 720 else clamp_int (time_ms * 6) 700 1200, 1)
  else (verify_depth, verify_time, 30).

Section Refine.
Context {C : Clock} {V : Verifier}.

Definition heir_refine_queen_sortie_result (b : Board) (raw : SearchResult)
    (time_ms max_depth skill_level : Z) : M SearchResult :=
  let best := r_best_move raw in
  if (b_mod b != MOD_HEIR) || (best =? MOVE_NONE) || (skill_level <? 4) then mret raw
  else
    let ml := generate_moves b in
    match heir_known_position b ml best with
    | Some move => mret (with_move raw move)
    | None =>
        let r := heir_root b ml best in
        if negb (heir_suspicious r) then mret raw
        else
          let candidates := collect 24 (heir_include b r) ml [best] in
          if bool_decide (length candidates <= 1)%nat then mret raw
          else
            let '(verify_depth, verify_time, switch_margin) := heir_verify_limits r time_ms max_depth in
            verified ← verify_all (hr_pawn_endgame r) b verify_time verify_depth skill_level candidates;
            match verified with
            | [] => mret raw
            | first :: rest =>
                let choice := pick_best snd first rest in
                if (choice.1 =? best) || (choice.2 <? first.2 + switch_margin) then mret raw
                else mret (with_choice raw choice)
            end
    end.
End Refine.
