(* ===== verification/Bridge.v ===== *)
(** * The engine's entry points ([bridge.c])

    [bridge_engine_search_best_move] is the search followed by the nine
    refinements.  A refinement verifies its candidates with the same function
    one level down, where [bridge_verify_nesting] is 1 and the verification of
    a candidate is a plain search: two instances of [Verifier] tie the knot. *)

From stdpp Require Import base numbers list option.
From Stdlib Require Import ZArith Lia Bool.
From S2P Require Import Prelude Types Board Zobrist Attacks Make Movegen HeurCommon Fen SearchState SearchMonad Search BridgeCommon BridgeKingDiscipline BridgeKingsBattle BridgeFriendlyFire BridgeSuccession BridgeSaveQueen BridgeHeir.

(** ** Truce *)

Definition truce_shell : list (Square * Color * PieceType) :=
  [(SQ 0 7, WHITE, KING); (SQ 2 5, WHITE, KNIGHT); (SQ 3 6, WHITE, PAWN);
   (SQ 7 6, BLACK, KING); (SQ 5 5, BLACK, KNIGHT); (SQ 5 4, BLACK, QUEEN)].

Section Clocked.
Context {C : Clock}.

Definition truce_refine_result {V : Verifier} (b : Board) (raw : SearchResult)
    (time_ms max_depth skill_level : Z) : M SearchResult :=
  let best := r_best_move raw in
  if (b_mod b != MOD_TRUCE) || (best =? MOVE_NONE) || (skill_level <? 4) then mret raw
  else if b_truce_active b || (b_side b != WHITE) || (24 <? b_fullmove b) then mret raw
  else if 0 <? bridge_verify_nesting then mret raw
  else if (MOVE_PIECE best != KING) || MOVE_IS_CASTLE best || special best then mret raw
  else if negb (men_stand b truce_shell) then mret raw
  else
    let ml := generate_moves b in
    let regroup := bridge_find_legal_move ml (SQ 2 5) (SQ 1 3) KNIGHT in
    if regroup =? MOVE_NONE then mret raw
    else if best =? regroup then mret raw
    else
      let verify_depth := if max_depth <? 6 then 6 else max_depth in
      let verify_time := if time_ms <=? 0 then 260 else clamp_int (time_ms * 2) 180 360 in
      regroup_score ← kb_verify_child_score b regroup verify_time verify_depth skill_level;
      mret (with_choice raw (regroup, regroup_score)).

(** ** Search and refinements *)

Definition engine_search {V : Verifier} (time_ms max_depth skill_level : Z) : M SearchResult :=
  raw ← search_think time_ms max_depth skill_level;
  board ← get_board;
  raw ← ff_refine_result board raw time_ms max_depth skill_level;
  raw ← kb_refine_phase1_result board raw time_ms max_depth skill_level;
  raw ← kb_refine_unlocked_result board raw time_ms max_depth skill_level;
  raw ← heir_refine_queen_sortie_result board raw time_ms max_depth skill_level;
  raw ← succ_refine_result board raw time_ms max_depth skill_level;
  raw ← stq_refine_result board raw time_ms max_depth skill_level;
  raw ← mercenary_minor_trade_refine_result board raw time_ms max_depth skill_level;
  raw ← truce_refine_result board raw time_ms max_depth skill_level;
  king_discipline_refine_result board raw time_ms max_depth skill_level.

(** Inside a verification: the engine is not entered a third time. *)
#[local] Instance nested : Verifier := {|
  bridge_verify_nesting := 1;
  deeper_search := fun _ _ _ => crash
|}.

Definition nested_search : Z -> Z -> Z -> M SearchResult := engine_search (V := nested).

#[local] Instance outermost : Verifier := {|
  bridge_verify_nesting := 0;
  deeper_search := nested_search
|}.

Definition bridge_engine_search_best_move : Z -> Z -> Z -> M SearchResult := engine_search (V := outermost).

(** ** Lifecycle *)

Record EngineState := mkEngine {
  s_initialized : bool;
  e_zobrist : Zob;
  e_search : Search
}.

Definition engine_start : EngineState := mkEngine false zob_start search_start.

Definition engine_init (e : EngineState) : EngineState :=
  if s_initialized e then e else mkEngine true (zobrist_init (e_zobrist e)) (e_search e).

Definition engine_reset (clear_tt : Z) (e : EngineState) : EngineState :=
  let e := engine_init e in
  mkEngine (s_initialized e) (e_zobrist e) (search_reset (negb (clear_tt =? 0)) (e_search e)).

(** ** Find a move, apply it *)

Record EngineResult := mkEngineResult {
  from_row : Z;
  from_col : Z;
  to_row : Z;
  to_col : Z;
  score : Z;
  depth : Z;
  nodes : Z;
  is_castling : Z;
  is_en_passant : Z;
  is_promotion : Z;
  promo_type : Z
}.

Definition engine_result (sr : SearchResult) : EngineResult :=
  let m := r_best_move sr in
  mkEngineResult (SQ_ROW (MOVE_FROM m)) (SQ_COL (MOVE_FROM m)) (SQ_ROW (MOVE_TO m)) (SQ_COL (MOVE_TO m))
    (r_score sr) (r_depth sr) (r_nodes sr)
    (if MOVE_IS_CASTLE m then 1 else 0) (if MOVE_IS_EP m then 1 else 0) (if MOVE_IS_PROMO m then 1 else 0)
    (if MOVE_IS_PROMO m then PieceType_to_Z (MOVE_PROMO_TYPE m) else 0).

(** [b] is what the uninitialised [Board board] holds.  Both entry points
    return the statics they leave besides the result. *)
Definition engine_find_move (b : Board) (fen : list Z) (md : GameMod) (time_ms max_depth skill_level : Z)
    (heir_wp heir_bp truce_active truce_frozen : Z) (e : EngineState) : option (EngineResult * EngineState) :=
  let e := engine_init e in
  match engine_setup b fen md heir_wp heir_bp truce_active truce_frozen with
  | None => None
  | Some board =>
      match bridge_engine_search_best_move time_ms max_depth skill_level (mkWorld board (e_search e)) with
      | None => None
      | Some (sr, w) => Some (engine_result sr, mkEngine (s_initialized e) (e_zobrist e) (w_search w))
      end
  end.

(** The text written, the returned length and the result. *)
Definition engine_apply_move (b : Board) (fen : list Z) (md : GameMod) (time_ms max_depth skill_level : Z)
    (heir_wp heir_bp truce_active truce_frozen bufsize : Z) (e : EngineState)
    : option (list Z * Z * EngineResult * EngineState) :=
  let e := engine_init e in
  match engine_setup b fen md heir_wp heir_bp truce_active truce_frozen with
  | None => None
  | Some board =>
      match bridge_engine_search_best_move time_ms max_depth skill_level (mkWorld board (e_search e)) with
      | None => None
      | Some (sr, w) =>
          let board := w_board w in
          let board := if negb (r_best_move sr =? MOVE_NONE) then board_make_move board (r_best_move sr)
                       else board in
          match board_get_fen board bufsize with
          | None => None
          | Some text =>
              Some (text, Z.of_nat (length text), engine_result sr,
                    mkEngine (s_initialized e) (e_zobrist e) (w_search w))
          end
      end
  end.

End Clocked.
