(* ===== verification/BridgeCandidates.v ===== *)
(** * The candidate arrays by their meaning

    The insertion loops of the refinements keep the move of the search in
    front and behind it the best alternatives, as many as the array holds, in
    descending order of priority, those of equal priority in the order of the
    move list. *)

From stdpp Require Import base numbers list option.
From Stdlib Require Import ZArith Lia Bool.
From S2P Require Import Prelude Types Board Movegen SearchState Ordering BridgeCommon BridgeFriendlyFire BridgeSuccession.

(** ** One insertion *)

Lemma ins_length {A} (key : A -> Z) (x : A) (l : list A) : length (ins key x l) = S (length l).
Proof. by rewrite <- (ins_perm key x l). Qed.

Lemma ins_last {A} (key : A -> Z) (x : A) (l : list A) :
  Forall (fun y => key x <= key y) l -> ins key x l = l ++ [x].
Proof.
  intros H. pose proof (ins_split key x l [] H ltac:(constructor)) as E. by rewrite app_nil_r in E.
Qed.

(** Inserting before a smaller last entry. *)
Lemma ins_before_last {A} (key : A -> Z) (x g : A) (l : list A) :
  descending key (l ++ [g]) -> key g < key x -> ins key x (l ++ [g]) = ins key x l ++ [g].
Proof.
  intros _ Hg. induction l as [|y l IH]; simpl.
  - by replace (key g <? key x) with true by lia.
  - destruct (key y <? key x); [done|]. by rewrite IH.
Qed.

Lemma ins_take {A} (key : A -> Z) (n : nat) (x : A) (l : list A) :
  take n (ins key x (take n l)) = take n (ins key x l).
Proof.
  revert n. induction l as [|y l IH]; intros [|n]; [done..|]. cbn [take firstn ins].
  destruct (key y <? key x); cbn [take firstn].
  - f_equal. destruct n; [done|]. cbn [take firstn]. f_equal. by rewrite take_take, Nat.min_l by lia.
  - f_equal. apply IH.
Qed.

Lemma at_length {A} (P R : list A) (x : A) (h : A) : (h :: P ++ x :: R) !! S (length P) = Some x.
Proof.
  change ((P ++ x :: R) !! length P = Some x). by rewrite lookup_app_r, Nat.sub_diag by lia.
Qed.

Lemma set_at_length {A} (P R : list A) (x y h : A) :
  <[S (length P) := y]> (h :: P ++ x :: R) = h :: P ++ y :: R.
Proof.
  change (h :: <[length P := y]> (P ++ x :: R) = h :: P ++ y :: R). f_equal.
  by rewrite insert_app_r_alt, Nat.sub_diag by lia.
Qed.

Lemma make_room_step (j : nat) (priority : Z) (l : Candidates) :
  make_room (S (S j)) priority l =
  if (l !!! S j).2 <? priority then make_room (S j) priority (<[S (S j) := l !!! S j]> l) else (S (S j), l).
Proof. done. Qed.

Lemma make_room_spec (P R : Candidates) (h g x : Move * Z) :
  descending snd P ->
  exists P1 P2, P = P1 ++ P2 /\ Forall (fun y => x.2 <= y.2) P1 /\ Forall (fun y => y.2 < x.2) P2 /\
    let '(at_, l) := make_room (S (length P)) x.2 (h :: P ++ g :: R) in
    <[at_ := x]> l = h :: P1 ++ x :: P2 ++ R.
Proof.
  revert g R. induction P as [|p P IH] using rev_ind; intros g R Hd.
  { exists [], []. split_and!; [done|constructor..|]. done. }
  destruct (descending_snoc snd P p Hd) as [HP Hp].
  rewrite length_app, Nat.add_1_r, make_room_step.
  rewrite <- !app_assoc. cbn [app].
  rewrite (list_lookup_total_correct _ _ _ (at_length P (g :: R) p h)).
  destruct (Z.ltb_spec p.2 x.2).
  - destruct (IH p (p :: R) HP) as (P1 & P2 & E & H1 & H2 & HL).
    exists P1, (P2 ++ [p]). split_and!; [by rewrite E, app_assoc|done|apply Forall_app; auto|].
    pose proof (set_at_length (P ++ [p]) R g p h) as HS.
    rewrite length_app, Nat.add_1_r, <- !app_assoc in HS. cbn [app] in HS. rewrite HS.
    destruct (make_room _ _ _) as [at_ l]. rewrite HL. by rewrite <- app_assoc.
  - exists (P ++ [p]), []. split_and!; [by rewrite app_nil_r| |constructor|].
    { apply Forall_app. split; [|repeat constructor; lia]. eapply List.Forall_impl; [|exact Hp]. simpl. lia. }
    pose proof (set_at_length (P ++ [p]) R g x h) as HS.
    rewrite length_app, Nat.add_1_r, <- !app_assoc in HS. cbn [app] in HS. rewrite HS.
    by rewrite <- app_assoc.
Qed.

Lemma make_room_ins (P R : Candidates) (h g x : Move * Z) :
  descending snd P ->
  (let '(at_, l) := make_room (S (length P)) x.2 (h :: P ++ g :: R) in <[at_ := x]> l) =
  h :: ins snd x P ++ R.
Proof.
  intros Hd. destruct (make_room_spec P R h g x Hd) as (P1 & P2 & -> & H1 & H2 & HL).
  destruct (make_room _ _ _) as [at_ l]. rewrite HL, ins_split by done. by rewrite <- app_assoc.
Qed.

Lemma add_candidate_spec (n : nat) (m : Move) (p : Z) (h : Move * Z) (L : Candidates) :
  (1 <= n)%nat -> (length L <= n)%nat -> descending snd L ->
  add_candidate (S n) m p (h :: L) = h :: take n (ins snd (m, p) L).
Proof.
  intros Hn Hl Hd. unfold add_candidate. cbn [length]. rewrite !Nat.sub_succ, !Nat.sub_0_r.
  destruct (decide (length L = n)) as [El|Hne].
  - rewrite (bool_decide_eq_true_2 (S (length L) = S n)) by lia.
    destruct L as [|g P _] using rev_ind; [simpl in El; lia|]. rewrite length_app, Nat.add_1_r in *.
    destruct (descending_snoc snd P g Hd) as [HP Hg]. cbn [length] in *.
    rewrite (list_lookup_total_correct _ _ _ (at_length P [] g h)).
    destruct (Z.leb_spec p g.2) as [Hp|Hp]; cbn [andb].
    + f_equal. rewrite (ins_last snd (m, p)).
      * rewrite take_app_le, take_ge; [done|rewrite length_app; simpl; lia..].
      * apply Forall_app. split; [|by repeat constructor]. eapply List.Forall_impl; [|exact Hg]. simpl. lia.
    + rewrite (bool_decide_eq_true_2 (n < _)%nat), (bool_decide_eq_false_2 (_ < S n)%nat) by lia.
      pose proof (make_room_ins P [] h g (m, p) HP) as E. cbn [snd] in E.
      rewrite <- El, E, app_nil_r. f_equal.
      rewrite ins_before_last by done. rewrite take_app_le, take_ge; [done|rewrite ins_length; lia..].
  - rewrite (bool_decide_eq_false_2 (S (length L) = S n)) by lia. cbn [andb].
    rewrite (bool_decide_eq_false_2 (n < _)%nat), (bool_decide_eq_true_2 (_ < S n)%nat) by lia.
    pose proof (make_room_ins L [] h (m, p) (m, p) Hd) as E. rewrite app_nil_r in E.
    cbn [app snd] in *. rewrite E. f_equal. rewrite take_ge; [done|]. rewrite ins_length. lia.
Qed.

(** ** The loop *)

(** The alternatives the loop accepts, with their priorities. *)
Definition offers (accept : Move -> option Z) (raw : Move) (ml : MoveList) : Candidates :=
  omap (fun m => if m =? raw then None else (fun p => (m, p)) <$> accept m) ml.

Lemma offers_In (accept : Move -> option Z) (raw : Move) (ml : MoveList) (c : Move * Z) :
  In c (offers accept raw ml) -> In c.1 ml /\ c.1 <> raw.
Proof.
  intros (m & Hm & E)%list_elem_of_In%list_elem_of_omap. apply list_elem_of_In in Hm.
  destruct (Z.eqb_spec m raw); [done|]. by apply fmap_Some in E as (p & _ & ->).
Qed.

(** What the array holds after the moves [done_] have been looked at. *)
Definition best_of_offers (n : nat) (accept : Move -> option Z) (raw : Move) (done_ : MoveList) : Candidates :=
  (raw, 2000000000) :: take n (isort snd (offers accept raw done_)).

Lemma take_isort_In {A} (key : A -> Z) (n : nat) (l : list A) (x : A) : In x (take n (isort key l)) -> In x l.
Proof.
  intros H. apply (Permutation_in _ (Permutation_sym (isort_perm key l))).
  rewrite <- (take_drop n). apply in_or_app. by left.
Qed.

Lemma descending_take {A} (key : A -> Z) (n : nat) (l : list A) : descending key l -> descending key (take n l).
Proof.
  intros H. revert n. induction H as [|x l Hs IH Hx]; intros [|n]; [constructor..|].
  cbn [take firstn]. constructor; [apply IH|]. by apply Forall_take.
Qed.

Lemma seen_best (n : nat) (accept : Move -> option Z) (raw m : Move) (done_ : MoveList) :
  ~ In m done_ -> seen m (best_of_offers n accept raw done_) = (m =? raw).
Proof.
  intros Hm. unfold best_of_offers. cbn [seen existsb fst]. rewrite (Z.eqb_sym raw m).
  destruct (m =? raw); [done|]. cbn [orb]. apply not_true_iff_false. intros (c & Hc & E)%existsb_exists.
  apply take_isort_In, offers_In in Hc as [Hc _]. by apply Z.eqb_eq in E as <-.
Qed.

(** The loop keeps the best alternatives. *)
Lemma gather_best (n : nat) (accept : Move -> option Z) (raw : Move) (ml : MoveList) :
  (1 <= n)%nat -> List.NoDup ml ->
  gather (S n) accept ml (first_candidate raw) = best_of_offers n accept raw ml.
Proof.
  intros Hn. unfold gather. induction ml as [|m ml IH] using rev_ind; intros Hnd; [by destruct n|].
  apply NoDup_remove in Hnd as [Hnd Hm]. rewrite app_nil_r in *.
  rewrite fold_left_app. cbn [fold_left]. rewrite IH, seen_best by done.
  unfold best_of_offers, offers. rewrite omap_app. cbn [omap list_omap].
  destruct (m =? raw); [by rewrite app_nil_r|].
  destruct (accept m) as [p|]; cbn [fmap option_fmap option_map]; [|by rewrite app_nil_r].
  rewrite isort_snoc, add_candidate_spec; [by rewrite ins_take|done|rewrite length_take; lia|].
  apply descending_take, isort_descending.
Qed.

(** The loops of Friendly Fire and Succession do the same, besides the flag
    they compute. *)
Lemma ff_gather_fst (b : Board) (r : FfRoot) (ml : MoveList) (suspicious_root : bool) :
  (ff_gather b r ml suspicious_root).1 =
  gather 16 (ff_alternative_priority b r) ml (first_candidate (fr_best r)).
Proof.
  unfold ff_gather, gather. generalize (first_candidate (fr_best r)) suspicious_root.
  induction ml as [|m ml IH]; intros l s; cbn [fold_left]; [done|].
  destruct (seen m l); [done|]. destruct (ff_alternative_priority b r m); [|done]. apply IH.
Qed.

Lemma succ_gather_fst (b : Board) (r : SuccRoot) (ml : MoveList) :
  (succ_gather b r ml).1 =
  gather (if succ_wide r then 12%nat else 8%nat)
    (fun m => if succ_alternative_priority b r m <? (if succ_wide r then -160 else 1) then None
              else Some (succ_alternative_priority b r m)) ml (first_candidate (sr_best r)).
Proof.
  unfold succ_gather, gather. generalize (first_candidate (sr_best r)) false.
  induction ml as [|m ml IH]; intros l s; cbn [fold_left]; [done|].
  destruct (seen m l); [done|]. destruct (_ <? _); apply IH.
Qed.
