(* ===== verification/BridgeSpec.v ===== *)
(** * The refinements return legal moves

    Whatever a refinement does, it ends, leaves the board as it is and the
    transposition table in order, and returns the result it was given or one
    whose move is legal.  The refinements are proved against [Verifies], what
    they need of the verifying search; [Verifies] is established for both
    levels at the end. *)

From stdpp Require Import base numbers list option gmap.
From Stdlib Require Import ZArith Lia Bool Permutation.
From S2P Require Import Prelude Types Board Make Movegen MovegenSound Game SameGame HeurCommon SearchState SearchTables SearchMonad Search SearchSpec RootSpec BridgeCommon BridgeCandidates BridgeKingDiscipline BridgeKingsBattle BridgeFriendlyFire BridgeSuccession BridgeSaveQueen BridgeHeir Bridge.

(** ** What is promised *)

Record settled (w w' : World) : Prop := {
  se_board : w_board w' = w_board w;
  se_table : tt_ok (s_tt (w_search w'))
}.

Definition listed (b : Board) (m : Move) : Prop := In m (generate_moves b).

(** The result of a refinement. *)
Inductive refined (b : Board) (raw : SearchResult) : SearchResult -> Prop :=
| refined_raw : refined b raw raw
| refined_by (m : Move) (score : Z) :
    r_best_move raw <> MOVE_NONE -> listed b m ->
    refined b raw (mkResult m score (r_depth raw) (r_nodes raw)).

Section Clocked.
Context {C : Clock}.

Class Verifies (V : Verifier) (k : Z) : Prop :=
  verify_child (b : Board) (m : Move) (time_ms max_depth skill_level : Z) (w : World) :
    ready k b -> listed b m -> tt_ok (s_tt (w_search w)) ->
    wp (kb_verify_child_score b m time_ms max_depth skill_level) (fun _ => settled w) w.

Definition refinement (k : Z) (f : Board -> SearchResult -> Z -> Z -> Z -> M SearchResult) : Prop :=
  forall b raw time_ms max_depth skill_level w,
  ready k b -> tt_ok (s_tt (w_search w)) -> (r_best_move raw <> MOVE_NONE -> listed b (r_best_move raw)) ->
  wp (f b raw time_ms max_depth skill_level) (fun r w' => settled w w' /\ refined b raw r) w.

(** ** Lists of candidates *)

Lemma fold_inv {A B} (P : A -> Prop) (f : A -> B -> A) (l : list B) (a : A) :
  P a -> (forall a x, In x l -> P a -> P (f a x)) -> P (fold_left f l a).
Proof.
  revert a. induction l as [|x l IH]; intros a Ha Hf; [done|]. cbn. apply IH.
  - apply Hf; [by left|done].
  - intros a' y Hy. apply Hf. by right.
Qed.

Lemma pick_best_In (value : Move * Z -> Z) (first : Move * Z) (rest : list (Move * Z)) :
  In (pick_best value first rest) (first :: rest).
Proof.
  unfold pick_best. apply (fold_inv (fun c => In c (first :: rest))); [by left|].
  intros a x Hx Ha. destruct (_ <? _); [by right|done].
Qed.

Definition all_listed (b : Board) (l : list (Move * Z)) : Prop := Forall (fun c => listed b c.1) l.

Lemma make_room_Forall (P : Move * Z -> Prop) (at_ : nat) (priority : Z) (l : Candidates) :
  (at_ < length l)%nat -> Forall P l -> Forall P (make_room at_ priority l).2.
Proof.
  revert l. induction at_ as [|[|j] IH]; intros l Hlen Hl; [done..|]. rewrite make_room_step.
  destruct (_ <? _); [|done]. apply IH; [rewrite length_insert; lia|].
  apply Forall_insert; [done|]. rewrite Forall_lookup in Hl.
  destruct (lookup_lt_is_Some_2 l (S j)) as [c Hc]; [lia|].
  rewrite (list_lookup_total_correct _ _ _ Hc). by eapply Hl.
Qed.

Lemma add_candidate_Forall (P : Move * Z -> Prop) (n : nat) (m : Move) (p : Z) (l : Candidates) :
  (0 < n)%nat -> (0 < length l)%nat -> P (m, p) -> Forall P l -> Forall P (add_candidate n m p l).
Proof.
  intros Hn Hlen Hm Hl. unfold add_candidate. destruct (_ && _); [done|].
  set (l' := if bool_decide _ then l ++ _ else l). set (at_ := if bool_decide _ then (n - 1)%nat else _).
  assert (Forall P l') as Hl'.
  { subst l'. case_bool_decide; [|done]. apply Forall_app. auto. }
  assert (at_ < length l')%nat as Hat.
  { subst at_ l'. repeat case_bool_decide; rewrite ?length_app; cbn; lia. }
  pose proof (make_room_Forall P at_ p l' Hat Hl') as H. destruct (make_room _ _ _). cbn in H.
  by apply Forall_insert.
Qed.

Lemma add_candidate_length (n : nat) (m : Move) (p : Z) (l : Candidates) :
  (length l <= length (add_candidate n m p l))%nat.
Proof.
  unfold add_candidate. destruct (_ && _); [done|].
  set (l' := if bool_decide _ then l ++ _ else l).
  assert (forall at_ l0, length (make_room at_ p l0).2 = length l0) as E.
  { intros at_. induction at_ as [|[|j] IH]; intros l0; [done..|]. rewrite make_room_step.
    destruct (_ <? _); [|done]. by rewrite IH, length_insert. }
  set (at_ := if bool_decide _ then (n - 1)%nat else _). specialize (E at_ l').
  destruct (make_room _ _ _). cbn in E. rewrite length_insert, E. subst l'.
  case_bool_decide; rewrite ?length_app; lia.
Qed.

(** Candidates are moves of the list, or were there before. *)
Lemma gather_listed (b : Board) (n : nat) (accept : Move -> option Z) (best : Move) :
  (0 < n)%nat -> listed b best ->
  all_listed b (gather n accept (generate_moves b) (first_candidate best)).
Proof.
  intros Hn Hb. unfold gather.
  apply (fold_inv (fun l => all_listed b l /\ (0 < length l)%nat)).
  - split; [by repeat constructor|cbn; lia].
  - intros l m Hm [Hl Hlen]. destruct (seen m l); [done|]. destruct (accept m) as [p|]; [|done].
    split; [by apply add_candidate_Forall|]. pose proof (add_candidate_length n m p l). lia.
Qed.

Lemma collect_listed (b : Board) (n : nat) (include : Move -> bool) (best : Move) :
  listed b best -> Forall (listed b) (collect n include (generate_moves b) [best]).
Proof.
  intros Hb. unfold collect. apply fold_inv; [by repeat constructor|].
  intros l m Hm Hl. destruct (_ && _); [|done]. apply Forall_app. auto.
Qed.

(** ** Known positions *)

Lemma find_listed (b : Board) (from to : Square) (t : PieceType) :
  bridge_find_legal_move (generate_moves b) from to t <> MOVE_NONE ->
  listed b (bridge_find_legal_move (generate_moves b) from to t).
Proof.
  unfold listed. induction (generate_moves b) as [|m ml IH]; cbn [bridge_find_legal_move]; [done|].
  destruct (_ && _); [by left|]. intros H. right. by apply IH.
Qed.

Lemma rule_listed (b : Board) (r : Rule) :
  rule_move (generate_moves b) r <> MOVE_NONE -> listed b (rule_move (generate_moves b) r).
Proof.
  unfold rule_move. destruct (ru_avoid r); [|apply find_listed].
  destruct (_ && _); [|done]. apply find_listed.
Qed.

Lemma first_rule_listed (b : Board) (raw : Move) (rules : list Rule) :
  first_rule b (generate_moves b) raw rules <> MOVE_NONE ->
  listed b (first_rule b (generate_moves b) raw rules).
Proof.
  induction rules as [|r rules IH]; cbn [first_rule]; [done|].
  destruct (rule_matches b raw r); [|exact IH].
  destruct (Z.eqb_spec (rule_move (generate_moves b) r) MOVE_NONE); [exact IH|]. intros _.
  by apply rule_listed.
Qed.

Lemma override_listed (b : Board) (c : bool) (raw : Move) (rules : list Rule) :
  let m := if c then MOVE_NONE else first_rule b (generate_moves b) raw rules in
  m <> MOVE_NONE -> listed b m.
Proof. cbv zeta. destruct c; [done|]. apply first_rule_listed. Qed.

Lemma kb_phase1_override_listed (b : Board) :
  kb_phase1_regression_override_move b (generate_moves b) <> MOVE_NONE ->
  listed b (kb_phase1_regression_override_move b (generate_moves b)).
Proof. apply override_listed. Qed.

Lemma ff_override_listed (b : Board) :
  ff_regression_override_move b (generate_moves b) <> MOVE_NONE ->
  listed b (ff_regression_override_move b (generate_moves b)).
Proof. apply override_listed. Qed.

Lemma stq_override_listed (b : Board) :
  stq_regression_override_move b (generate_moves b) <> MOVE_NONE ->
  listed b (stq_regression_override_move b (generate_moves b)).
Proof. apply override_listed. Qed.

Lemma kb_unlocked_override_listed (b : Board) :
  kb_unlocked_regression_override_move b (generate_moves b) <> MOVE_NONE ->
  listed b (kb_unlocked_regression_override_move b (generate_moves b)).
Proof.
  unfold kb_unlocked_regression_override_move. destruct (_ || _); [done|]. cbv zeta.
  destruct (Z.eqb_spec (first_rule b (generate_moves b) MOVE_NONE kb_unlocked_rules) MOVE_NONE); cbn [negb].
  - destruct (_ && _); [|done]. apply find_listed.
  - apply first_rule_listed.
Qed.

(** Optional moves. *)
Definition some_listed (b : Board) (o : option Move) : Prop := forall m, o = Some m -> listed b m.

Lemma some_listed_union (b : Board) (o1 o2 : option Move) :
  some_listed b o1 -> some_listed b o2 -> some_listed b (o1 ∪ o2).
Proof. intros H1 H2 m E. destruct o1, o2; auto. Qed.

Lemma some_listed_guard (b : Board) (m : Move) :
  (m <> MOVE_NONE -> listed b m) -> some_listed b (if negb (m =? MOVE_NONE) then Some m else None).
Proof. intros H m'. destruct (Z.eqb_spec m MOVE_NONE); [done|]. intros [= <-]. auto. Qed.

Lemma heir_known_listed (b : Board) (best : Move) :
  listed b best -> some_listed b (heir_known_position b (generate_moves b) best).
Proof.
  intros Hb. unfold heir_known_position. repeat apply some_listed_union.
  - unfold heir_declined_trade. destruct (_ && _); [|done]. cbv zeta. destruct (negb _); [|done].
    intros m [= <-]. destruct (Z.eqb_spec (bridge_find_legal_move (generate_moves b) (SQ 6 5) (SQ 5 5) PAWN)
      MOVE_NONE); cbn [negb]; [done|by apply find_listed].
  - apply some_listed_guard, first_rule_listed.
  - unfold heir_rook_takes_queen. destruct (_ && _); [|done]. intros m E. by apply find_some in E as [? _].
  - apply some_listed_guard, first_rule_listed.
  - unfold heir_queen_trade. destruct (_ && _); [|done]. cbv zeta.
    pose proof (find_listed b (SQ 7 3) (SQ 6 4) QUEEN) as H.
    destruct (negb _) eqn:E; [|apply some_listed_guard, find_listed].
    apply negb_true_iff, Z.eqb_neq in E. intros m [= <-]. auto.
  - apply some_listed_guard, first_rule_listed.
Qed.

Lemma succ_known_listed (b : Board) : some_listed b (succ_known_position b).
Proof. unfold succ_known_position. destruct (_ && _); [|done]. apply some_listed_guard, find_listed. Qed.

(** Optional results with another move. *)
Definition some_moved (b : Board) (raw : SearchResult) (o : option SearchResult) : Prop :=
  forall r, o = Some r -> listed b (r_best_move r) /\ r_depth r = r_depth raw /\ r_nodes r = r_nodes raw.

Lemma some_moved_union (b : Board) (raw : SearchResult) (o1 o2 : option SearchResult) :
  some_moved b raw o1 -> some_moved b raw o2 -> some_moved b raw (o1 ∪ o2).
Proof. intros H1 H2 m E. destruct o1, o2; auto. Qed.

Lemma some_moved_force (b : Board) (raw : SearchResult) (from to : Square) (t : PieceType) :
  some_moved b raw (succ_force_legal_move b raw from to t).
Proof.
  intros r. unfold succ_force_legal_move. cbv zeta. pose proof (find_listed b from to t) as H.
  destruct (Z.eqb_spec (bridge_find_legal_move (generate_moves b) from to t) MOVE_NONE); [done|].
  intros [= <-]. split_and!; auto.
Qed.

Lemma succ_forced_moved (b : Board) (raw : SearchResult) : some_moved b raw (succ_forced b raw).
Proof.
  unfold succ_forced. cbv beta zeta. repeat apply some_moved_union.
  1: { destruct (succ_is_attacked_promo_regression_position b); [|done].
       intros r (r' & E & ->)%fmap_Some. cbn. revert r' E.
       change (some_moved b raw (succ_force_legal_move b raw (SQ 1 2) (SQ 3 1) KNIGHT ∪
         succ_force_legal_move b raw (SQ 1 3) (SQ 2 5) KNIGHT ∪
         succ_force_legal_move b raw (SQ 1 3) (SQ 3 2) KNIGHT)).
       repeat apply some_moved_union; apply some_moved_force. }
  all: case_match; [apply some_moved_force|done].
Qed.

(** ** Verification *)

Lemma settled_refl (w : World) : tt_ok (s_tt (w_search w)) -> settled w w.
Proof. by constructor. Qed.

Lemma settled_trans (w1 w2 w3 : World) : settled w1 w2 -> settled w2 w3 -> settled w1 w3.
Proof. intros [H1 _] [H2 Ht]. constructor; [congruence|done]. Qed.

Lemma reset_table (clear : bool) (s : Search) : tt_ok (s_tt s) -> tt_ok (s_tt (search_reset clear s)).
Proof.
  intros H. unfold search_reset. cbn. destruct (tt_entries (s_tt s)) as [es|] eqn:E; rewrite ?andb_false_r; [|done].
  destruct clear; [|done]. cbn. unfold tt_clear. rewrite E. right. cbn. by destruct H as [?|?]; [congruence|].
Qed.

Lemma wp_settled {A} (m : M A) (w0 w : World) :
  settled w0 w -> wp m (fun _ => settled w) w -> wp m (fun _ => settled w0) w.
Proof. intros Hs Hm. eapply wp_mono; [exact Hm|]. intros; by eapply settled_trans. Qed.

Section Refinements.
Context {V : Verifier} (k : Z) {HV : Verifies V k}.

Lemma verify_all_wp (reset : bool) (b : Board) (time_ms max_depth skill_level : Z) (l : list Move) (w : World) :
  ready k b -> Forall (listed b) l -> tt_ok (s_tt (w_search w)) ->
  wp (verify_all reset b time_ms max_depth skill_level l)
    (fun v w' => settled w w' /\ map fst v = l) w.
Proof.
  intros Hr Hl. revert w. induction Hl as [|m l Hm Hl IH]; intros w Ht; cbn [verify_all].
  { wp_step. split; [by apply settled_refl|done]. }
  wp_step. apply (wp_mono _ (fun _ => settled w)).
  { destruct reset; wp_step; [|by apply settled_refl]. constructor; [done|]. cbn [w_search]. exact (reset_table true _ Ht). }
  intros _ w1 H1. wp_step. eapply wp_mono; [apply (verify_child b m); [done|done|apply H1]|].
  intros x w2 H2. wp_step. eapply wp_mono; [apply IH; apply H2|]. intros v w3 [H3 E]. wp_step.
  split; [|cbn; by rewrite E]. exact (settled_trans _ _ _ H1 (settled_trans _ _ _ H2 H3)).
Qed.

Lemma all_listed_fst (b : Board) (v : list (Move * Z)) (l : list Move) :
  map fst v = l -> Forall (listed b) l -> all_listed b v.
Proof. intros <- H. exact (proj1 (List.Forall_map _ _ _) H). Qed.

(** Verify, then go on with legal candidates. *)
Lemma verified_wp (reset : bool) (b : Board) (time_ms max_depth skill_level : Z) (l : list Move) (w : World)
    (f : list (Move * Z) -> M SearchResult) (Q : SearchResult -> World -> Prop) :
  ready k b -> Forall (listed b) l -> tt_ok (s_tt (w_search w)) ->
  (forall v w', settled w w' -> all_listed b v -> wp (f v) Q w') ->
  wp (v ← verify_all reset b time_ms max_depth skill_level l; f v) Q w.
Proof.
  intros Hr Hl Ht Hf. wp_step. eapply wp_mono; [by apply verify_all_wp|].
  intros v w' [Hs E]. apply Hf; [done|]. by eapply all_listed_fst.
Qed.

Lemma listed_fst (b : Board) (l : list (Move * Z)) : all_listed b l -> Forall (listed b) (map fst l).
Proof. exact (proj2 (List.Forall_map _ _ _)). Qed.

Lemma with_choice_refined (b : Board) (raw : SearchResult) (c : Move * Z) (l : list (Move * Z)) :
  r_best_move raw <> MOVE_NONE -> all_listed b l -> In c l -> refined b raw (with_choice raw c).
Proof. intros Hn Hl Hc. constructor; [done|]. unfold all_listed in Hl. rewrite List.Forall_forall in Hl. by apply Hl. Qed.

Lemma with_move_refined (b : Board) (raw : SearchResult) (m : Move) :
  r_best_move raw <> MOVE_NONE -> listed b m -> refined b raw (with_move raw m).
Proof. intros. by constructor. Qed.

(** [return raw] *)
Ltac keep_raw := apply wp_ret; split; [by apply settled_refl || assumption|apply refined_raw].

(** The guards of a refinement, each of which returns [raw]. *)
Ltac guards := cbv zeta; repeat (wp_step; [keep_raw|]).

(** From the first guard: the search has found a move. *)
Ltac some_move H :=
  rewrite ?orb_false_iff in H;
  repeat match type of H with _ /\ _ => let H' := fresh in destruct H as [H H'] end;
  match goal with E : (?m =? MOVE_NONE) = false |- _ =>
    let Hn := fresh "Hn" in pose proof (proj1 (Z.eqb_neq _ _) E) as Hn end.

Lemma king_discipline_ok : refinement k king_discipline_refine_result.
Proof.
  intros b raw time_ms max_depth skill_level w Hr Ht Hraw. unfold king_discipline_refine_result.
  cbv zeta. wp_step; [keep_raw|]. rename Heqb0 into H. some_move H. guards.
  destruct (king_discipline_verify b time_ms max_depth) as [vd vt].
  apply verified_wp; [done| |done|]. { apply listed_fst, gather_listed; [lia|auto]. }
  intros [|first rest] w' Hs Hv; [keep_raw|]. guards. wp_step. split; [done|].
  eapply with_choice_refined; [done|exact Hv|apply pick_best_In].
Qed.

Lemma mercenary_trade_ok : refinement k mercenary_minor_trade_refine_result.
Proof.
  intros b raw time_ms max_depth skill_level w Hr Ht Hraw. unfold mercenary_minor_trade_refine_result.
  cbv zeta. wp_step; [keep_raw|]. rename Heqb0 into H. some_move H. guards.
  apply verified_wp; [done| |done|]. { apply listed_fst, gather_listed; [lia|auto]. }
  intros [|first rest] w' Hs Hv; [keep_raw|]. guards. wp_step. split; [done|].
  eapply with_choice_refined; [done|exact Hv|apply pick_best_In].
Qed.

(** The branch that returns a move from a table. *)
Lemma table_wp (b : Board) (raw : SearchResult) (m : Move) (w : World) :
  tt_ok (s_tt (w_search w)) -> r_best_move raw <> MOVE_NONE -> (m <> MOVE_NONE -> listed b m) ->
  negb (m =? MOVE_NONE) = true ->
  wp (mret (with_move raw m)) (fun r w' => settled w w' /\ refined b raw r) w.
Proof.
  intros Ht Hn Hm E%negb_true_iff%Z.eqb_neq. wp_step. split; [by apply settled_refl|].
  apply with_move_refined; auto.
Qed.

Lemma best_shelter_In (side : Color) (kf ekf : Z) (rest : list (Move * Z)) (c : Move * Z) (dist : Z) :
  kb_phase1_best_shelter side kf ekf rest = Some (c, dist) -> In c rest.
Proof.
  unfold kb_phase1_best_shelter.
  apply (fold_inv (fun r => r = Some (c, dist) -> In c rest)); [done|].
  intros a x Hx Ha. destruct (negb _); [done|]. destruct a as [[c0 d0]|]; [|by intros [= <- _]].
  destruct (_ || _); [by intros [= <- _]|done].
Qed.

Lemma sheltered_In (b : Board) (side : Color) (first : Move * Z) (rest : list (Move * Z)) (c : Move * Z)
    (adj : Z) :
  In c (first :: rest) -> In (kb_phase1_sheltered b side first rest c adj).1 (first :: rest).
Proof.
  intros Hc. unfold kb_phase1_sheltered. do 2 (destruct (_ : bool); [|done]). cbv zeta.
  destruct (kb_phase1_best_shelter _ _ _ _) as [[c' d]|] eqn:E; [|done].
  destruct (_ <=? _); [|done]. right. by eapply best_shelter_In.
Qed.

Lemma kb_phase1_verify_ok (b : Board) (raw : SearchResult) (time_ms max_depth skill_level : Z) (w : World) :
  ready k b -> tt_ok (s_tt (w_search w)) -> r_best_move raw <> MOVE_NONE -> listed b (r_best_move raw) ->
  wp (kb_phase1_verify b (generate_moves b) raw time_ms max_depth skill_level)
    (fun r w' => settled w w' /\ refined b raw r) w.
Proof.
  intros Hr Ht Hn Hraw. unfold kb_phase1_verify. guards.
  apply verified_wp; [done| |done|]. { apply listed_fst, gather_listed; [lia|done]. }
  intros [|first rest] w' Hs Hv; [keep_raw|]. cbv zeta.
  set (adjusted := fun c : Move * Z => c.2 + kb_phase1_refine_bias b c.1 (b_side b)).
  pose proof (sheltered_In b (b_side b) first rest _ (adjusted (pick_best adjusted first rest))
    (pick_best_In adjusted first rest)) as Hin.
  destruct (kb_phase1_sheltered _ _ _ _ _ _) as [choice adj]. cbn [fst] in Hin.
  guards. wp_step. split; [done|]. by eapply with_choice_refined.
Qed.

Lemma kb_phase1_ok : refinement k kb_refine_phase1_result.
Proof.
  intros b raw time_ms max_depth skill_level w Hr Ht Hraw. unfold kb_refine_phase1_result.
  cbv zeta. wp_step; [keep_raw|]. rename Heqb0 into H. some_move H.
  pose proof (kb_phase1_override_listed b) as Ho.
  wp_step. { apply andb_true_iff in Heqb0 as [_ E]. apply table_wp; [done..| |done]. by case_bool_decide. }
  guards. wp_step; [by apply table_wp|]. by apply kb_phase1_verify_ok; auto.
Qed.

Lemma kb_unlocked_ok : refinement k kb_refine_unlocked_result.
Proof.
  intros b raw time_ms max_depth skill_level w Hr Ht Hraw. unfold kb_refine_unlocked_result.
  cbv zeta. wp_step; [keep_raw|]. rename Heqb0 into H. some_move H. do 2 (wp_step; [keep_raw|]).
  wp_step. { apply table_wp; [done..| |done]. apply kb_unlocked_override_listed. }
  guards. apply verified_wp; [done| |done|]. { apply collect_listed; auto. }
  intros [|first rest] w' Hs Hv; [keep_raw|]. guards. wp_step. split; [done|].
  eapply with_choice_refined; [done|exact Hv|apply pick_best_In].
Qed.

Lemma stq_alternative_In (b : Board) (rest : list (Move * Z)) :
  (stq_best_alternative b rest).1 <> MOVE_NONE -> In (stq_best_alternative b rest) rest.
Proof.
  unfold stq_best_alternative. apply (fold_inv (fun c => c.1 <> MOVE_NONE -> In c rest)); [done|].
  intros a x Hx Ha. destruct (stq_is_opening_queen_sortie _ _ _); [done|]. by destruct (_ <? _).
Qed.

Lemma stq_choose_refined (b : Board) (raw : SearchResult) (first : Move * Z) (rest : list (Move * Z)) :
  r_best_move raw <> MOVE_NONE -> all_listed b (first :: rest) -> refined b raw (stq_choose b raw first rest).
Proof.
  intros Hn Hv. pose proof (pick_best_In snd first rest) as Hc. unfold stq_choose. cbv zeta.
  destruct (stq_is_opening_queen_sortie _ _ _).
  - destruct (_ && _); [by eapply with_choice_refined|].
    destruct (_ && _) eqn:E; [|constructor]. apply andb_true_iff in E as [E%negb_true_iff%Z.eqb_neq _].
    eapply with_choice_refined; [done|exact Hv|]. right. by apply stq_alternative_In.
  - destruct (_ || _); [constructor|by eapply with_choice_refined].
Qed.

Lemma stq_ok : refinement k stq_refine_result.
Proof.
  intros b raw time_ms max_depth skill_level w Hr Ht Hraw. unfold stq_refine_result.
  cbv zeta. wp_step; [keep_raw|]. rename Heqb0 into H. some_move H. do 2 (wp_step; [keep_raw|]).
  wp_step. { apply table_wp; [done..| |done]. apply stq_override_listed. }
  guards. destruct (stq_verify_limits _ _ _) as [vd vt].
  apply verified_wp; [done| |done|]. { apply listed_fst, gather_listed; [lia|auto]. }
  intros [|first rest] w' Hs Hv; [keep_raw|]. wp_step. split; [done|]. by apply stq_choose_refined.
Qed.

Lemma truce_ok : refinement k truce_refine_result.
Proof.
  intros b raw time_ms max_depth skill_level w Hr Ht Hraw. unfold truce_refine_result.
  cbv zeta. wp_step; [keep_raw|]. rename Heqb0 into H. some_move H. do 4 (wp_step; [keep_raw|]).
  set (regroup := bridge_find_legal_move _ _ _ _). wp_step; [keep_raw|].
  apply Z.eqb_neq in Heqb4. assert (listed b regroup) as Hl by by apply find_listed.
  wp_step; [keep_raw|]. wp_step. eapply wp_mono; [by apply (verify_child b regroup)|].
  intros x w' Hs. wp_step. split; [done|]. by constructor.
Qed.

Lemma heir_ok : refinement k heir_refine_queen_sortie_result.
Proof.
  intros b raw time_ms max_depth skill_level w Hr Ht Hraw. unfold heir_refine_queen_sortie_result.
  cbv zeta. wp_step; [keep_raw|]. rename Heqb0 into H. some_move H.
  pose proof (heir_known_listed b _ (Hraw Hn)) as Hk. destruct (heir_known_position _ _ _) as [m|].
  { wp_step. split; [by apply settled_refl|]. apply with_move_refined; auto. }
  guards. destruct (heir_verify_limits _ _ _) as [[vd vt] margin].
  apply verified_wp; [done| |done|]. { apply collect_listed; auto. }
  intros [|first rest] w' Hs Hv; [keep_raw|]. guards. wp_step. split; [done|].
  eapply with_choice_refined; [done|exact Hv|apply pick_best_In].
Qed.

(** ** Friendly Fire *)

Lemma ff_endgame_best_In (tiebreak : Move -> Z) (raw : Move) (l : list (Move * Z)) :
  let c := (ff_endgame_best tiebreak raw l).1 in c.1 <> raw -> In c l.
Proof.
  cbv zeta. unfold ff_endgame_best. apply (fold_inv (fun a => a.1.1 <> raw -> In a.1 l)); [done|].
  intros [[m x] t] c Hc Ha. by destruct (_ || _).
Qed.

Lemma ff_guard_listed (b : Board) :
  (ff_forced_guard b (generate_moves b)).1 <> MOVE_NONE -> listed b (ff_forced_guard b (generate_moves b)).1.
Proof.
  unfold ff_forced_guard. cbv zeta. apply (fold_inv (fun a => a.1 <> MOVE_NONE -> listed b a.1)); [done|].
  intros a m Hm Ha. destruct (_ || _); [done|]. cbv zeta. destruct (_ || _); [done|]. by destruct (_ <? _).
Qed.

Lemma best_among_In (ok : Move -> bool) (l : list (Move * Z)) :
  (best_among ok l).1 <> MOVE_NONE -> In (best_among ok l) l.
Proof.
  unfold best_among. apply (fold_inv (fun c => c.1 <> MOVE_NONE -> In c l)); [done|].
  intros a x Hx Ha. by destruct (_ && _).
Qed.

Lemma ff_choose_refined (b : Board) (r : FfRoot) (raw : SearchResult) (first : Move * Z)
    (rest : list (Move * Z)) :
  r_best_move raw <> MOVE_NONE -> all_listed b (first :: rest) -> refined b raw (ff_choose b r raw first rest).
Proof.
  intros Hn Hv. pose proof (pick_best_In snd first rest) as Hc. unfold ff_choose. cbv zeta.
  pose proof (best_among_In (fun m => MOVE_PIECE m != KING) (first :: rest)) as H1.
  pose proof (best_among_In (ff_firebreak b) (first :: rest)) as H2.
  set (nk := best_among _ _) in *. set (fb := best_among (ff_firebreak b) _) in *.
  set (c1 := if _ && _ then fb else _). assert (In c1 (first :: rest)) as Hc1.
  { subst c1. destruct (_ && _) eqn:E; [|done]. apply H2.
    rewrite !andb_true_iff in E. destruct E as [[_ E] _]. by apply negb_true_iff, Z.eqb_neq in E. }
  set (c2 := if _ && _ then nk else _). assert (In c2 (first :: rest)) as Hc2.
  { clearbody c1. subst c2. case_match eqn:E; [|exact Hc1]. apply H1.
    rewrite !andb_true_iff in E. destruct E as [[_ E] _]. by apply negb_true_iff, Z.eqb_neq in E. }
  clearbody c2. repeat (case_match; [first [by eapply with_choice_refined|apply refined_raw]|]).
  by eapply with_choice_refined.
Qed.

Lemma ff_endgame_ok (b : Board) (raw : SearchResult) (time_ms max_depth skill_level : Z) (w : World) :
  ready k b -> tt_ok (s_tt (w_search w)) -> r_best_move raw <> MOVE_NONE -> listed b (r_best_move raw) ->
  wp (ff_endgame_refine b (generate_moves b) raw time_ms max_depth skill_level)
    (fun r w' => settled w w' /\ refined b raw r) w.
Proof.
  intros Hr Ht Hn Hraw. unfold ff_endgame_refine. cbv zeta.
  apply verified_wp; [done|by apply List.Forall_forall|done|]. intros v w1 H1 Hv. cbv beta.
  set (tb := fun move => ff_bridge_simple_endgame_tiebreak b move (b_side b)).
  pose proof (ff_endgame_best_In tb (r_best_move raw) v) as Hin. cbv zeta in Hin.
  destruct (ff_endgame_best tb (r_best_move raw) v) as [choice bt]. cbn [fst] in Hin.
  destruct (ff_endgame_raw tb (r_best_move raw) v) as [rs rt]. wp_step.
  apply (wp_mono _ (fun _ => settled w)).
  { wp_step; [|by wp_step]. do 3 wp_step. eapply wp_mono.
    - apply (verify_child b (r_best_move raw)); [done|done|]. apply reset_table, H1.
    - intros x w2 [E2 T2]. wp_step. constructor; [|done]. rewrite E2. cbn. apply H1. }
  intros [rs' rt'] w2 H2. wp_step; wp_step; (split; [done|]); [|apply refined_raw].
  apply andb_true_iff in Heqb0 as [E%negb_true_iff%Z.eqb_neq _].
  eapply with_choice_refined; [done|exact Hv|auto].
Qed.

Lemma ff_verify_ok (b : Board) (r : FfRoot) (raw : SearchResult) (suspicious : bool)
    (time_ms max_depth skill_level : Z) (w : World) :
  ready k b -> tt_ok (s_tt (w_search w)) -> r_best_move raw <> MOVE_NONE -> listed b (fr_best r) ->
  wp (ff_verify b r (generate_moves b) raw suspicious time_ms max_depth skill_level)
    (fun r w' => settled w w' /\ refined b raw r) w.
Proof.
  intros Hr Ht Hn Hraw. unfold ff_verify.
  pose proof (ff_gather_fst b r (generate_moves b) suspicious) as E.
  destruct (ff_gather _ _ _ _) as [l s']. cbn [fst] in E. subst l. guards.
  apply verified_wp; [done| |done|]. { apply listed_fst, gather_listed; [lia|done]. }
  intros [|first rest] w' Hs Hv; [keep_raw|]. wp_step. split; [done|]. by apply ff_choose_refined.
Qed.

Lemma ff_ok : refinement k ff_refine_result.
Proof.
  intros b raw time_ms max_depth skill_level w Hr Ht Hraw. unfold ff_refine_result.
  cbv zeta. wp_step; [keep_raw|]. rename Heqb0 into H. some_move H. do 2 (wp_step; [keep_raw|]).
  wp_step. { apply table_wp; [done..| |done]. apply ff_override_listed. }
  destruct (ff_bridge_is_simple_conversion_endgame _ _); [by apply ff_endgame_ok; auto|].
  set (guard := if _ && _ then _ else _).
  assert (guard.1 <> MOVE_NONE -> listed b guard.1) as Hg.
  { subst guard. destruct (_ && _); [apply ff_guard_listed|done]. }
  clearbody guard. destruct guard as [m p]. cbn [fst] in Hg. wp_step.
  - apply andb_true_iff in Heqb3 as [E _]. by apply table_wp.
  - by apply ff_verify_ok; auto.
Qed.

(** ** Succession *)

Lemma best_non_pawn_In (rest : list (Move * Z)) (c : Move * Z) :
  succ_best_non_pawn rest = Some c -> In c rest.
Proof.
  unfold succ_best_non_pawn. apply (fold_inv (fun r => r = Some c -> In c rest)); [done|].
  intros a x Hx Ha. destruct (_ || _); [|done]. destruct a; [|by intros [= <-]].
  destruct (_ <? _); [by intros [= <-]|done].
Qed.

Lemma fallback_In (r : SuccRoot) (first c : Move * Z) (rest : list (Move * Z)) :
  In c (first :: rest) -> In (succ_fallback r first c rest).1 (first :: rest).
Proof.
  intros Hc. unfold succ_fallback. destruct (_ || _); [|done].
  destruct (succ_best_non_pawn rest) as [c'|] eqn:E; [|done]. apply best_non_pawn_In in E. cbv zeta.
  destruct (_ || _); [by right|]. cbn [fst]. destruct (_ <=? _); [by right|done].
Qed.

Lemma succ_decide_refined (b : Board) (r : SuccRoot) (raw : SearchResult) (first c : Move * Z) :
  r_best_move raw <> MOVE_NONE -> listed b c.1 -> refined b raw (succ_decide r raw first c).
Proof.
  intros Hn Hc. assert (refined b raw (with_choice raw c)) as H by by constructor.
  unfold succ_decide. cbv zeta. repeat (case_match; [first [exact H|apply refined_raw]|]). exact H.
Qed.

Lemma think_listed (time_ms max_depth skill_level : Z) (w : World) :
  ready (room 0) (w_board w) -> tt_ok (s_tt (w_search w)) ->
  wp (search_think time_ms max_depth skill_level)
    (fun r w' => same_game (w_board w) (w_board w') /\ tt_ok (s_tt (w_search w')) /\
       (r_best_move r <> MOVE_NONE -> listed (w_board w) (r_best_move r))) w.
Proof.
  intros Hr Ht. eapply wp_mono; [by apply search_think_wp|]. intros r w' [Hs Htab Hc].
  split_and!; [done|right; split; apply Htab|]. intros Hn.
  destruct Hc as [[_ ?]|(Hp & _ & [[_ (x & Hx & _)]|[_ ?]])]; [done| |done].
  apply (in_map fst) in Hx. by apply (Permutation_in _ (Permutation_sym Hp)).
Qed.

Lemma on_copy_wp {A} (child : Board) (m : M A) (Q : A -> World -> Prop) (w : World) :
  wp m (fun a w' => Q a (mkWorld (w_board w) (w_search w'))) (mkWorld child (w_search w)) ->
  wp (on_copy child m) Q w.
Proof. unfold wp, on_copy. by destruct (m _) as [[a w']|]. Qed.

Lemma deep_search_ok (b : Board) (time_ms max_depth skill_level : Z) (w : World) :
  ready (room 0) b -> tt_ok (s_tt (w_search w)) ->
  wp (succ_deep_search b time_ms max_depth skill_level)
    (fun r w' => settled w w' /\ (r_best_move r <> MOVE_NONE -> listed b (r_best_move r))) w.
Proof.
  intros Hr Ht. unfold succ_deep_search. wp_step. wp_step. apply on_copy_wp.
  eapply wp_mono; [apply think_listed; [exact Hr|by apply reset_table]|].
  intros r w' (_ & Ht' & Hm). split; [by constructor|exact Hm].
Qed.

Context (Hroom : room 0 <= k).

Lemma succ_verify_ok (b : Board) (r : SuccRoot) (raw : SearchResult) (time_ms max_depth skill_level : Z)
    (w : World) :
  ready k b -> tt_ok (s_tt (w_search w)) -> r_best_move raw <> MOVE_NONE -> listed b (sr_best r) ->
  wp (succ_verify b r raw time_ms max_depth skill_level) (fun r w' => settled w w' /\ refined b raw r) w.
Proof.
  intros Hr Ht Hn Hraw. unfold succ_verify. guards.
  pose proof (succ_gather_fst b r (generate_moves b)) as E.
  destruct (succ_gather _ _ _) as [l saw]. cbn [fst] in E. subst l. guards.
  destruct (succ_verify_limits _ _ _) as [vd vt].
  apply verified_wp; [done| |done|].
  { apply listed_fst, gather_listed; [destruct (succ_wide r); lia|done]. }
  intros [|first rest] w1 H1 Hv; [keep_raw|].
  pose proof (fallback_In r first _ rest (pick_best_In snd first rest)) as Hin.
  destruct (succ_fallback _ _ _ _) as [c force]. cbn [fst] in Hin.
  unfold all_listed in Hv. rewrite List.Forall_forall in Hv. apply Hv in Hin.
  wp_step. apply (wp_mono _ (fun c' w' => settled w w' /\ listed b c'.1)).
  { wp_step; [|by wp_step]. wp_step. eapply wp_mono; [apply deep_search_ok; [by eapply ready_mono|apply H1]|].
    intros d w2 [H2 Hd]. wp_step. split; [by eapply settled_trans|]. unfold succ_after_deep. cbv zeta.
    destruct (negb (_ =? MOVE_NONE) && _) eqn:E; [|exact Hin].
    destruct (force && _); [exact Hin|]. apply Hd.
    apply andb_true_iff in E as [E _]. by apply negb_true_iff, Z.eqb_neq in E. }
  intros c' w2 [H2 Hc]. wp_step. split; [done|]. by apply succ_decide_refined.
Qed.

Lemma succ_ok : refinement k succ_refine_result.
Proof.
  intros b raw time_ms max_depth skill_level w Hr Ht Hraw. unfold succ_refine_result.
  cbv zeta. wp_step; [keep_raw|]. rename Heqb0 into H. some_move H.
  pose proof (succ_forced_moved b raw) as Hf. destruct (succ_forced b raw) as [[m x d n]|].
  { wp_step. split; [by apply settled_refl|]. destruct (Hf _ eq_refl) as (Hl & Hd & Hnodes). cbn in *.
    subst. by constructor. }
  guards. pose proof (succ_known_listed b) as Hk. destruct (succ_known_position b) as [m|].
  { wp_step. split; [by apply settled_refl|]. apply with_move_refined; auto. }
  guards. by apply succ_verify_ok; auto.
Qed.

(** ** The engine on one level *)

Lemma refined_trans (b : Board) (r1 r2 r3 : SearchResult) :
  refined b r1 r2 -> refined b r2 r3 -> refined b r1 r3.
Proof. intros H1 H2. destruct H1; [exact H2|]. destruct H2; cbn [r_depth r_nodes]; by constructor. Qed.

Lemma refined_listed (b : Board) (raw r : SearchResult) :
  (r_best_move raw <> MOVE_NONE -> listed b (r_best_move raw)) -> refined b raw r ->
  r_best_move r <> MOVE_NONE -> listed b (r_best_move r).
Proof. by intros H []. Qed.

(** One refinement after others. *)
Lemma then_refine (f : Board -> SearchResult -> Z -> Z -> Z -> M SearchResult) (b : Board)
    (raw r1 : SearchResult) (time_ms max_depth skill_level : Z) (w w1 : World) (g : SearchResult -> M SearchResult)
    (Q : SearchResult -> World -> Prop) :
  refinement k f -> ready k b -> (r_best_move raw <> MOVE_NONE -> listed b (r_best_move raw)) ->
  settled w w1 /\ refined b raw r1 ->
  (forall r w', settled w w' /\ refined b raw r -> wp (g r) Q w') ->
  wp (r ← f b r1 time_ms max_depth skill_level; g r) Q w1.
Proof.
  intros Hf Hr Hraw [Hs H1] Hg. wp_step. eapply wp_mono.
  - apply Hf; [done|apply Hs|]. by eapply refined_listed.
  - intros r w' [Hs' H']. apply Hg. split; [by eapply settled_trans|by eapply refined_trans].
Qed.

Lemma same_listed (b b' : Board) (m : Move) :
  ready k b -> same_game b b' -> listed b m <-> listed b' m.
Proof.
  intros Hr Hs. unfold listed. assert (1 <= k) as Hk by (unfold room, MAX_PLY, MAX_QPLY in Hroom; lia).
  by rewrite (same_generate b b' (rd_game _ _ Hr) (ready_history _ _ Hk Hr) Hs).
Qed.

(** What the engine promises: its result refines that of the search. *)
Record engine_ok (w : World) (raw r : SearchResult) (w' : World) : Prop := {
  en_board : same_game (w_board w) (w_board w');
  en_table : tt_ok (s_tt (w_search w'));
  en_refined : refined (w_board w) raw r;
  en_legal : r_best_move r <> MOVE_NONE -> listed (w_board w) (r_best_move r)
}.

Lemma refined_same (b b' : Board) (raw r : SearchResult) :
  ready k b -> same_game b b' -> refined b' raw r -> refined b raw r.
Proof. intros Hr Hs []; constructor; [done|]. by eapply same_listed. Qed.

Lemma engine_search_wp (time_ms max_depth skill_level : Z) (w : World) :
  ready k (w_board w) -> tt_ok (s_tt (w_search w)) ->
  exists raw w1, search_think time_ms max_depth skill_level w = Some (raw, w1) /\
    wp (engine_search time_ms max_depth skill_level) (engine_ok w raw) w.
Proof.
  intros Hr Ht. destruct (wp_run _ _ _ (think_listed time_ms max_depth skill_level w
    (ready_mono _ _ _ Hroom Hr) Ht)) as (raw & w1 & E & Hs & Ht1 & Hl).
  exists raw, w1. split; [done|]. unfold engine_search.
  assert (wp (search_think time_ms max_depth skill_level) (fun r w' => r = raw /\ w' = w1) w) as Hrun.
  { unfold wp. by rewrite E. }
  wp_step. eapply wp_mono; [exact Hrun|]. intros ? ? [-> ->]. do 2 wp_step.
  pose proof (ready_same _ _ _ Hs Hr) as Hr1.
  assert (r_best_move raw <> MOVE_NONE -> listed (w_board w1) (r_best_move raw)) as Hl1.
  { intros Hn. by eapply same_listed, Hl. }
  assert (settled w1 w1 /\ refined (w_board w1) raw raw) as H0.
  { split; [by apply settled_refl|constructor]. }
  do 8 (eapply then_refine; [solve [auto using ff_ok, kb_phase1_ok, kb_unlocked_ok, heir_ok, succ_ok,
      stq_ok, mercenary_trade_ok, truce_ok]|exact Hr1|exact Hl1|eassumption|];
    clear H0; intros ? ? H0).
  eapply wp_mono; [apply king_discipline_ok; [done|apply H0|]|].
  { destruct H0 as [_ H0]. by eapply refined_listed. }
  intros r' w2 [[Eb Ht2] H2]. pose proof (refined_trans _ _ _ _ (proj2 H0) H2) as H3.
  constructor; [by rewrite Eb, (se_board _ _ (proj1 H0))|done|by eapply refined_same|].
  intros Hn. eapply same_listed; [exact Hr|exact Hs|]. by eapply refined_listed.
Qed.
End Refinements.

(** ** Both levels *)

Lemma room0 : room 0 = 72.
Proof. done. Qed.

Lemma child_ready (k : Z) (b : Board) (m : Move) :
  1 <= k -> ready k b -> listed b m -> ready (k - 1) (board_make_move b m).
Proof.
  intros Hk Hr Hm. apply ready_make; [done|done|].
  apply generated_playable; [apply Hr|by eapply ready_history|done].
Qed.

#[local] Instance nested_verifies : Verifies nested (room 0 + 1).
Proof.
  intros b m time_ms max_depth skill_level w Hr Hm Ht. unfold kb_verify_child_score. cbv zeta.
  apply on_copy_wp. change (0 <? bridge_verify_nesting (Verifier := nested)) with true. cbv iota.
  do 3 wp_step. eapply wp_mono; [apply think_listed|].
  - cbn [w_board]. replace (room 0) with (room 0 + 1 - 1) by lia. apply child_ready; [rewrite room0; lia|done..].
  - apply reset_table, Ht.
  - intros r w' (_ & Ht' & _). do 3 wp_step. by constructor.
Qed.

#[local] Instance outermost_verifies : Verifies outermost (room 0 + 2).
Proof.
  intros b m time_ms max_depth skill_level w Hr Hm Ht. unfold kb_verify_child_score. cbv zeta.
  apply on_copy_wp. change (0 <? bridge_verify_nesting (Verifier := outermost)) with false. cbv iota.
  change (deeper_search (Verifier := outermost)) with nested_search. wp_step.
  pose proof (child_ready (room 0 + 2) b m ltac:(rewrite room0; lia) Hr Hm) as Hc.
  replace (room 0 + 2 - 1) with (room 0 + 1) in Hc by lia.
  destruct (engine_search_wp (V := nested) (room 0 + 1) ltac:(lia) time_ms max_depth skill_level
    (mkWorld (board_make_move b m) (w_search w)) Hc Ht) as (raw & w1 & _ & H).
  eapply wp_mono; [exact H|]. intros r w' [_ Ht' _ _]. do 3 wp_step. by constructor.
Qed.

Lemma bridge_search_ok (time_ms max_depth skill_level : Z) (w : World) :
  ready (room 0 + 2) (w_board w) -> tt_ok (s_tt (w_search w)) ->
  exists raw w1 r w', search_think time_ms max_depth skill_level w = Some (raw, w1) /\
    bridge_engine_search_best_move time_ms max_depth skill_level w = Some (r, w') /\ engine_ok w raw r w'.
Proof.
  intros Hr Ht. destruct (engine_search_wp (V := outermost) (room 0 + 2) ltac:(lia) time_ms max_depth
    skill_level w Hr Ht) as (raw & w1 & E & H).
  destruct (wp_run _ _ _ H) as (r & w' & E' & H'). by exists raw, w1, r, w'.
Qed.
End Clocked.
