(* ===== verification/BridgeEntry.v ===== *)
(** * The entry points end to end

    From the FEN the caller passes to the FEN it gets back: the set-up of
    [engine_setup] leaves a board the search can start from, the engine finds
    a legal move or none, and the text written is the FEN of the position
    after it. *)

From stdpp Require Import base numbers list option gmap.
From Stdlib Require Import ZArith Lia Bool.
From S2P Require Import Prelude Types Board Zobrist Make Movegen MovegenSound Game Fen FenRound SameGame SearchState SearchTables SearchMonad Search SearchSpec RootSpec BridgeCommon Bridge BridgeSpec.

(** ** The board the search starts from *)

Lemma setup_fields (b0 b : Board) (fen : list Z) (md : GameMod) (hw hb ta tf : Z) :
  engine_setup b0 fen md hw hb ta tf = Some b ->
  exists b1, board_set_fen b0 fen = Some b1 /\ b_mod b = md /\ b_ply b = b_ply b1 /\
    b_history b = b_history b1 /\ b_castling b = b_castling b1.
Proof.
  unfold engine_setup. destruct (board_set_fen b0 fen) as [b1|]; [|done]. intros [= <-]. exists b1.
  split; [done|]. cbv zeta. unfold set_heir. by repeat case_match.
Qed.

Lemma setup_ready (b0 b : Board) (fen : list Z) (md : GameMod) (hw hb ta tf k : Z) :
  engine_setup b0 fen md hw hb ta tf = Some b -> game_inv b -> md <> MOD_HEIR -> k <= MAX_HISTORY ->
  ready k b.
Proof.
  intros E Hg Hm Hk. apply setup_fields in E as (b1 & E & Emod & Eply & Ehist & _).
  apply board_set_fen_fresh in E. pose proof (fb_ply _ E) as Hp. pose proof (fb_history _ E) as Hl.
  constructor; [done|congruence|congruence|lia|lia|lia].
Qed.

(** ** The position after the move *)

(** The position the returned text describes. *)
Definition played (b : Board) (m : Move) : Board :=
  if negb (m =? MOVE_NONE) then board_make_move b m else b.

Record clocks_ok (b : Board) : Prop := {
  cl_half : 0 <= b_halfmove b < 2 ^ 31 - 1;
  cl_full : 1 <= b_fullmove b < 2 ^ 31 - 1
}.

Lemma rights_range (b : Board) (m : Move) : 0 <= b_castling b < 16 -> 0 <= rights_after b m < 16.
Proof.
  intros H. unfold rights_after, make_rights. cbn [b_castling set_b_castling].
  assert (forall mask r, 0 <= r < 16 -> 0 <= drop_rights mask r < 16) as Hd.
  { intros mask r Hr. unfold drop_rights. rewrite Z.land_comm.
    pose proof (land_mask_bounds (u8 (Z.lnot mask)) r). lia. }
  assert (forall (c : bool) x y, 0 <= x < 16 -> 0 <= y < 16 -> 0 <= (if c then x else y) < 16) as Hif
    by (intros []; auto).
  repeat first [exact H|apply Hd|apply Hif].
Qed.

Lemma ep_after_square (b : Board) (m : Move) : ep_after b m = SQ_NONE \/ on_board (ep_after b m).
Proof.
  unfold ep_after. destruct (_ && _); [right|by left].
  pose proof (SQ_ROW_bound _ (MOVE_FROM_on_board m)). pose proof (SQ_ROW_bound _ (MOVE_TO_on_board m)).
  apply SQ_on_board; [|apply SQ_COL_bound]. rewrite Z.quot_div_nonneg by lia.
  split; [apply Z.div_pos; lia|]. apply Z.div_lt_upper_bound; lia.
Qed.

Section After.
Context (b : Board) (m : Move) (Hg : game_inv b) (Hh : history_ok b) (Hok : playable b m).
Context (Hmod : b_mod b <> MOD_HEIR) (Hc : clocks_ok b) (Hr : 0 <= b_castling b < 16).

Lemma fen_ok_after : fen_ok (board_make_move b m).
Proof.
  pose proof (make_game_inv b m Hg Hh Hok Hmod) as [Hb Hs _ _]. destruct (made b m Hg Hh Hok) as [h E].
  rewrite E in *. destruct Hc as [Hhalf Hfull]. constructor; [done|done|by apply rights_range| | |];
    cbn [board_after b_ep_square b_halfmove b_fullmove].
  - apply ep_after_square.
  - unfold halfmove_after. destruct (_ || _); lia.
  - unfold fullmove_after. destruct (_ == _); lia.
Qed.

(** Stale undo entries do not show in the FEN. *)
Lemma copy_after (b' : Board) :
  same_game b b' -> fen_copy (board_make_move b' m) = fen_copy (board_make_move b m).
Proof.
  intros Hs. pose proof (same_game_inv b b' Hg Hs) as Hg'. pose proof (same_history_ok b b' Hh Hs) as Hh'.
  pose proof (same_playable b b' Hs m Hok) as Hok'. destruct (made b m Hg Hh Hok) as [x ->].
  destruct (made b' m Hg' Hh' Hok') as [x' ->]. destruct Hs as (h & -> & _). reflexivity.
Qed.
End After.

(** The text written for the board the search leaves. *)
Lemma played_text (b b' b1 : Board) (m : Move) (bufsize : Z) :
  ready 1 b -> fen_ok b -> clocks_ok b -> same_game b b' -> (m <> MOVE_NONE -> listed b m) ->
  104 <= bufsize ->
  exists text, board_get_fen (played b' m) bufsize = Some text /\
    board_set_fen b1 text = Some (fen_copy (played b m)).
Proof.
  intros Hr Hf Hc Hs Hl Hbuf. pose proof (rd_game _ _ Hr) as Hg.
  pose proof (ready_history 1 b ltac:(lia) Hr) as Hh. unfold played.
  destruct (Z.eqb_spec m MOVE_NONE) as [_|Hn]; cbn [negb].
  - pose proof (same_game_inv b b' Hg Hs) as Hg'. destruct (write_fen b' b1 bufsize) as (text & E & Et).
    + destruct Hs as (h & -> & _), Hf. constructor; [apply Hg'|done..].
    + exact Hbuf.
    + exists text. split; [done|]. rewrite Et. by destruct Hs as (h & -> & _).
  - pose proof (generated_playable b m Hg Hh (Hl Hn)) as Hok.
    assert (fen_ok (board_make_move b' m)) as Hf'.
    { apply fen_ok_after; [by eapply same_game_inv|by eapply same_history_ok|by eapply same_playable|..];
        destruct Hs as (h & -> & _); [apply Hr|by destruct Hc|apply Hf]. }
    destruct (write_fen _ b1 bufsize Hf' Hbuf) as (text & E & Et). exists text. split; [done|].
    by rewrite Et, (copy_after b m Hg Hh Hok b' Hs).
Qed.

(** ** The state between two calls *)

(** The hash keys are set up exactly when the flag says so, and the table of
    the search is in order. *)
Record engine_inv (e : EngineState) : Prop := {
  ei_keys : e_zobrist e = if s_initialized e then zob_keys else zob_start;
  ei_table : tt_ok (s_tt (e_search e))
}.

Lemma engine_start_inv : engine_inv engine_start.
Proof. constructor; [done|by left]. Qed.

Lemma engine_init_inv (e : EngineState) :
  engine_inv e -> engine_inv (engine_init e) /\ s_initialized (engine_init e) = true.
Proof.
  intros [Hk Ht]. unfold engine_init. destruct (s_initialized e) eqn:E; [by split; [constructor; rewrite ?E|]|].
  split; [|done]. constructor; [|done]. cbn. rewrite Hk. vm_compute. reflexivity.
Qed.

Lemma engine_reset_inv (clear_tt : Z) (e : EngineState) : engine_inv e -> engine_inv (engine_reset clear_tt e).
Proof.
  intros [[Hk Ht] _]%engine_init_inv. constructor; [exact Hk|]. by apply reset_table.
Qed.

Section Clocked.
Context {C : Clock}.

(** What an entry point has found: the move of the record [r] is legal, or
    there is none. *)
Definition reports (b : Board) (r : EngineResult) (m : Move) : Prop :=
  (m <> MOVE_NONE -> In m (generate_moves b)) /\
  exists sr, r_best_move sr = m /\ r = engine_result sr.

Lemma find_move_ok (b0 b : Board) (fen : list Z) (md : GameMod) (time_ms max_depth skill_level : Z)
    (hw hb ta tf : Z) (e : EngineState) :
  engine_setup b0 fen md hw hb ta tf = Some b -> game_inv b -> md <> MOD_HEIR -> engine_inv e ->
  exists r e' m, engine_find_move b0 fen md time_ms max_depth skill_level hw hb ta tf e = Some (r, e') /\
    reports b r m /\ engine_inv e' /\ s_initialized e' = true.
Proof.
  intros E Hg Hm [He Hi]%engine_init_inv. pose proof (setup_ready _ _ _ _ _ _ _ _ (room 0 + 2) E Hg Hm) as Hr.
  specialize (Hr ltac:(rewrite room0; unfold MAX_HISTORY; lia)).
  destruct (bridge_search_ok time_ms max_depth skill_level (mkWorld b (e_search (engine_init e))) Hr
    (ei_table _ He)) as (raw & w1 & sr & w' & _ & Es & [_ Ht _ Hl]).
  unfold engine_find_move. rewrite E, Es. eexists _, _, (r_best_move sr). split; [done|].
  split_and!; [split; [exact Hl|by exists sr]| |exact Hi]. constructor; [apply He|exact Ht].
Qed.

Lemma apply_move_ok (b0 b b1 : Board) (fen : list Z) (md : GameMod) (time_ms max_depth skill_level : Z)
    (hw hb ta tf bufsize : Z) (e : EngineState) :
  engine_setup b0 fen md hw hb ta tf = Some b -> game_inv b -> fen_ok b -> clocks_ok b -> md <> MOD_HEIR ->
  engine_inv e -> 104 <= bufsize ->
  exists text r e' m,
    engine_apply_move b0 fen md time_ms max_depth skill_level hw hb ta tf bufsize e =
      Some (text, Z.of_nat (length text), r, e') /\
    reports b r m /\ board_set_fen b1 text = Some (fen_copy (played b m)) /\
    engine_inv e' /\ s_initialized e' = true.
Proof.
  intros E Hg Hf Hc Hm [He Hi]%engine_init_inv Hbuf.
  pose proof (setup_ready _ _ _ _ _ _ _ _ (room 0 + 2) E Hg Hm) as Hr.
  specialize (Hr ltac:(rewrite room0; unfold MAX_HISTORY; lia)).
  destruct (bridge_search_ok time_ms max_depth skill_level (mkWorld b (e_search (engine_init e))) Hr
    (ei_table _ He)) as (raw & w1 & sr & w' & _ & Es & [Hs Ht _ Hl]).
  destruct (played_text b (w_board w') b1 (r_best_move sr) bufsize) as (text & Et & Er);
    [by apply (ready_mono (room 0 + 2)); [rewrite room0; lia|]|done..|].
  unfold engine_apply_move. rewrite E, Es. fold (played (w_board w') (r_best_move sr)). rewrite Et.
  eexists _, _, _, (r_best_move sr). split; [done|].
  split_and!; [split; [exact Hl|by exists sr]|done| |exact Hi]. constructor; [apply He|exact Ht].
Qed.
End Clocked.
