(* ===== verification/BridgeTheorems.v ===== *)
(** * What the engine promises its caller

    The claims about [bridge.c] and [bridge/*.c], each with an instance at a
    concrete position. *)

From Stdlib Require Import String.
From stdpp Require Import base numbers list option gmap.
From Stdlib Require Import ZArith Lia Bool List.
From S2P Require Import Prelude Types Board Zobrist Make Movegen MovegenSound Game Fen FenRound Decide SameGame SearchState SearchMonad Ordering Search SearchSpec RootSpec SearchTheorems BridgeCommon BridgeKingDiscipline BridgeFriendlyFire BridgeSuccession BridgeSaveQueen BridgeCandidates Bridge BridgeSpec BridgeEntry.
Import ListNotations.
Open Scope Z_scope.

(** ** The search with its refinements *)

(** C3: [bridge_engine_search_best_move] ends for every limit, skill level and
    clock, outside Heir and with room for 74 more moves on the undo stack: the
    nested verifying searches included, which go one level deep.  The board is
    the one it was given, up to stale undo entries; the transposition table
    stays in order; depth and node count are those of the search, and its move
    is kept or, if there was one, replaced by a legal move. *)
Theorem engine_correct (C : Clock) (time_ms max_depth skill_level : Z) (w : World) :
  ready (room 0 + 2) (w_board w) -> tt_ok (s_tt (w_search w)) ->
  exists raw w1 r w', search_think time_ms max_depth skill_level w = Some (raw, w1) /\
    bridge_engine_search_best_move time_ms max_depth skill_level w = Some (r, w') /\ engine_ok w raw r w'.
Proof. apply bridge_search_ok. Qed.

Lemma engine_correct_witness :
  exists raw w1 r w',
    @search_think steady 100 4 4 (fresh (start MOD_SUCCESSION)) = Some (raw, w1) /\
    @bridge_engine_search_best_move steady 100 4 4 (fresh (start MOD_SUCCESSION)) = Some (r, w') /\
    engine_ok (fresh (start MOD_SUCCESSION)) raw r w'.
Proof.
  apply (engine_correct steady 100 4 4 (fresh (start MOD_SUCCESSION))).
  - apply ready_check_ok. vm_compute. reflexivity.
  - left. reflexivity.
Defined.

(** ** The entry points *)

(** Friendly Fire from the initial position. *)
Definition ff_board : Board :=
  match engine_setup blank startpos MOD_FRIENDLY_FIRE 0 0 0 0 with Some b => b | None => blank end.

(** C8: [engine_apply_move] end to end: on a consistent position of any
    variant but Heir, with a buffer of at least 104 bytes, it writes a text
    that [board_set_fen] reads back as the position after the reported move
    (or the same position when there is none), returns its length, and reports
    a legal move; and it leaves the statics so that the engine can be called
    again. *)
Theorem apply_move_record (C : Clock) (b0 b b1 : Board) (fen : list Z) (md : GameMod)
    (time_ms max_depth skill_level heir_wp heir_bp truce_active truce_frozen bufsize : Z) (e : EngineState) :
  engine_setup b0 fen md heir_wp heir_bp truce_active truce_frozen = Some b ->
  game_inv b -> fen_ok b -> clocks_ok b -> md <> MOD_HEIR -> engine_inv e -> 104 <= bufsize ->
  exists text r e' m,
    engine_apply_move b0 fen md time_ms max_depth skill_level heir_wp heir_bp truce_active truce_frozen
      bufsize e = Some (text, Z.of_nat (length text), r, e') /\
    reports b r m /\ board_set_fen b1 text = Some (fen_copy (played b m)) /\
    engine_inv e' /\ s_initialized e' = true.
Proof. apply apply_move_ok. Qed.

Lemma apply_move_record_witness :
  exists text r e' m,
    @engine_apply_move steady blank startpos MOD_FRIENDLY_FIRE 100 4 4 0 0 0 0 128 engine_start =
      Some (text, Z.of_nat (length text), r, e') /\
    reports ff_board r m /\ board_set_fen blank text = Some (fen_copy (played ff_board m)) /\
    engine_inv e' /\ s_initialized e' = true.
Proof.
  apply (apply_move_record steady blank ff_board blank startpos MOD_FRIENDLY_FIRE 100 4 4 0 0 0 0 128).
  - vm_compute. reflexivity.
  - check.
  - constructor; [check|vm_compute; discriminate|vm_compute; split; congruence|left; vm_compute; reflexivity|
                  vm_compute; split; congruence..].
  - constructor; vm_compute; split; congruence.
  - discriminate.
  - apply engine_start_inv.
  - discriminate.
Defined.

(** ** Candidates *)

(** C17: The candidate arrays of the refinements hold the move of the search
    and behind it the best of the accepted alternatives by priority, as many as
    there is room for, in descending order and those of equal priority in the
    order of the move list: the loops that shift entries of a full array are a
    stable sort cut off at the capacity, also where they compute a flag on the
    way. *)
Theorem candidate_arrays (b : Board) (ml : MoveList) :
  List.NoDup ml ->
  (forall capacity accept raw, (2 <= capacity)%nat ->
     gather capacity accept ml (first_candidate raw) =
     (raw, 2000000000) :: take (capacity - 1) (isort snd (offers accept raw ml))) /\
  (forall r suspicious_root,
     (ff_gather b r ml suspicious_root).1 =
     (fr_best r, 2000000000) :: take 15 (isort snd (offers (ff_alternative_priority b r) (fr_best r) ml))) /\
  (forall r,
     (succ_gather b r ml).1 =
     (sr_best r, 2000000000) ::
     take (if succ_wide r then 11 else 7) (isort snd (offers
       (at_least (if succ_wide r then -160 else 1) (succ_alternative_priority b r)) (sr_best r) ml))).
Proof.
  intros Hnd. split_and!.
  - intros [|n] accept raw Hn; [lia|]. rewrite gather_best, Nat.sub_succ, Nat.sub_0_r by (lia || done). done.
  - intros r s. rewrite ff_gather_fst. by apply (gather_best 15); [lia|].
  - intros r. rewrite succ_gather_fst.
    destruct (succ_wide r); [apply (gather_best 11)|apply (gather_best 7)]; (lia || done).
Qed.

Lemma candidate_arrays_witness :
  gather 3 (fun m => Some (MOVE_TO m)) (generate_moves (start MOD_CLASSIC)) (first_candidate pawn_takes) =
  (pawn_takes, 2000000000) ::
  take (3 - 1) (isort snd (offers (fun m => Some (MOVE_TO m)) pawn_takes (generate_moves (start MOD_CLASSIC)))).
Proof.
  assert (List.NoDup (generate_moves (start MOD_CLASSIC))) as Hnd.
  { apply NoDup_ListNoDup, (bool_decide_unpack _). vm_compute. exact I. }
  exact (proj1 (candidate_arrays (start MOD_CLASSIC) (generate_moves (start MOD_CLASSIC)) Hnd) 3%nat
           (fun m => Some (MOVE_TO m)) pawn_takes ltac:(lia)).
Defined.

(** ** Save the Queen *)

(** C40: The test for an opening sortie of the queen never succeeds: it wants
    the queen to start in its own half and on its prison square, which lies in
    the other one, so what depends on the test is dead code. *)
Theorem opening_sortie_never (b : Board) (move : Move) (side : Color) :
  stq_is_opening_queen_sortie b move side = false.
Proof.
  assert (forall sq, stq_is_own_half sq side = true ->
    ((side == WHITE) && (sq =? SQ 7 3)) || ((side == BLACK) && (sq =? SQ 0 3)) = false) as H.
  { intros sq. destruct (Z.eqb_spec sq (SQ 7 3)) as [->|_]; [|destruct (Z.eqb_spec sq (SQ 0 3)) as [->|_]];
      destruct side; done. }
  unfold stq_is_opening_queen_sortie. specialize (H (MOVE_FROM move)).
  destruct (stq_is_own_half (MOVE_FROM move) side); simpl; [rewrite H by done|]; by repeat case_match.
Qed.
